(* ===== verification/_CoqProject ===== *)
-Q . S2P
Prelude.v
Decimal.v
Store.v
Interleaving.v
HighLoadQueryId.v
Replay.v
GmpTypes.v
Text.v
Utf8.v
Redis.v
TonLib.v
WalletManager.v
Queue.v
QueueService.v
Tracing.v
GmpApi.v
GmpAudit.v
Database.v
Logging.v
Distributor.v
Recovery.v
Includer.v
Retrier.v
QueueConsumer.v
Pipeline.v
TonCells.v
TonMessages.v
TonTypes.v
GasCalculator.v
TonParsers.v
TraceParser.v
TonTrace.v
Subscriber.v
TonClient.v
Ingestor.v
TracePipeline.v
TonWallet.v
TonBroadcaster.v
TonConcurrent.v
Config.v
PriceFeed.v
Heartbeat.v
Xrpl.v
XrplPipeline.v
XrplServices.v
XrplMessages.v
XrplQueuedTx.v
XrplBroadcaster.v
XrplRefunds.v
XrplTransactions.v
XrplIngestor.v
XrplIngested.v
Amounts.v
TraceOutage.v
XrplTable.v
XrplConcurrent.v
Processes.v
System.v
