(* ===== verification/Prelude.v ===== *)
(** * Axelar relayer: a verification library

    The relayer connects a chain (TON, XRPL) to the Axelar network through the
    GMP API, an HTTP service.  It is a set of processes that share RabbitMQ
    queues, a Postgres database and Redis:

    - the _distributor_ fetches tasks from the GMP API and publishes each on
      the queue of the includer or of the ingestor;
    - the _includer_ takes tasks that end in a transaction (approvals,
      executions, refunds), broadcasts them with the wallets it owns and
      reports what could not be broadcast;
    - the _subscriber_ polls the chain and publishes new transactions for the
      ingestor;
    - the _ingestor_ turns a transaction into the events it stands for and
      posts them to the GMP API, and handles the tasks that ask for that;
    - the _proof retrier_ and the _queued transaction monitor_ follow up what
      did not go through at once;
    - on XRPL the _ticket creator_, the _ticket monitor_ and the _funder_ keep
      the accounts usable; the _price feed_ stores quotes and the _heartbeat
      monitor_ reports which services are alive.

    ** Files

    Foundations.
    - [Prelude]: results, panics, the effect monad, machine integers, lemmas
      on runs of the monad, the tactics.
    - [Decimal]: [from_str] and [to_string] of Rust's integers.
    - [Store]: what a SQL statement is here; statements may fail.
    - [Interleaving]: computations that share servers and run at once, one
      statement after the other; it models no code of its own.
    - [Text]: string functions, and the interfaces of hex, base64 and JSON.
    - [Utf8]: the standard library's functions on the characters of a string.
    - [Redis], [TonLib]: the interfaces of the Redis client and of the types
      of [tonlib_core].

    [relayer_base/src], shared by the chains.
    - [GmpTypes]: [gmp_api/gmp_types.rs] and [error.rs], the tasks and events.
    - [Queue]: [queue.rs].  The state is the record [Queue] (the in-memory
      buffer with its capacity and whether it is closed, and the broker).
    - [QueueService]: the same buffer as a concurrent service: the bounded
      channel, the senders that wait for room, the processor's task and the
      shutdown, as a step relation on the record [Service].
    - [Tracing]: the headers of [logging.rs] that carry a span's context.
    - [GmpApi]: [gmp_api/mod.rs], [gmp_api/utils.rs] and the task parser of
      [utils.rs].
    - [GmpAudit]: [models/gmp_events.rs], [models/gmp_tasks.rs] and
      [gmp_api/gmp_api_db_audit_decorator.rs], a GMP API that records what
      passes through it.
    - [Database]: [database.rs], [payload_cache.rs], [price_view.rs] and
      [models/task_retries.rs].
    - [Logging]: [logging_ctx_cache.rs] and the part of [logging.rs] that
      selects a parent from it.
    - [Distributor]: [distributor.rs].
    - [Recovery]: [recovery_tools/src/bin/dlq_recovery.rs] and
      [bin/scripts/queue_migration.rs], which move messages between queues.
    - [Includer]: [includer.rs], [includer_worker.rs], and the retry of one
      proof of [proof_retrier.rs]; [Retrier]: its loop.
    - [QueueConsumer]: [queue_consumer.rs] and the loops of [includer.rs] and
      [ingestor.rs] that spawn a task per delivery, as a step relation.
    - [Pipeline]: the distributor, the buffer of its queue, the broker and a
      consumer composed; it models no code of its own.
    - [Subscriber]: [subscriber.rs], with the pollers [ton/src/subscriber.rs]
      and [ton/src/retry_subscriber.rs].
    - [Ingestor]: [ingestor.rs] and [ingestor_worker.rs], with
      [ton/src/ingestor.rs].
    - [TracePipeline]: the TON subscriber, the queue of events and the
      ingestor's tasks composed; it models no code of its own.
    - [PriceFeed], [Heartbeat]: [price_feed.rs], and the heartbeats of
      [utils.rs] with the monitor of [heartbeat.rs].

    [ton/src] and [ton_types/src].
    - [TonClient]: [client.rs], the requests to the TON API and to its RPC.
    - [HighLoadQueryId]: [high_load_query_id.rs], its row
      [models/ton_wallet_query_id.rs] and [high_load_query_id_db_wrapper.rs].
    - [Replay]: the wallet contract's memory of ids, from the documentation of
      [high_load_query_id_db_wrapper.rs], and what it says of the allocator.
    - [WalletManager]: [lock_manager.rs] and [wallet_manager.rs].
    - [TonCells], [TonMessages]: [boc/], bytes in cells and the contracts'
      messages and logs.
    - [TonTypes]: [ton_types.rs], the documents of the TON API.
    - [GasCalculator]: [gas_calculator.rs], [gas_estimator.rs] and
      [check_accounts.rs].
    - [TonParsers], [TraceParser]: [transaction_parser/], one parser per log,
      and the parser of whole traces.
    - [TonTrace]: [models/ton_trace.rs].
    - [TonWallet], [TonBroadcaster]: [ton_wallet_high_load_v3.rs],
      [out_action.rs] and [broadcaster.rs].
    - [TonConcurrent]: broadcasts at once, over the locks and the query ids
      they share; it models no code of its own.

    [xrpl/src].
    - [Config]: [relayer_base/src/config.rs] and [config.rs].
    - [Xrpl]: [client.rs], [subscriber.rs] and the memo functions;
      [XrplPipeline]: the subscriber, the queue of events and the ingestor's
      tasks composed.
    - [XrplServices]: [ticket_creator.rs], [funder.rs] and the loop of
      [bin/xrpl_ticket_monitor.rs].
    - [XrplMessages]: the messages of the gateway and the prover, [utils.rs]
      and the functions on payments and prices of [relayer_base/src/utils.rs].
    - [XrplQueuedTx]: [models/queued_transactions.rs] and
      [queued_tx_monitor.rs].
    - [XrplBroadcaster]: [broadcaster.rs] and [refund_manager.rs];
      [XrplRefunds]: the refunds of the includer at once, over one ledger and
      one Redis server.
    - [XrplTransactions]: [models/xrpl_transaction.rs].
    - [XrplIngestor]: [ingestor.rs]; [XrplIngested]: its theorems, over a
      world with its two tables and the rest of the network; [XrplTable]: the
      invariant of the table of transactions; [XrplConcurrent]: the same with
      any number of deliveries handled at once, and retries at once.
    - [Amounts]: the conversions of amounts on both chains against exact
      rational numbers; [TraceOutage]: what an overflow there does to the TON
      ingestor.  They model no code of their own.

    The whole.
    - [Processes]: the [main] of every binary: what it reads, opens, serves
      and closes, and in which order; with [setup_logging] of [logging.rs].
    - [System]: what the distributor routes against what the workers at the
      other end of the queues handle; it models no code of its own.

    A definition that translates code names the lines it translates and the
    function, method or type found there.

    ** How the code is modelled

    _Effects._ An [async fn] is a computation [M W A] over a world [W]; [let!]
    is an await, [let?] an await with [?], [try?] a [?] on a plain result.  A
    component that uses another one is written against the trait the source
    uses, which is a class ([GmpApiTrait], [QueueApi], [Broadcaster],
    [RefundManager], [RestClient], [LockManager], [Database], ...); the
    component that implements the trait gives an instance.

    _Code of others._ RabbitMQ, Redis, HTTP, the clocks, [tonlib_core], the
    XRPL crates, serde and the codecs are classes of operations, and what
    theorems rely on are classes of laws ([AmqpLaws], [RedisLaws], [CellLaws],
    [CodecLaws], [DecimalArith], ...) that state documented behaviour.  Each theorem that uses
    laws is applied, in the demo module at the end of its file, to concrete
    worlds that satisfy them.

    _Failures._ Every call to a server can fail, in any order; a failure is an
    [Err] of the call, or a panic where the source unwraps.  A SQL statement
    that fails changed nothing ([Store]); a publication or an acknowledgement
    the broker took may still be answered by an error, and so may a command of
    Redis.  A computation
    that fails or panics leaves its world behind, so a theorem can say what
    was done before.  A crash between two effects is the world after the first.

    _Integers_ are [Z] with the wrap-around or the check written out.  The
    arithmetic is that of a release build: [+], [-] and [*] wrap, [checked_]
    operations answer [None], [saturating_] ones stop at the end.  Strings and
    byte strings are lists of bytes ([string]).

    _Loops._ A [loop] that never ends is a number of rounds: [run] of the
    distributor, [subscriber_run], [processor_run] of the queue, [connect],
    [monitor_run], and the loops of the heartbeats, the price feed, the ticket
    creator, the ticket monitor, the funder and the proof retrier.  The theorems on them are for every number of rounds.  A
    loop that ends has fuel, and a theorem shows how much is enough: 32 polls
    for a broadcast ([GmpApi.broadcast_wait_ends]: 31 are made at most), one
    unit per cell on the way down a chain plus one for
    [TonCells.buffer_loop], one unit per byte plus one for [build_cell_chain]
    (so [TonCells.buffer_roundtrip] has no bound on the length), the length of
    the string for [trim_start_matches], and for [recovery_loop] of the
    distributor any fuel above the number of tasks left
    ([Distributor.recovery_ends]).  [Xrpl.pages] follows the markers of the
    ledger, whose number is the ledger's choice: its fuel is the number of
    pages read.

    _Concurrency._ [QueueService] and [QueueConsumer] are relations between
    states whose steps are what the runtime may do next: a sender is served, an
    attempt is made, a task ends or panics, a delivery comes, the shutdown is
    asked for.  Invariants are by induction on runs, in any interleaving; the
    liveness theorem is about an infinite run, a function from [nat] to
    states, under a stated fairness (it uses classical logic, from the Standard
    Library).

    Where handlers share a database or Redis, [Interleaving] runs the
    computations as they are: a handler that has got some answers from the
    servers is the computation run on those answers (the world [Talk]), and it
    waits for the answer to the statement it says next.  A step of the system
    starts a handler, answers one statement of one of them, ends one wherever
    it is (a crash), or changes the servers by themselves (time passes).  Each
    handler talks besides to a part of the world of its own, whose answers are
    not constrained: the GMP API, the RPC.  [TonConcurrent] and
    [XrplConcurrent] show that the handlers they run say nothing to the
    servers but through those statements.  Elsewhere a component handles one
    delivery after the other, and what others do in between is in the world's
    answers.

    ** What is shown

    - _Tasks._ The distributor publishes every task of the chain once, in
      order, on the queue its kind is routed to; a crash loses at most the
      task whose cursor it had stored; a recovery run stops.  [get_tasks]
      returns the tasks that parse.  Waiting for a broadcast ends, and the
      first settled answer decides it.
    - _End to end._ From the GMP API to the consumer, every task that was
      fetched and routed to a queue is buffered, at the broker or handled with
      success, until that queue is closed.  From the TON API to the GMP API,
      every trace that is published is buffered, at the broker, or its events
      were posted in that very run, until the queue is closed; so is, from the
      ledger on, every transaction of the XRPL account.  Every kind of task
      on a queue has a handler at its other end, on both chains; those of the
      TON ingestor all fail, and what is sent there goes round for ever.
    - _Queues._ The buffer drops nothing, a delivery is acknowledged only once
      its item is elsewhere, [connect] sets up the dead-letter and retry
      routes, [shutdown] empties the buffer.  The concurrent service refines
      the sequential queue, and an item handed to it is published in the end
      when the channel has room, nothing is cancelled, the scheduler is fair
      and the broker does not refuse it for ever; with a full channel it can
      stop for ever.  The
      retry count of a republished item is lost.
    - _Consumers._ Whatever the interleaving, until the queue is closed each
      delivery is with a task or its task ended, and an acknowledged one was
      handled or is queued again (after that it may be lost:
      [QueueConsumer.close_before_tasks_loses]);
      draining ends.  Deliveries nobody answers use up the prefetch.
    - _Includer._ The delivery of a task that failed is acknowledged only with
      a copy of it in the retry queue, and one of an irrelevant task goes back
      to the buffer; refunds give their wallet back; a task that is not
      broadcast is reported.
    - _Recovery._ The recovery of dead letters removes a message only after
      the broker confirmed its copy, or on the operator's word.
    - _Audit._ Recording changes nothing a caller of the nine calls to the
      network can see, and every event
      has a row with the answer it got.
    - _Query ids and wallets._ No query id is handed out twice in an epoch,
      two workers never hold one wallet if they release it in time, and a
      broadcast leaves the locks as it found them while Redis answers, and
      else none but wallets of its pool locked, for sixty seconds.  Put together: with any
      broadcasts at once, each statement by statement, the ids of a wallet
      are handed out one by one, as long as no broadcast outlives its lock.
      A wallet can sign only the lower half of the ids.  The contract refuses
      an id as a replay only when an epoch is faster than one before it; an id
      handed out at the end of an epoch is then refused.
    - _Cells and messages._ Byte strings, execution messages and refunds are
      read back as they were written.
    - _Traces._ The events of a trace equal a reference definition, each comes
      from a log of the relayer's contracts (the report of a failed execution
      excepted), and their costs do not exceed the gas of the trace and never
      divide by zero.  The
      gas calculator agrees with the sum of the transactions' shares.
    - _Pollers._ Complete traces are published at most once, and exactly once
      while the table of traces answers; incomplete ones are tried
      a bounded number of times; the transactions of an XRPL account are
      published once, in order; a database error loses the rest of a batch;
      the cursor moves only on an answer the API gave with success.
    - _Broadcasters._ What is reported for every answer of the ledger, the
      amount of a refund and its fee, no second refund once the first is among
      the recipient's transactions, a refund paid as many times as it is
      handled at once, and the refund the TON broadcaster takes for sent
      though it was refused.
    - _XRPL ingestor._ The events of a payment account for every drop of it;
      the rows of its table stay well formed, also when deliveries are
      handled at once, if the first delivery about a transaction is handled
      alone, and not otherwise ([XrplConcurrent.first_must_be_alone]); a
      quorum moves the row of its transaction and no other, and routes it
      exactly when this run's broadcast was accepted, as long as the table
      answers; one after the other, the retry tasks of a message have at most
      five broadcasts accepted, and one more for each that could not be
      recorded, while handled at once any number of them is counted as one; a proof that cannot be
      constructed is reported.  A payment whose payload cannot be fetched is
      lost.
    - _Amounts._ What an amount of an issued token or of a jetton comes to in
      an event is its exact value, rounded once, to a whole unit, when the
      numbers in between need no more than the 28 digits of a decimal; what
      gas in a jetton may be off by when they do is bounded.  Where the
      product does not fit 96 bits the transfer is an error, while gas paid in
      a token or a jetton panics and takes the whole delivery with it.  As
      many such traces as there are workers, and the TON ingestor is delivered
      nothing any more.
    - _Queued transactions._ A pass asks the ledger once for each due one that
      has retries left and writes what that very answer says of it, which
      brings it closer to being settled; a database error ends the pass.
    - _Prices and heartbeats._ The stored prices are the quotes of their
      pairs; a service is reported alive exactly within the expiry of its
      last heartbeat.
    - _Processes._ A process that returns with success opened its queues,
      served once, and closed each of them once afterwards.

    ** What is not modelled

    - HTTP, AMQP, Redis and SQL connections themselves: their answers are
      arguments of the model.  A SQL statement that took effect although its
      answer was lost is not among them, nor is the limit on the depth of a
      TON cell ([TonCells.CellLaws]).
    - The exporters of logs and traces, and log lines: code of other crates
      and output that nothing modelled reads.
    - Key derivation, signatures, the codecs and serde's derived readers: code
      of other crates or generated by them.
    - The constructors that only put their arguments in a struct, and the
      helpers for tests.
 *)

From Stdlib Require Export ZArith Lia Sorted.
From stdpp Require Export base list gmap strings option numbers.
Export list_relations.list.
From Stdlib Require DecimalString DecimalN DecimalZ Ascii.
From Stdlib Require Export(notations) Ascii.

#[export] Set Default Goal Selector "!".
#[export] Set Warnings "-clear-no-such-hyp".
Open Scope string_scope.
Open Scope list_scope.
Open Scope Z_scope.

(** ** Results, panics and effects

    A Rust [Result<T, E>] is a value of [result T E].  An [async fn] that
    touches the outside world is a computation [M W A] over a world [W]: it
    either finishes with a value or panics (an [unwrap], an index out of
    bounds, [unreachable!]), and in both cases leaves a world behind, so the
    effects performed before an early return stay visible. *)

Inductive result (T E : Type) : Type :=
| Ok (t : T)
| Err (e : E).
Arguments Ok {T E} t.
Arguments Err {T E} e.

Inductive outcome (A : Type) : Type :=
| Done (a : A)
| Panic (why : string).
Arguments Done {A} a.
Arguments Panic {A} why.

Definition M (W A : Type) : Type := W -> outcome A * W.

Definition ret {W A} (a : A) : M W A := fun w => (Done a, w).
Definition panic {W A} (why : string) : M W A := fun w => (Panic why, w).

Definition bind {W A B} (m : M W A) (k : A -> M W B) : M W B :=
  fun w => match m w with
           | (Done a, w') => k a w'
           | (Panic why, w') => (Panic why, w')
           end.

(** The [?] operator after an [await]: continue on [Ok], return the error. *)
Definition bind_ok {W A B E} (m : M W (result A E)) (k : A -> M W (result B E)) :
  M W (result B E) :=
  bind m (fun r => match r with Ok a => k a | Err e => ret (Err e) end).

Definition rmap_err {T E F} (f : E -> F) (r : result T E) : result T F :=
  match r with Ok t => Ok t | Err e => Err (f e) end.

Definition map_err {W T E F} (f : E -> F) (m : M W (result T E)) : M W (result T F) :=
  bind m (fun r => ret (rmap_err f r)).

Definition rbind {A B E} (r : result A E) (k : A -> result B E) : result B E :=
  match r with Ok a => k a | Err e => Err e end.

Definition ok_or {A E} (o : option A) (e : E) : result A E :=
  match o with Some a => Ok a | None => Err e end.

Definition lift {W A} (a : A) : M W A := ret a.

Definition is_ok {T E} (r : result T E) : bool :=
  match r with Ok _ => true | Err _ => false end.

Definition get_world {W} : M W W := fun w => (Done w, w).
Definition put_world {W} (w' : W) : M W unit := fun _ => (Done tt, w').
Definition modify {W} (f : W -> W) : M W unit := fun w => (Done tt, f w).

Declare Scope relayer_scope.
Delimit Scope relayer_scope with relayer.

Notation "'let!' x ':=' m 'in' k" := (bind m (fun x => k))
  (at level 10, x name, m at level 100, k at level 200,
   format "'[v' 'let!'  x  ':='  m  'in' '/' k ']'") : relayer_scope.
Notation "'let?' x ':=' m 'in' k" := (bind_ok m (fun x => k))
  (at level 10, x name, m at level 100, k at level 200,
   format "'[v' 'let?'  x  ':='  m  'in' '/' k ']'") : relayer_scope.
Notation "'try?' x ':=' r 'in' k" := (rbind r (fun x => k))
  (at level 10, x name, r at level 100, k at level 200,
   format "'[v' 'try?'  x  ':='  r  'in' '/' k ']'") : relayer_scope.
Open Scope relayer_scope.

Create HintDb relayer.

(** [tokio::time::sleep], in seconds. *)
Class Timer (W : Type) : Type := { sleep : Z -> M W unit }.

(** ** Equations of the monad *)

Lemma bind_run {W A B} (m : M W A) (k : A -> M W B) w :
  bind m k w = match m w with
               | (Done a, w') => k a w'
               | (Panic why, w') => (Panic why, w')
               end.
Proof. reflexivity. Qed.

Lemma bind_done {W A B} (m : M W A) (k : A -> M W B) w a w' :
  m w = (Done a, w') -> bind m k w = k a w'.
Proof. intros H. by rewrite bind_run, H. Qed.

Lemma bind_panic {W A B} (m : M W A) (k : A -> M W B) w why w' :
  m w = (Panic why, w') -> bind m k w = (Panic why, w').
Proof. intros H. by rewrite bind_run, H. Qed.

Lemma bind_assoc {W A B C} (m : M W A) (f : A -> M W B) (g : B -> M W C) w :
  bind (bind m f) g w = bind m (fun a => bind (f a) g) w.
Proof. unfold bind. by destruct (m w) as [[a|why] w']. Qed.

Lemma bind_ok_run {W A B E} (m : M W (result A E)) (k : A -> M W (result B E)) w :
  bind_ok m k w = match m w with
                  | (Done (Ok a), w') => k a w'
                  | (Done (Err e), w') => (Done (Err e), w')
                  | (Panic why, w') => (Panic why, w')
                  end.
Proof.
  unfold bind_ok. rewrite bind_run.
  by destruct (m w) as [[[a|e]|why] w'].
Qed.

Lemma bind_ok_done {W A B E} (m : M W (result A E)) (k : A -> M W (result B E)) w a w' :
  m w = (Done (Ok a), w') -> bind_ok m k w = k a w'.
Proof. intros H. by rewrite bind_ok_run, H. Qed.

Lemma bind_ok_inv {W A B E} (m : M W (result A E)) (k : A -> M W (result B E)) w b w' :
  bind_ok m k w = (Done (Ok b), w') -> exists a w1, m w = (Done (Ok a), w1) /\ k a w1 = (Done (Ok b), w').
Proof. rewrite bind_ok_run. destruct (m w) as [[[a|e]|why] w1]; [|done..]. eauto. Qed.

Lemma bind_ok_err {W A B E} (m : M W (result A E)) (k : A -> M W (result B E)) w e w' :
  m w = (Done (Err e), w') -> bind_ok m k w = (Done (Err e), w').
Proof. intros H. by rewrite bind_ok_run, H. Qed.

Lemma map_err_run {W T E F} (f : E -> F) (m : M W (result T E)) w :
  map_err f m w = match m w with
                  | (Done r, w') => (Done (rmap_err f r), w')
                  | (Panic why, w') => (Panic why, w')
                  end.
Proof. reflexivity. Qed.

(** [steps] unfolds the monad on a concrete program text: it pushes [bind]s
    through and splits on the outcome of every opaque call. *)
Ltac split_call :=
  match goal with
  | |- context [match ?m ?w with pair _ _ => _ end] =>
      let o := fresh "o" in let w' := fresh "w" in
      destruct (m w) as [o w'] eqn:?; destruct o as [?r|?why]
  | H : context [match ?m ?w with pair _ _ => _ end] |- _ =>
      let o := fresh "o" in let w' := fresh "w" in
      destruct (m w) as [o w'] eqn:?; destruct o as [?r|?why]
  end.

Ltac unfold_m :=
  repeat (rewrite ?bind_ok_run, ?map_err_run, ?bind_run in *);
  unfold ret, panic, lift, get_world, put_world, modify in *; cbn in *.

(** Case analysis on every [match] of the goal or of a hypothesis, closing
    the contradictory branches. *)
Ltac cases :=
  repeat (simplify_eq/=; case_match).

(** A filter that keeps nothing, or everything. *)
Lemma filter_none {A} (P : A -> Prop) {D : forall x, Decision (P x)} (l : list A) : Forall (fun x => ~ P x) l -> filter P l = [].
Proof. induction 1 as [|x l Hx Hl IH]; [done|]. by rewrite filter_cons_False by done. Qed.

Lemma filter_all {A} (P : A -> Prop) {D : forall x, Decision (P x)} (l : list A) : Forall P l -> filter P l = l.
Proof. induction 1 as [|x l Hx Hl IH]; [done|]. by rewrite filter_cons_True, IH by done. Qed.

(** A computation preserves an observation [f] of the world, whatever it
    returns. *)
Definition preserves {W A X} (f : W -> X) (m : M W A) : Prop :=
  forall w, f (snd (m w)) = f w.

Lemma preserves_ret {W A X} (f : W -> X) (a : A) : preserves f (ret a).
Proof. done. Qed.

Lemma preserves_panic {W A X} (f : W -> X) why : preserves f (@panic W A why).
Proof. done. Qed.

Lemma preserves_bind {W A B X} (f : W -> X) (m : M W A) (k : A -> M W B) :
  preserves f m -> (forall a, preserves f (k a)) -> preserves f (bind m k).
Proof.
  intros Hm Hk w. unfold bind. specialize (Hm w).
  destruct (m w) as [[a|why] w'] eqn:E; simpl in *; [|done].
  by rewrite (Hk a w').
Qed.

Lemma preserves_bind_ok {W A B E X} (f : W -> X)
    (m : M W (result A E)) (k : A -> M W (result B E)) :
  preserves f m -> (forall a, preserves f (k a)) -> preserves f (bind_ok m k).
Proof.
  intros Hm Hk. apply preserves_bind; [done|].
  intros [a|e]; [apply Hk | apply preserves_ret].
Qed.

Lemma preserves_map_err {W T E F X} (f : W -> X) (g : E -> F) (m : M W (result T E)) :
  preserves f m -> preserves f (map_err g m).
Proof. intros Hm. apply preserves_bind; [done|]. intros r. apply preserves_ret. Qed.

#[export] Hint Resolve preserves_ret preserves_panic preserves_bind
  preserves_bind_ok preserves_map_err : relayer.

(** Every value a computation returns satisfies [P]; it may also fail. *)
Definition returns {W A E} (P : A -> Prop) (m : M W (result A E)) : Prop :=
  forall w a w', m w = (Done (Ok a), w') -> P a.

Lemma returns_ok {W A E} (P : A -> Prop) (a : A) : P a -> returns (E := E) P (@ret W _ (Ok a)).
Proof. by intros H w b w' [= <- _]. Qed.

Lemma returns_err {W A E} (P : A -> Prop) (e : E) : returns P (@ret W (result A E) (Err e)).
Proof. by intros w a w'. Qed.

Lemma returns_panic {W A E} (P : A -> Prop) why : returns P (@panic W (result A E) why).
Proof. by intros w a w'. Qed.

Lemma returns_pure {W A E} (P : A -> Prop) (r : result A E) : (forall a, r = Ok a -> P a) -> returns P (@ret W _ r).
Proof. intros H w a w' [= -> _]. by apply H. Qed.

Lemma returns_any {W A E} (m : M W (result A E)) : returns (fun _ => True) m.
Proof. by intros w a w'. Qed.

Lemma returns_bind_ok {W A B E} (Q : A -> Prop) (P : B -> Prop) (m : M W (result A E)) k :
  returns Q m -> (forall a, Q a -> returns P (k a)) -> returns P (bind_ok m k).
Proof.
  intros Hm Hk w b w'. rewrite bind_ok_run. destruct (m w) as [[[a|e]|why] w1] eqn:E1; [|done..].
  intros H. exact (Hk a (Hm _ _ _ E1) _ _ _ H).
Qed.

Lemma returns_bind {W A B E} (P : B -> Prop) (m : M W A) (k : A -> M W (result B E)) :
  (forall a, returns P (k a)) -> returns P (bind m k).
Proof.
  intros Hk w b w'. rewrite bind_run. destruct (m w) as [[a|why] w1]; [|done]. apply Hk.
Qed.

Lemma returns_weaken {W A E} (Q P : A -> Prop) (m : M W (result A E)) :
  returns Q m -> (forall a, Q a -> P a) -> returns P m.
Proof. intros Hm Hi w a w' H. by eapply Hi, Hm. Qed.

Lemma returns_map_err {W A E F} (P : A -> Prop) (f : E -> F) (m : M W (result A E)) :
  returns P m -> returns P (map_err f m).
Proof.
  intros Hm w a w'. rewrite map_err_run. destruct (m w) as [[[b|e]|why] w1] eqn:E1; intros H; simplify_eq/=.
  by eapply Hm.
Qed.

#[export] Hint Resolve returns_ok returns_err returns_panic returns_any returns_map_err : relayer.

(** ** Machine integers

    The services run from [cargo build --release], where [+] and [*] on the
    machine integers wrap around and [as] truncates. *)

Definition wrap (w : Z) (x : Z) : Z := x mod 2 ^ w.
Definition wrap_u32 (x : Z) : Z := wrap 32 x.
Definition wrap_u64 (x : Z) : Z := wrap 64 x.
Definition signed (w : Z) (x : Z) : Z :=
  let y := wrap w x in if y <? 2 ^ (w - 1) then y else y - 2 ^ w.
Definition wrap_i32 (x : Z) : Z := signed 32 x.
Definition wrap_i64 (x : Z) : Z := signed 64 x.
Definition wrap_i128 (x : Z) : Z := signed 128 x.

Lemma wrap_small w x : 0 <= x < 2 ^ w -> wrap w x = x.
Proof. intros H. unfold wrap. by apply Z.mod_small. Qed.

Lemma wrap_range w x : 0 <= w -> 0 <= wrap w x < 2 ^ w.
Proof. intros H. apply Z.mod_pos_bound. lia. Qed.

Lemma signed_small w x : 1 <= w -> - 2 ^ (w - 1) <= x < 2 ^ (w - 1) -> signed w x = x.
Proof.
  intros Hw Hx. unfold signed, wrap.
  assert (Hp : 2 ^ w = 2 * 2 ^ (w - 1)).
  { rewrite <- Z.pow_succ_r by lia. f_equal. lia. }
  destruct (decide (0 <= x)).
  - rewrite Z.mod_small by lia. by destruct (Z.ltb_spec x (2 ^ (w - 1))); lia.
  - replace (x mod 2 ^ w) with (x + 2 ^ w).
    + destruct (Z.ltb_spec (x + 2 ^ w) (2 ^ (w - 1))); lia.
    + apply (Z.mod_unique_pos _ _ (-1)); lia.
Qed.

(** Wrapping before or after an addition makes no difference. *)
Lemma signed_mod w x y : 1 <= w -> x mod 2 ^ w = y mod 2 ^ w -> signed w x = signed w y.
Proof. intros _ H. unfold signed, wrap. by rewrite H. Qed.

Lemma signed_congr w x : 1 <= w -> signed w x mod 2 ^ w = x mod 2 ^ w.
Proof.
  intros Hw. unfold signed, wrap. assert (0 < 2 ^ w) by (apply Z.pow_pos_nonneg; lia).
  destruct (x mod 2 ^ w <? 2 ^ (w - 1)); [by rewrite Z.mod_mod by lia|].
  replace (x mod 2 ^ w - 2 ^ w) with (x mod 2 ^ w + (-1) * 2 ^ w) by lia.
  rewrite Z.mod_add by lia. by rewrite Z.mod_mod by lia.
Qed.

Lemma signed_add w x y : 1 <= w -> signed w (signed w x + y) = signed w (x + y).
Proof.
  intros Hw. apply signed_mod; [done|]. assert (2 ^ w <> 0) by (pose proof (Z.pow_pos_nonneg 2 w); lia).
  rewrite Z.add_mod, signed_congr, <- Z.add_mod by done. done.
Qed.

Definition MAX_U32 : Z := 2 ^ 32 - 1.
Definition MAX_U64 : Z := 2 ^ 64 - 1.
Definition MAX_I64 : Z := 2 ^ 63 - 1.
Definition MAX_I128 : Z := 2 ^ 127 - 1.

Lemma string_length_app (a b : string) :
  String.length (a +:+ b) = (String.length a + String.length b)%nat.
Proof. induction a as [|c a IH]; [done|]. simpl. by rewrite IH. Qed.

Lemma omap_cons {A B} (f : A -> option B) x l :
  omap f (x :: l) = match f x with Some y => y :: omap f l | None => omap f l end.
Proof. done. Qed.
