(* ===== verification/Decimal.v ===== *)
(** * Decimal integers as Rust prints and parses them

    [u64::from_str], [i128::from_str], [BigUint::from_str] and [to_string].
    The parsers accept an optional sign ([+] for the unsigned types) and at
    least one digit, and reject a value outside the type's range. *)

From Stdlib Require Import Ascii.
From S2P Require Import Prelude.

Definition digits (s : string) : option N :=
  option_map N.of_uint (DecimalString.NilZero.uint_of_string s).

Definition strip_plus (s : string) : string :=
  match s with
  | String "+"%char rest => rest
  | _ => s
  end.

Definition parse_unsigned (max : Z) (s : string) : option Z :=
  match digits (strip_plus s) with
  | Some n => let z := Z.of_N n in if z <=? max then Some z else None
  | None => None
  end.

(** The text of a [ParseIntError]. *)
Definition int_error (max : Z) (s : string) : string :=
  match s with
  | EmptyString => "cannot parse integer from empty string"
  | _ => match digits (strip_plus s) with
         | Some n => if Z.of_N n <=? max then "" else "number too large to fit in target type"
         | None => "invalid digit found in string"
         end
  end.

Definition parse_u64 (s : string) : option Z := parse_unsigned MAX_U64 s.

(** [BigUint::from_str] has no upper bound. *)
Definition parse_biguint (s : string) : option N := digits (strip_plus s).

Definition parse_signed (max : Z) (s : string) : option Z :=
  match s with
  | String "-"%char rest =>
      match digits rest with
      | Some n => let z := - Z.of_N n in if - max - 1 <=? z then Some z else None
      | None => None
      end
  | _ => parse_unsigned max s
  end.

Definition parse_i64 (s : string) : option Z := parse_signed MAX_I64 s.
Definition parse_i128 (s : string) : option Z := parse_signed MAX_I128 s.

Definition print_N (n : N) : string := DecimalString.NilZero.string_of_uint (N.to_uint n).
Definition print_u64 (z : Z) : string := print_N (Z.to_N z).
Definition print_Z (z : Z) : string :=
  if z <? 0 then String.append "-" (print_N (Z.to_N (- z))) else print_N (Z.to_N z).

(** ** Round trips *)

Lemma to_uint_not_nil n : N.to_uint n <> Decimal.Nil.
Proof. destruct n as [|p]; [done|]. apply (DecimalPos.Unsigned.to_uint_nonnil p). Qed.

Lemma digits_print n : digits (print_N n) = Some n.
Proof.
  unfold digits, print_N.
  rewrite DecimalString.NilZero.usu by apply to_uint_not_nil.
  simpl. by rewrite DecimalN.Unsigned.of_to.
Qed.

Lemma print_N_head n : exists c s, print_N n = String c s /\ c <> "+"%char /\ c <> "-"%char.
Proof.
  unfold print_N. pose proof (to_uint_not_nil n) as Hn.
  destruct (N.to_uint n); [done|..]; simpl; eauto.
Qed.

Lemma strip_plus_print n : strip_plus (print_N n) = print_N n.
Proof.
  destruct (print_N_head n) as (c & s & -> & Hc & _).
  unfold strip_plus. repeat (case_match; subst; try done).
Qed.

Lemma parse_biguint_print n : parse_biguint (print_N n) = Some n.
Proof. unfold parse_biguint. by rewrite strip_plus_print, digits_print. Qed.

Lemma parse_unsigned_print max z :
  0 <= z <= max -> parse_unsigned max (print_u64 z) = Some z.
Proof.
  intros Hz. unfold parse_unsigned, print_u64.
  rewrite strip_plus_print, digits_print, Z2N.id by lia.
  by destruct (Z.leb_spec z max); [|lia].
Qed.

Lemma parse_u64_print z : 0 <= z <= MAX_U64 -> parse_u64 (print_u64 z) = Some z.
Proof. apply parse_unsigned_print. Qed.

Lemma parse_unsigned_range max s z : parse_unsigned max s = Some z -> 0 <= z <= max.
Proof.
  unfold parse_unsigned. destruct (digits _); [|done]. simpl.
  destruct (Z.leb_spec (Z.of_N n) max); [|done]. intros [= <-]. lia.
Qed.

Lemma parse_u64_range s z : parse_u64 s = Some z -> 0 <= z <= MAX_U64.
Proof. apply parse_unsigned_range. Qed.

Lemma parse_signed_range max s z :
  0 <= max -> parse_signed max s = Some z -> - max - 1 <= z <= max.
Proof.
  intros Hm. unfold parse_signed.
  assert (Hu : forall s', parse_unsigned max s' = Some z -> - max - 1 <= z <= max).
  { intros s' H%parse_unsigned_range. lia. }
  repeat (case_match; try by eauto).
  all: intros [= <-]; match goal with H : (_ <=? _) = true |- _ => apply Z.leb_le in H end; lia.
Qed.

Lemma print_N_inj n m : print_N n = print_N m -> n = m.
Proof. intros H. apply (f_equal digits) in H. rewrite !digits_print in H. by simplify_eq. Qed.

