(* ===== verification/Store.v ===== *)
(** * Database statements

    The Postgres models of the services run one SQL statement per operation.
    A statement is translated to the function on the tables that its text
    denotes ([WHERE] a test, [ON CONFLICT DO UPDATE] an insertion that
    overwrites, [CURRENT_TIMESTAMP] the clock).  Whether the server answers is
    not decided by the code: every call consumes one entry of [faults], and a
    statement that fails changes no table: a reply that is lost
    after its statement took effect is not modelled. *)

From S2P Require Import Prelude.

Record Store (T : Type) : Type := mkStore {
  tables : T;
  clock : Z;
  faults : list (option string);
}.
Arguments mkStore {T} tables clock faults.
Arguments tables {T} s.
Arguments clock {T} s.
Arguments faults {T} s.

Definition next_fault {T} (s : Store T) : option string :=
  match faults s with
  | f :: _ => f
  | [] => None
  end.

Definition sql {T A} (stmt : Z -> T -> A * T) : M (Store T) (result A string) :=
  fun s =>
    let rest := tail (faults s) in
    match next_fault s with
    | Some e => (Done (Err e), mkStore (tables s) (clock s) rest)
    | None =>
        let '(a, t') := stmt (clock s) (tables s) in
        (Done (Ok a), mkStore t' (clock s) rest)
    end.

(** A read-only statement and one that returns no row. *)
Definition sql_query {T A} (q : Z -> T -> A) : M (Store T) (result A string) :=
  sql (fun now t => (q now t, t)).
Definition sql_exec {T} (u : Z -> T -> T) : M (Store T) (result unit string) :=
  sql (fun now t => (tt, u now t)).

(** Time passes between two operations. *)
Definition advance {T} (d : Z) (s : Store T) : Store T :=
  mkStore (tables s) (clock s + d) (faults s).

Section laws.
Context {T : Type}.
Implicit Types s : Store T.

Lemma sql_cases {A} (stmt : Z -> T -> A * T) s :
  (exists e, sql stmt s = (Done (Err e), mkStore (tables s) (clock s) (tail (faults s)))) \/
  sql stmt s = (Done (Ok (fst (stmt (clock s) (tables s)))),
                mkStore (snd (stmt (clock s) (tables s))) (clock s) (tail (faults s))).
Proof.
  unfold sql. destruct (next_fault s) as [e|]; [left; eauto|right].
  by destruct (stmt (clock s) (tables s)).
Qed.

Lemma next_fault_some s e : next_fault s = Some e -> faults s <> [].
Proof. unfold next_fault. by destruct (faults s). Qed.

Lemma sql_no_fault {A} (stmt : Z -> T -> A * T) s :
  next_fault s = None ->
  sql stmt s = (Done (Ok (fst (stmt (clock s) (tables s)))),
                mkStore (snd (stmt (clock s) (tables s))) (clock s) (tail (faults s))).
Proof. intros H. unfold sql. rewrite H. by destruct (stmt (clock s) (tables s)). Qed.

Lemma sql_fault {A} (stmt : Z -> T -> A * T) s e :
  next_fault s = Some e ->
  sql stmt s = (Done (Err e), mkStore (tables s) (clock s) (tail (faults s))).
Proof. intros H. unfold sql. by rewrite H. Qed.

Lemma sql_clock {A} (stmt : Z -> T -> A * T) : preserves clock (sql stmt).
Proof. intros s. by destruct (sql_cases stmt s) as [[e ->] | ->]. Qed.

Lemma sql_query_tables {A} (q : Z -> T -> A) : preserves tables (sql_query q).
Proof. intros s. by destruct (sql_cases (fun now t => (q now t, t)) s) as [[e H] | H];
  unfold sql_query; rewrite H. Qed.
End laws.

#[export] Hint Resolve sql_clock sql_query_tables : relayer.
