(* ===== verification/Interleaving.v ===== *)
(** * Programs that share a database

    The handlers of a process run at the same time, and so do the processes:
    between two statements of one of them, the others' are executed.  A
    program here is a computation over a world in which it can only ask for a
    statement and go on with the answer; what it does is read off by running
    it on the answers it got so far.  The database executes one statement at
    a time, of any program that waits for one.  It models no code of its own. *)

From S2P Require Import Prelude.

Section talk.
Context {S A X : Type}.

(** ** One program *)

(** What was asked and answered, the answers that are still to be read, the
    statement the program waits for, and the rest of its world. *)
Record Talk : Type := mkTalk {
  said : list (S * A);
  answers : list A;
  pending : option S;
  aside : X;
}.

(** The program stops at a statement that has no answer yet. *)
Definition ask (s : S) : M Talk A := fun t =>
  match answers t with
  | a :: rest => (Done a, mkTalk (said t ++ [(s, a)]) rest (pending t) (aside t))
  | [] => (Panic "waiting for an answer", mkTalk (said t) [] (Some s) (aside t))
  end.

Definition on_aside {B} (m : M X B) : M Talk B := fun t =>
  let '(o, x) := m (aside t) in (o, mkTalk (said t) (answers t) (pending t) x).

Definition more_answers (t : Talk) (l : list A) : Talk := mkTalk (said t) (answers t ++ l) (pending t) (aside t).

Lemma on_aside_run {B} (m : M X B) t :
  on_aside m t = (fst (m (aside t)), mkTalk (said t) (answers t) (pending t) (snd (m (aside t)))).
Proof. unfold on_aside. by destruct (m (aside t)). Qed.

(** A program reads its answers one by one: more of them change nothing of
    what it said before it waited for the next. *)
Record causal {B} (m : M Talk B) : Prop := {
  causal_done : forall t b, pending t = None -> fst (m t) = Done b -> pending (snd (m t)) = None;
  causal_quiet : forall t, pending t = None -> answers t = [] ->
    said (snd (m t)) = said t /\ answers (snd (m t)) = [];
  causal_ended : forall t l, pending t = None -> pending (snd (m t)) = None ->
    m (more_answers t l) = (fst (m t), more_answers (snd (m t)) l);
  causal_waits : forall t s a, pending t = None -> pending (snd (m t)) = Some s ->
    said (snd (m (more_answers t [a]))) = said (snd (m t)) ++ [(s, a)] /\
    answers (snd (m (more_answers t [a]))) = [];
}.

Lemma causal_ret {B} (b : B) : causal (ret b).
Proof. split; cbn; auto. congruence. Qed.

Lemma causal_panic {B} why : causal (@panic Talk B why).
Proof. split; cbn; auto. congruence. Qed.

Lemma causal_ask s : causal (ask s).
Proof.
  split; unfold ask, more_answers.
  - intros t b Hp. by destruct (answers t).
  - intros t Hp Ha. by rewrite Ha.
  - intros t l Hp. cbn. by destruct (answers t).
  - intros t s' a Hp. cbn. destruct (answers t); cbn; [|congruence]. by intros [= ->].
Qed.

Lemma causal_aside {B} (m : M X B) : causal (on_aside m).
Proof.
  split; unfold more_answers; intros t; rewrite ?on_aside_run; cbn; auto.
  - intros l Hp _. rewrite on_aside_run. cbn. by rewrite Hp.
  - congruence.
Qed.

Lemma causal_bind {B C} (m : M Talk B) (k : B -> M Talk C) : causal m -> (forall b, causal (k b)) -> causal (bind m k).
Proof.
  intros [D1 Q1 E1 W1] Hk. split; intros t.
  - intros c Hp. rewrite bind_run. specialize (D1 t). destruct (m t) as [[b|why] t1]; cbn in *; [|done].
    intros Hc. by eapply (causal_done _ (Hk b)); [eapply D1|].
  - intros Hp Ha. rewrite bind_run. specialize (D1 t). destruct (Q1 t Hp Ha) as [Hs Ha1].
    destruct (m t) as [[b|why] t1]; cbn in *; [|done]. rewrite <- Hs. eapply (causal_quiet _ (Hk b)); eauto.
  - intros l Hp. rewrite !bind_run. specialize (D1 t). specialize (E1 t l Hp).
    destruct (m t) as [[b|why] t1]; cbn in *; intros Hn.
    + rewrite E1 by eauto. eapply (causal_ended _ (Hk b)); eauto.
    + by rewrite E1.
  - intros s a Hp. rewrite !bind_run. pose proof (D1 t) as D1t. specialize (E1 t [a] Hp). specialize (W1 t s a Hp).
    destruct (m t) as [[b|why] t1]; cbn in *; intros Hs.
    + rewrite E1 by eauto. eapply (causal_waits _ (Hk b)); eauto.
    + destruct (W1 Hs) as [Hw Ha]. specialize (D1 (more_answers t [a])).
      destruct (m (more_answers t [a])) as [[b|why'] t2]; cbn in *; [|done].
      rewrite <- Hw. eapply (causal_quiet _ (Hk b)); eauto.
Qed.

Lemma causal_bind_ok {B C E} (m : M Talk (result B E)) (k : B -> M Talk (result C E)) :
  causal m -> (forall b, causal (k b)) -> causal (bind_ok m k).
Proof. intros Hm Hk. apply causal_bind; [done|]. intros [b|e]; [done|apply causal_ret]. Qed.

Lemma causal_map_err {B E F} (f : E -> F) (m : M Talk (result B E)) : causal m -> causal (map_err f m).
Proof. intros Hm. apply causal_bind; [done|]. intros r. apply causal_ret. Qed.

(** ** What a program may ask *)

Section obeys.
(** After what was said, a statement may be asked for. *)
Variable allowed : list (S * A) -> S -> Prop.

Record polite (t : Talk) : Prop := {
  polite_said : forall before s a after, said t = before ++ (s, a) :: after -> allowed before s;
  polite_pending : forall s, pending t = Some s -> allowed (said t) s;
}.

(** From any conversation of which [P] holds: only what is allowed is asked
    for, and [Q] holds when the computation ends. *)
Definition obeys {B} (P : list (S * A) -> Prop) (m : M Talk B) (Q : B -> list (S * A) -> Prop) : Prop :=
  forall t, pending t = None -> polite t -> P (said t) ->
    polite (snd (m t)) /\ forall b, fst (m t) = Done b -> pending (snd (m t)) = None /\ Q b (said (snd (m t))).

Lemma obeys_ret {B} (b : B) P (Q : B -> list (S * A) -> Prop) : (forall l, P l -> Q b l) -> obeys P (ret b) Q.
Proof. intros H t Hp Ht Hl. split; [done|]. intros b' [= <-]. auto. Qed.

Lemma obeys_panic {B} why P (Q : B -> list (S * A) -> Prop) : obeys P (panic why) Q.
Proof. intros t Hp Ht Hl. by split. Qed.

Lemma obeys_ask s P (Q : A -> list (S * A) -> Prop) :
  (forall l, P l -> allowed l s) -> (forall l a, P l -> Q a (l ++ [(s, a)])) -> obeys P (ask s) Q.
Proof.
  intros Hs HQ t Hp [H1 H2] Hl. unfold ask. destruct (answers t) as [|a rest]; cbn.
  - split; [|done]. split; cbn; [done|]. intros s' [= <-]. auto.
  - split; [|intros b [= <-]; auto]. split; cbn; [|by rewrite Hp].
    intros before s' a' after E. destruct after as [|z after' _] using rev_ind.
    + apply app_inj_tail in E as [<- [= <- <-]]. auto.
    + rewrite app_comm_cons, app_assoc in E. apply app_inj_tail in E as [E _]. by eapply H1.
Qed.

Lemma obeys_aside {B} (m : M X B) P (Q : B -> list (S * A) -> Prop) : (forall b l, P l -> Q b l) -> obeys P (on_aside m) Q.
Proof.
  intros HQ t Hp [H1 H2] Hl. rewrite on_aside_run. cbn. split; [by split|]. intros b _. auto.
Qed.

Lemma obeys_bind {B C} P Q R (m : M Talk B) (k : B -> M Talk C) :
  obeys P m Q -> (forall b, obeys (Q b) (k b) R) -> obeys P (bind m k) R.
Proof.
  intros Hm Hk t Hp Ht Hl. rewrite bind_run. destruct (Hm t Hp Ht Hl) as [H1 H2].
  destruct (m t) as [[b|why] t1]; cbn in *; [|done]. destruct (H2 b eq_refl) as [Hn Hq]. by apply Hk.
Qed.

Lemma obeys_bind_ok {B C E} P Q (R : result C E -> list (S * A) -> Prop) (m : M Talk (result B E)) k :
  obeys P m (fun r l => forall b, r = Ok b -> Q b l) -> (forall b, obeys (Q b) (k b) R) -> (forall e l, R (Err e) l) ->
  obeys P (bind_ok m k) R.
Proof.
  intros Hm Hk HR. eapply obeys_bind; [exact Hm|]. intros [b|e]; cbn beta iota.
  - intros t Hp Ht Hl. by apply Hk; auto.
  - by apply obeys_ret.
Qed.

(** Past a result that does not depend on the world. *)
Lemma obeys_pure {B C E} P (R : result C E -> list (S * A) -> Prop) (r : result B E) k :
  (forall b, r = Ok b -> obeys P (k b) R) -> (forall e l, r = Err e -> P l -> R (Err e) l) ->
  obeys P (bind_ok (ret r) k) R.
Proof. intros Hk HR. destruct r as [b|e]; [exact (Hk b eq_refl)|]. apply obeys_ret. intros l. by apply HR. Qed.

Lemma obeys_map_err {B E F} P Q (f : E -> F) (m : M Talk (result B E)) :
  obeys P m (fun r l => forall b, r = Ok b -> Q b l) -> obeys P (map_err f m) (fun r l => forall b, r = Ok b -> Q b l).
Proof.
  intros Hm. eapply obeys_bind; [exact Hm|]. intros r. apply obeys_ret. intros l Hl b. destruct r; cbn; [|done].
  intros [= <-]. auto.
Qed.

Lemma obeys_weaken {B} P P' Q Q' (m : M Talk B) :
  obeys P m Q -> (forall l, P' l -> P l) -> (forall b l, Q b l -> Q' b l) -> obeys P' m Q'.
Proof.
  intros Hm HP HQ t Hp Ht Hl. destruct (Hm t Hp Ht (HP _ Hl)) as [H1 H2]. split; [done|].
  intros b Hb. destruct (H2 b Hb) as [H3 H4]. split; [done|by apply HQ].
Qed.
End obeys.

(** A computation that asks for nothing. *)
Definition mute {B} (m : M Talk B) : Prop := causal m /\ forall ok P, obeys ok P m (fun _ => P).

Lemma mute_ret {B} (b : B) : mute (ret b).
Proof. split; [apply causal_ret|]. intros ok P. by apply obeys_ret. Qed.
Lemma mute_panic {B} why : mute (@panic Talk B why).
Proof. split; [apply causal_panic|]. intros ok P. apply obeys_panic. Qed.
Lemma mute_aside {B} (m : M X B) : mute (on_aside m).
Proof. split; [apply causal_aside|]. intros ok P. apply obeys_aside. auto. Qed.
Lemma mute_bind {B B'} (m : M Talk B) (k : B -> M Talk B') : mute m -> (forall b, mute (k b)) -> mute (bind m k).
Proof.
  intros [Cm Hm] Hk. split; [apply causal_bind; [done|]; apply Hk|].
  intros ok P. eapply obeys_bind; [apply Hm|]. intros b. apply Hk.
Qed.
Lemma mute_bind_ok {B B' E} (m : M Talk (result B E)) (k : B -> M Talk (result B' E)) :
  mute m -> (forall b, mute (k b)) -> mute (bind_ok m k).
Proof. intros Hm Hk. apply mute_bind; [done|]. intros [b|e]; [done|apply mute_ret]. Qed.
Lemma mute_map_err {B E F} (f : E -> F) (m : M Talk (result B E)) : mute m -> mute (map_err f m).
Proof. intros Hm. apply mute_bind; [done|]. intros r. apply mute_ret. Qed.

(** A statement whose answer is an error or carries a value. *)
Section told.
Variable fails : A -> option string.
Context {B : Type} (read : A -> option B).

Definition told (s : S) : M Talk (result B string) :=
  let! a := ask s in
  match fails a with
  | Some e => ret (Err e)
  | None => match read a with Some b => ret (Ok b) | None => panic "the answer of another statement" end
  end.

Lemma causal_told s : causal (told s).
Proof.
  apply causal_bind; [apply causal_ask|]. intros a.
  destruct (fails a); [apply causal_ret|]. destruct (read a); [apply causal_ret|apply causal_panic].
Qed.

Lemma obeys_told ok s P (Q : result B string -> list (S * A) -> Prop) :
  (forall l, P l -> ok l s) ->
  (forall l a b, P l -> fails a = None -> read a = Some b -> Q (Ok b) (l ++ [(s, a)])) ->
  (forall l a e, P l -> fails a = Some e -> Q (Err e) (l ++ [(s, a)])) ->
  obeys ok P (told s) Q.
Proof.
  intros Hs Hok Herr. eapply obeys_bind; [apply (obeys_ask _ _ _ (fun a l => exists l0, P l0 /\ l = l0 ++ [(s, a)])); [done|]|].
  - intros l a Hl. by exists l.
  - intros a. destruct (fails a) eqn:Ef; [apply obeys_ret; intros l (l0 & Hl & ->); by eapply Herr|].
    destruct (read a) eqn:Er; [|apply obeys_panic]. apply obeys_ret. intros l (l0 & Hl & ->). by eapply Hok.
Qed.
End told.

(** Whatever is said next, after something that asks for nothing. *)
Lemma obeys_mute {B C} ok P Q (m : M Talk B) (k : B -> M Talk C) :
  mute m -> (forall b, obeys ok P (k b) Q) -> obeys ok P (bind m k) Q.
Proof. intros [_ Hm] Hk. eapply obeys_bind; [apply Hm|done]. Qed.
End talk.

Arguments Talk : clear implicits.

(** ** Programs at once *)

Section system.
Context {S A X D L B : Type}.
(** What a statement may do: its answer and the database it leaves. *)
Variable executes : S -> D -> A -> D -> Prop.
(** What happens to the database by itself. *)
Variable drifts : D -> D -> Prop.
Variable program : L -> M (Talk S A X) B.

(** A program that runs: what it is about, the rest of its world when it
    began, and the answers it got. *)
Record Running : Type := mkRunning {
  about : L;
  began : X;
  heard : list A;
}.

Definition talk (p : Running) : outcome B * Talk S A X := program (about p) (mkTalk [] (heard p) None (began p)).
Definition spoken (p : Running) : list (S * A) := said (snd (talk p)).
Definition waits_for (p : Running) : option S := pending (snd (talk p)).
Definition hears (p : Running) (a : A) : Running := mkRunning (about p) (began p) (heard p ++ [a]).

Record System : Type := mkSystem {
  database : D;
  running : list Running;
}.

Variable may_start : System -> L -> Prop.

(** A program starts, a statement some program waits for is executed, a
    program is over (it ended, or the process it ran in is gone), or time
    passes on the servers. *)
Inductive system_step (g : System) : System -> Prop :=
| step_start l x : may_start g l -> system_step g (mkSystem (database g) (running g ++ [mkRunning l x []]))
| step_statement before p after s a d :
    running g = before ++ p :: after -> waits_for p = Some s -> executes s (database g) a d ->
    system_step g (mkSystem d (before ++ hears p a :: after))
| step_over before p after :
    running g = before ++ p :: after -> system_step g (mkSystem (database g) (before ++ after))
| step_drift d : drifts (database g) d -> system_step g (mkSystem d (running g)).

(** The other programs, and the programs once one was answered. *)
Lemma lookup_without (before after : list Running) p i q :
  (before ++ after) !! i = Some q ->
  exists j, (before ++ p :: after) !! j = Some q /\ j = (if decide (i < length before) then i else i + 1)%nat.
Proof.
  intros E. eexists. split; [|reflexivity]. destruct (decide (i < length before)%nat).
  - rewrite lookup_app_l in * by done. done.
  - rewrite lookup_app_r in E by lia. rewrite lookup_app_r by lia.
    by replace (i + 1 - length before)%nat with (Datatypes.S (i - length before)) by lia.
Qed.

Lemma lookup_hears (before after : list Running) p a i q :
  (before ++ hears p a :: after) !! i = Some q -> exists q0, (before ++ p :: after) !! i = Some q0 /\ about q0 = about q.
Proof.
  intros H. destruct (decide (i = length before)) as [->|Hne].
  - rewrite list_lookup_middle in H by done. injection H as <-. exists p. by rewrite list_lookup_middle.
  - exists q. split; [|done]. destruct (decide (i < length before)%nat).
    + rewrite lookup_app_l in * by done. done.
    + rewrite lookup_app_r in * by lia. destruct (i - length before)%nat eqn:E; [lia|]. done.
Qed.

(** Any number of the same program, each one statement further. *)
Lemma all_start (g : System) l x n : (forall g', database g' = database g -> may_start g' l) ->
  rtc system_step g (mkSystem (database g) (running g ++ replicate n (mkRunning l x []))).
Proof.
  intros Hl. induction n as [|n IH].
  - rewrite app_nil_r. destruct g. apply rtc_refl.
  - eapply rtc_r; [exact IH|]. rewrite replicate_S_end, app_assoc.
    exact (step_start (mkSystem (database g) (running g ++ replicate n (mkRunning l x []))) l x (Hl (mkSystem _ _) eq_refl)).
Qed.

Lemma all_answered p s a d n k : waits_for p = Some s -> executes s d a d ->
  rtc system_step (mkSystem d (replicate k (hears p a) ++ replicate n p)) (mkSystem d (replicate (k + n) (hears p a))).
Proof.
  intros Hp Hx. revert k. induction n as [|n IH]; intros k.
  - rewrite app_nil_r, Nat.add_0_r. apply rtc_refl.
  - eapply rtc_l; [eapply step_statement; [reflexivity|exact Hp|exact Hx]|]. rewrite <- Nat.add_succ_comm.
    rewrite cons_middle, app_assoc, <- replicate_S_end. apply IH.
Qed.

(** The program at a place, if it waits, is given its answer. *)
Definition advance_one (perform : S -> D -> A * D) (g : System) (i : nat) : System :=
  match running g !! i with
  | Some p =>
      match waits_for p with
      | Some s => let '(a, d) := perform s (database g) in mkSystem d (<[i := hears p a]> (running g))
      | None => g
      end
  | None => g
  end.

Lemma advance_one_step perform g i : (forall s d, executes s d (fst (perform s d)) (snd (perform s d))) ->
  advance_one perform g i = g \/ system_step g (advance_one perform g i).
Proof.
  intros Hx. unfold advance_one. destruct (running g !! i) as [p|] eqn:Ei; [|by left].
  destruct (waits_for p) as [s|] eqn:Es; [|by left]. specialize (Hx s (database g)).
  destruct (perform s (database g)) as [a d]. right. rewrite insert_take_drop by (by eapply lookup_lt_Some).
  eapply step_statement; [symmetry; by apply take_drop_middle|done|done].
Qed.

Lemma new_spoken l x : causal (program l) -> spoken (mkRunning l x []) = [].
Proof. intros Hl. exact (proj1 (causal_quiet _ Hl (mkTalk [] [] None x) eq_refl eq_refl)). Qed.

Lemma hears_spoken p s a : causal (program (about p)) -> waits_for p = Some s -> spoken (hears p a) = spoken p ++ [(s, a)].
Proof.
  intros Hl Hp. unfold spoken, talk, hears. cbn.
  exact (proj1 (causal_waits _ Hl (mkTalk [] (heard p) None (began p)) s a eq_refl Hp)).
Qed.

(** A program that obeys its rules does so in every system. *)
Lemma running_polite allowed Q p : obeys allowed (fun l => l = []) (program (about p)) Q -> polite allowed (snd (talk p)).
Proof.
  intros H. apply (H (mkTalk [] (heard p) None (began p))); [done| |done].
  split; cbn; [|done]. by intros [|??].
Qed.
End system.

Arguments Running : clear implicits.
Arguments System : clear implicits.
