(* ===== verification/HighLoadQueryId.v ===== *)
(** * Query ids of the TON high-load wallet

    [ton/src/high_load_query_id.rs], the Postgres row behind it
    ([ton/src/models/ton_wallet_query_id.rs]) and the allocator
    ([ton/src/high_load_query_id_db_wrapper.rs]). *)

From S2P Require Import Prelude.
From S2P Require Import Store.

(** src/ton/src/high_load_query_id.rs:23-29 HighLoadQueryIdError *)
Inductive HighLoadQueryIdError : Type :=
| InvalidShift (max : Z)
| InvalidBitnumber (max : Z)
| EmergencyOverload
| ShiftOverflow.

(** src/ton/src/high_load_query_id.rs:31-35 HighLoadQueryId *)
Record HighLoadQueryId : Type := mkQueryId {
  shift : Z;
  bitnumber : Z;
}.

(** src/ton/src/high_load_query_id.rs:38-38 MAX_SHIFT *)
Definition MAX_SHIFT : Z := 8191.
(** src/ton/src/high_load_query_id.rs:39-39 MAX_BITNUMBER *)
Definition MAX_BITNUMBER : Z := 1022.
(** src/ton/src/high_load_query_id.rs:40-40 BITNUMBER_SIZE *)
Definition BITNUMBER_SIZE : Z := 10.

(** src/ton/src/high_load_query_id.rs:42-54 HighLoadQueryId::from_shift_and_bitnumber *)
Definition from_shift_and_bitnumber (s b : Z) : result HighLoadQueryId HighLoadQueryIdError :=
  if MAX_SHIFT <? s then Err (InvalidShift MAX_SHIFT)
  else if MAX_BITNUMBER <? b then Err (InvalidBitnumber MAX_BITNUMBER)
  else Ok (mkQueryId s b).

(** src/ton/src/high_load_query_id.rs:56-74 HighLoadQueryId::next *)
Definition next (q : HighLoadQueryId) : result HighLoadQueryId HighLoadQueryIdError :=
  let new_bitnumber := wrap_u32 (bitnumber q + 1) in
  let new_shift := shift q in
  if (new_shift =? MAX_SHIFT) && (new_bitnumber =? MAX_BITNUMBER - 1) then
    Err EmergencyOverload
  else if MAX_BITNUMBER <? new_bitnumber then
    let new_shift := wrap_u32 (new_shift + 1) in
    if MAX_SHIFT <? new_shift then Err ShiftOverflow
    else from_shift_and_bitnumber new_shift 0
  else from_shift_and_bitnumber new_shift new_bitnumber.

(** src/ton/src/high_load_query_id.rs:76-78 HighLoadQueryId::has_next *)
Definition has_next (q : HighLoadQueryId) : bool :=
  negb ((MAX_BITNUMBER - 1 <=? bitnumber q) && (shift q =? MAX_SHIFT)).

(** src/ton/src/high_load_query_id.rs:80-83 HighLoadQueryId::query_id *)
Definition query_id (q : HighLoadQueryId) : Z :=
  wrap_u64 (wrap_u64 (Z.shiftl (shift q) BITNUMBER_SIZE) + bitnumber q).

(** ** The row and its statements *)

(** src/ton/src/models/ton_wallet_query_id.rs:37-51 ton_wallet_query_id row *)
Record QueryIdRow : Type := mkRow {
  row_shift : Z;
  row_bitnumber : Z;
  expires_at : Z;
}.

(** src/ton/src/models/ton_wallet_query_id.rs:17-33 TONWalletQueryId *)
Class TONWalletQueryId (W : Type) : Type := {
  get_query_id : string -> M W (result (Z * Z) string);
  update_query_id : string -> Z -> Z -> M W (result unit string);
  upsert_query_id : string -> Z -> Z -> Z -> M W (result unit string);
}.

Abbreviation QueryIdStore := (Store (gmap string QueryIdRow)).

(** src/ton/src/models/ton_wallet_query_id.rs:37-51 PgTONWalletQueryIdModel::get_query_id *)
Definition pg_get_query_id (address : string) : M QueryIdStore (result (Z * Z) string) :=
  sql_query (fun now t =>
    match t !! address with
    | Some r => if now <=? expires_at r then (row_shift r, row_bitnumber r) else (-1, -1)
    | None => (-1, -1)
    end).

(** src/ton/src/models/ton_wallet_query_id.rs:53-68 PgTONWalletQueryIdModel::update_query_id *)
Definition pg_update_query_id (address : string) (s b : Z) : M QueryIdStore (result unit string) :=
  sql_exec (fun now t => alter (fun r => mkRow s b (expires_at r)) address t).

(** src/ton/src/models/ton_wallet_query_id.rs:70-96 PgTONWalletQueryIdModel::upsert_query_id *)
Definition pg_upsert_query_id (address : string) (s b timeout : Z) :
  M QueryIdStore (result unit string) :=
  sql_exec (fun now t => <[address := mkRow s b (now + timeout)]> t).

(** src/ton/src/models/ton_wallet_query_id.rs:35-97 impl TONWalletQueryId for PgTONWalletQueryIdModel *)
#[export] Instance PgTONWalletQueryIdModel : TONWalletQueryId QueryIdStore := {|
  get_query_id := pg_get_query_id;
  update_query_id := pg_update_query_id;
  upsert_query_id := pg_upsert_query_id;
|}.

(** ** The allocator *)

(** src/ton/src/high_load_query_id_db_wrapper.rs:82-82 TIMEOUT_BUFFER_MULTIPLIER *)
Definition TIMEOUT_BUFFER_MULTIPLIER : Z := 3.

(** src/ton/src/high_load_query_id_db_wrapper.rs:88-93 HighLoadQueryIdWrapperError *)
Inductive HighLoadQueryIdWrapperError : Type :=
| ConstructionError
| NoNextQueryId
| DatabaseError.

(** src/ton/src/high_load_query_id_db_wrapper.rs:99-107 HighLoadQueryIdWrapper *)
Class HighLoadQueryIdWrapper (W : Type) : Type := {
  wrapper_next : string -> Z -> M W (result HighLoadQueryId HighLoadQueryIdWrapperError);
}.

(** src/ton/src/high_load_query_id_db_wrapper.rs:128-146 HighLoadQueryIdDbWrapper::next (the id to use) *)
Definition choose (p : Z * Z) : result HighLoadQueryId HighLoadQueryIdWrapperError :=
  let '(s, b) := p in
  if (s <? 0) || (b <? 0) then
    rmap_err (fun _ => ConstructionError) (from_shift_and_bitnumber 0 0)
  else
    try? q := rmap_err (fun _ => ConstructionError)
                (from_shift_and_bitnumber (wrap_u32 s) (wrap_u32 b)) in
    if has_next q then rmap_err (fun _ => ConstructionError) (next q)
    else Err NoNextQueryId.

(** src/ton/src/high_load_query_id_db_wrapper.rs:115-167 HighLoadQueryIdDbWrapper::next *)
Definition db_wrapper_next {W} `{!TONWalletQueryId W} (address : string) (timeout : Z) :
  M W (result HighLoadQueryId HighLoadQueryIdWrapperError) :=
  let? p := map_err (fun _ => DatabaseError) (get_query_id address) in
  let? q := ret (choose p) in
  let? _ :=
    (if query_id q =? 0 then
       map_err (fun _ => DatabaseError)
         (upsert_query_id address (wrap_i32 (shift q)) (wrap_i32 (bitnumber q))
            (wrap_i32 (wrap_i32 timeout * TIMEOUT_BUFFER_MULTIPLIER)))
     else
       map_err (fun _ => DatabaseError)
         (update_query_id address (wrap_i32 (shift q)) (wrap_i32 (bitnumber q)))) in
  ret (Ok q).

(** src/ton/src/high_load_query_id_db_wrapper.rs:115-167 impl HighLoadQueryIdWrapper for HighLoadQueryIdDbWrapper *)
#[export] Instance HighLoadQueryIdDbWrapper {W} `{!TONWalletQueryId W} : HighLoadQueryIdWrapper W := {|
  wrapper_next := db_wrapper_next;
|}.

(** ** Ids in order

    [rank] counts the ids in the order [next] walks them; [LAST_RANK] is the
    last id [next] reaches from [(0, 0)]. *)

Definition valid (q : HighLoadQueryId) : Prop :=
  0 <= shift q <= MAX_SHIFT /\ 0 <= bitnumber q <= MAX_BITNUMBER.

Definition rank (q : HighLoadQueryId) : Z := shift q * (MAX_BITNUMBER + 1) + bitnumber q.
Definition LAST_RANK : Z := MAX_SHIFT * (MAX_BITNUMBER + 1) + (MAX_BITNUMBER - 2).

Ltac query_consts :=
  unfold valid, rank, LAST_RANK, MAX_SHIFT, MAX_BITNUMBER, BITNUMBER_SIZE in *; simpl in *.
Ltac boolean_cases :=
  repeat match goal with
  | |- context [?x <? ?y] => destruct (Z.ltb_spec x y)
  | |- context [?x <=? ?y] => destruct (Z.leb_spec x y)
  | |- context [?x =? ?y] => destruct (Z.eqb_spec x y)
  end; simpl.

#[export] Instance HighLoadQueryId_eq_dec : EqDecision HighLoadQueryId.
Proof. solve_decision. Defined.

Lemma from_shift_valid s b :
  0 <= s <= MAX_SHIFT -> 0 <= b <= MAX_BITNUMBER ->
  from_shift_and_bitnumber s b = Ok (mkQueryId s b).
Proof.
  intros Hs Hb. unfold from_shift_and_bitnumber. boolean_cases; [lia|lia|done].
Qed.

Lemma wrap_u32_small x : 0 <= x < 2 ^ 32 -> wrap_u32 x = x.
Proof. apply wrap_small. Qed.

Lemma query_id_eq q : valid q -> query_id q = shift q * 1024 + bitnumber q.
Proof.
  intros [Hs Hb]. unfold query_id, wrap_u64. query_consts.
  rewrite Z.shiftl_mul_pow2 by lia. change (2 ^ 10) with 1024.
  rewrite (wrap_small 64 (shift q * 1024)) by lia. apply wrap_small. lia.
Qed.

Lemma next_cases q :
  valid q ->
  (exists q', next q = Ok q' /\ valid q' /\ rank q' = rank q + 1) \/
  (rank q = LAST_RANK /\ next q = Err EmergencyOverload) \/
  (rank q = LAST_RANK + 2 /\ next q = Err ShiftOverflow).
Proof.
  destruct q as [s b]. intros [Hs Hb]. unfold next. query_consts.
  rewrite (wrap_u32_small (b + 1)), (wrap_u32_small (s + 1)) by lia.
  unfold from_shift_and_bitnumber. query_consts.
  boolean_cases; try (right; left; split; [lia|done]);
    try (right; right; split; [lia|done]); try lia.
  all: left; eexists; split; [done|]; simpl; lia.
Qed.

Lemma rank_query_id q q' :
  valid q -> valid q' -> (query_id q < query_id q' <-> rank q < rank q').
Proof. intros Hq Hq'. rewrite !query_id_eq by done. query_consts. lia. Qed.

Lemma rank_inj q q' : valid q -> valid q' -> rank q = rank q' -> q = q'.
Proof. destruct q, q'. query_consts. intros. f_equal; lia. Qed.

(** The 64-bit query id determines its shift and bit number: two valid
    ids with the same [query_id] are the same id, the value fits the 23 bits
    the wallet stores it in, and it decodes by division by 1024. *)
Theorem query_id_roundtrip (q q' : HighLoadQueryId) :
  valid q -> valid q' ->
  0 <= query_id q < 2 ^ 23 /\
  mkQueryId (query_id q / 1024) (query_id q mod 1024) = q /\
  (query_id q = query_id q' -> q = q').
Proof.
  intros Hq Hq'. rewrite !query_id_eq by done. query_consts.
  assert (Hd : (shift q * 1024 + bitnumber q) / 1024 = shift q).
  { rewrite Z.add_comm, Z.div_add by lia. rewrite Z.div_small by lia. lia. }
  assert (Hm : (shift q * 1024 + bitnumber q) mod 1024 = bitnumber q).
  { rewrite Z.add_comm, Z.mod_add by lia. apply Z.mod_small. lia. }
  split; [lia|]. rewrite Hd, Hm. split; [by destruct q|].
  intros H. apply rank_inj; query_consts; lia.
Qed.

Lemma query_id_roundtrip_witness :
  0 <= query_id (mkQueryId 8191 1022) < 2 ^ 23 /\
  mkQueryId (query_id (mkQueryId 8191 1022) / 1024) (query_id (mkQueryId 8191 1022) mod 1024)
    = mkQueryId 8191 1022 /\
  (query_id (mkQueryId 8191 1022) = query_id (mkQueryId 0 0) -> mkQueryId 8191 1022 = mkQueryId 0 0).
Proof.
  apply (query_id_roundtrip (mkQueryId 8191 1022) (mkQueryId 0 0));
    unfold valid, MAX_SHIFT, MAX_BITNUMBER; simpl; lia.
Defined.

(** [n] successive calls of [next] from a given id. *)
Fixpoint iter_next (n : nat) (q : HighLoadQueryId) : result HighLoadQueryId HighLoadQueryIdError :=
  match n with
  | O => Ok q
  | S n => rbind (iter_next n q) next
  end.

Lemma iter_next_rank n q :
  valid q -> rank q + Z.of_nat n <= LAST_RANK ->
  exists q', iter_next n q = Ok q' /\ valid q' /\ rank q' = rank q + Z.of_nat n.
Proof.
  intros Hq. induction n as [|n IH]; intros Hn; [eexists; split; [done|split; [done|lia]]|].
  destruct IH as (q1 & H1 & Hv1 & Hr1); [lia|]. simpl. rewrite H1. simpl.
  destruct (next_cases q1 Hv1) as [(q2 & -> & Hv2 & Hr2) | [[Hr _] | [Hr _]]].
  - exists q2. split; [done|]. split; [done|lia].
  - lia.
  - lia.
Qed.

(** Starting at [(0, 0)], [next] yields a fresh id for [LAST_RANK]
    (8,380,413) calls in a row, each with a strictly larger query id, and the
    call after that is refused with [EmergencyOverload]. *)
Theorem next_enumerates (n : nat) :
  Z.of_nat n <= LAST_RANK ->
  exists q, iter_next n (mkQueryId 0 0) = Ok q /\ valid q /\ rank q = Z.of_nat n /\
    (Z.of_nat n < LAST_RANK ->
       exists q', next q = Ok q' /\ valid q' /\ query_id q < query_id q') /\
    (Z.of_nat n = LAST_RANK -> next q = Err EmergencyOverload).
Proof.
  intros Hn.
  assert (H0 : valid (mkQueryId 0 0)) by (query_consts; lia).
  destruct (iter_next_rank n (mkQueryId 0 0) H0) as (q & Hq & Hv & Hr); [query_consts; lia|].
  replace (rank (mkQueryId 0 0)) with 0 in Hr by done.
  exists q. split; [done|]. split; [done|]. split; [lia|].
  destruct (next_cases q Hv) as [(q' & Hq' & Hv' & Hr') | [[Hlast He] | [Hlast He]]].
  - split; [intros _; exists q'; rewrite rank_query_id by done; split; [done|split; [done|lia]]|].
    intros Hl. exfalso. destruct Hv as [Hs Hb]. destruct q as [s b]. query_consts.
    assert (s = 8191 /\ b = 1020) as [-> ->] by lia. discriminate Hq'.
  - split; [lia|done].
  - lia.
Qed.

Lemma next_enumerates_witness :
  Z.of_nat 3 <= LAST_RANK /\
  exists q, iter_next 3 (mkQueryId 0 0) = Ok q /\ valid q /\ rank q = Z.of_nat 3 /\
    (Z.of_nat 3 < LAST_RANK ->
       exists q', next q = Ok q' /\ valid q' /\ query_id q < query_id q') /\
    (Z.of_nat 3 = LAST_RANK -> next q = Err EmergencyOverload).
Proof. split; [vm_compute; discriminate | apply (next_enumerates 3); vm_compute; discriminate]. Defined.

(** [has_next] and [next] disagree.  The last id that [next] reaches is
    announced as having a successor, and [next] refuses it; conversely
    [(8191, 1021)] is announced as exhausted although [next] succeeds on it. *)
Theorem has_next_disagrees :
  (has_next (mkQueryId 8191 1020) = true /\
   next (mkQueryId 8191 1020) = Err EmergencyOverload) /\
  (has_next (mkQueryId 8191 1021) = false /\
   next (mkQueryId 8191 1021) = Ok (mkQueryId 8191 1022)).
Proof. repeat split. Qed.

(** ** The allocator over its table *)

Definition row_id (r : QueryIdRow) : HighLoadQueryId := mkQueryId (row_shift r) (row_bitnumber r).
Definition rows_valid (t : gmap string QueryIdRow) : Prop := map_Forall (fun _ r => valid (row_id r)) t.
Definition live_row (now : Z) (address : string) (t : gmap string QueryIdRow) : option QueryIdRow :=
  match t !! address with
  | Some r => if now <=? expires_at r then Some r else None
  | None => None
  end.

Definition expiry_after (timeout : Z) : Z := wrap_i32 (wrap_i32 timeout * TIMEOUT_BUFFER_MULTIPLIER).

Lemma pg_get_value now address t :
  (match t !! address with
   | Some r => if now <=? expires_at r then (row_shift r, row_bitnumber r) else (-1, -1)
   | None => (-1, -1)
   end) =
  match live_row now address t with
  | Some r => (row_shift r, row_bitnumber r)
  | None => (-1, -1)
  end.
Proof. unfold live_row. destruct (t !! address) as [r|]; [|done]. by destruct (now <=? expires_at r). Qed.

Lemma wrap_i32_valid x : 0 <= x <= MAX_SHIFT -> wrap_i32 x = x.
Proof.
  unfold MAX_SHIFT. intros H. unfold wrap_i32. apply signed_small; [lia|].
  change (2 ^ (32 - 1)) with 2147483648. lia.
Qed.

Lemma choose_none : choose (-1, -1) = Ok (mkQueryId 0 0).
Proof. reflexivity. Qed.

Lemma choose_row r q :
  valid (row_id r) -> choose (row_shift r, row_bitnumber r) = Ok q ->
  valid q /\ rank q = rank (row_id r) + 1.
Proof.
  intros Hv. pose proof Hv as [Hs Hb]. simpl in Hs, Hb. unfold choose.
  destruct (Z.ltb_spec (row_shift r) 0); [lia|]. destruct (Z.ltb_spec (row_bitnumber r) 0); [lia|]. simpl.
  rewrite !wrap_u32_small by (query_consts; lia).
  rewrite from_shift_valid by done. simpl. fold (row_id r).
  destruct (has_next (row_id r)); [|done].
  destruct (next_cases _ Hv) as [(q' & -> & Hv' & Hr') | [[_ ->] | [_ ->]]]; simpl; try done.
  intros [= <-]. done.
Qed.

Lemma query_id_zero q : valid q -> query_id q = 0 <-> q = mkQueryId 0 0.
Proof.
  intros Hv. rewrite query_id_eq by done. split; [|by intros ->].
  destruct q as [s b]. query_consts. intros. f_equal; lia.
Qed.

(** What a run of the allocator does to the row of [address]: [Some] a
    returned id, [None] an error, with the row before and after. *)
Lemma db_next_run address timeout (s : QueryIdStore) :
  rows_valid (tables s) ->
  exists fs,
  (exists e, db_wrapper_next address timeout s = (Done (Err e), mkStore (tables s) (clock s) fs)) \/
  (exists r q, live_row (clock s) address (tables s) = Some r /\ valid q /\
     rank q = rank (row_id r) + 1 /\
     db_wrapper_next address timeout s =
       (Done (Ok q), mkStore (<[address := mkRow (shift q) (bitnumber q) (expires_at r)]> (tables s))
                       (clock s) fs)) \/
  (live_row (clock s) address (tables s) = None /\
     db_wrapper_next address timeout s =
       (Done (Ok (mkQueryId 0 0)),
        mkStore (<[address := mkRow 0 0 (clock s + expiry_after timeout)]> (tables s)) (clock s) fs)).
Proof.
  intros Hrows. unfold db_wrapper_next. simpl. unfold pg_get_query_id.
  destruct (next_fault s) as [e|] eqn:Hf.
  { exists (tail (faults s)). left. exists DatabaseError.
    rewrite bind_ok_run, map_err_run. unfold sql_query. by rewrite (sql_fault _ _ e Hf). }
  set (s1 := mkStore (tables s) (clock s) (tail (faults s))).
  set (p := match live_row (clock s) address (tables s) with
            | Some r => (row_shift r, row_bitnumber r) | None => (-1, -1) end).
  erewrite bind_ok_done; [|rewrite map_err_run; unfold sql_query; rewrite (sql_no_fault _ _ Hf); simpl;
    rewrite pg_get_value; fold p s1; reflexivity].
  destruct (choose p) as [q|e] eqn:Hc;
    [|exists (faults s1); left; exists e; reflexivity].
  rewrite bind_ok_run. simpl.
  assert (Hvq : valid q /\ match live_row (clock s) address (tables s) with
                           | Some r => rank q = rank (row_id r) + 1 | None => q = mkQueryId 0 0 end).
  { subst p. destruct (live_row (clock s) address (tables s)) as [r|] eqn:Hl.
    - apply choose_row; [|done]. unfold live_row in Hl.
      destruct (tables s !! address) as [r'|] eqn:Hlk; [|done].
      destruct (clock s <=? expires_at r'); [|done]. simplify_eq. exact (Hrows _ _ Hlk).
    - rewrite choose_none in Hc. simplify_eq. split; [query_consts; lia|done]. }
  destruct Hvq as [Hv Hl]. rewrite bind_ok_run, !(wrap_i32_valid (shift q)), !(wrap_i32_valid (bitnumber q))
    by (destruct Hv; query_consts; lia).
  destruct (Z.eqb_spec (query_id q) 0) as [Hz|Hz]; rewrite map_err_run; unfold pg_upsert_query_id, pg_update_query_id, sql_exec;
    destruct (next_fault s1) as [e|] eqn:Hf1.
  1, 3: exists (tail (faults s1)); left; exists DatabaseError; by rewrite (sql_fault _ _ e Hf1).
  - exists (tail (faults s1)). right. right. rewrite (sql_no_fault _ _ Hf1). simpl.
    apply query_id_zero in Hz; [|done]. subst q. split; [|done].
    destruct (live_row (clock s) address (tables s)) as [r|] eqn:Hlr; [|done].
    exfalso. unfold live_row in Hlr. destruct (tables s !! address) as [r'|] eqn:Hlk; [|done].
    destruct (clock s <=? expires_at r'); [|done]. simplify_eq.
    pose proof (Hrows _ _ Hlk) as Hvr. simpl in Hvr. unfold row_id in *. query_consts. lia.
  - exists (tail (faults s1)). right. left. rewrite (sql_no_fault _ _ Hf1). simpl.
    destruct (live_row (clock s) address (tables s)) as [r|] eqn:Hlr.
    + exists r, q. split; [done|]. split; [done|]. split; [done|]. do 2 f_equal.
      unfold live_row in Hlr. destruct (tables s !! address) as [r'|] eqn:Hlk; [|done].
      destruct (clock s <=? expires_at r'); [|done]. simplify_eq.
      apply map_eq. intros k. destruct (decide (k = address)) as [->|Hk].
      * by rewrite lookup_alter_eq, lookup_insert_eq, Hlk.
      * by rewrite lookup_alter_ne, lookup_insert_ne by done.
    + exfalso. subst q. by apply Hz.
Qed.

Lemma rows_valid_insert t address r :
  rows_valid t -> valid (row_id r) -> rows_valid (<[address := r]> t).
Proof. intros Ht Hr. apply map_Forall_insert_2; done. Qed.

Lemma live_row_lookup now address t r :
  live_row now address t = Some r <-> t !! address = Some r /\ now <= expires_at r.
Proof.
  unfold live_row. destruct (t !! address) as [r'|]; [|split; [done|by intros [? _]]].
  destruct (Z.leb_spec now (expires_at r')); (split; [intros ?|intros [? ?]]); simplify_eq; done || lia.
Qed.

(** What one allocation does.  The table keeps holding valid ids; the
    rows of the other wallets never change; a refused or failed allocation
    changes nothing; an id handed out for a live row is its successor and
    leaves the expiry as it was; with no live row the epoch restarts at
    [(0, 0)], with an expiry of three timeouts (in 32-bit arithmetic). *)
Theorem db_next_sound (address : string) (timeout : Z) (s : QueryIdStore) :
  rows_valid (tables s) ->
  let t' := tables (snd (db_wrapper_next address timeout s)) in
  rows_valid t' /\
  (forall other, other <> address -> t' !! other = tables s !! other) /\
  match fst (db_wrapper_next address timeout s) with
  | Panic _ => False
  | Done (Err _) => t' = tables s
  | Done (Ok q) => valid q /\
      match live_row (clock s) address (tables s) with
      | Some r => rank q = rank (row_id r) + 1 /\
                  t' !! address = Some (mkRow (shift q) (bitnumber q) (expires_at r))
      | None => q = mkQueryId 0 0 /\
                t' !! address = Some (mkRow 0 0 (clock s + expiry_after timeout))
      end
  end.
Proof.
  intros Hrows.
  destruct (db_next_run address timeout s Hrows)
    as (fs & [[e ->] | [(r & q & Hl & Hv & Hr & ->) | [Hl ->]]]); simpl.
  - done.
  - rewrite Hl. split; [by apply rows_valid_insert; [|destruct q]|].
    split; [intros other Ho; by rewrite lookup_insert_ne by done|].
    by rewrite lookup_insert_eq.
  - rewrite Hl. split; [apply rows_valid_insert; [done|]; query_consts; lia|].
    split; [intros other Ho; by rewrite lookup_insert_ne by done|].
    rewrite lookup_insert_eq. split; [query_consts; lia|done].
Qed.

Lemma db_next_sound_witness :
  let s := mkStore {["w" := mkRow 2 1022 500]} 100 [] in
  let t' := tables (snd (db_wrapper_next "w" 60 s)) in
  rows_valid t' /\
  (forall other, other <> "w" -> t' !! other = tables s !! other) /\
  match fst (db_wrapper_next "w" 60 s) with
  | Panic _ => False
  | Done (Err _) => t' = tables s
  | Done (Ok q) => valid q /\
      match live_row (clock s) "w" (tables s) with
      | Some r => rank q = rank (row_id r) + 1 /\
                  t' !! "w" = Some (mkRow (shift q) (bitnumber q) (expires_at r))
      | None => q = mkQueryId 0 0 /\
                t' !! "w" = Some (mkRow 0 0 (clock s + expiry_after 60))
      end
  end.
Proof.
  apply (db_next_sound "w" 60 (mkStore {["w" := mkRow 2 1022 500]} 100 [])).
  apply map_Forall_singleton. unfold valid, MAX_SHIFT, MAX_BITNUMBER. simpl. lia.
Defined.

(** A run of allocations for one wallet: [ds] the seconds that pass before
    each; the ids handed out with the time they were. *)
Fixpoint session (address : string) (timeout : Z) (ds : list Z) (s : QueryIdStore) :
  list (Z * HighLoadQueryId) :=
  match ds with
  | [] => []
  | d :: ds =>
      match db_wrapper_next address timeout (advance d s) with
      | (Done (Ok q), s') => (clock s', q) :: session address timeout ds s'
      | (_, s') => session address timeout ds s'
      end
  end.

Definition elapsed (ds : list Z) : Z := foldr Z.add 0 ds.

Lemma elapsed_nonneg ds : Forall (Z.le 0) ds -> 0 <= elapsed ds.
Proof. induction 1; simpl; [done|unfold elapsed in *; lia]. Qed.

Lemma session_sorted address timeout ds s r :
  rows_valid (tables s) -> Forall (Z.le 0) ds ->
  live_row (clock s) address (tables s) = Some r ->
  clock s + elapsed ds <= expires_at r ->
  StronglySorted (fun q q' => valid q' /\ rank q < rank q')
    (row_id r :: map snd (session address timeout ds s)).
Proof.
  revert s r. induction ds as [|d ds IH]; intros s r Hrows Hds Hl Hend; [repeat constructor|].
  apply Forall_cons in Hds as [Hd Hds]. pose proof (elapsed_nonneg ds Hds) as He.
  change (elapsed (d :: ds)) with (d + elapsed ds) in Hend.
  pose proof Hl as [Hlk _]%live_row_lookup.
  assert (Hl1 : live_row (clock (advance d s)) address (tables (advance d s)) = Some r).
  { apply live_row_lookup. simpl. split; [done|lia]. }
  simpl session. destruct (db_next_run address timeout (advance d s) Hrows)
    as (fs & [[e ->] | [(r' & q & Hl' & Hv & Hr & ->) | [Hl' ->]]]).
  - apply IH; simpl; [done|done|apply live_row_lookup; split; [done|lia]|lia].
  - rewrite Hl1 in Hl'. simplify_eq. simpl map.
    assert (IHq : StronglySorted (fun q q' => valid q' /\ rank q < rank q')
              (q :: map snd (session address timeout ds (mkStore
                 (<[address := mkRow (shift q) (bitnumber q) (expires_at r')]> (tables s)) (clock s + d) fs)))).
    { replace q with (row_id (mkRow (shift q) (bitnumber q) (expires_at r'))) at 1 by (by destruct q).
      apply IH; simpl; [by apply rows_valid_insert; [|destruct q]|done| |lia].
      apply live_row_lookup. rewrite lookup_insert_eq. simpl. split; [done|lia]. }
    constructor; [exact IHq|]. apply StronglySorted_inv in IHq as [_ Hall].
    constructor; [split; [done|lia]|]. eapply Forall_impl; [exact Hall|]. simpl. intros q' [? ?].
    split; [done|lia].
  - by rewrite Hl1 in Hl'.
Qed.

(** As long as the row of a wallet has not expired, no id is handed out
    twice: over any number of allocations, with failing statements and pauses
    in between, every id has a larger query id than all the ones before. *)
Theorem session_no_reuse (address : string) (timeout : Z) (ds : list Z) (s : QueryIdStore)
    (r : QueryIdRow) :
  rows_valid (tables s) -> Forall (Z.le 0) ds ->
  live_row (clock s) address (tables s) = Some r ->
  clock s + elapsed ds <= expires_at r ->
  StronglySorted (fun q q' => query_id q < query_id q')
    (row_id r :: map snd (session address timeout ds s)).
Proof.
  intros Hrows Hds Hl Hend.
  pose proof (session_sorted address timeout ds s r Hrows Hds Hl Hend) as Hs.
  assert (Hv : valid (row_id r)).
  { apply live_row_lookup in Hl as [Hl _]. exact (Hrows _ _ Hl). }
  revert Hv Hs. generalize (row_id r) as q. generalize (map snd (session address timeout ds s)) as l.
  induction l as [|q' l IH]; intros q Hv [Hs Hall]%StronglySorted_inv; [repeat constructor|].
  pose proof (Forall_inv Hall) as [Hv' _]. constructor; [by apply IH|].
  apply (Forall_impl _ _ _ Hall). intros x [Hvx Hr]. by apply rank_query_id.
Qed.

Lemma session_no_reuse_witness :
  let s := mkStore {["w" := mkRow 0 0 180]} 0 [None; None; None; Some "down"] in
  StronglySorted (fun q q' => query_id q < query_id q')
    (row_id (mkRow 0 0 180) :: map snd (session "w" 60 [10; 5; 0; 100] s)).
Proof.
  apply (session_no_reuse "w" 60 [10; 5; 0; 100]
           (mkStore {["w" := mkRow 0 0 180]} 0 [None; None; None; Some "down"]) (mkRow 0 0 180)).
  - apply map_Forall_singleton. unfold valid, MAX_SHIFT, MAX_BITNUMBER. simpl. lia.
  - repeat constructor; vm_compute; discriminate.
  - reflexivity.
  - vm_compute. discriminate.
Defined.

(** The expiry is fixed when an epoch starts and is not moved by later
    allocations, so an id handed out at the end of an epoch is handed out
    again in the next one: with the timeout of 60 seconds the wallet's
    messages live, the id [(0, 1)] is given out twice two seconds apart. *)
Theorem reuse_within_timeout :
  let ids := session "w" 60 [0; 179; 2; 0] (mkStore ∅ 0 []) in
  ids = [(0, mkQueryId 0 0); (179, mkQueryId 0 1); (181, mkQueryId 0 0); (181, mkQueryId 0 1)] /\
  exists t1 t2 q, (t1, q) ∈ ids /\ (t2, q) ∈ ids /\ t1 < t2 < t1 + 60.
Proof.
  split; [vm_compute; reflexivity|].
  exists 179, 181, (mkQueryId 0 1). split; [|split; [|lia]]; vm_compute; set_solver.
Qed.

(** When the ids of an epoch run out, the allocator reports a
    [ConstructionError] (the answer to a malformed row) and never reaches its
    [NoNextQueryId] case: the table of an exhausted wallet is left alone. *)
Theorem exhausted_epoch_error (address : string) (timeout : Z) (s : QueryIdStore) (r : QueryIdRow) :
  faults s = [] -> live_row (clock s) address (tables s) = Some r ->
  valid (row_id r) -> rank (row_id r) = LAST_RANK ->
  db_wrapper_next address timeout s = (Done (Err ConstructionError), s).
Proof.
  intros Hf Hl Hv Hr. destruct s as [t c fs]. simpl in *. subst fs.
  apply live_row_lookup in Hl as [Hl He].
  assert (row_id r = mkQueryId 8191 1020) as Hid.
  { apply rank_inj; [done|query_consts; lia|by rewrite Hr]. }
  unfold db_wrapper_next. rewrite bind_ok_run, map_err_run. simpl.
  unfold pg_get_query_id, sql_query, sql. simpl. rewrite Hl.
  destruct (Z.leb_spec c (expires_at r)); [|lia]. destruct r as [rs rb rx].
  unfold row_id in Hid. simpl in Hid. simplify_eq. reflexivity.
Qed.

Lemma exhausted_epoch_error_witness :
  let s := mkStore {["w" := mkRow 8191 1020 500]} 100 [] in
  db_wrapper_next "w" 60 s = (Done (Err ConstructionError), s).
Proof.
  apply (exhausted_epoch_error "w" 60 (mkStore {["w" := mkRow 8191 1020 500]} 100 [])
           (mkRow 8191 1020 500)); [reflexivity|reflexivity| |reflexivity].
  unfold valid, MAX_SHIFT, MAX_BITNUMBER. simpl. lia.
Defined.
