(* ===== verification/Replay.v ===== *)
(** * Replays of query ids

    The wallet contract refuses a query id it has seen lately.  What "lately"
    means is in the documentation of
    [ton/src/high_load_query_id_db_wrapper.rs], as the contract's own lines:
    two sets of ids, and the time they were last swapped.  Here the ids the
    allocator hands out ([HighLoadQueryId]) are sent to that contract. *)

From stdpp Require Import gmap.
From S2P Require Import Prelude.
From S2P Require Import Store.
From S2P Require Import HighLoadQueryId.

(** ** The contract's memory *)

(** src/ton/src/high_load_query_id_db_wrapper.rs:10-18 queries, old_queries and last_clean_time *)
Record Contract : Type := mkContract {
  queries : gset Z;
  old_queries : gset Z;
  last_clean_time : Z;
}.

(** src/ton/src/high_load_query_id_db_wrapper.rs:10-18 the clean-up *)
Definition clean_up (timeout now : Z) (c : Contract) : Contract :=
  if last_clean_time c <? now - timeout then
    mkContract ∅ (if last_clean_time c <? now - timeout * 2 then ∅ else queries c) now
  else c.

(** src/ton/src/high_load_query_id_db_wrapper.rs:22-27 "Can Send?" (a refused message leaves the contract as it was) *)
Definition receive (timeout now : Z) (id : Z) (c : Contract) : bool * Contract :=
  let c' := clean_up timeout now c in
  if bool_decide (id ∈ queries c') || bool_decide (id ∈ old_queries c') then (false, c)
  else (true, mkContract ({[id]} ∪ queries c') (old_queries c') (last_clean_time c')).

(** Each id is sent when it is handed out; the contract's answers. *)
Fixpoint deliver_all (timeout : Z) (log : list (Z * HighLoadQueryId)) (c : Contract) : list bool :=
  match log with
  | [] => []
  | (now, q) :: log =>
      let '(b, c) := receive timeout now (query_id q) c in
      b :: deliver_all timeout log c
  end.

(** ** What the contract remembers *)

Section contract.
Variable T : Z.
Hypothesis T_pos : 0 < T.

(** The ids in the two sets were sent since then. *)
Record remembers (sent : list (Z * HighLoadQueryId)) (now : Z) (c : Contract) : Prop := {
  rem_clock : last_clean_time c <= now;
  rem_new : forall x, x ∈ queries c -> exists t q, (t, q) ∈ sent /\ query_id q = x /\ last_clean_time c <= t;
  rem_old : forall x, x ∈ old_queries c -> exists t q, (t, q) ∈ sent /\ query_id q = x /\ last_clean_time c - 2 * T <= t;
}.

Lemma clean_up_remembers sent now now' c :
  remembers sent now c -> now <= now' ->
  remembers sent now' (clean_up T now' c) /\ now' - T <= last_clean_time (clean_up T now' c).
Proof.
  intros [H1 H2 H3] Hle. unfold clean_up. destruct (Z.ltb_spec (last_clean_time c) (now' - T)); [|by split; [split; [lia|..]|lia]].
  split; [|simpl; lia]. split; simpl; [lia|by intros x ?%not_elem_of_empty|].
  destruct (Z.ltb_spec (last_clean_time c) (now' - T * 2)); [by intros x ?%not_elem_of_empty|].
  intros x Hx. destruct (H2 x Hx) as (t & q & Hin & Hq & Ht). exists t, q. split; [done|]. split; [done|lia].
Qed.

Lemma remembers_more sent l now c : remembers sent now c -> remembers (sent ++ l) now c.
Proof.
  intros [H1 H2 H3]. split; [done|..]; intros x Hx.
  - destruct (H2 x Hx) as (t & q & Hin & ?). exists t, q. split; [apply elem_of_app; by left|done].
  - destruct (H3 x Hx) as (t & q & Hin & ?). exists t, q. split; [apply elem_of_app; by left|done].
Qed.

(** One message: refused only if its id was sent in the last three timeouts. *)
Lemma receive_remembers sent now t q c : remembers sent now c -> now <= t ->
  remembers (sent ++ [(t, q)]) t (snd (receive T t (query_id q) c)) /\
  (fst (receive T t (query_id q) c) = false ->
   exists t0 q0, (t0, q0) ∈ sent /\ query_id q0 = query_id q /\ t - 3 * T <= t0).
Proof.
  intros Hr Hle. destruct (clean_up_remembers sent now t c Hr Hle) as [Hc Hfresh]. unfold receive.
  case_bool_decide as Hnew; [|case_bool_decide as Hold]; simpl.
  - split; [apply remembers_more; destruct Hr as [H1 H2 H3]; by split; [lia|..]|]. intros _.
    destruct (rem_new _ _ _ Hc _ Hnew) as (t0 & q0 & Hin & Hq & Ht). exists t0, q0. split; [done|]. split; [done|lia].
  - split; [apply remembers_more; destruct Hr as [H1 H2 H3]; by split; [lia|..]|]. intros _.
    destruct (rem_old _ _ _ Hc _ Hold) as (t0 & q0 & Hin & Hq & Ht). exists t0, q0. split; [done|]. split; [done|lia].
  - split; [|done]. apply (remembers_more _ [(t, q)]) in Hc as [H1 H2 H3]. split; simpl; [done| |done].
    intros x [->%elem_of_singleton|Hx]%elem_of_union; [|auto].
    exists t, q. split; [apply elem_of_app; right; by left|done].
Qed.

(** The messages of a log, in the order of their times. *)
Fixpoint from_on (now : Z) (log : list (Z * HighLoadQueryId)) : Prop :=
  match log with [] => True | (t, _) :: log => now <= t /\ from_on t log end.

Lemma refused_recent log : forall sent now c i t q,
  remembers sent now c -> from_on now log -> log !! i = Some (t, q) -> deliver_all T log c !! i = Some false ->
  (exists t0 q0, (t0, q0) ∈ sent /\ query_id q0 = query_id q /\ t - 3 * T <= t0) \/
  exists j t0 q0, (j < i)%nat /\ log !! j = Some (t0, q0) /\ query_id q0 = query_id q /\ t - 3 * T <= t0.
Proof.
  induction log as [|[t1 q1] log IH]; intros sent now c i t q Hr Hfrom Hi Hb; [done|]. destruct Hfrom as [Hle Hfrom]. simpl in Hb.
  destruct (receive_remembers sent now t1 q1 c Hr Hle) as [Hr' Hrec]. destruct (receive T t1 (query_id q1) c) as [b c'].
  destruct i as [|i]; simpl in *; [left; simplify_eq; by apply Hrec|].
  destruct (IH _ _ _ _ _ _ Hr' Hfrom Hi Hb) as [(t0 & q0 & [Hin| [= -> ->]%list_elem_of_singleton]%elem_of_app & Hq & Ht)|(j & t0 & q0 & Hj & Hl & Hq & Ht)].
  - left. by exists t0, q0.
  - right. exists 0%nat, t1, q1. split; [lia|done].
  - right. exists (S j), t0, q0. split; [lia|done].
Qed.
End contract.

(** ** The epochs of a log *)

Abbreviation FIRST := (mkQueryId 0 0).

(** After the id [q] of an epoch begun at [e]: the next one is its successor,
    in time, or the first of a new epoch, once the old one has expired. *)
Fixpoint epochs (T e : Z) (q : HighLoadQueryId) (log : list (Z * HighLoadQueryId)) : Prop :=
  match log with
  | [] => True
  | (t, q') :: log =>
      (rank q' = rank q + 1 /\ t <= e + 3 * T /\ epochs T e q' log) \/
      (q' = FIRST /\ e + 3 * T < t /\ epochs T t q' log)
  end.

(** A log from its first epoch on. *)
Definition epochs_from_start (T : Z) (log : list (Z * HighLoadQueryId)) : Prop :=
  match log with [] => True | (t, q) :: log => q = FIRST /\ epochs T t q log end.

Lemma expiry_small T : 0 < T -> 3 * T < 2 ^ 31 -> expiry_after T = 3 * T.
Proof.
  intros H1 H2. unfold expiry_after, TIMEOUT_BUFFER_MULTIPLIER, wrap_i32.
  change (2 ^ 31) with 2147483648 in H2.
  rewrite (signed_small 32 T), signed_small; change (2 ^ (32 - 1)) with 2147483648; lia.
Qed.

Section sessions.
Variable address : string.
Variable T : Z.
Hypothesis T_pos : 0 < T.
Hypothesis T_small : 3 * T < 2 ^ 31.

Lemma session_times ds s : Forall (Z.le 0) ds -> rows_valid (tables s) -> from_on (clock s) (session address T ds s).
Proof.
  revert s. induction ds as [|d ds IH]; intros s [Hd Hds]%Forall_cons_1 Hrows || intros s _ _; [done|]. simpl.
  assert (Hlater : forall now now' l, now <= now' -> from_on now' l -> from_on now l).
  { intros now now' [|[t q] l]; simpl; [done|]. intros ? [? ?]. split; [lia|done]. }
  destruct (db_next_run address T (advance d s) Hrows) as (fs & [[e ->]|[(r & q & Hl & Hv & Hr & ->)|[Hl ->]]]).
  - eapply Hlater; [|apply IH; done]. simpl. lia.
  - split; [simpl; lia|]. apply IH; [done|]. apply rows_valid_insert; [done|]. by destruct q.
  - split; [simpl; lia|]. apply IH; [done|]. apply rows_valid_insert; [done|]. query_consts. lia.
Qed.

Lemma session_epochs ds s r e :
  rows_valid (tables s) -> Forall (Z.le 0) ds -> tables s !! address = Some r -> expires_at r = e + 3 * T ->
  epochs T e (row_id r) (session address T ds s).
Proof.
  revert s r e. induction ds as [|d ds IH]; intros s r e Hrows Hds Hr He; [done|]. apply Forall_cons in Hds as [Hd Hds]. simpl.
  destruct (db_next_run address T (advance d s) Hrows) as (fs & [[e0 ->]|[(r' & q & Hl & Hv & Hq & ->)|[Hl ->]]]).
  - by eapply IH.
  - apply live_row_lookup in Hl as [Hl Hlive]. simpl in Hl. rewrite Hr in Hl. injection Hl as <-. left.
    split; [done|]. split; [cbn [clock advance] in *; lia|].
    replace q with (row_id (mkRow (shift q) (bitnumber q) (expires_at r))) at 1 by (by destruct q).
    apply IH; [by apply rows_valid_insert; [|destruct q]|done|apply lookup_insert_eq|done].
  - right. split; [done|]. split.
    + unfold live_row in Hl. simpl in Hl. rewrite Hr in Hl. destruct (Z.leb_spec (clock s + d) (expires_at r)); [done|]. cbn [clock advance]. lia.
    + apply (IH _ (mkRow 0 0 (clock s + d + expiry_after T))); [apply rows_valid_insert; [done|query_consts; lia]|done|apply lookup_insert_eq|].
      simpl. by rewrite expiry_small.
Qed.

Lemma session_start ds s :
  rows_valid (tables s) -> Forall (Z.le 0) ds -> tables s !! address = None ->
  epochs_from_start T (session address T ds s).
Proof.
  revert s. induction ds as [|d ds IH]; intros s Hrows Hds Hr; [done|]. apply Forall_cons in Hds as [Hd Hds]. simpl.
  destruct (db_next_run address T (advance d s) Hrows) as (fs & [[e0 ->]|[(r' & q & Hl & Hv & Hq & ->)|[Hl ->]]]).
  - by apply IH.
  - apply live_row_lookup in Hl as [Hl _]. simpl in Hl. congruence.
  - split; [done|]. apply (session_epochs ds _ (mkRow 0 0 (clock s + d + expiry_after T))).
    + apply rows_valid_insert; [done|query_consts; lia].
    + done.
    + apply lookup_insert_eq.
    + simpl. by rewrite expiry_small.
Qed.
End sessions.

Section epochs.
Variable T : Z.
Hypothesis T_pos : 0 < T.

(** An id comes later in its epoch, or after the next one began. *)
Lemma epochs_restart log : forall e q m t q', epochs T e q log -> log !! m = Some (t, q') ->
  rank q < rank q' \/ exists k t1, (k <= m)%nat /\ log !! k = Some (t1, FIRST) /\ e + 3 * T < t1.
Proof.
  induction log as [|[t1 q1] log IH]; intros e q m t q' He Hm; [done|]. destruct He as [(Hq & _ & He)|(-> & Ht & _)].
  - destruct m as [|m]; [left; simplify_eq/=; lia|]. destruct (IH e q1 m t q' He Hm) as [|(k & t2 & Hk & Hl & Ht)]; [left; lia|].
    right. exists (S k), t2. split; [lia|done].
  - right. exists 0%nat, t1. split; [lia|done].
Qed.

(** The epoch an id belongs to. *)
Lemma epochs_entry log : forall e q i t q', epochs T e q log -> log !! i = Some (t, q') ->
  exists e1, t <= e1 + 3 * T /\ epochs T e1 q' (drop (S i) log) /\
    (e1 = e \/ exists h, (h <= i)%nat /\ log !! h = Some (e1, FIRST)).
Proof.
  induction log as [|[t1 q1] log IH]; intros e q i t q' He Hi; [done|]. destruct He as [(Hq & Ht & He)|(-> & Ht & He)].
  - destruct i as [|i].
    + injection Hi as -> ->. exists e. split; [done|]. split; [done|by left].
    + destruct (IH e q1 i t q' He Hi) as (e1 & H1 & H2 & H). exists e1. split; [done|]. split; [done|].
      destruct H as [->|(h & Hh & Hl)]; [by left|right]. exists (S h). split; [lia|done].
  - destruct i as [|i].
    + injection Hi as -> <-. exists t. split; [lia|]. split; [done|]. right. by exists 0%nat.
    + destruct (IH t1 FIRST i t q' He Hi) as (e1 & H1 & H2 & H). exists e1. split; [done|]. split; [done|]. right.
      destruct H as [->|(h & Hh & Hl)]; [exists 0%nat|exists (S h)]; (split; [lia|done]).
Qed.

Lemma start_entry log i t q : epochs_from_start T log -> log !! i = Some (t, q) ->
  exists e h, t <= e + 3 * T /\ epochs T e q (drop (S i) log) /\ (h <= i)%nat /\ log !! h = Some (e, FIRST).
Proof.
  destruct log as [|[t1 q1] log]; [done|]. intros [-> He]. destruct i as [|i].
  - intros [= -> <-]. exists t, 0%nat. split; [lia|done].
  - intros Hi. destruct (epochs_entry log t1 FIRST i t q He Hi) as (e1 & H1 & H2 & [->|(h & Hh & Hl)]).
    + exists t1, 0%nat. split; [done|]. split; [done|]. split; [lia|done].
    + exists e1, (S h). split; [done|]. split; [done|]. split; [lia|done].
Qed.
End epochs.

Lemma session_valid address T ds s : rows_valid (tables s) -> Forall (fun x => valid (snd x)) (session address T ds s).
Proof.
  revert s. induction ds as [|d ds IH]; intros s Hrows; [constructor|]. simpl.
  destruct (db_next_run address T (advance d s) Hrows) as (fs & [[e0 ->]|[(r' & q & Hl & Hv & Hq & ->)|[Hl ->]]]).
  - by apply IH.
  - constructor; [done|]. apply IH, rows_valid_insert; [done|]. by destruct q.
  - constructor; [query_consts; lia|]. apply IH, rows_valid_insert; [done|query_consts; lia].
Qed.

(** C7: the contract refuses no id of the allocator but those of an epoch that
    is in a hurry.  Take any schedule of allocations for a new wallet, with
    statements that fail, and send each id when it is handed out.  If the
    contract refuses one, the same id was sent at most three timeouts before,
    in an earlier epoch, and a new epoch, begun more than three timeouts after
    that one, handed it out sooner after its own beginning.  So within an
    epoch nothing is refused, the ids an epoch begins with never are, and
    three timeouts are enough when no epoch is faster than those before. *)
Theorem refused_only_in_haste (address : string) (T : Z) (ds : list Z) (s : QueryIdStore) (c : Contract)
    (j : nat) (t : Z) (q : HighLoadQueryId) :
  0 < T -> 3 * T < 2 ^ 31 -> rows_valid (tables s) -> Forall (Z.le 0) ds -> tables s !! address = None ->
  queries c = ∅ -> old_queries c = ∅ -> last_clean_time c <= clock s ->
  let log := session address T ds s in
  log !! j = Some (t, q) -> deliver_all T log c !! j = Some false ->
  exists h i k e t0 e', (h <= i < k)%nat /\ (k <= j)%nat /\
    log !! h = Some (e, FIRST) /\ log !! i = Some (t0, q) /\ log !! k = Some (e', FIRST) /\
    t - t0 <= 3 * T /\ e + 3 * T < e' /\ t - e' < t0 - e.
Proof.
  intros HT Hsmall Hrows Hds Hnone Hq Hold Hc log Hj Hb.
  assert (Hr : remembers T [] (clock s) c).
  { split; [done|rewrite Hq; by intros x ?%not_elem_of_empty|rewrite Hold; by intros x ?%not_elem_of_empty]. }
  destruct (refused_recent T HT log [] (clock s) c j t q Hr (session_times address T ds s Hds Hrows) Hj Hb)
    as [(t0 & q0 & H & _)|(i & t0 & q0 & Hij & Hi & Hid & Ht)]; [by apply not_elem_of_nil in H|].
  pose proof (session_valid address T ds s Hrows) as Hv. fold log in Hv. rewrite Forall_lookup in Hv.
  assert (q0 = q) as ->.
  { apply (query_id_roundtrip q0 q); [exact (Hv _ _ Hi)|exact (Hv _ _ Hj)|exact Hid]. }
  destruct (start_entry T HT log i t0 q (session_start address T HT Hsmall ds s Hrows Hds Hnone) Hi) as (e & h & He & Htail & Hh & Hlh).
  destruct (epochs_restart T (drop (S i) log) e q (j - S i) t q Htail) as [|(k & e' & Hk & Hlk & He')]; [|lia|].
  { rewrite lookup_drop. replace (S i + (j - S i))%nat with j by lia. exact Hj. }
  rewrite lookup_drop in Hlk. exists h, i, (S i + k)%nat, e, t0, e'. repeat (split; [first [done|lia]|]). lia.
Qed.

(** ** The hurry that is enough *)

Lemma allocate_first address T t now : live_row now address t = None ->
  db_wrapper_next address T (mkStore t now []) =
    (Done (Ok FIRST), mkStore (<[address := mkRow 0 0 (now + expiry_after T)]> t) now []).
Proof.
  intros Hl. unfold db_wrapper_next. rewrite bind_ok_run, map_err_run. simpl.
  unfold pg_get_query_id, sql_query, sql. simpl. rewrite pg_get_value, Hl. reflexivity.
Qed.

Lemma allocate_second address T t now x : now <= x ->
  db_wrapper_next address T (mkStore (<[address := mkRow 0 0 x]> t) now []) =
    (Done (Ok (mkQueryId 0 1)), mkStore (<[address := mkRow 0 1 x]> t) now []).
Proof.
  intros Hx. unfold db_wrapper_next. rewrite bind_ok_run, map_err_run. simpl.
  unfold pg_get_query_id, sql_query, sql. simpl. rewrite lookup_insert_eq. cbn [expires_at row_shift row_bitnumber].
  rewrite (proj2 (Z.leb_le now x) Hx), bind_ok_run. change (ret (choose (0, 0))) with (@ret QueryIdStore _ (choose (0, 0))).
  assert (Hc : choose (0, 0) = Ok (mkQueryId 0 1)) by reflexivity. rewrite Hc. cbn [ret].
  rewrite bind_ok_run. change (query_id (mkQueryId 0 1) =? 0) with false. cbv iota. rewrite map_err_run.
  unfold pg_update_query_id, sql_exec, sql. cbn [next_fault faults clock tables fst snd rmap_err ret]. by rewrite alter_insert_eq.
Qed.

Lemma session_ok address T d ds t now q t' :
  db_wrapper_next address T (mkStore t (now + d) []) = (Done (Ok q), mkStore t' (now + d) []) ->
  session address T (d :: ds) (mkStore t now []) = (now + d, q) :: session address T ds (mkStore t' (now + d) []).
Proof. intros H. simpl. unfold advance. simpl. by rewrite H. Qed.

Section receive.
Context (T now x : Z) (c : Contract).

Lemma receive_new : now - T <= last_clean_time c -> x ∉ queries c -> x ∉ old_queries c ->
  receive T now x c = (true, mkContract ({[x]} ∪ queries c) (old_queries c) (last_clean_time c)).
Proof.
  intros Hc Hq Ho. unfold receive, clean_up. rewrite (proj2 (Z.ltb_ge _ _)) by lia.
  by rewrite !bool_decide_eq_false_2.
Qed.

Lemma receive_again : now - T <= last_clean_time c -> x ∈ queries c -> receive T now x c = (false, c).
Proof. intros Hc Hq. unfold receive, clean_up. rewrite (proj2 (Z.ltb_ge _ _)) by lia. by rewrite bool_decide_eq_true_2. Qed.

Lemma receive_forgot : 0 < T -> last_clean_time c < now - T * 2 -> receive T now x c = (true, mkContract ({[x]} ∪ ∅) ∅ now).
Proof.
  intros HT Hc. unfold receive, clean_up. rewrite !(proj2 (Z.ltb_lt _ _)) by lia.
  by rewrite !bool_decide_eq_false_2 by apply not_elem_of_empty.
Qed.
End receive.

(** C38: three timeouts from the start of an epoch are not enough.  A wallet
    whose second id is handed out when the epoch is about to expire, and
    which then sends two messages at once, hands that id out twice a second
    apart, and the contract refuses it, whatever the timeout: the expiry of
    the row is not moved when an id is used. *)
Theorem late_id_refused (address : string) (T : Z) :
  0 < T -> 3 * T < 2 ^ 31 ->
  let log := session address T [0; 3 * T; 1; 0] (mkStore ∅ 0 []) in
  log = [(0, FIRST); (3 * T, mkQueryId 0 1); (3 * T + 1, FIRST); (3 * T + 1, mkQueryId 0 1)] /\
  deliver_all T log (mkContract ∅ ∅ 0) = [true; true; true; false].
Proof.
  intros HT Hsmall log.
  assert (Hlog : log = [(0, FIRST); (3 * T, mkQueryId 0 1); (3 * T + 1, FIRST); (3 * T + 1, mkQueryId 0 1)]).
  { unfold log. erewrite session_ok by (by apply allocate_first). erewrite session_ok by (apply allocate_second; rewrite expiry_small; lia).
    erewrite session_ok by (apply allocate_first; unfold live_row; rewrite lookup_insert_eq; cbn [expires_at]; rewrite expiry_small by done;
      by rewrite (proj2 (Z.leb_gt _ _)) by lia).
    rewrite insert_insert_eq. erewrite session_ok by (apply allocate_second; rewrite expiry_small; lia).
    cbn [session]. by rewrite !Z.add_0_r, !Z.add_0_l. }
  split; [exact Hlog|]. rewrite Hlog. cbn [deliver_all].
  rewrite receive_new by (cbn [last_clean_time queries old_queries]; first [lia|apply not_elem_of_empty]). cbn [last_clean_time queries old_queries].
  rewrite receive_forgot by (cbn [last_clean_time]; lia).
  rewrite receive_new; cbn [last_clean_time queries old_queries]; [|lia|vm_compute query_id; set_solver|apply not_elem_of_empty].
  rewrite receive_again; cbn [last_clean_time queries]; [done|lia|set_solver].
Qed.

(** ** A concrete schedule *)

Module ReplayDemo.
Definition hurried : list Z := [0; 179; 2; 0].
Definition new_wallet : QueryIdStore := mkStore ∅ 0 [].
Definition new_contract : Contract := mkContract ∅ ∅ 0.
End ReplayDemo.
Import ReplayDemo.

Lemma refused_only_in_haste_witness :
  let log := session "w" 60 hurried new_wallet in
  log !! 3%nat = Some (181, mkQueryId 0 1) /\ deliver_all 60 log new_contract !! 3%nat = Some false /\
  exists h i k e t0 e', (h <= i < k)%nat /\ (k <= 3)%nat /\
    log !! h = Some (e, FIRST) /\ log !! i = Some (t0, mkQueryId 0 1) /\ log !! k = Some (e', FIRST) /\
    181 - t0 <= 3 * 60 /\ e + 3 * 60 < e' /\ 181 - e' < t0 - e.
Proof.
  intros log. split; [vm_compute; reflexivity|]. split; [vm_compute; reflexivity|].
  apply (refused_only_in_haste "w" 60 hurried new_wallet new_contract 3 181 (mkQueryId 0 1));
    try reflexivity; try (vm_compute; reflexivity); try (vm_compute; discriminate).
  repeat constructor; vm_compute; discriminate.
Defined.

Lemma late_id_refused_witness :
  let log := session "w" 3600 [0; 3 * 3600; 1; 0] (mkStore ∅ 0 []) in
  log = [(0, FIRST); (3 * 3600, mkQueryId 0 1); (3 * 3600 + 1, FIRST); (3 * 3600 + 1, mkQueryId 0 1)] /\
  deliver_all 3600 log (mkContract ∅ ∅ 0) = [true; true; true; false].
Proof. apply (late_id_refused "w" 3600); reflexivity. Defined.
