(* ===== verification/GmpTypes.v ===== *)
(** * The GMP data model

    [relayer_base/src/gmp_api/gmp_types.rs] (tasks, events and their parts)
    and [relayer_base/src/error.rs].  A JSON document that the code only
    carries around is a [Value].  A serde map becomes a [gmap], whose lookups
    are the only thing the code asks of it. *)

From S2P Require Import Prelude.

#[warnings="-register-all"]
Inductive Value : Type :=
| VNull
| VBool (b : bool)
| VNumber (n : string)
| VString (s : string)
| VArray (vs : list Value)
| VObject (fields : list (string * Value)).

(** src/relayer_base/src/gmp_api/gmp_types.rs:7-19 GatewayV2Message *)
Record GatewayV2Message : Type := mkMessage {
  message_id : string;
  source_chain : string;
  source_address : string;
  destination_address : string;
  payload_hash : string;
}.

(** src/relayer_base/src/gmp_api/gmp_types.rs:21-26 Amount *)
Record Amount : Type := mkAmount {
  token_id : option string;
  amount : string;
}.

(** src/relayer_base/src/gmp_api/gmp_types.rs:322-328 ScopedMessage *)
Record ScopedMessage : Type := mkScoped {
  scoped_message_id : string;
  scoped_source_chain : string;
}.

(** src/relayer_base/src/gmp_api/gmp_types.rs:277-288 TaskMetadata *)
Record TaskMetadata : Type := mkTaskMeta {
  task_tx_id : option string;
  task_from_address : option string;
  task_finalized : option bool;
  task_source_context : option (gmap string string);
  scoped_messages : option (list ScopedMessage);
}.

(** src/relayer_base/src/gmp_api/gmp_types.rs:28-35 CommonTaskFields *)
Record CommonTaskFields : Type := mkCommonTask {
  id : string;
  chain : string;
  task_timestamp : string;
  task_type : string;
  task_meta : option TaskMetadata;
}.

(** src/relayer_base/src/gmp_api/gmp_types.rs:37-43 ExecuteTaskFields *)
Record ExecuteTaskFields : Type := mkExecuteFields {
  execute_message : GatewayV2Message;
  execute_payload : string;
  available_gas_balance : Amount;
}.
(** src/relayer_base/src/gmp_api/gmp_types.rs:45-50 ExecuteTask *)
Record ExecuteTask : Type := mkExecuteTask {
  execute_common : CommonTaskFields;
  execute_task : ExecuteTaskFields;
}.

(** src/relayer_base/src/gmp_api/gmp_types.rs:52-56 GatewayTxTaskFields *)
Record GatewayTxTaskFields : Type := mkGatewayTxFields {
  execute_data : string;
}.
(** src/relayer_base/src/gmp_api/gmp_types.rs:58-63 GatewayTxTask *)
Record GatewayTxTask : Type := mkGatewayTxTask {
  gateway_common : CommonTaskFields;
  gateway_task : GatewayTxTaskFields;
}.

(** src/relayer_base/src/gmp_api/gmp_types.rs:65-69 VerifyTaskFields *)
Record VerifyTaskFields : Type := mkVerifyFields {
  verify_message : GatewayV2Message;
  verify_payload : string;
}.
(** src/relayer_base/src/gmp_api/gmp_types.rs:71-76 VerifyTask *)
Record VerifyTask : Type := mkVerifyTask {
  verify_common : CommonTaskFields;
  verify_task : VerifyTaskFields;
}.

(** src/relayer_base/src/gmp_api/gmp_types.rs:78-82 ConstructProofTaskFields *)
Record ConstructProofTaskFields : Type := mkProofFields {
  proof_message : GatewayV2Message;
  proof_payload : string;
}.
(** src/relayer_base/src/gmp_api/gmp_types.rs:84-89 ConstructProofTask *)
Record ConstructProofTask : Type := mkProofTask {
  proof_common : CommonTaskFields;
  proof_task : ConstructProofTaskFields;
}.

(** src/relayer_base/src/gmp_api/gmp_types.rs:165-169 EventAttribute *)
Record EventAttribute : Type := mkAttribute {
  attribute_key : string;
  attribute_value : string;
}.
(** src/relayer_base/src/gmp_api/gmp_types.rs:171-175 WasmEvent *)
Record WasmEvent : Type := mkWasmEvent {
  attributes : list EventAttribute;
  wasm_type : string;
}.

(** src/relayer_base/src/gmp_api/gmp_types.rs:91-95 ReactToWasmEventTaskFields *)
Record ReactToWasmEventTaskFields : Type := mkWasmFields {
  wasm_event : WasmEvent;
  height : Z;
}.
(** src/relayer_base/src/gmp_api/gmp_types.rs:177-182 ReactToWasmEventTask *)
Record ReactToWasmEventTask : Type := mkWasmTask {
  wasm_common : CommonTaskFields;
  wasm_task : ReactToWasmEventTaskFields;
}.

(** src/relayer_base/src/gmp_api/gmp_types.rs:97-107 ReactToExpiredSigningSessionTaskFields *)
Record ReactToExpiredSigningSessionTaskFields : Type := mkExpiredFields {
  session_id : Z;
  expired_broadcast_id : string;
  expired_contract_address : string;
  expired_request_payload : string;
}.
(** src/relayer_base/src/gmp_api/gmp_types.rs:109-114 ReactToExpiredSigningSessionTask *)
Record ReactToExpiredSigningSessionTask : Type := mkExpiredTask {
  expired_common : CommonTaskFields;
  expired_task : ReactToExpiredSigningSessionTaskFields;
}.

(** src/relayer_base/src/gmp_api/gmp_types.rs:344-360 VerificationStatus *)
Inductive VerificationStatus : Type :=
| SucceededOnSourceChain
| FailedOnSourceChain
| FailedOnDestinationChain
| NotFoundOnSourceChain
| FailedToVerify
| InProgress
| UnknownStatus.

(** src/relayer_base/src/gmp_api/gmp_types.rs:130-134 QuorumReachedEvent *)
Record QuorumReachedEvent : Type := mkQuorumEvent {
  quorum_status : VerificationStatus;
  quorum_content : Value;
}.
(** src/relayer_base/src/gmp_api/gmp_types.rs:116-128 ReactToRetriablePollTaskFields *)
Record ReactToRetriablePollTaskFields : Type := mkPollFields {
  poll_id : Z;
  poll_broadcast_id : string;
  poll_contract_address : string;
  poll_request_payload : string;
  quorum_reached_events : option (list QuorumReachedEvent);
}.
(** src/relayer_base/src/gmp_api/gmp_types.rs:136-141 ReactToRetriablePollTask *)
Record ReactToRetriablePollTask : Type := mkPollTask {
  poll_common : CommonTaskFields;
  poll_task : ReactToRetriablePollTaskFields;
}.

(** src/relayer_base/src/gmp_api/gmp_types.rs:184-191 RefundTaskFields *)
Record RefundTaskFields : Type := mkRefundFields {
  refund_message : GatewayV2Message;
  refund_recipient_address : string;
  remaining_gas_balance : Amount;
}.
(** src/relayer_base/src/gmp_api/gmp_types.rs:193-198 RefundTask *)
Record RefundTask : Type := mkRefundTask {
  refund_common : CommonTaskFields;
  refund_task : RefundTaskFields;
}.

(** src/relayer_base/src/gmp_api/gmp_types.rs:206-210 UnknownTask *)
Record UnknownTask : Type := mkUnknownTask {
  unknown_common : CommonTaskFields;
}.

(** src/relayer_base/src/gmp_api/gmp_types.rs:143-147 RetryTask *)
Inductive RetryTask : Type :=
| RetryPoll (t : ReactToRetriablePollTask)
| RetrySession (t : ReactToExpiredSigningSessionTask).

(** src/relayer_base/src/gmp_api/gmp_types.rs:150-155 RetryTask::request_payload *)
Definition request_payload (t : RetryTask) : string :=
  match t with
  | RetryPoll t => poll_request_payload (poll_task t)
  | RetrySession t => expired_request_payload (expired_task t)
  end.

(** src/relayer_base/src/gmp_api/gmp_types.rs:157-162 RetryTask::invoked_contract_address *)
Definition invoked_contract_address (t : RetryTask) : string :=
  match t with
  | RetryPoll t => poll_contract_address (poll_task t)
  | RetrySession t => expired_contract_address (expired_task t)
  end.

(** src/relayer_base/src/gmp_api/gmp_types.rs:212-223 Task *)
Inductive Task : Type :=
| TVerify (t : VerifyTask)
| TExecute (t : ExecuteTask)
| TGatewayTx (t : GatewayTxTask)
| TConstructProof (t : ConstructProofTask)
| TReactToWasmEvent (t : ReactToWasmEventTask)
| TRefund (t : RefundTask)
| TReactToExpiredSigningSession (t : ReactToExpiredSigningSessionTask)
| TReactToRetriablePoll (t : ReactToRetriablePollTask)
| TUnknown (t : UnknownTask).

(** src/relayer_base/src/gmp_api/gmp_types.rs:225-236 TaskKind *)
Inductive TaskKind : Type :=
| Verify
| Execute
| GatewayTx
| ConstructProof
| ReactToWasmEvent
| Refund
| ReactToExpiredSigningSession
| ReactToRetriablePoll
| Unknown.

#[export] Instance TaskKind_eq_dec : EqDecision TaskKind.
Proof. solve_decision. Defined.

Definition common (t : Task) : CommonTaskFields :=
  match t with
  | TVerify t => verify_common t
  | TExecute t => execute_common t
  | TGatewayTx t => gateway_common t
  | TConstructProof t => proof_common t
  | TReactToWasmEvent t => wasm_common t
  | TRefund t => refund_common t
  | TReactToExpiredSigningSession t => expired_common t
  | TReactToRetriablePoll t => poll_common t
  | TUnknown t => unknown_common t
  end.

(** src/relayer_base/src/gmp_api/gmp_types.rs:239-251 Task::id *)
Definition task_id (t : Task) : string := id (common t).

(** src/relayer_base/src/gmp_api/gmp_types.rs:253-266 Task::kind *)
Definition kind (t : Task) : TaskKind :=
  match t with
  | TVerify _ => Verify
  | TExecute _ => Execute
  | TGatewayTx _ => GatewayTx
  | TConstructProof _ => ConstructProof
  | TReactToWasmEvent _ => ReactToWasmEvent
  | TRefund _ => Refund
  | TReactToExpiredSigningSession _ => ReactToExpiredSigningSession
  | TReactToRetriablePoll _ => ReactToRetriablePoll
  | TUnknown _ => Unknown
  end.

(** src/relayer_base/src/gmp_api/gmp_types.rs:269-275 CommonEventFields *)
Record CommonEventFields (T : Type) : Type := mkCommonEvent {
  event_type : string;
  event_id : string;
  event_meta : option T;
}.
Arguments mkCommonEvent {T} event_type event_id event_meta.
Arguments event_type {T} c.
Arguments event_id {T} c.
Arguments event_meta {T} c.

(** src/relayer_base/src/gmp_api/gmp_types.rs:290-300 EventMetadata *)
Record EventMetadata : Type := mkEventMeta {
  tx_id : option string;
  from_address : option string;
  finalized : option bool;
  source_context : option (gmap string string);
  timestamp : string;
}.

(** src/relayer_base/src/gmp_api/gmp_types.rs:302-308 MessageApprovedEventMetadata *)
Record MessageApprovedEventMetadata : Type := mkApprovedMeta {
  approved_meta : EventMetadata;
  approved_command_id : option string;
}.

(** src/relayer_base/src/gmp_api/gmp_types.rs:310-320 MessageExecutedEventMetadata *)
Record MessageExecutedEventMetadata : Type := mkExecutedMeta {
  executed_meta : EventMetadata;
  executed_command_id : option string;
  child_message_ids : option (list string);
  revert_reason : option string;
}.

(** src/relayer_base/src/gmp_api/gmp_types.rs:330-335 CannotExecuteMessageReason *)
Inductive CannotExecuteMessageReason : Type :=
| InsufficientGas
| ExecuteError.

(** src/relayer_base/src/gmp_api/gmp_types.rs:337-342 MessageExecutionStatus *)
Inductive MessageExecutionStatus : Type :=
| SUCCESSFUL
| REVERTED.

(** src/relayer_base/src/gmp_api/gmp_types.rs:362-435 Event *)
Inductive Event : Type :=
| Call (common : CommonEventFields EventMetadata) (message : GatewayV2Message)
    (destination_chain : string) (payload : string)
| GasRefunded (common : CommonEventFields EventMetadata) (message_id : string)
    (recipient_address : string) (refunded_amount : Amount) (cost : Amount)
| GasCredit (common : CommonEventFields EventMetadata) (message_id : string)
    (refund_address : string) (payment : Amount)
| MessageApproved (common : CommonEventFields MessageApprovedEventMetadata)
    (message : GatewayV2Message) (cost : Amount)
| MessageExecuted (common : CommonEventFields MessageExecutedEventMetadata) (message_id : string)
    (source_chain : string) (status : MessageExecutionStatus) (cost : Amount)
| CannotExecuteMessageV2 (common : CommonEventFields EventMetadata) (message_id : string)
    (source_chain : string) (reason : CannotExecuteMessageReason) (details : string)
| ITSInterchainTransfer (common : CommonEventFields EventMetadata) (message_id : string)
    (destination_chain : string) (token_spent : Amount) (source_address : string)
    (destination_address : string) (data_hash : string).

(** src/relayer_base/src/gmp_api/gmp_types.rs:437-443 PostEventResult *)
Record PostEventResult : Type := mkPostResult {
  status : string;
  index : nat;
  error : option string;
  retriable : option bool;
}.
(** src/relayer_base/src/gmp_api/gmp_types.rs:445-448 PostEventResponse *)
Record PostEventResponse : Type := mkPostResponse {
  results : list PostEventResult;
}.

(** src/relayer_base/src/gmp_api/gmp_types.rs:450-453 EventMessage *)
Record EventMessage : Type := mkEventMessage {
  events : list Event;
}.

(** src/relayer_base/src/gmp_api/gmp_types.rs:455-458 BroadcastRequest *)
Inductive BroadcastRequest : Type :=
| BroadcastGeneric (v : Value).

(** src/relayer_base/src/gmp_api/gmp_types.rs:460-463 QueryRequest *)
Inductive QueryRequest : Type :=
| QueryGeneric (v : Value).

(** src/relayer_base/src/gmp_api/gmp_types.rs:465-468 StorePayloadResult *)
Record StorePayloadResult : Type := mkStorePayload {
  keccak256 : string;
}.

(** ** Errors *)

(** src/relayer_base/src/error.rs:3-15 IncluderError *)
Inductive IncluderError : Type :=
| IncConnection
| IncRPCError (s : string)
| IncConsumerError (s : string)
| IncIrrelevantTask
| IncGenericError (s : string).

(** src/relayer_base/src/error.rs:17-25 RefundManagerError *)
Inductive RefundManagerError : Type :=
| RefInvalidAmount (s : string)
| RefInvalidRecipient (s : string)
| RefGenericError (s : string).

(** src/relayer_base/src/error.rs:27-41 BroadcasterError *)
Inductive BroadcasterError : Type :=
| BcConnectionFailed (s : string)
| BcRPCCallFailed (s : string)
| BcRPCError (s : string)
| BcInsufficientGas (s : string)
| BcIrrelevantTask (s : string)
| BcGenericError (s : string).

(** src/relayer_base/src/error.rs:43-51 ClientError *)
Inductive ClientError : Type :=
| CliConnectionFailed (s : string)
| CliBadRequest (s : string)
| CliBadResponse (s : string).

(** src/relayer_base/src/error.rs:53-69 GmpApiError *)
Inductive GmpApiError : Type :=
| GmpConnectionFailed (s : string)
| GmpRequestFailed (s : string)
| GmpErrorResponse (s : string)
| GmpInvalidResponse (s : string)
| GmpInvalidRequest (s : string)
| GmpTimeout (s : string)
| GmpGenericError (s : string).

(** src/relayer_base/src/error.rs:71-89 IngestorError *)
Inductive IngestorError : Type :=
| IngPostEventError (s : string)
| IngRetriableError (s : string)
| IngIrrelevantTask
| IngTaskMaxRetriesReached
| IngParseError (s : string)
| IngUnsupportedTransaction (s : string)
| IngUnexpectedChainTransactionType (s : string)
| IngGenericError (s : string).

(** src/relayer_base/src/error.rs:91-101 ITSTranslationError *)
Inductive ITSTranslationError : Type :=
| ItsRequestError (s : string)
| ItsInvalidMessageType (s : string)
| ItsNoPayload (s : string)
| ItsSerializationError (s : string).

(** src/relayer_base/src/error.rs:103-107 DistributorError *)
Inductive DistributorError : Type :=
| DistGenericError (s : string).

(** src/relayer_base/src/error.rs:109-113 SubscriberError *)
Inductive SubscriberError : Type :=
| SubGenericError (s : string).

#[export] Instance BroadcasterError_eq_dec : EqDecision BroadcasterError.
Proof. solve_decision. Defined.

(** [thiserror]'s [Display] of the errors whose text the code embeds in
    another error. *)
(** src/relayer_base/src/error.rs:27-41 BroadcasterError (Display) *)
Definition show_BroadcasterError (e : BroadcasterError) : string :=
  match e with
  | BcConnectionFailed s => "Connection failed: " +:+ s
  | BcRPCCallFailed s => "RPC Call Failed: " +:+ s
  | BcRPCError s => "RPC call failed: " +:+ s
  | BcInsufficientGas s => "Insufficient gas: " +:+ s
  | BcIrrelevantTask s => "Irrelevant task: " +:+ s
  | BcGenericError s => "Generic error: " +:+ s
  end.

(** src/relayer_base/src/error.rs:53-69 GmpApiError (Display) *)
Definition show_GmpApiError (e : GmpApiError) : string :=
  match e with
  | GmpConnectionFailed s => "Connection failed: " +:+ s
  | GmpRequestFailed s => "GMP API Request failed: " +:+ s
  | GmpErrorResponse s => "GMP API Returned Error: " +:+ s
  | GmpInvalidResponse s => "Failed to parse response from GMP API: " +:+ s
  | GmpInvalidRequest s => "Invalid Request: " +:+ s
  | GmpTimeout s => "Timeout: " +:+ s
  | GmpGenericError s => "Generic error: " +:+ s
  end.

(** src/relayer_base/src/error.rs:43-51 ClientError (Display) *)
Definition show_ClientError (e : ClientError) : string :=
  match e with
  | CliConnectionFailed s => "Connection failed: " +:+ s
  | CliBadRequest s => "Bad request: " +:+ s
  | CliBadResponse s => "Bad response: " +:+ s
  end.

(** src/relayer_base/src/error.rs:71-89 IngestorError (Display) *)
Definition show_IngestorError (e : IngestorError) : string :=
  match e with
  | IngPostEventError s => "Failed to post event on GMP API: " +:+ s
  | IngRetriableError s => "Failed with retriable error: " +:+ s
  | IngIrrelevantTask => "Irrelevant task"
  | IngTaskMaxRetriesReached => "Task max retries reached"
  | IngParseError s => "Failed to parse data: " +:+ s
  | IngUnsupportedTransaction s => "Unsupported transaction: " +:+ s
  | IngUnexpectedChainTransactionType s => "Unsupported Chain Transaction Type: " +:+ s
  | IngGenericError s => "Generic error: " +:+ s
  end.
