(* ===== verification/Text.v ===== *)
(** * Text

    The string functions of the standard library that the code uses, and the
    interfaces of the [hex], [base64] and [serde_json] crates.  A byte string
    is a [string]. *)

From S2P Require Import Prelude.
From S2P Require Import GmpTypes.

(** ** [hex] and [base64] *)

Class Codecs : Type := {
  hex_encode : string -> string;
  hex_decode : string -> result string string;
  base64_encode : string -> string;
  base64_decode : string -> result string string;
}.

Class CodecLaws `{!Codecs} : Prop := {
  hex_roundtrip : forall b, hex_decode (hex_encode b) = Ok b;
  base64_roundtrip : forall b, base64_decode (base64_encode b) = Ok b;
}.

(** Text as its own code: an instance for concrete runs. *)
Definition text_codecs : Codecs := {|
  hex_encode := fun b => b; hex_decode := Ok;
  base64_encode := fun b => b; base64_decode := Ok;
|}.

Lemma text_codec_laws : @CodecLaws text_codecs.
Proof. by split. Qed.

(** ** [serde_json] *)

Class Json : Type := {
  parse_json : string -> result Value string;
  print_json : Value -> string;
}.

Class Deserialize (T : Type) : Type := { from_value : Value -> result T string }.
Class Serialize (T : Type) : Type := { to_json : T -> result string string }.

(** [Value::get] with a string key and [Value::as_str]. *)
Definition value_get (v : Value) (k : string) : option Value :=
  match v with
  | VObject fields => snd <$> List.find (fun p => bool_decide (fst p = k)) fields
  | _ => None
  end.

Definition as_str (v : Value) : option string :=
  match v with VString s => Some s | _ => None end.

(** ** [str] *)

(** [str::to_lowercase] on ASCII text. *)
Definition lower_ascii (c : Ascii.ascii) : Ascii.ascii :=
  let n := Ascii.nat_of_ascii c in
  if ((65 <=? n) && (n <=? 90))%nat then Ascii.ascii_of_nat (n + 32) else c.

Fixpoint to_lowercase (s : string) : string :=
  match s with
  | EmptyString => EmptyString
  | String c s => String (lower_ascii c) (to_lowercase s)
  end.

(** [str::strip_prefix]. *)
Fixpoint strip_prefix (p s : string) : option string :=
  match p, s with
  | EmptyString, _ => Some s
  | String c p, String d s => if decide (c = d) then strip_prefix p s else None
  | String _ _, EmptyString => None
  end.

(** [str::trim_start_matches] with a non-empty pattern: prefixes are removed
    until there is none. *)
Fixpoint trim_fuel (fuel : nat) (p s : string) : string :=
  match fuel with
  | O => s
  | S fuel => match strip_prefix p s with
              | Some s' => trim_fuel fuel p s'
              | None => s
              end
  end.
Definition trim_start_matches (p s : string) : string := trim_fuel (String.length s) p s.

Lemma strip_prefix_spec p s s' : strip_prefix p s = Some s' <-> s = p +:+ s'.
Proof.
  revert s. induction p as [|c p IH]; intros s; simpl.
  - split; [by intros [= <-]|by intros ->].
  - destruct s as [|d s]; [done|]. destruct (decide (c = d)) as [->|Hc].
    + rewrite IH. split; [by intros ->|by intros [= ->]].
    + split; [done|]. intros [= -> _]. done.
Qed.

Lemma trim_fuel_stops fuel p s :
  p <> EmptyString -> (String.length s <= fuel)%nat -> strip_prefix p (trim_fuel fuel p s) = None.
Proof.
  intros Hp. revert s. induction fuel as [|fuel IH]; intros s Hl; simpl.
  - destruct s; [|simpl in Hl; lia]. by destruct p.
  - destruct (strip_prefix p s) as [s'|] eqn:E; [|done]. apply IH.
    apply strip_prefix_spec in E. subst s. rewrite string_length_app in Hl.
    destruct p; [done|]. simpl in Hl. lia.
Qed.

(** The trimmed text does not start with the pattern any more. *)
Lemma trim_start_matches_stops p s :
  p <> EmptyString -> strip_prefix p (trim_start_matches p s) = None.
Proof. intros Hp. by apply trim_fuel_stops. Qed.

Lemma trim_once p s :
  p <> EmptyString -> strip_prefix p s = None -> trim_start_matches p (p +:+ s) = s.
Proof.
  intros Hp Hs. unfold trim_start_matches. rewrite string_length_app.
  destruct (String.length p) as [|n] eqn:E; [by destruct p|]. cbn [Nat.add trim_fuel].
  rewrite (proj2 (strip_prefix_spec p (p +:+ s) s) eq_refl).
  destruct (n + String.length s)%nat; simpl; [done|]. by rewrite Hs.
Qed.

(** [str::contains]. *)
Fixpoint contains (pat s : string) : bool :=
  match strip_prefix pat s with
  | Some _ => true
  | None => match s with EmptyString => false | String _ s => contains pat s end
  end.

(** [str::split] on a character. *)
Fixpoint split (sep : Ascii.ascii) (s : string) : list string :=
  match s with
  | EmptyString => [EmptyString]
  | String c s =>
      if decide (c = sep) then EmptyString :: split sep s
      else match split sep s with
           | w :: ws => String c w :: ws
           | [] => [String c EmptyString]
           end
  end.

(** [str::repeat]. *)
Fixpoint repeat_string (s : string) (n : nat) : string :=
  match n with O => EmptyString | S n => s +:+ repeat_string s n end.

(** [String::from_utf8] on bytes: the well-formed sequences of the Unicode
    standard (no overlong form, no surrogate, nothing above U+10FFFF). *)
Definition byte_in (lo hi : Z) (c : Ascii.ascii) : bool :=
  let n := Z.of_nat (Ascii.nat_of_ascii c) in (lo <=? n) && (n <=? hi).
Definition continuation (c : Ascii.ascii) : bool := byte_in 128 191 c.

Fixpoint utf8_valid (s : string) : bool :=
  match s with
  | EmptyString => true
  | String a s =>
      if byte_in 0 127 a then utf8_valid s
      else match s with
      | EmptyString => false
      | String b s =>
          if byte_in 194 223 a then continuation b && utf8_valid s
          else match s with
          | EmptyString => false
          | String c s =>
              if byte_in 224 239 a then
                continuation b && continuation c &&
                (if byte_in 224 224 a then byte_in 160 191 b
                 else if byte_in 237 237 a then byte_in 128 159 b else true) && utf8_valid s
              else match s with
              | EmptyString => false
              | String d s =>
                  byte_in 240 244 a && continuation b && continuation c && continuation d &&
                  (if byte_in 240 240 a then byte_in 144 191 b
                   else if byte_in 244 244 a then byte_in 128 143 b else true) && utf8_valid s
              end
          end
      end
  end.

Definition from_utf8 (bytes : string) : result string string :=
  if utf8_valid bytes then Ok bytes else Err "invalid utf-8 sequence".
