(* ===== verification/Utf8.v ===== *)
(** * Characters

    [String::from_utf8_lossy], [str::chars], [str::replace] with an empty
    text, [char::is_control] and [trim_end_matches]: what the standard library
    does on byte strings.  A character is its UTF-8 encoding. *)

From S2P Require Import Prelude.
From S2P Require Import Text.

(** ** Reading a character *)

Definition second_of_three (a b : Ascii.ascii) : bool :=
  if byte_in 224 224 a then byte_in 160 191 b
  else if byte_in 237 237 a then byte_in 128 159 b
  else continuation b.

Definition second_of_four (a b : Ascii.ascii) : bool :=
  if byte_in 240 240 a then byte_in 144 191 b
  else if byte_in 244 244 a then byte_in 128 143 b
  else continuation b.

(** The well-formed sequence at the head of a text, and what follows it. *)
Definition next_char (s : string) : option (string * string) :=
  match s with
  | EmptyString => None
  | String a s =>
      if byte_in 0 127 a then Some (String a EmptyString, s)
      else match s with
      | EmptyString => None
      | String b s =>
          if byte_in 194 223 a then
            if continuation b then Some (String a (String b EmptyString), s) else None
          else match s with
          | EmptyString => None
          | String c s =>
              if byte_in 224 239 a then
                if second_of_three a b && continuation c
                then Some (String a (String b (String c EmptyString)), s) else None
              else match s with
              | EmptyString => None
              | String d s =>
                  if byte_in 240 244 a && second_of_four a b && continuation c && continuation d
                  then Some (String a (String b (String c (String d EmptyString))), s) else None
              end
          end
      end
  end.

(** How many bytes one replacement character stands for, where no sequence is
    well formed: the longest beginning of one. *)
Definition invalid_length (s : string) : nat :=
  match s with
  | String a (String b s) =>
      if byte_in 224 239 a && second_of_three a b then 2
      else if byte_in 240 244 a && second_of_four a b then
        match s with String c _ => if continuation c then 3 else 2 | EmptyString => 2 end
      else 1
  | _ => 1
  end%nat.

Fixpoint skip_bytes (n : nat) (s : string) : string :=
  match n, s with
  | O, _ => s
  | _, EmptyString => EmptyString
  | S n, String _ s => skip_bytes n s
  end.

(** U+FFFD. *)
Definition REPLACEMENT : string := String "239" (String "191" (String "189" EmptyString)).

Fixpoint chars_fuel (fuel : nat) (s : string) : list string :=
  match fuel, s with
  | O, _ | _, EmptyString => []
  | S fuel, _ =>
      match next_char s with
      | Some (c, s') => c :: chars_fuel fuel s'
      | None => REPLACEMENT :: chars_fuel fuel (skip_bytes (invalid_length s) s)
      end
  end.

(** [str::chars]; on bytes that are no text, the characters of the lossy text. *)
Definition chars (s : string) : list string := chars_fuel (String.length s) s.

Fixpoint concat_chars (cs : list string) : string :=
  match cs with [] => EmptyString | c :: cs => c +:+ concat_chars cs end.

Definition from_utf8_lossy (bytes : string) : string := concat_chars (chars bytes).

(** [char::is_control]: U+0000 to U+001F and U+007F to U+009F. *)
Definition is_control (c : string) : bool :=
  match c with
  | String a EmptyString => byte_in 0 31 a || byte_in 127 127 a
  | String a (String b EmptyString) => byte_in 194 194 a && byte_in 128 159 b
  | _ => false
  end.

(** [str::replace] by nothing. *)
Fixpoint remove_fuel (fuel : nat) (pat s : string) : string :=
  match fuel, s with
  | O, _ | _, EmptyString => EmptyString
  | S fuel, String c s' =>
      match strip_prefix pat s with
      | Some rest => remove_fuel fuel pat rest
      | None => String c (remove_fuel fuel pat s')
      end
  end.
Definition remove_all (pat s : string) : string := remove_fuel (String.length s) pat s.

(** [str::trim_end_matches] with a character. *)
Fixpoint trim_end_char (c : Ascii.ascii) (s : string) : string :=
  match s with
  | EmptyString => EmptyString
  | String a s =>
      match trim_end_char c s with
      | EmptyString => if decide (a = c) then EmptyString else String a EmptyString
      | t => String a t
      end
  end.

(** ** Laws *)

Lemma app_string (x : Ascii.ascii) (a b : string) : String x a +:+ b = String x (a +:+ b).
Proof. reflexivity. Qed.

Lemma string_app_assoc (a b c : string) : (a +:+ b) +:+ c = a +:+ (b +:+ c).
Proof. induction a as [|x a IH]; [done|]. rewrite !app_string. by f_equal. Qed.

Lemma string_app_nil (a : string) : a +:+ EmptyString = a.
Proof. induction a as [|x a IH]; [done|]. rewrite !app_string. by f_equal. Qed.

(** One well-formed character. *)
Definition is_char (c : string) : Prop := next_char c = Some (c, EmptyString).

Lemma next_char_spec s c r :
  next_char s = Some (c, r) ->
  s = c +:+ r /\ is_char c /\ c <> EmptyString /\ forall r', next_char (c +:+ r') = Some (c, r').
Proof.
  unfold is_char, String.append. intros H. destruct s as [|a s]; [done|]. simpl in H.
  destruct (byte_in 0 127 a) eqn:E1.
  { injection H as <- <-. simpl. rewrite E1. done. }
  destruct s as [|b s]; [done|]. destruct (byte_in 194 223 a) eqn:E2.
  { destruct (continuation b) eqn:E3; [|done]. injection H as <- <-. simpl. rewrite E1, E2, E3. done. }
  destruct s as [|d s]; [done|]. destruct (byte_in 224 239 a) eqn:E3.
  { destruct (second_of_three a b && continuation d) eqn:E4; [|done]. injection H as <- <-. simpl.
    rewrite E1, E2, E3, E4. done. }
  destruct s as [|e s]; [done|].
  destruct (byte_in 240 244 a && second_of_four a b && continuation d && continuation e) eqn:E4; [|done].
  injection H as <- <-. simpl. rewrite E1, E2, E3, E4. done.
Qed.

Lemma replacement_is_char : is_char REPLACEMENT.
Proof. reflexivity. Qed.

Lemma skip_length n s : (String.length (skip_bytes n s) <= String.length s - n)%nat.
Proof. revert s. induction n as [|n IH]; intros [|c s]; simpl; try lia. apply IH. Qed.

Lemma invalid_length_pos s : (1 <= invalid_length s)%nat.
Proof. unfold invalid_length. repeat case_match; lia. Qed.

Lemma next_shorter s c r : next_char s = Some (c, r) -> (String.length r < String.length s)%nat.
Proof.
  intros H. apply next_char_spec in H as (-> & _ & Hc & _). rewrite string_length_app.
  destruct c; [done|]. simpl. lia.
Qed.

Lemma chars_fuel_enough n m s :
  (String.length s <= n)%nat -> (String.length s <= m)%nat -> chars_fuel n s = chars_fuel m s.
Proof.
  revert m s. induction n as [|n IH]; intros m s Hn Hm.
  - destruct s; [by destruct m|simpl in Hn; lia].
  - destruct s as [|a s]; [by destruct m|]. destruct m as [|m]; [simpl in Hm; lia|].
    cbn [chars_fuel]. destruct (next_char (String a s)) as [[c r]|] eqn:E.
    + pose proof (next_shorter _ _ _ E). f_equal. apply IH; lia.
    + pose proof (skip_length (invalid_length (String a s)) (String a s)).
      pose proof (invalid_length_pos (String a s)). f_equal. apply IH; simpl in *; lia.
Qed.

Lemma chars_next s c r : next_char s = Some (c, r) -> chars s = c :: chars r.
Proof.
  intros E. unfold chars. destruct s as [|a s]; [done|]. cbn [String.length chars_fuel]. rewrite E.
  f_equal. apply chars_fuel_enough; [|lia]. apply next_shorter in E. simpl in E. lia.
Qed.

Lemma chars_concat cs : Forall is_char cs -> chars (concat_chars cs) = cs.
Proof.
  induction 1 as [|c cs Hc Hcs IH]; [done|]. simpl.
  apply next_char_spec in Hc as (_ & _ & _ & Hn). by rewrite (chars_next _ _ _ (Hn _)), IH.
Qed.

Lemma chars_are_chars s : Forall is_char (chars s).
Proof.
  unfold chars. generalize (String.length s) as n. intros n. revert s. induction n as [|n IH]; intros s; [constructor|].
  destruct s as [|a s]; [constructor|]. cbn [chars_fuel].
  destruct (next_char (String a s)) as [[c r]|] eqn:E; constructor; try done.
  by apply next_char_spec in E as (_ & ? & _).
Qed.

(** The lossy text is a text: it reads back as its own characters. *)
Lemma chars_lossy s : chars (from_utf8_lossy s) = chars s.
Proof. apply chars_concat, chars_are_chars. Qed.

Lemma lossy_idempotent s : from_utf8_lossy (from_utf8_lossy s) = from_utf8_lossy s.
Proof. unfold from_utf8_lossy at 1. by rewrite chars_lossy. Qed.

Lemma contains_cons pat c s : contains pat (String c s) = false ->
  strip_prefix pat (String c s) = None /\ contains pat s = false.
Proof. cbn [contains]. by destruct (strip_prefix pat (String c s)). Qed.

Lemma remove_absent pat s : contains pat s = false -> remove_all pat s = s.
Proof.
  unfold remove_all. induction s as [|c s IH]; [done|]. intros H.
  apply contains_cons in H as [H1 H2]. cbn [String.length remove_fuel]. rewrite H1. f_equal. by apply IH.
Qed.

Lemma trim_end_char_last c s : forall t, trim_end_char c s <> t +:+ String c EmptyString.
Proof.
  induction s as [|a s IH]; intros t; simpl; [by destruct t|].
  destruct (trim_end_char c s) as [|b u] eqn:E.
  - destruct (decide (a = c)) as [->|Hne]; [by destruct t|].
    destruct t as [|x t]; rewrite ?app_string; [intros [= ->]; done|]. intros [= -> H]. by destruct t.
  - destruct t as [|x t]; rewrite ?app_string; [by intros [=]|]. intros [= -> H]. by apply (IH t).
Qed.

Lemma trim_end_char_app c s : trim_end_char c (s +:+ String c EmptyString) = trim_end_char c s.
Proof.
  induction s as [|a s IH]; [simpl; by rewrite decide_True by done|]. rewrite app_string. simpl. by rewrite IH.
Qed.

(** A well-formed text is left alone. *)
Lemma valid_next s : utf8_valid s = true -> s <> EmptyString ->
  exists c r, next_char s = Some (c, r) /\ utf8_valid r = true.
Proof.
  intros H Hne. destruct s as [|a s]; [done|]. clear Hne. cbn [utf8_valid next_char] in *.
  destruct (byte_in 0 127 a); [by eexists _, _|].
  destruct s as [|b s]; [done|]. destruct (byte_in 194 223 a).
  { apply andb_true_iff in H as [-> H]. by eexists _, _. }
  destruct s as [|c s]; [done|]. destruct (byte_in 224 239 a).
  { rewrite !andb_true_iff in H. destruct H as [[[Hb Hc] Ht] H].
    assert (second_of_three a b = true) as -> by
      (unfold second_of_three; destruct (byte_in 224 224 a); [done|]; by destruct (byte_in 237 237 a)).
    rewrite Hc. by eexists _, _. }
  destruct s as [|d s]; [done|]. rewrite !andb_true_iff in H. destruct H as [[[[[Ha Hb] Hc] Hd] Ht] H].
  assert (second_of_four a b = true) as -> by
    (unfold second_of_four; destruct (byte_in 240 240 a); [done|]; by destruct (byte_in 244 244 a)).
  rewrite Ha, Hc, Hd. by eexists _, _.
Qed.

Lemma lossy_valid s : utf8_valid s = true -> from_utf8_lossy s = s.
Proof.
  remember (String.length s) as n eqn:Hn. revert s Hn. induction n as [n IH] using lt_wf_ind. intros s Hn H.
  destruct s as [|a s]; [done|]. destruct (valid_next _ H) as (c & r & E & Hr); [done|].
  unfold from_utf8_lossy. rewrite (chars_next _ _ _ E). cbn [concat_chars].
  pose proof (next_shorter _ _ _ E). fold (from_utf8_lossy r). rewrite (IH (String.length r)); [|lia|done|done].
  by apply next_char_spec in E as (-> & _).
Qed.
