(* ===== verification/Redis.v ===== *)
(** * The Redis client interface

    The services reach Redis through the [redis] crate.  The commands they
    send are the operations of a class, and what the code relies on are its
    laws: [SET key value NX EX ttl] creates a key that is not there and lets
    it expire [ttl] seconds later, [DEL] removes a key, and a call that
    reports a network error may or may not have taken effect. *)

From S2P Require Import Prelude.

(** The commands. [now], [expiry] and [healthy] are observations, used by
    statements only: the server's clock, the time until which a key is
    present, and that no call to come reports an error. *)
Class Redis (W : Type) : Type := {
  set_nx_ex : string -> Z -> M W (result bool string);
  del : string -> M W (result bool string);
  now : W -> Z;
  expiry : W -> string -> option Z;
  healthy : W -> Prop;
}.

Definition live {W} `{!Redis W} (w : W) (k : string) : Prop :=
  exists e, expiry w k = Some e /\ now w < e.

Class RedisLaws (W : Type) `{!Redis W} : Prop := {
  set_now : forall k ttl w, now (snd (set_nx_ex k ttl w)) = now w;
  del_now : forall k w, now (snd (del k w)) = now w;
  set_other : forall k ttl w k', k' <> k -> expiry (snd (set_nx_ex k ttl w)) k' = expiry w k';
  del_other : forall k w k', k' <> k -> expiry (snd (del k w)) k' = expiry w k';
  set_outcome : forall k ttl w,
    (live w k /\ exists w', set_nx_ex k ttl w = (Done (Ok false), w') /\ expiry w' k = expiry w k) \/
    (~ live w k /\ exists w', set_nx_ex k ttl w = (Done (Ok true), w') /\ expiry w' k = Some (now w + ttl)) \/
    (exists e w', set_nx_ex k ttl w = (Done (Err e), w') /\
       (expiry w' k = expiry w k \/ (~ live w k /\ expiry w' k = Some (now w + ttl))));
  set_healthy : forall k ttl w, healthy w ->
    (exists b, fst (set_nx_ex k ttl w) = Done (Ok b)) /\ healthy (snd (set_nx_ex k ttl w));
  del_outcome : forall k w,
    (exists b w', del k w = (Done (Ok b), w') /\ expiry w' k = None) \/
    (exists e w', del k w = (Done (Err e), w') /\ (expiry w' k = expiry w k \/ expiry w' k = None));
  del_healthy : forall k w, healthy w ->
    (exists b, fst (del k w) = Done (Ok b)) /\ healthy (snd (del k w));
}.

Definition is_live {W} `{!Redis W} (w : W) (k : string) : bool :=
  match expiry w k with Some e => now w <? e | None => false end.

Lemma is_live_spec {W} `{!Redis W} (w : W) k : is_live w k = true <-> live w k.
Proof.
  unfold is_live, live. destruct (expiry w k) as [e|].
  - rewrite Z.ltb_lt. split; [by exists e|]. intros (e' & ? & ?). by simplify_eq.
  - split; [done|]. by intros (e' & ? & ?).
Qed.

(** ** A server in memory

    The keys with their expiry, a clock, and for each command to come whether
    its reply is lost.  It shows that the laws can hold. *)

Record Server : Type := mkServer {
  keys : gmap string Z;
  server_clock : Z;
  lost : list bool;
}.

Definition present (s : Server) (k : string) : bool :=
  match keys s !! k with Some e => server_clock s <? e | None => false end.

Definition server_reply {A} (s : Server) (a : A) : outcome (result A string) :=
  match lost s with true :: _ => Done (Err "io error") | _ => Done (Ok a) end.

Definition server_set (k : string) (ttl : Z) : M Server (result bool string) := fun s =>
  let free := negb (present s k) in
  (server_reply s free,
   mkServer (if free then <[k := server_clock s + ttl]> (keys s) else keys s)
            (server_clock s) (tail (lost s))).

Definition server_del (k : string) : M Server (result bool string) := fun s =>
  (server_reply s (present s k), mkServer (delete k (keys s)) (server_clock s) (tail (lost s))).

#[export] Instance server_redis : Redis Server := {|
  set_nx_ex := server_set;
  del := server_del;
  now := server_clock;
  expiry := fun s k => keys s !! k;
  healthy := fun s => Forall (fun b => b = false) (lost s);
|}.

#[export] Instance server_laws : RedisLaws Server.
Proof.
  split.
  - done.
  - done.
  - intros k ttl w k' Hk. simpl. destruct (negb (present w k)); simpl; [|done].
    by rewrite lookup_insert_ne by done.
  - intros k w k' Hk. simpl. by rewrite lookup_delete_ne by done.
  - intros k ttl w. simpl. unfold server_set, server_reply. pose proof (is_live_spec w k) as Hl.
    change (is_live w k) with (present w k) in Hl.
    destruct (present w k); simpl; destruct (lost w) as [|[] ?]; simpl.
    2, 5: right; right; eexists _, _; split; [done|]; simpl.
    + left. split; [by apply Hl|]. by eexists.
    + by left.
    + right. split; [by intros ?%Hl|]. by rewrite lookup_insert_eq.
    + left. split; [by apply Hl|]. by eexists.
    + right; left. split; [by intros ?%Hl|]. eexists. split; [done|]. simpl. by rewrite lookup_insert_eq.
    + right; left. split; [by intros ?%Hl|]. eexists. split; [done|]. simpl. by rewrite lookup_insert_eq.
  - intros k ttl w Hh. simpl in *. unfold server_reply.
    destruct (lost w) as [|b l]; [split; [by eexists|done]|].
    apply Forall_cons in Hh as [-> Hh]. split; [by eexists|done].
  - intros k w. simpl. unfold server_del, server_reply.
    destruct (lost w) as [|[] ?]; simpl.
    2: right; eexists _, _; split; [done|]; right; simpl; by rewrite lookup_delete_eq.
    all: left; eexists _, _; split; [done|]; simpl; by rewrite lookup_delete_eq.
  - intros k w Hh. simpl in *. unfold server_reply.
    destruct (lost w) as [|b l]; [split; [by eexists|done]|].
    apply Forall_cons in Hh as [-> Hh]. split; [by eexists|done].
Qed.
