(* ===== verification/TonLib.v ===== *)
(** * The third-party types of the TON services

    [tonlib_core] addresses and hashes, which the code uses as opaque
    values. *)

From S2P Require Import Prelude.
From S2P Require Import Text.

Class TonLib : Type := {
  TonAddress : Type;
  TonAddress_eq_dec :: EqDecision TonAddress;
  address_to_string : TonAddress -> string;
  from_base64_url : string -> result TonAddress string;
  from_hex_str : string -> result TonAddress string;
  address_parse : string -> result TonAddress string;
  address_to_hex : TonAddress -> string;
  NULL : TonAddress;
  TonHash : Type;
  hash_from_hex : string -> result TonHash string;
  (** From 32 bytes, from a vector of bytes, and back. *)
  hash_from : string -> TonHash;
  hash_try_from : string -> result TonHash string;
  hash_to_string : TonHash -> string;
  address_new : Z -> TonHash -> TonAddress;
  hash_part : TonAddress -> string;
}.

(** An address is determined by its printed form. *)
Class TonLibLaws `{!TonLib} : Prop := {
  address_to_string_inj :: Inj (=) (=) address_to_string;
}.

(** Addresses and hashes as their text: an instance for concrete runs. *)
Definition text_ton : TonLib := {|
  TonAddress := string;
  address_to_string := fun a => a;
  from_base64_url := Ok;
  from_hex_str := Ok;
  address_parse := Ok;
  address_to_hex := fun a => a;
  NULL := EmptyString;
  TonHash := string;
  hash_from_hex := Ok;
  hash_from := fun b => b;
  hash_try_from := Ok;
  hash_to_string := fun h => h;
  address_new := fun _ h => h;
  hash_part := fun a => a;
|}.

Lemma text_ton_laws : @TonLibLaws text_ton.
Proof. split. intros a b H. exact H. Qed.
