(* ===== verification/WalletManager.v ===== *)
(** * Wallets and their locks

    [ton/src/lock_manager.rs] and [ton/src/wallet_manager.rs]: a pool of
    wallets, each used by one worker at a time, and the processes that share
    the pool through Redis. *)

From S2P Require Import Prelude.
From S2P Require Import Text.
From S2P Require Import Redis.
From S2P Require Import TonLib.

(** src/ton/src/config.rs:4-11 WalletConfig *)
Record WalletConfig : Type := mkWalletConfig {
  cfg_public_key : string;
  cfg_secret_key : string;
  cfg_subwallet_id : Z;
  cfg_timeout : Z;
  cfg_address : string;
}.

Record KeyPair : Type := mkKeyPair { public_key : string; secret_key : string }.

(** src/ton/src/ton_wallet_high_load_v3.rs:72-79 TonWalletHighLoadV3 *)
Record TonWalletHighLoadV3 `{!TonLib} : Type := mkWallet {
  wallet_address : TonAddress;
  key_pair : KeyPair;
  subwallet_id : Z;
  wallet_timeout : Z;
}.

(** src/ton/src/ton_wallet_high_load_v3.rs:81-91 TonWalletHighLoadV3::new *)
Definition wallet_new `{!TonLib} (address : TonAddress) (kp : KeyPair) (id timeout : Z) :
  TonWalletHighLoadV3 := mkWallet _ address kp id timeout.

(** src/ton/src/lock_manager.rs:39-43 LockManager *)
Class LockManager (W : Type) : Type := {
  lock : string -> M W bool;
  unlock : string -> M W unit;
}.

Definition LOCK_TTL : Z := 60.

Definition lock_key (key : string) : string := String.append "wallet_lock_" key.

(** src/ton/src/lock_manager.rs:61-73 RedisLockManager::lock *)
Definition redis_lock {W} `{!Redis W} (key : string) : M W bool :=
  let! r := set_nx_ex (lock_key key) LOCK_TTL in
  ret (match r with Ok b => b | Err _ => false end).

(** src/ton/src/lock_manager.rs:75-83 RedisLockManager::unlock *)
Definition redis_unlock {W} `{!Redis W} (key : string) : M W unit :=
  let! _r := del (lock_key key) in
  ret tt.

(** src/ton/src/lock_manager.rs:59-84 impl LockManager for RedisLockManager *)
Definition RedisLockManager {W} `{!Redis W} : LockManager W := {|
  lock := redis_lock;
  unlock := redis_unlock;
|}.

(** src/ton/src/wallet_manager.rs:80-84 WalletManagerError *)
Inductive WalletManagerError : Type :=
| NoAvailableWallet
| LockError (s : string).

(** A [HashMap] from addresses to wallets, in its iteration order. *)
Abbreviation Wallets := (list (TonAddress * TonWalletHighLoadV3)).

Section manager.
Context {L : TonLib} {C : Codecs}.

(** src/ton/src/wallet_manager.rs:108-122 WalletManager::load_wallet *)
Definition load_wallet (config : WalletConfig) : outcome TonWalletHighLoadV3 :=
  match hex_decode (cfg_public_key config), hex_decode (cfg_secret_key config),
        from_base64_url (cfg_address config) with
  | Ok pk, Ok sk, Ok address =>
      Done (wallet_new address (mkKeyPair pk sk) (cfg_subwallet_id config) (cfg_timeout config))
  | _, _, _ => Panic "unwrap"
  end.

(** [HashMap::insert]: a key that is there gets the new value. *)
Fixpoint map_insert (a : TonAddress) (w : TonWalletHighLoadV3) (m : Wallets) : Wallets :=
  match m with
  | [] => [(a, w)]
  | (a', w') :: m => if decide (a = a') then (a, w) :: m else (a', w') :: map_insert a w m
  end.

(** src/ton/src/wallet_manager.rs:92-104 WalletManager::new *)
Fixpoint manager_new (config : list WalletConfig) (wallets : Wallets) : outcome Wallets :=
  match config with
  | [] => Done wallets
  | c :: config =>
      match load_wallet c with
      | Done w => manager_new config (map_insert (wallet_address w) w wallets)
      | Panic why => Panic why
      end
  end.

Context {W : Type} `{!LockManager W}.

(** src/ton/src/wallet_manager.rs:124-133 WalletManager::acquire *)
Fixpoint acquire (wallets : Wallets) : M W (result TonWalletHighLoadV3 WalletManagerError) :=
  match wallets with
  | [] => ret (Err NoAvailableWallet)
  | (address, wallet) :: wallets =>
      let! l := lock (address_to_string address) in
      if (l : bool) then ret (Ok wallet) else acquire wallets
  end.

(** src/ton/src/wallet_manager.rs:135-138 WalletManager::release *)
Definition release (wallet : TonWalletHighLoadV3) : M W unit :=
  unlock (address_to_string (wallet_address wallet)).
End manager.

(** ** The pool a configuration builds *)

Section pool.
Context {L : TonLib} {C : Codecs}.

(** Every wallet sits under its own address and no address occurs twice. *)
Definition keyed (m : Wallets) : Prop :=
  NoDup (map fst m) /\ Forall (fun p => wallet_address (snd p) = fst p) m.

Lemma map_insert_keys a w m :
  map fst (map_insert a w m) = if decide (a ∈ map fst m) then map fst m else map fst m ++ [a].
Proof.
  induction m as [|[a' w'] m IH]; [done|]. cbn [map_insert map fst].
  destruct (decide (a = a')) as [->|Hn]; cbn [map fst].
  - destruct (decide (a' ∈ a' :: map fst m)) as [|H]; [done|]. destruct H. apply elem_of_cons. by left.
  - rewrite IH.
    destruct (decide (a ∈ map fst m)) as [H1|H1], (decide (a ∈ a' :: map fst m)) as [H2|H2];
      rewrite elem_of_cons in H2; done || (exfalso; tauto) || (destruct H2; congruence || done).
Qed.

Lemma map_insert_keyed a w m : keyed m -> wallet_address w = a -> keyed (map_insert a w m).
Proof.
  intros [Hd Hf] Hw. split.
  - rewrite map_insert_keys. destruct (decide (a ∈ map fst m)); [done|].
    apply NoDup_app. split; [done|]. split; [|apply NoDup_singleton].
    by intros x Hx ->%list_elem_of_singleton.
  - induction m as [|[a' w'] m IH]; simpl; [by constructor|].
    apply Forall_cons in Hf as [Ha Hf]. apply NoDup_cons in Hd as [_ Hd].
    destruct (decide (a = a')); subst; constructor; try done. by apply IH.
Qed.

Lemma manager_new_keyed config m m' :
  keyed m -> manager_new config m = Done m' -> keyed m'.
Proof.
  revert m. induction config as [|c config IH]; intros m Hm; simpl; [by intros [= <-]|].
  destruct (load_wallet c) as [w|why]; [|done]. by apply IH, map_insert_keyed.
Qed.
End pool.

(** ** Acquiring under the Redis lock *)

Section locking.
Context {L : TonLib} {TL : TonLibLaws} {W : Type} {R : Redis W} {RL : RedisLaws W}.
#[local] Existing Instance RedisLockManager.

Definition wallet_key (wallet : TonWalletHighLoadV3) : string :=
  lock_key (address_to_string (wallet_address wallet)).

Lemma lock_key_inj a b : lock_key a = lock_key b -> a = b.
Proof. unfold lock_key. simpl. intros H. by repeat injection H as H. Qed.

Lemma wallet_key_inj v v' : wallet_key v = wallet_key v' -> wallet_address v = wallet_address v'.
Proof. intros H. by apply address_to_string_inj, lock_key_inj. Qed.

(** One attempt at a lock. *)
Lemma redis_lock_cases key w :
  exists b w', redis_lock key w = (Done b, w') /\ now w' = now w /\
    (forall k, k <> lock_key key -> expiry w' k = expiry w k) /\
    (live w (lock_key key) -> b = false /\ expiry w' (lock_key key) = expiry w (lock_key key)) /\
    (b = true -> expiry w' (lock_key key) = Some (now w + LOCK_TTL)) /\
    (healthy w -> healthy w' /\
       (b = false -> live w (lock_key key) /\ expiry w' (lock_key key) = expiry w (lock_key key))).
Proof.
  unfold redis_lock. pose proof (set_now (lock_key key) LOCK_TTL w) as Hn.
  pose proof (fun k => set_other (lock_key key) LOCK_TTL w k) as Ho.
  pose proof (set_healthy (lock_key key) LOCK_TTL w) as Hh.
  rewrite bind_run.
  destruct (set_outcome (lock_key key) LOCK_TTL w)
    as [(Hl & w' & E & He) | [(Hl & w' & E & He) | (e & w' & E & He)]];
    rewrite E in *; simpl in *; eexists _, w'; (split; [done|]); (split; [done|]); (split; [done|]).
  - split; [done|]. split; [done|]. intros H. split; [by apply Hh|done].
  - split; [done|]. split; [done|]. intros H. split; [by apply Hh|done].
  - split; [|split; [done|]].
    + intros Hlv. split; [done|]. destruct He as [He | [Hn' _]]; [done|by destruct Hn'].
    + intros H. by destruct (Hh H) as [[b [=]] _].
Qed.

Lemma acquire_run wallets w :
  keyed wallets ->
  exists r w', acquire wallets w = (Done r, w') /\ now w' = now w /\
    (forall k, live w k -> expiry w' k = expiry w k) /\
    match r with
    | Ok v => (wallet_address v, v) ∈ wallets /\ ~ live w (wallet_key v) /\
              expiry w' (wallet_key v) = Some (now w + LOCK_TTL)
    | Err e => e = NoAvailableWallet
    end.
Proof.
  intros [Hd Hf]. revert w. induction wallets as [|[a v] wallets IH]; intros w; simpl.
  { by exists (Err NoAvailableWallet), w. }
  apply NoDup_cons in Hd as [Hna Hd]. apply Forall_cons in Hf as [Ha Hf]. simpl in Ha, Hna.
  destruct (redis_lock_cases (address_to_string a) w) as (b & w1 & E & Hn & Ho & Hl & Ht & _).
  erewrite bind_done by exact E.
  assert (Hkeep : forall k, live w k -> expiry w1 k = expiry w k).
  { intros k Hk. destruct (decide (k = lock_key (address_to_string a))) as [->|Hne];
      [by apply Hl|by apply Ho]. }
  destruct b.
  - exists (Ok v), w1. split; [done|]. split; [done|]. split; [done|]. unfold wallet_key. rewrite Ha.
    split; [by left|]. split; [|by apply Ht].
    intros Hlv. by destruct (Hl Hlv).
  - destruct (IH Hd Hf w1) as (r & w2 & E2 & Hn2 & Hk2 & Hr).
    assert (Hlive : forall k, live w k -> live w1 k).
    { intros k Hk. destruct Hk as (e & He & Hlt) eqn:Hk'. exists e. rewrite Hkeep, Hn by done. done. }
    exists r, w2. split; [done|]. split; [congruence|]. split.
    + intros k Hk. rewrite Hk2; [by apply Hkeep|by apply Hlive].
    + destruct r as [v'|]; [|done]. destruct Hr as (Hin & Hfree & He).
      split; [by right|]. rewrite <- Hn. split; [|done]. intros Hlv. by apply Hfree, Hlive.
Qed.

(** What one attempt at a lock may leave behind: nothing but that lock, which
    a reply that got lost can leave set. *)
Lemma redis_lock_left key w k :
  let w' := snd (redis_lock key w) in
  live w' k -> expiry w' k = expiry w k \/ k = lock_key key /\ expiry w' k = Some (now w + LOCK_TTL).
Proof.
  cbv zeta. unfold redis_lock. pose proof (set_other (lock_key key) LOCK_TTL w k) as Ho. rewrite bind_run.
  destruct (set_outcome (lock_key key) LOCK_TTL w)
    as [(Hl & w' & E & He) | [(Hl & w' & E & He) | (e & w' & E & He)]]; rewrite E in *; simpl in *;
    destruct (decide (k = lock_key key)) as [->|]; auto.
  destruct He as [He|[_ He]]; auto.
Qed.

Definition pool_key (wallets : Wallets) (k : string) : Prop := exists a, a ∈ map fst wallets /\ k = lock_key (address_to_string a).

(** What taking a wallet of the pool may leave behind: locks of the pool, set
    now; and, while Redis answers, that of the wallet only. *)
Lemma acquire_left wallets w r w' :
  keyed wallets -> acquire wallets w = (r, w') ->
  (forall k, live w' k -> expiry w' k = expiry w k \/ pool_key wallets k /\ expiry w' k = Some (now w + LOCK_TTL)) /\
  (healthy w -> healthy w' /\
     forall k, live w' k -> (forall v, r = Done (Ok v) -> k <> wallet_key v) -> expiry w' k = expiry w k).
Proof.
  intros [Hd Hf]. revert w. induction wallets as [|[a v] wallets IH]; intros w; simpl.
  { intros [= <- <-]. split; [by left|by split]. }
  apply NoDup_cons in Hd as [_ Hd]. apply Forall_cons in Hf as [Ha Hf]. simpl in Ha.
  rewrite bind_run. destruct (redis_lock_cases (address_to_string a) w) as (b & w1 & E & Hn & Ho & _ & _ & Hh).
  pose proof (redis_lock_left (address_to_string a) w) as Hl. rewrite E in *. simpl in Hl. destruct b.
  - intros [= <- <-]. split.
    + intros k Hk. destruct (Hl k Hk) as [|[-> ?]]; [by left|right]. split; [|done]. exists a. by split; [left|].
    + intros Hw. split; [by apply Hh|]. intros k Hk Hne. apply Ho. specialize (Hne v eq_refl).
      unfold wallet_key in Hne. by rewrite Ha in Hne.
  - intros E2. destruct (acquire_run wallets w1 (conj Hd Hf)) as (r2 & w2 & E3 & Hn2 & _).
    rewrite E2 in E3. injection E3 as -> ->. destruct (IH Hd Hf w1 E2) as [H1 H2].
    assert (Hback : forall k, live w2 k -> expiry w2 k = expiry w1 k -> live w1 k).
    { intros k (e & He & Ht) Hk. exists e. by rewrite <- Hk, <- Hn2. }
    split.
    + intros k Hk. destruct (H1 k Hk) as [He|[(a2 & Hin & ->) He]].
      * rewrite He. destruct (Hl k (Hback k Hk He)) as [|[-> ?]]; [by left|right]. split; [|done]. exists a. by split; [left|].
      * right. rewrite He, Hn. split; [|done]. exists a2. by split; [right|].
    + intros Hw. destruct (Hh Hw) as [Hw1 Hfalse]. destruct (H2 Hw1) as [Hw2 H3]. split; [done|]. intros k Hk Hne.
      rewrite (H3 k Hk Hne). destruct (decide (k = lock_key (address_to_string a))) as [->|Hk2]; [|by apply Ho].
      by apply Hfalse.
Qed.

(** Acquiring a wallet never disturbs a lock that is held.  A wallet that
    is returned comes from the pool, was not locked when the call began and
    is locked for sixty seconds when it returns; the only error is
    [NoAvailableWallet], and nothing panics. *)
Theorem acquire_spec (wallets : Wallets) (w : W) :
  keyed wallets ->
  (forall k, live w k -> expiry (snd (acquire wallets w)) k = expiry w k) /\
  match fst (acquire wallets w) with
  | Done (Ok v) => (wallet_address v, v) ∈ wallets /\ ~ live w (wallet_key v) /\
                   expiry (snd (acquire wallets w)) (wallet_key v) = Some (now w + LOCK_TTL)
  | Done (Err e) => e = NoAvailableWallet
  | Panic _ => False
  end.
Proof.
  intros Hk. destruct (acquire_run wallets w Hk) as (r & w' & -> & _ & Hl & Hr). simpl.
  split; [done|]. by destruct r.
Qed.

(** While Redis answers, the wallet returned is the first of the pool
    that is not locked, and the pool is reported exhausted exactly when every
    wallet is locked. *)
Theorem acquire_first_free (wallets : Wallets) (w : W) :
  keyed wallets -> healthy w ->
  fst (acquire wallets w) =
    Done (match List.find (fun p => negb (is_live w (lock_key (address_to_string (fst p))))) wallets with
          | Some (_, v) => Ok v
          | None => Err NoAvailableWallet
          end).
Proof.
  intros [Hd _]. revert w. induction wallets as [|[a v] wallets IH]; intros w Hh; [done|].
  apply NoDup_cons in Hd as [Hna Hd]. simpl in Hna. simpl acquire. simpl List.find.
  destruct (redis_lock_cases (address_to_string a) w) as (b & w1 & E & Hn & Ho & Hl & Ht & Hq).
  destruct (Hq Hh) as [Hh1 Hfalse]. erewrite bind_done by exact E.
  pose proof (is_live_spec w (lock_key (address_to_string a))) as Hs.
  destruct b.
  - destruct (is_live w (lock_key (address_to_string a))); [|done].
    exfalso. by destruct (Hl (proj1 Hs eq_refl)).
  - destruct (Hfalse eq_refl) as [Hlv He]. apply Hs in Hlv as ->. simpl. rewrite IH by done. do 2 f_equal.
    assert (Hsame : forall k, is_live w1 k = is_live w k).
    { intros k. unfold is_live. rewrite Hn.
      destruct (decide (k = lock_key (address_to_string a))) as [->|Hne]; [by rewrite He|by rewrite Ho]. }
    assert (Hfind : forall l : Wallets,
      List.find (fun p => negb (is_live w1 (lock_key (address_to_string (fst p))))) l =
      List.find (fun p => negb (is_live w (lock_key (address_to_string (fst p))))) l).
    { induction l as [|p l IHl]; [done|]. simpl. by rewrite Hsame, IHl. }
    by rewrite Hfind.
Qed.
End locking.

(** ** Processes that share a pool

    Several includers acquire and release wallets of one pool through one
    Redis server.  A [holder] is a wallet some process was handed, with the
    time it was. *)

Section exclusion.
Context {L : TonLib} {TL : TonLibLaws} {W : Type} {R : Redis W} {RL : RedisLaws W}.
#[local] Existing Instance RedisLockManager.

Record System : Type := mkSystem {
  world : W;
  holders : list (TonWalletHighLoadV3 * Z);
}.

(** Time passes on the server: a key stays until it expires. *)
Definition passes (w w' : W) : Prop :=
  now w <= now w' /\
  forall k, match expiry w k with
            | Some e => now w' < e -> expiry w' k = Some e
            | None => ~ live w' k
            end.

Inductive step (wallets : Wallets) : System -> System -> Prop :=
| step_acquire s v w' :
    acquire wallets (world s) = (Done (Ok v), w') ->
    step wallets s (mkSystem w' ((v, now (world s)) :: holders s))
| step_none s e w' :
    acquire wallets (world s) = (Done (Err e), w') ->
    step wallets s (mkSystem w' (holders s))
| step_release s h1 v t h2 w' :
    holders s = h1 ++ (v, t) :: h2 ->
    release v (world s) = (Done tt, w') ->
    step wallets s (mkSystem w' (h1 ++ h2))
| step_time s w' : passes (world s) w' -> step wallets s (mkSystem w' (holders s)).

(** Every process has held its wallet for less than the sixty seconds the
    lock lives. *)
Definition timely (s : System) : Prop :=
  Forall (fun h => now (world s) < snd h + LOCK_TTL) (holders s).

Definition timely_step (wallets : Wallets) (s s' : System) : Prop :=
  step wallets s s' /\ timely s'.

Definition held_keys (s : System) : list string := map (fun h => wallet_key (fst h)) (holders s).

(** The lock of every holder is there, with the expiry it was created with,
    and no two holders have the same. *)
Definition locks_held (s : System) : Prop :=
  NoDup (held_keys s) /\
  Forall (fun h => expiry (world s) (wallet_key (fst h)) = Some (snd h + LOCK_TTL)) (holders s).

Lemma held_live s h : timely s -> locks_held s -> h ∈ holders s -> live (world s) (wallet_key (fst h)).
Proof.
  unfold timely. intros Ht [_ Hl] Hin. rewrite Forall_forall in Ht, Hl.
  exists (snd h + LOCK_TTL). split; [by apply Hl|by apply Ht].
Qed.

Lemma locks_held_mono s w' :
  locks_held s -> (forall h, h ∈ holders s -> expiry w' (wallet_key (fst h)) = expiry (world s) (wallet_key (fst h))) ->
  locks_held (mkSystem w' (holders s)).
Proof.
  intros [Hd Hf] Hk. split; [done|]. simpl. rewrite Forall_forall in Hf |- *.
  intros h Hh. rewrite Hk by done. by apply Hf.
Qed.

Lemma release_other v w k : k <> wallet_key v -> expiry (snd (release v w)) k = expiry w k.
Proof.
  intros Hk. unfold release. simpl. unfold redis_unlock. rewrite bind_run.
  pose proof (del_other (wallet_key v) w k Hk) as Ho. fold (wallet_key v) in *.
  destruct (del_outcome (wallet_key v) w) as [(b & w1 & E & _) | (e & w1 & E & _)];
    rewrite E in *; exact Ho.
Qed.

Lemma locks_held_step wallets s s' :
  keyed wallets -> timely s -> locks_held s -> timely_step wallets s s' -> locks_held s'.
Proof.
  intros Hk Ht Hl [Hs Ht']. pose proof (held_live s) as Hlive.
  destruct Hs as [s v w' E|s e w' E|s h1 v t h2 w' Eh E|s w' Hp].
  - destruct (acquire_run wallets (world s) Hk) as (r & w1 & E1 & _ & Hkeep & Hr).
    rewrite E in E1. simplify_eq. destruct Hr as (_ & Hfree & He).
    assert (Hmono : locks_held (mkSystem w1 (holders s))).
    { apply locks_held_mono; [done|]. intros h Hh. by apply Hkeep, Hlive. }
    destruct Hmono as [Hd Hf]. split; [|by constructor].
    apply NoDup_cons. split; [|exact Hd]. intros (h & Hv & Hh)%list_elem_of_fmap.
    simpl in Hv. apply Hfree. rewrite Hv. by apply Hlive.
  - destruct (acquire_run wallets (world s) Hk) as (r & w1 & E1 & _ & Hkeep & _).
    rewrite E in E1. simplify_eq. apply locks_held_mono; [done|]. intros h Hh. by apply Hkeep, Hlive.
  - destruct Hl as [Hd Hf]. unfold held_keys in Hd. rewrite Eh in Hd, Hf.
    pose proof (release_other v (world s)) as Ho. rewrite E in Ho. simpl in Ho.
    rewrite map_app in Hd. simpl in Hd. apply NoDup_app in Hd as (Hd1 & Hd12 & Hd2).
    apply NoDup_cons in Hd2 as [Hv Hd2].
    apply Forall_app in Hf as [Hf1 Hf2]. apply Forall_cons in Hf2 as [_ Hf2]. split.
    + unfold held_keys. simpl. rewrite map_app. apply NoDup_app. split; [done|]. split; [|done].
      intros x Hx1 Hx2. apply (Hd12 x Hx1). by right.
    + simpl. rewrite Forall_forall in Hf1, Hf2 |- *. intros h Hh. rewrite Ho.
      * apply elem_of_app in Hh as [Hh|Hh]; [by apply Hf1|by apply Hf2].
      * intros Heq. apply elem_of_app in Hh as [Hh|Hh].
        -- eapply Hd12; [eapply list_elem_of_fmap_2; exact Hh|]. rewrite Heq. by left.
        -- apply Hv. rewrite <- Heq. by apply (list_elem_of_fmap_2 (fun h => wallet_key (fst h))).
  - destruct Hl as [Hd Hf]. split; [done|]. destruct Hp as [_ Hp]. simpl.
    unfold timely in Ht'. simpl in Ht'. rewrite Forall_forall in Hf, Ht' |- *. intros h Hh.
    specialize (Hp (wallet_key (fst h))). rewrite (Hf h Hh) in Hp. by apply Hp, Ht'.
Qed.

Lemma locks_held_reachable wallets s s' :
  keyed wallets -> timely s -> locks_held s -> rtc (timely_step wallets) s s' ->
  timely s' /\ locks_held s'.
Proof.
  intros Hk Ht Hl Hr. induction Hr as [s|s s1 s2 H _ IH]; [done|].
  apply IH; [by destruct H|]. by eapply locks_held_step.
Qed.

(** C2: if every process gives its wallet back within sixty seconds, no
    wallet is ever in the hands of two processes: over any interleaving of
    acquisitions, releases and pauses, with failing Redis calls, the wallets
    held are pairwise different and their locks are present. *)
Theorem mutual_exclusion (wallets : Wallets) (w : W) (s : System) :
  keyed wallets -> rtc (timely_step wallets) (mkSystem w []) s ->
  NoDup (map (fun h => wallet_address (fst h)) (holders s)) /\
  Forall (fun h => live (world s) (wallet_key (fst h))) (holders s).
Proof.
  intros Hk Hr.
  destruct (locks_held_reachable wallets (mkSystem w []) s Hk) as [Ht Hl]; [by constructor|by repeat constructor|done|].
  split; [|apply Forall_forall; intros h Hh; by apply held_live].
  destruct Hl as [Hd _]. unfold held_keys in Hd. revert Hd.
  induction (holders s) as [|h hs IH]; simpl; [intros _; constructor|]. intros [Hh Hd]%NoDup_cons.
  apply NoDup_cons. split; [|by apply IH].
  intros (h' & Ha & Hin)%list_elem_of_fmap. apply Hh. apply list_elem_of_fmap. exists h'.
  split; [|done]. unfold wallet_key. by rewrite Ha.
Qed.
End exclusion.

(** ** A pool of two wallets on the server in memory *)

Module Demo.
#[local] Existing Instances text_ton RedisLockManager.

Definition demo_wallet (a : string) : TonWalletHighLoadV3 := mkWallet text_ton a (mkKeyPair "" "") 1 60.
Definition pool : Wallets := [("A", demo_wallet "A"); ("B", demo_wallet "B")].

Lemma pool_keyed : keyed pool.
Proof.
  split; [|by repeat constructor].
  apply (bool_decide_unpack (NoDup ["A"; "B"]%string)). vm_compute. exact I.
Qed.
End Demo.

Lemma acquire_spec_witness :
  let s := mkServer {["wallet_lock_A" := 90]} 40 [] in
  let acq := @acquire text_ton Server RedisLockManager Demo.pool s in
  (forall k, live s k -> expiry (snd acq) k = expiry s k) /\
  match fst acq with
  | Done (Ok v) => (@wallet_address text_ton v, v) ∈ Demo.pool /\ ~ live s (wallet_key v) /\
                   expiry (snd acq) (wallet_key v) = Some (now s + LOCK_TTL)
  | Done (Err e) => e = NoAvailableWallet
  | Panic _ => False
  end.
Proof.
  exact (acquire_spec (L := text_ton) (W := Server) Demo.pool
           (mkServer {["wallet_lock_A" := 90]} 40 []) Demo.pool_keyed).
Defined.

Lemma acquire_first_free_witness :
  let s := mkServer {["wallet_lock_A" := 90]} 40 [] in
  fst (@acquire text_ton Server RedisLockManager Demo.pool s) = Done (Ok (Demo.demo_wallet "B")).
Proof.
  refine (acquire_first_free (L := text_ton) (W := Server) Demo.pool
           (mkServer {["wallet_lock_A" := 90]} 40 []) Demo.pool_keyed _).
  constructor.
Defined.

Lemma mutual_exclusion_witness :
  let s1 := mkServer {["wallet_lock_A" := 60]} 0 [] in
  NoDup (map (fun h => @wallet_address text_ton (fst h)) [(Demo.demo_wallet "A", 0)]) /\
  Forall (fun h => live s1 (wallet_key (fst h))) [(Demo.demo_wallet "A", 0)].
Proof.
  apply (mutual_exclusion (L := text_ton) (W := Server) Demo.pool (mkServer ∅ 0 [])
           (mkSystem (mkServer {["wallet_lock_A" := 60]} 0 []) [(Demo.demo_wallet "A", 0)]) Demo.pool_keyed).
  apply rtc_once. split; [|repeat constructor].
  exact (step_acquire Demo.pool (mkSystem (mkServer ∅ 0 []) []) (Demo.demo_wallet "A")
           (mkServer {["wallet_lock_A" := 60]} 0 []) eq_refl).
Defined.

(** The release is an unconditional [DEL].  A process that gives its
    wallet back after its lock has expired removes the lock of the process
    that holds the wallet now, and a third process gets the wallet while the
    second, well within its sixty seconds, still uses it. *)
Theorem late_release_breaks_exclusion :
  exists s : @System text_ton Server,
    rtc (@step text_ton Server _ Demo.pool) (mkSystem (mkServer ∅ 0 []) []) s /\
    timely s /\
    map (fun h => @wallet_address text_ton (fst h)) (holders s) = ["A"; "A"]%string.
Proof.
  set (hold := fun t : Z => (Demo.demo_wallet "A", t)).
  exists (mkSystem (mkServer {["wallet_lock_A" := 121]} 61 []) [hold 61; hold 61]).
  split; [|split; [by repeat constructor|done]].
  apply (rtc_l _ _ (mkSystem (mkServer {["wallet_lock_A" := 60]} 0 []) [hold 0])).
  { exact (step_acquire Demo.pool (mkSystem (mkServer ∅ 0 []) []) (Demo.demo_wallet "A")
             (mkServer {["wallet_lock_A" := 60]} 0 []) eq_refl). }
  apply (rtc_l _ _ (mkSystem (mkServer {["wallet_lock_A" := 60]} 61 []) [hold 0])).
  { apply (step_time Demo.pool (mkSystem (mkServer {["wallet_lock_A" := 60]} 0 []) [hold 0])).
    split; [simpl; lia|]. intros k. simpl.
    destruct (decide (k = "wallet_lock_A"%string)) as [->|Hk].
    - rewrite lookup_singleton_eq. done.
    - rewrite lookup_singleton_ne by done. intros (e & He & _). simpl in He.
      by rewrite lookup_singleton_ne in He. }
  apply (rtc_l _ _ (mkSystem (mkServer {["wallet_lock_A" := 121]} 61 []) [hold 61; hold 0])).
  { exact (step_acquire Demo.pool (mkSystem (mkServer {["wallet_lock_A" := 60]} 61 []) [hold 0])
             (Demo.demo_wallet "A") (mkServer {["wallet_lock_A" := 121]} 61 []) eq_refl). }
  apply (rtc_l _ _ (mkSystem (mkServer ∅ 61 []) [hold 61])).
  { exact (step_release Demo.pool (mkSystem (mkServer {["wallet_lock_A" := 121]} 61 []) [hold 61; hold 0])
             [hold 61] (Demo.demo_wallet "A") 0 [] (mkServer ∅ 61 []) eq_refl eq_refl). }
  apply rtc_once.
  exact (step_acquire Demo.pool (mkSystem (mkServer ∅ 61 []) [hold 61]) (Demo.demo_wallet "A")
           (mkServer {["wallet_lock_A" := 121]} 61 []) eq_refl).
Qed.
