(* ===== verification/Queue.v ===== *)
(** * The RabbitMQ queues

    [relayer_base/src/queue.rs]: the declaration of a queue with its retry and
    dead-letter queues, the buffered publisher, and the republishing of a
    delivery whose handler failed.  RabbitMQ is reached through [lapin]; its
    methods are the operations of [Amqp]. *)

From S2P Require Import Prelude.
From S2P Require Import GmpTypes.

(** ** [lapin]'s data *)

Inductive AMQPValue : Type :=
| LongString (s : string)
| ShortUInt (n : Z)
| LongUInt (n : Z)
| OtherValue (v : Value).

Definition as_short_uint (v : AMQPValue) : option Z :=
  match v with ShortUInt n => Some n | _ => None end.

Abbreviation FieldTable := (gmap string AMQPValue).

Record BasicProperties : Type := mkProperties {
  headers : option FieldTable;
  delivery_mode : option Z;
}.

Definition with_headers (p : BasicProperties) (h : FieldTable) : BasicProperties :=
  mkProperties (Some h) (delivery_mode p).

Record Delivery : Type := mkDelivery {
  delivery_tag : Z;
  data : string;
  properties : BasicProperties;
}.

(** A message handed to the broker: routing key, body, properties. *)
Record Message : Type := mkMsg {
  routing_key : string;
  body : string;
  message_properties : BasicProperties;
}.

Class Amqp (W : Type) : Type := {
  basic_publish : string -> string -> string -> BasicProperties -> M W (result bool string);
  basic_ack : Z -> M W (result unit string);
  basic_nack : Z -> bool -> M W (result unit string);
  amqp_connect : string -> M W (result unit string);
  create_channel : M W (result unit string);
  confirm_select : M W (result unit string);
  basic_qos : Z -> M W (result unit string);
  exchange_declare : string -> M W (result unit string);
  queue_declare : string -> FieldTable -> M W (result unit string);
  queue_bind : string -> string -> string -> M W (result unit string);
  (* what the statements observe *)
  published : W -> list Message;
  acked : W -> list Z;
  nacked : W -> list (Z * bool);
  queue_args : W -> string -> option FieldTable;
  bindings : W -> list (string * string * string);
}.

(** ** [queue.rs] *)

(** src/relayer_base/src/queue.rs:36-36 DEAD_LETTER_EXCHANGE *)
Definition DEAD_LETTER_EXCHANGE : string := "dlx_exchange".
(** src/relayer_base/src/queue.rs:37-37 DEAD_LETTER_QUEUE_PREFIX *)
Definition DEAD_LETTER_QUEUE_PREFIX : string := "dead_letter_".
(** src/relayer_base/src/queue.rs:38-38 MAX_RETRIES *)
Definition MAX_RETRIES : Z := 3.
(** src/relayer_base/src/queue.rs:39-39 BUFFER_SIZE *)
Definition BUFFER_SIZE : nat := 1000.

(** src/relayer_base/src/queue.rs:53-58 QueueItem *)
Inductive QueueItem (CT : Type) : Type :=
| QTask (t : Task)
| QTransaction (tx : CT)
| QRetryConstructProof (s : string).
Arguments QTask {CT} t.
Arguments QTransaction {CT} tx.
Arguments QRetryConstructProof {CT} s.

(** [serde_json]'s encoding of queue items. *)
Class ItemCodec (CT : Type) : Type := {
  to_vec : QueueItem CT -> result string string;
  from_slice : string -> result (QueueItem CT) string;
}.

(** The rest of the program uses a queue through this interface. *)
Class QueueApi (CT W : Type) : Type := {
  queue_publish : string -> QueueItem CT -> M W unit;
  queue_republish : string -> Delivery -> bool -> M W (result unit string);
}.

(** The fields the OpenTelemetry propagator injects for the current span. *)
Class Propagator : Type := { injected : list (string * string) }.

(** src/relayer_base/src/logging.rs:178-184 HeadersBTreeMap::set *)
Definition headers_set (h : FieldTable) (kv : string * string) : FieldTable :=
  <[fst kv := LongString (snd kv)]> h.

(** src/relayer_base/src/logging.rs:131-140 distributed_tracing_headers *)
Definition distributed_tracing_headers `{!Propagator} : FieldTable := foldl headers_set ∅ injected.

(** src/relayer_base/src/queue.rs:190-196 Queue::republish (the retry count of a delivery) *)
Definition retry_count (p : BasicProperties) : Z :=
  match headers p with
  | Some h => match h !! "x-retry-count" with
              | Some v => match as_short_uint v with Some n => n | None => 0 end
              | None => 0
              end
  | None => 0
  end.

(** src/relayer_base/src/queue.rs:41-51 Queue *)
Record Queue (CT W : Type) : Type := mkQueue {
  broker : W;
  buffer : list (QueueItem CT);
  receiver_open : bool;
  shutdown_signal : bool;
}.
Arguments mkQueue {CT W} broker buffer receiver_open shutdown_signal.
Arguments broker {CT W} q.
Arguments buffer {CT W} q.
Arguments receiver_open {CT W} q.
Arguments shutdown_signal {CT W} q.

Section queue.
Context {CT W : Type} `{!ItemCodec CT, !Amqp W, !Timer W, !Propagator}.
Variable name : string.
Abbreviation Q := (Queue CT W).

(** A call of the broker, from a method of the queue. *)
Definition on_broker {A} (m : M W A) : M Q A := fun q =>
  let '(o, w') := m (broker q) in
  (o, mkQueue w' (buffer q) (receiver_open q) (shutdown_signal q)).

(** src/relayer_base/src/queue.rs:410-419 Queue::publish *)
Definition publish (item : QueueItem CT) : M Q unit :=
  modify (fun q =>
    if receiver_open q then
      mkQueue (broker q) (buffer q ++ [item]) (receiver_open q) (shutdown_signal q)
    else q).

Definition retry_queue_name : string := "retry_" +:+ name.

(** src/relayer_base/src/queue.rs:422-457 Queue::publish_item *)
Definition publish_item (item : QueueItem CT) (retry_queue : bool) (props : option BasicProperties) :
  M W (result unit string) :=
  let? msg := ret (to_vec item) in
  let queue := if retry_queue then retry_queue_name else name in
  let props := default (mkProperties None (Some 2)) props in
  let props := with_headers props distributed_tracing_headers in
  let? ack := basic_publish "" queue msg props in
  ret (if (ack : bool) then Ok tt else Err "Failed to publish message").

(** src/relayer_base/src/queue.rs:173-240 Queue::republish *)
Definition republish (delivery : Delivery) (force_requeue : bool) : M Q (result unit string) :=
  let? item := ret (from_slice (data delivery)) in
  if force_requeue then
    let! a := on_broker (basic_ack (delivery_tag delivery)) in
    match a with
    | Err e => ret (Err ("Failed to ack message: " +:+ e))
    | Ok _ => let! _u := publish item in ret (Ok tt)
    end
  else
    let retry_count := retry_count (properties delivery) in
    if (MAX_RETRIES <? retry_count)%Z then
      let! n := on_broker (basic_nack (delivery_tag delivery) false) in
      ret (rmap_err (fun e => "Failed to nack message: " +:+ e) n)
    else
      let new_headers :=
        <["x-retry-count" := ShortUInt (wrap 16 (retry_count + 1)%Z)]>
          (default ∅ (headers (properties delivery))) in
      let props := with_headers (properties delivery) new_headers in
      let! p := on_broker (publish_item item true (Some props)) in
      match p with
      | Err e =>
          let! _n := on_broker (basic_nack (delivery_tag delivery) true) in
          ret (Err ("Failed to republish item: " +:+ e))
      | Ok _ =>
          let! a := on_broker (basic_ack (delivery_tag delivery)) in
          ret (rmap_err (fun e => "Failed to ack message: " +:+ e) a)
      end.

(** How an iteration of the buffer processor ends: it waits on an empty
    channel, goes round again, or leaves its loop. *)
Inductive iteration : Type := Waiting | Continue | Stopped.

(** src/relayer_base/src/queue.rs:97-131 BufferProcessor::run (the loop's body) *)
Definition processor_iteration : M Q iteration :=
  let! q := get_world in
  match buffer q with
  | [] => ret Waiting
  | item :: rest =>
      let! _u := put_world (mkQueue (broker q) rest (receiver_open q) (shutdown_signal q)) in
      let! p := on_broker (publish_item item false None) in
      let! _u := (match p with Err _ => publish item | Ok _ => ret tt end) in
      let! q := get_world in
      if shutdown_signal q then
        if (BUFFER_SIZE - length (buffer q) <? BUFFER_SIZE)%nat then ret Continue
        else ret Stopped
      else ret Continue
  end.

(** src/relayer_base/src/queue.rs:90-133 BufferProcessor::run *)
Fixpoint processor_run (fuel : nat) : M Q iteration :=
  match fuel with
  | O => ret Continue
  | S fuel =>
      let! i := processor_iteration in
      match i with
      | Continue => processor_run fuel
      | Waiting | Stopped => ret i
      end
  end.

(** src/relayer_base/src/queue.rs:135-137 BufferProcessor::shutdown *)
Definition shutdown : M Q unit :=
  modify (fun q => mkQueue (broker q) (buffer q) (receiver_open q) true).

Definition dlq_name : string := DEAD_LETTER_QUEUE_PREFIX +:+ name.

Definition retry_args : FieldTable :=
  <["x-message-ttl" := LongUInt 10000]>
  (<["x-dead-letter-routing-key" := LongString name]>
  (<["x-dead-letter-exchange" := LongString ""]> ∅)).

Definition main_args : FieldTable :=
  <["x-dead-letter-routing-key" := LongString dlq_name]>
  (<["x-dead-letter-exchange" := LongString DEAD_LETTER_EXCHANGE]> ∅).

(** src/relayer_base/src/queue.rs:261-363 Queue::setup_rabbitmq *)
Definition setup_rabbitmq (num_workers : Z) : M W (result unit string) :=
  let? _c := create_channel in
  let? _f := confirm_select in
  let? _s := basic_qos num_workers in
  let? _x := exchange_declare DEAD_LETTER_EXCHANGE in
  let? _d := queue_declare dlq_name ∅ in
  let? _b := queue_bind dlq_name DEAD_LETTER_EXCHANGE dlq_name in
  let? _r := queue_declare retry_queue_name retry_args in
  let? _m := queue_declare name main_args in
  ret (Ok tt).

(** src/relayer_base/src/queue.rs:365-390 Queue::connect (the loop, [fuel] rounds of it) *)
Fixpoint connect (fuel : nat) (url : string) (num_workers : Z) : M W bool :=
  match fuel with
  | O => ret false
  | S fuel =>
      let! c := amqp_connect url in
      let! s := (match c with
                 | Ok _ => setup_rabbitmq num_workers
                 | Err e => ret (Err e)
                 end) in
      match s with
      | Ok _ => ret true
      | Err _ => let! _u := sleep 5 in connect fuel url num_workers
      end
  end.
End queue.

(** ** What the code relies on of the broker *)

Class AmqpLaws (W : Type) `{!Amqp W} : Prop := {
  publish_done : forall ex key m p w,
    exists r w', basic_publish ex key m p w = (Done r, w') /\
      acked w' = acked w /\ nacked w' = nacked w /\
      (published w' = published w ++ [mkMsg key m p] \/
       (published w' = published w /\ r <> Ok true));
  ack_done : forall tag w,
    exists r w', basic_ack tag w = (Done r, w') /\ published w' = published w /\
      nacked w' = nacked w /\ (r = Ok tt -> acked w' = acked w ++ [tag]) /\
      (acked w' = acked w \/ acked w' = acked w ++ [tag]);
  nack_done : forall tag b w,
    exists r w', basic_nack tag b w = (Done r, w') /\ published w' = published w /\
      acked w' = acked w /\ (nacked w' = nacked w \/ nacked w' = nacked w ++ [(tag, b)]);
  queue_declare_done : forall q args w,
    exists r w', queue_declare q args w = (Done r, w') /\ bindings w' = bindings w /\
      (r = Ok tt -> queue_args w' q = Some args) /\
      (forall q', q' <> q -> queue_args w' q' = queue_args w q');
  queue_bind_done : forall q ex key w,
    exists r w', queue_bind q ex key w = (Done r, w') /\
      (forall q', queue_args w' q' = queue_args w q') /\
      (r = Ok tt -> (ex, key, q) ∈ bindings w');
}.

(** ** Republishing *)

Lemma as_short_uint_injected {P : Propagator} k v :
  distributed_tracing_headers !! k = Some v -> as_short_uint v = None.
Proof.
  unfold distributed_tracing_headers.
  assert (H : forall l (h : FieldTable),
    (forall k v, h !! k = Some v -> as_short_uint v = None) ->
    forall k v, foldl headers_set h l !! k = Some v -> as_short_uint v = None).
  { induction l as [|[k' v'] l IH]; intros h Hh; [done|]. apply IH. unfold headers_set. simpl.
    intros k0 v0. destruct (decide (k0 = k')) as [->|Hne].
    - rewrite lookup_insert_eq. by intros [= <-].
    - rewrite lookup_insert_ne by done. apply Hh. }
  apply H. intros k0 v0. by rewrite lookup_empty.
Qed.

Lemma retry_count_injected {P : Propagator} p : retry_count (with_headers p distributed_tracing_headers) = 0.
Proof.
  unfold retry_count, with_headers. simpl.
  destruct (distributed_tracing_headers !! "x-retry-count") as [v|] eqn:H; [|done].
  by rewrite (as_short_uint_injected _ _ H).
Qed.

Section republish.
Context {CT W : Type} {IC : ItemCodec CT} {A : Amqp W} {AL : AmqpLaws W} {P : Propagator}.
Variable name : string.

(** Publishing an item: nothing is acknowledged, and at most one message is
    added, to the right queue, with the encoded item and a retry count of 0;
    it is there when the call answers [Ok]. *)
Lemma publish_item_run (item : QueueItem CT) retry props w :
  exists r w', publish_item name item retry props w = (Done r, w') /\
    acked w' = acked w /\ nacked w' = nacked w /\
    ((published w' = published w /\ r <> Ok tt) \/
     exists b p, to_vec item = Ok b /\ retry_count p = 0 /\
       published w' = published w ++ [mkMsg (if retry then retry_queue_name name else name) b p]).
Proof.
  unfold publish_item. destruct (to_vec item) as [b|e]; rewrite bind_ok_run; simpl.
  2: { exists (Err e), w. repeat split. by left. }
  set (p := with_headers (default (mkProperties None (Some 2)) props) distributed_tracing_headers).
  destruct (publish_done "" (if retry then retry_queue_name name else name) b p w)
    as (r & w' & E & Ha & Hn & Hp).
  rewrite bind_ok_run, E. destruct r as [ok|e].
  - eexists _, w'. split; [done|]. split; [done|]. split; [done|].
    destruct Hp as [Hp | [Hp Hr]].
    + right. exists b, p. split; [done|]. split; [apply retry_count_injected|done].
    + left. split; [done|]. by destruct ok.
  - exists (Err e), w'. repeat split; [done|done|].
    destruct Hp as [Hp | [Hp Hr]]; [|by left].
    right. exists b, p. split; [done|]. split; [apply retry_count_injected|done].
Qed.

Lemma on_broker_run {X} (m : M W X) (q : Queue CT W) o w' :
  m (broker q) = (o, w') ->
  on_broker m q = (o, mkQueue w' (buffer q) (receiver_open q) (shutdown_signal q)).
Proof. intros H. unfold on_broker. by rewrite H. Qed.

(** A handler's failure does not lose the message.  Republishing without
    a forced requeue leaves the buffer alone and acknowledges the delivery
    only once the broker has taken a copy, with the same item, for the retry
    queue; it answers [Ok] only if the delivery was acknowledged or, past the
    retry limit, handed to the broker for dead-lettering, and rejects it
    without a requeue only past that limit. *)
Lemma republish_run (d : Delivery) (item : QueueItem CT) (q : Queue CT W) :
  from_slice (data d) = Ok item ->
  exists r q', republish name d false q = (Done r, q') /\ buffer q' = buffer q /\
    (acked (broker q') = acked (broker q) \/
     acked (broker q') = acked (broker q) ++ [delivery_tag d] /\
     exists b p, to_vec item = Ok b /\
       published (broker q') = published (broker q) ++ [mkMsg (retry_queue_name name) b p]) /\
    (r = Ok tt -> acked (broker q') = acked (broker q) ++ [delivery_tag d] \/
                  MAX_RETRIES < retry_count (properties d)) /\
    (nacked (broker q') = nacked (broker q) \/
     acked (broker q') = acked (broker q) /\
     nacked (broker q') = nacked (broker q) ++ [(delivery_tag d, negb (MAX_RETRIES <? retry_count (properties d)))]).
Proof.
  intros Hd. unfold republish. rewrite Hd, bind_ok_run. cbn [ret].
  destruct (Z.ltb_spec MAX_RETRIES (retry_count (properties d))) as [Hmax|Hmax].
  - destruct (nack_done (delivery_tag d) false (broker q)) as (r & w' & E & _ & Ha & Hn).
    erewrite bind_done by (apply on_broker_run; exact E).
    eexists _, _. split; [done|]. simpl. split; [done|]. split; [by left|]. split; [by right|].
    destruct Hn; [by left|by right].
  - set (props := with_headers _ _).
    destruct (publish_item_run item true (Some props) (broker q)) as (r & w' & E & Ha & Hn & Hp).
    erewrite bind_done by (apply on_broker_run; exact E). destruct r as [[]|e].
    + destruct Hp as [[_ Hr] | (b & p & Hb & _ & Hp)]; [done|].
      destruct (ack_done (delivery_tag d) w') as (r2 & w2 & E2 & Hp2 & Hn2 & Hok & Hor).
      erewrite bind_done by (apply on_broker_run; exact E2).
      eexists _, _. split; [done|]. simpl. rewrite Hp2, Hn2, <- Ha, <- Hn. split; [done|]. split; [|split; [|by left]].
      * destruct Hor as [Hor|Hor]; [by left|]. right. split; [done|]. by exists b, p.
      * intros Hr. left. destruct r2 as [[]|]; [by apply Hok|done].
    + destruct (nack_done (delivery_tag d) true w') as (r2 & w2 & E2 & _ & Ha2 & Hn2).
      erewrite bind_done by (apply on_broker_run; exact E2).
      eexists _, _. split; [done|]. simpl. rewrite Ha2, Ha, <- Hn. split; [done|]. split; [by left|]. split; [done|].
      destruct Hn2; [by left|by right].
Qed.

(** The retry counter does not survive a republish.  [publish_item]
    replaces the headers [republish] has prepared by the tracing headers, so
    the copy that waits in the retry queue always counts zero retries, and a
    delivery counting at most [MAX_RETRIES] is never rejected towards the
    dead-letter queue: a message whose handler keeps failing is retried for
    ever. *)
Theorem retry_count_lost (d : Delivery) (q : Queue CT W) (item : QueueItem CT) :
  from_slice (data d) = Ok item -> retry_count (properties d) <= MAX_RETRIES ->
  exists r q', republish name d false q = (Done r, q') /\
    (forall m, m ∈ published (broker q') ->
       m ∈ published (broker q) \/ retry_count (message_properties m) = 0) /\
    (forall tag, (tag, false) ∈ nacked (broker q') -> (tag, false) ∈ nacked (broker q)).
Proof.
  intros Hd Hmax. unfold republish. rewrite Hd, bind_ok_run. cbn [ret].
  destruct (Z.ltb_spec MAX_RETRIES (retry_count (properties d))) as [Hlt|_]; [lia|].
  set (props := with_headers _ _).
  destruct (publish_item_run item true (Some props) (broker q)) as (r & w' & E & _ & Hn & Hp).
  assert (Hp' : forall m, m ∈ published w' ->
    m ∈ published (broker q) \/ retry_count (message_properties m) = 0).
  { intros m Hm. destruct Hp as [[Hp _] | (b & p & _ & Hz & Hp)]; rewrite Hp in Hm; [by left|].
    apply elem_of_app in Hm as [Hm|Hm%list_elem_of_singleton]; [by left|right]. by subst m. }
  erewrite bind_done by (apply on_broker_run; exact E). destruct r as [[]|e].
  - destruct (ack_done (delivery_tag d) w') as (r2 & w2 & E2 & Hp2 & Hn2 & _).
    erewrite bind_done by (apply on_broker_run; exact E2).
    eexists _, _. split; [done|]. simpl. rewrite Hp2, Hn2, Hn. done.
  - destruct (nack_done (delivery_tag d) true w') as (r2 & w2 & E2 & Hp2 & _ & Hn2).
    erewrite bind_done by (apply on_broker_run; exact E2).
    eexists _, _. split; [done|]. simpl. rewrite Hp2. split; [done|].
    intros tag Ht. rewrite <- Hn. destruct Hn2 as [Hn2|Hn2]; rewrite Hn2 in Ht; [done|].
    by apply elem_of_app in Ht as [Ht|[=]%list_elem_of_singleton].
Qed.

(** A forced requeue acknowledges first and buffers afterwards.  While
    the buffer takes items the item waits at its tail; once the buffer's
    receiver is gone (the queue was closed) the delivery is acknowledged, the
    answer is [Ok], and the item is nowhere. *)
Theorem forced_requeue (d : Delivery) (item : QueueItem CT) (q : Queue CT W) w' :
  from_slice (data d) = Ok item ->
  basic_ack (delivery_tag d) (broker q) = (Done (Ok tt), w') ->
  exists q', republish name d true q = (Done (Ok tt), q') /\
    acked (broker q') = acked (broker q) ++ [delivery_tag d] /\
    published (broker q') = published (broker q) /\
    buffer q' = (if receiver_open q then buffer q ++ [item] else buffer q).
Proof.
  intros Hd E. unfold republish. rewrite Hd, bind_ok_run. cbn [ret].
  erewrite bind_done by (apply on_broker_run; exact E).
  destruct (ack_done (delivery_tag d) (broker q)) as (r2 & w2 & E2 & Hp2 & _ & Hok & _).
  rewrite E in E2. simplify_eq.
  unfold publish, modify. rewrite bind_run. simpl.
  eexists. split; [done|]. destruct (receiver_open q); simpl; rewrite Hok, Hp2 by done; done.
Qed.
End republish.

(** ** The buffer processor *)

Section processor.
Context {CT W : Type} {IC : ItemCodec CT} {A : Amqp W} {AL : AmqpLaws W} {P : Propagator}.
Variable name : string.

(** A message with the item's encoding was routed to the queue. *)
Definition on_queue (w : W) (item : QueueItem CT) : Prop :=
  exists b p, to_vec item = Ok b /\ mkMsg name b p ∈ published w.

Lemma publish_item_published item retry props w m :
  m ∈ published w -> m ∈ published (snd (publish_item name item retry props w)).
Proof.
  intros Hm. destruct (publish_item_run name item retry props w) as (r & w' & -> & _ & _ & Hp). simpl.
  destruct Hp as [[-> _] | (b & p & _ & _ & ->)]; [done|]. apply elem_of_app. by left.
Qed.

(** One iteration: the head is published, or goes back to the tail. *)
Lemma processor_iteration_run (q : Queue CT W) item rest :
  buffer q = item :: rest -> receiver_open q = true ->
  exists i q', processor_iteration name q = (Done i, q') /\
    i = (if shutdown_signal q then match buffer q' with [] => Stopped | _ => Continue end else Continue) /\
    shutdown_signal q' = shutdown_signal q /\ receiver_open q' = true /\
    broker q' = snd (publish_item name item false None (broker q)) /\
    ((buffer q' = rest /\ on_queue (broker q') item /\
      fst (publish_item name item false None (broker q)) = Done (Ok tt)) \/
     (buffer q' = rest ++ [item] /\ fst (publish_item name item false None (broker q)) <> Done (Ok tt))).
Proof.
  intros Hb Ho. unfold processor_iteration.
  destruct (publish_item_run name item false None (broker q)) as (r & w' & E & _ & _ & Hp).
  rewrite bind_run. unfold get_world at 1. rewrite Hb.
  rewrite bind_run. unfold put_world.
  erewrite bind_done by (apply on_broker_run; exact E). rewrite E. simpl.
  assert (Hcap : forall n, (BUFFER_SIZE - n <? BUFFER_SIZE)%nat = match n with O => false | S _ => true end).
  { intros [|n]; [done|]. apply Nat.ltb_lt. unfold BUFFER_SIZE. lia. }
  destruct r as [[]|e]; simpl.
  - rewrite bind_run. unfold ret at 1. rewrite bind_run. unfold get_world. simpl.
    rewrite Hcap. exists (if shutdown_signal q then match rest with [] => Stopped | _ => Continue end else Continue).
    exists (mkQueue w' rest (receiver_open q) (shutdown_signal q)). split.
    { by destruct (shutdown_signal q), rest. }
    simpl. split; [done|]. split; [done|]. split; [done|]. split; [done|]. left. split; [done|].
    split; [|done]. destruct Hp as [[_ []] | (b & p & Hv & _ & Hp)]; [done|].
    exists b, p. split; [done|]. rewrite Hp. apply elem_of_app. right. by left.
  - rewrite bind_run. unfold publish, modify. simpl. rewrite Ho. rewrite bind_run. unfold get_world. simpl.
    rewrite Hcap, length_app. simpl. rewrite Nat.add_1_r.
    exists Continue, (mkQueue w' (rest ++ [item]) true (shutdown_signal q)).
    split; [by destruct (shutdown_signal q)|].
    simpl. split; [destruct (shutdown_signal q), rest; done|].
    split; [done|]. split; [done|]. split; [done|]. right. done.
Qed.

Lemma processor_idle (q : Queue CT W) :
  buffer q = [] -> processor_iteration name q = (Done Waiting, q).
Proof. intros Hb. unfold processor_iteration. rewrite bind_run. unfold get_world. by rewrite Hb. Qed.

Lemma processor_run_keeps fuel (q : Queue CT W) :
  receiver_open q = true ->
  exists i q' sent, processor_run name fuel q = (Done i, q') /\
    buffer q ≡ₚ sent ++ buffer q' /\ Forall (on_queue (broker q')) sent /\
    (forall m, m ∈ published (broker q) -> m ∈ published (broker q')).
Proof.
  revert q. induction fuel as [|fuel IH]; intros q Ho.
  { exists Continue, q, []. done. }
  simpl. destruct (buffer q) as [|item rest] eqn:Hb.
  { exists Waiting, q, []. rewrite Hb. split; [|done].
    by erewrite bind_done by (by apply processor_idle). }
  destruct (processor_iteration_run q item rest Hb Ho) as (i & q1 & E & Hi & _ & Ho1 & Hw & Hcase).
  erewrite bind_done by exact E.
  assert (Hmono : forall m, m ∈ published (broker q) -> m ∈ published (broker q1)).
  { intros m Hm. rewrite Hw. by apply publish_item_published. }
  assert (Hperm : exists s1, item :: rest ≡ₚ s1 ++ buffer q1 /\ Forall (on_queue (broker q1)) s1).
  { destruct Hcase as [(-> & Hq & _) | (-> & _)].
    - exists [item]. split; [done|]. by constructor.
    - exists []. simpl. split; [apply Permutation_cons_append|done]. }
  destruct Hperm as (s1 & Hs1 & Hf1).
  destruct (IH q1 Ho1) as (i2 & q2 & s2 & E2 & Hs2 & Hf2 & Hm2).
  destruct i.
  - exists Waiting, q1, s1. done.
  - exists i2, q2, (s1 ++ s2). split; [exact E2|]. split; [by rewrite <- app_assoc, <- Hs2|].
    split; [|intros m Hm; by apply Hm2, Hmono]. apply Forall_app. split; [|done].
    eapply Forall_impl; [exact Hf1|]. intros x (b & p & Hb' & Hin). exists b, p. split; [done|by apply Hm2].
  - exists Stopped, q1, s1. done.
Qed.

(** C16: the buffer loses nothing.  However many rounds the processor makes
    and whatever the broker answers, the items that were buffered are, up to
    order, the ones still buffered and the ones now on the queue. *)
Theorem buffer_keeps (fuel : nat) (q : Queue CT W) :
  receiver_open q = true ->
  exists i q' sent, processor_run name fuel q = (Done i, q') /\
    buffer q ≡ₚ sent ++ buffer q' /\ Forall (on_queue (broker q')) sent.
Proof.
  intros Ho. destruct (processor_run_keeps fuel q Ho) as (i & q' & s & H1 & H2 & H3 & _).
  by exists i, q', s.
Qed.

(** Shutting down empties the buffer.  With a broker that confirms, as
    many rounds as there are items publish them all, in order, and leave the
    loop; a processor that is waiting on an empty buffer does not notice the
    shutdown at all (it is cancelled by [close]). *)
Theorem shutdown_drains (confirms : W -> Prop) (q : Queue CT W) :
  receiver_open q = true -> confirms (broker q) ->
  (forall item w, item ∈ buffer q -> confirms w ->
     fst (publish_item name item false None w) = Done (Ok tt) /\
     confirms (snd (publish_item name item false None w))) ->
  let q0 := snd (shutdown q) in
  match buffer q with
  | [] => processor_run name 1 q0 = (Done Waiting, q0)
  | items => exists q', processor_run name (length items) q0 = (Done Stopped, q') /\
      buffer q' = [] /\ Forall (on_queue (broker q')) items
  end.
Proof.
  intros Ho Hc Hok q0. destruct (buffer q) as [|item0 rest0] eqn:Hb0.
  { simpl. by erewrite bind_done by (by apply processor_idle). }
  assert (Hgen : forall items q, buffer q = items -> items <> [] -> receiver_open q = true ->
    shutdown_signal q = true -> confirms (broker q) ->
    (forall item w, item ∈ items -> confirms w ->
       fst (publish_item name item false None w) = Done (Ok tt) /\
       confirms (snd (publish_item name item false None w))) ->
    exists q', processor_run name (length items) q = (Done Stopped, q') /\ buffer q' = [] /\
      Forall (on_queue (broker q')) items /\
      (forall m, m ∈ published (broker q) -> m ∈ published (broker q'))).
  { clear q q0 Ho Hc Hok item0 rest0 Hb0. induction items as [|item rest IH]; intros q Hb Hne Ho Hs Hc Hok; [done|].
    assert (Hhd : item ∈ item :: rest) by left. destruct (Hok item (broker q) Hhd Hc) as [Hok1 Hc1].
    destruct (processor_iteration_run q item rest Hb Ho) as (i & q1 & E & Hi & Hs1 & Ho1 & Hw & Hcase).
    destruct Hcase as [(Hb1 & Hq & _) | [_ Hbad]]; [|by rewrite Hok1 in Hbad].
    assert (Hmono : forall m, m ∈ published (broker q) -> m ∈ published (broker q1)).
    { intros m Hm. rewrite Hw. by apply publish_item_published. }
    simpl. erewrite bind_done by exact E. rewrite Hs, Hb1 in Hi.
    destruct rest as [|item' rest]; subst i.
    - exists q1. split; [done|]. split; [done|]. split; [by constructor|done].
    - destruct (IH q1 Hb1) as (q2 & E2 & Hb2 & Hf2 & Hm2); [done|done|congruence|by rewrite Hw|
        intros x w Hx; apply Hok; by right|].
      exists q2. split; [exact E2|]. split; [done|]. split; [|intros m Hm; by apply Hm2, Hmono].
      constructor; [|done]. destruct Hq as (b & p & Hv & Hin). exists b, p. split; [done|by apply Hm2]. }
  destruct (Hgen (item0 :: rest0) (snd (shutdown q))) as (q' & E & Hb' & Hf & _);
    [exact Hb0|done|exact Ho|done|exact Hc|exact Hok|].
  exists q'. split; [exact E|]. by split.
Qed.
End processor.

(** ** The topology that [connect] declares *)

Section topology.
Context {W : Type} {A : Amqp W} {AL : AmqpLaws W} {T : Timer W}.
Variable name : string.

(** Where a message that queue [q] rejects or lets expire goes: the queues
    bound to its dead-letter exchange under its dead-letter key; the default
    exchange [""] routes to the queue of that name. *)
Definition dead_letter_route (w : W) (q : string) : list string :=
  match queue_args w q with
  | None => []
  | Some args =>
      match args !! "x-dead-letter-exchange", args !! "x-dead-letter-routing-key" with
      | Some (LongString ex), Some (LongString key) =>
          if decide (ex = "") then [key]
          else map snd (filter (fun b => fst b = (ex, key)) (bindings w))
      | _, _ => []
      end
  end.

Lemma queue_names : dlq_name name <> name /\ retry_queue_name name <> name /\
  dlq_name name <> retry_queue_name name.
Proof.
  unfold dlq_name, retry_queue_name, DEAD_LETTER_QUEUE_PREFIX.
  assert (Hlen : forall a b : string, a = b -> String.length a = String.length b) by congruence.
  repeat split; intros H%Hlen; revert H; rewrite ?string_length_app; simpl; lia.
Qed.

Definition topology (w : W) : Prop :=
  dlq_name name ∈ dead_letter_route w name /\
  dead_letter_route w (retry_queue_name name) = [name] /\
  dead_letter_route w (dlq_name name) = [].

Lemma setup_topology n w w' :
  setup_rabbitmq name n w = (Done (Ok tt), w') -> topology w'.
Proof.
  unfold setup_rabbitmq. destruct queue_names as (N1 & N2 & N3). intros H.
  do 4 (rewrite bind_ok_run in H;
    match type of H with context [match ?m with _ => _ end = _] =>
      destruct m as [[[[]|]|] ?w]; try discriminate H end).
  match goal with w3 : W |- _ =>
    rewrite bind_ok_run in H; destruct (queue_declare_done (dlq_name name) ∅ w3) as (r4 & w4 & E4 & B4 & A4 & O4)
  end.
  rewrite E4 in H. destruct r4 as [[]|]; [|discriminate H]. specialize (A4 eq_refl).
  rewrite bind_ok_run in H.
  destruct (queue_bind_done (dlq_name name) DEAD_LETTER_EXCHANGE (dlq_name name) w4) as (r5 & w5 & E5 & O5 & B5).
  rewrite E5 in H. destruct r5 as [[]|]; [|discriminate H]. specialize (B5 eq_refl).
  rewrite bind_ok_run in H.
  destruct (queue_declare_done (retry_queue_name name) (retry_args name) w5) as (r6 & w6 & E6 & B6 & A6 & O6).
  rewrite E6 in H. destruct r6 as [[]|]; [|discriminate H]. specialize (A6 eq_refl).
  rewrite bind_ok_run in H.
  destruct (queue_declare_done name (main_args name) w6) as (r7 & w7 & E7 & B7 & A7 & O7).
  rewrite E7 in H. destruct r7 as [[]|]; [|discriminate H]. specialize (A7 eq_refl).
  injection H as <-. unfold topology, dead_letter_route. rewrite A7.
  rewrite (O7 (retry_queue_name name)), A6 by done.
  rewrite (O7 (dlq_name name)), (O6 (dlq_name name)), O5, A4 by done.
  split; [|split].
  - unfold main_args. rewrite lookup_insert_ne, lookup_insert_eq by done. rewrite lookup_insert_eq.
    rewrite decide_False by done. apply list_elem_of_fmap.
    exists (DEAD_LETTER_EXCHANGE, dlq_name name, dlq_name name). split; [done|].
    apply list_elem_of_filter. split; [done|]. by rewrite B7, B6.
  - reflexivity.
  - by rewrite lookup_empty.
Qed.

(** Once [connect] is through, whatever earlier rounds did, a message
    rejected from the queue goes to its dead-letter queue, a message whose
    time in the retry queue is over comes back to the queue, and nothing
    leaves the dead-letter queue by itself. *)
Theorem connect_topology (fuel : nat) (url : string) (num_workers : Z) (w w' : W) :
  connect name fuel url num_workers w = (Done true, w') ->
  dlq_name name ∈ dead_letter_route w' name /\
  dead_letter_route w' (retry_queue_name name) = [name] /\
  dead_letter_route w' (dlq_name name) = [].
Proof.
  revert w. induction fuel as [|fuel IH]; intros w; simpl; [done|].
  rewrite bind_run. destruct (amqp_connect url w) as [[[c|e]|why] w1]; [| |done].
  - rewrite bind_run. destruct (setup_rabbitmq name num_workers w1) as [[[[]|e]|why] w2] eqn:E; [| |done].
    + intros [= <-]. exact (setup_topology _ _ _ E).
    + rewrite bind_run. destruct (sleep 5 w2) as [[u|why] w3]; [|done]. apply IH.
  - rewrite bind_run. simpl. rewrite bind_run.
    destruct (sleep 5 w1) as [[u|why] w3]; [|done]. apply IH.
Qed.
End topology.

(** ** A broker in memory

    It records what it is told; each publish, ack and declaration consumes one
    answer of [answers] ([false]: refused; [true], or none left: accepted). *)

Record MemBroker : Type := mkMem {
  mem_published : list Message;
  mem_acked : list Z;
  mem_nacked : list (Z * bool);
  mem_args : gmap string FieldTable;
  mem_bindings : list (string * string * string);
  answers : list bool;
}.

Definition mem_ask {X} (yes : MemBroker -> X * MemBroker) (no : X) : M MemBroker X := fun w =>
  let w1 := mkMem (mem_published w) (mem_acked w) (mem_nacked w) (mem_args w) (mem_bindings w)
                  (tail (answers w)) in
  match answers w with
  | false :: _ => (Done no, w1)
  | _ => let '(x, w2) := yes w1 in (Done x, w2)
  end.

#[export] Instance mem_amqp : Amqp MemBroker := {|
  basic_publish := fun _ key m p => mem_ask (fun w =>
    (Ok true, mkMem (mem_published w ++ [mkMsg key m p]) (mem_acked w) (mem_nacked w) (mem_args w)
                    (mem_bindings w) (answers w))) (Err "closed");
  basic_ack := fun tag => mem_ask (fun w =>
    (Ok tt, mkMem (mem_published w) (mem_acked w ++ [tag]) (mem_nacked w) (mem_args w)
                  (mem_bindings w) (answers w))) (Err "closed");
  basic_nack := fun tag b => mem_ask (fun w =>
    (Ok tt, mkMem (mem_published w) (mem_acked w) (mem_nacked w ++ [(tag, b)]) (mem_args w)
                  (mem_bindings w) (answers w))) (Err "closed");
  amqp_connect := fun _ => mem_ask (fun w => (Ok tt, w)) (Err "refused");
  create_channel := ret (Ok tt);
  confirm_select := ret (Ok tt);
  basic_qos := fun _ => ret (Ok tt);
  exchange_declare := fun _ => ret (Ok tt);
  queue_declare := fun q args => mem_ask (fun w =>
    (Ok tt, mkMem (mem_published w) (mem_acked w) (mem_nacked w) (<[q := args]> (mem_args w))
                  (mem_bindings w) (answers w))) (Err "closed");
  queue_bind := fun q ex key => mem_ask (fun w =>
    (Ok tt, mkMem (mem_published w) (mem_acked w) (mem_nacked w) (mem_args w)
                  ((ex, key, q) :: mem_bindings w) (answers w))) (Err "closed");
  published := mem_published;
  acked := mem_acked;
  nacked := mem_nacked;
  queue_args := fun w q => mem_args w !! q;
  bindings := mem_bindings;
|}.

#[export] Instance mem_timer : Timer MemBroker := {| sleep := fun _ => ret tt |}.

#[export] Instance mem_laws : AmqpLaws MemBroker.
Proof.
  split; intros; simpl; unfold mem_ask;
    match goal with w : MemBroker |- _ => destruct (answers w) as [|[] l] end;
    eexists _, _; (split; [reflexivity|]); simpl; repeat split; try done; auto.
  all: try (by rewrite lookup_insert_eq).
  all: try (intros q' Hq; by rewrite lookup_insert_ne by done).
  all: try (intros _; by left).
Qed.

Module QueueDemo.
Definition codec : ItemCodec unit := {|
  to_vec := fun i => match i with QRetryConstructProof s => Ok s | _ => Err "not encodable" end;
  from_slice := fun s => Ok (QRetryConstructProof s);
|}.
Definition propagator : Propagator := {| injected := [("traceparent", "00-1")] |}.
#[export] Existing Instances codec propagator.
Definition idle (l : list bool) : MemBroker := mkMem [] [] [] ∅ [] l.
Definition queue (items : list (QueueItem unit)) (l : list bool) : Queue unit MemBroker :=
  mkQueue (idle l) items true false.
Definition delivery (n : Z) : Delivery :=
  mkDelivery 7 "tx" (mkProperties (Some {["x-retry-count" := ShortUInt n]}) (Some 2)).
End QueueDemo.
Import QueueDemo.

Lemma retry_count_lost_witness :
  exists r q', republish "q" (delivery 3) false (QueueDemo.queue [] []) = (Done r, q') /\
    (forall m, m ∈ published (broker q') ->
       m ∈ published (broker (QueueDemo.queue [] [])) \/ retry_count (message_properties m) = 0) /\
    (forall tag, (tag, false) ∈ nacked (broker q') ->
       (tag, false) ∈ nacked (broker (QueueDemo.queue [] []))).
Proof.
  apply (retry_count_lost "q" (delivery 3) (QueueDemo.queue [] []) (QRetryConstructProof "tx"));
    [reflexivity|vm_compute; discriminate].
Defined.

Lemma forced_requeue_witness :
  exists q', republish "q" (delivery 0) true (mkQueue (idle []) [] false true) = (Done (Ok tt), q') /\
    acked (broker q') = [] ++ [7] /\ published (broker q') = [] /\ buffer q' = [].
Proof.
  exact (forced_requeue "q" (delivery 0) (QRetryConstructProof "tx")
           (mkQueue (idle []) [] false true) _ eq_refl eq_refl).
Defined.

Lemma buffer_keeps_witness :
  let q := QueueDemo.queue [QRetryConstructProof "a"; QRetryConstructProof "b"] [false] in
  exists i q' sent, processor_run "q" 2 q = (Done i, q') /\
    buffer q ≡ₚ sent ++ buffer q' /\ Forall (on_queue "q" (broker q')) sent.
Proof.
  exact (buffer_keeps "q" 2 (QueueDemo.queue [QRetryConstructProof "a"; QRetryConstructProof "b"] [false])
           eq_refl).
Defined.

Lemma shutdown_drains_witness :
  let q := QueueDemo.queue [QRetryConstructProof "a"; QRetryConstructProof "b"] [] in
  exists q', processor_run "q" 2 (snd (shutdown q)) = (Done Stopped, q') /\
    buffer q' = [] /\ Forall (on_queue "q" (broker q')) (buffer q).
Proof.
  refine (shutdown_drains "q" (fun w => answers w = [])
           (QueueDemo.queue [QRetryConstructProof "a"; QRetryConstructProof "b"] []) eq_refl eq_refl _).
  intros item w Hin Hw. repeat (apply elem_of_cons in Hin as [->|Hin]); [| |by apply elem_of_nil in Hin];
    destruct w as [p a n g b l]; simpl in Hw; subst l; by split.
Defined.

Lemma connect_topology_witness :
  exists w', connect "q" 2 "amqp://" 1 (idle [false]) = (Done true, w') /\
  dlq_name "q" ∈ dead_letter_route w' "q" /\
  dead_letter_route w' (retry_queue_name "q") = ["q"] /\
  dead_letter_route w' (dlq_name "q") = [].
Proof.
  exists (snd (connect "q" 2 "amqp://" 1 (idle [false]))). split; [vm_compute; reflexivity|].
  apply (connect_topology "q" 2 "amqp://" 1 (idle [false])). vm_compute. reflexivity.
Defined.
