(* ===== verification/QueueService.v ===== *)
(** * The queue as a service

    [relayer_base/src/queue.rs]: the buffer of a queue is a bounded channel
    that callers of [publish] and the buffer processor share.  [Queue] has the
    sequential reading of it; here each [await] is a point where others run.
    The small steps refine the sequential ones, an item in the buffer reaches
    the broker under fairness, and a full buffer can deadlock the processor. *)

From Stdlib Require Import Classical_Prop.
From S2P Require Import Prelude.
From S2P Require Import GmpTypes.
From S2P Require Import Queue.

(** Who waits in [Sender::send] for room in the channel. *)
Inductive Sender : Type := Caller | Processor.

#[export] Instance Sender_eq_dec : EqDecision Sender.
Proof. solve_decision. Defined.

(** Where the task of the processor is: at [select!], in [publish_item], in
    the [send] that puts an item back, at the look at the shutdown signal, or
    out of its loop. *)
Inductive Phase (CT : Type) : Type :=
| Receiving
| Publishing (item : QueueItem CT)
| Rebuffering
| Checking
| Ended.
Arguments Receiving {CT}.
Arguments Publishing {CT} item.
Arguments Rebuffering {CT}.
Arguments Checking {CT}.
Arguments Ended {CT}.

(** src/relayer_base/src/queue.rs:65-72 BufferProcessor *)
Record Service (CT W : Type) : Type := mkService {
  svc_broker : W;
  channel : list (QueueItem CT);
  senders : list (Sender * QueueItem CT);
  at_ : Phase CT;
  channel_open : bool;
  stopping : bool;
  cancelled : bool;
}.
Arguments mkService {CT W} svc_broker channel senders at_ channel_open stopping cancelled.
Arguments svc_broker {CT W} s.
Arguments channel {CT W} s.
Arguments senders {CT W} s.
Arguments at_ {CT W} s.
Arguments channel_open {CT W} s.
Arguments stopping {CT W} s.
Arguments cancelled {CT W} s.

(** What happens next: a caller enters [publish], the first waiting send is
    let in, the processor makes a step, [close] sets its signals or is through
    and drops the receiver. *)
Inductive action (CT : Type) : Type :=
| Call (item : QueueItem CT)
| Enter
| Receive
| Attempt
| CheckShutdown
| Shutdown
| Cancel
| ObserveCancel
| DropReceiver.
Arguments Call {CT} item.
Arguments Enter {CT}.
Arguments Receive {CT}.
Arguments Attempt {CT}.
Arguments CheckShutdown {CT}.
Arguments Shutdown {CT}.
Arguments Cancel {CT}.
Arguments ObserveCancel {CT}.
Arguments DropReceiver {CT}.

Section service.
Context {CT W : Type} {IC : ItemCodec CT} {A : Amqp W} {P : Propagator}.
Variable name : string.
Abbreviation S_ := (Service CT W).

(** src/relayer_base/src/queue.rs:141-171 Queue::new (the queue it makes) *)
Definition service_new (w : W) : S_ := mkService w [] [] Receiving true false false.

Definition set_phase (p : Phase CT) (s : S_) : S_ :=
  mkService (svc_broker s) (channel s) (senders s) p (channel_open s) (stopping s) (cancelled s).

(** [Receiver::capacity]: the places that are neither taken nor promised to
    a waiting send. *)
Definition capacity (s : S_) : nat := BUFFER_SIZE - length (channel s) - length (senders s).

(** src/relayer_base/src/queue.rs:410-419 Queue::publish (the send begins) *)
Definition call_publish (item : QueueItem CT) (s : S_) : S_ :=
  if channel_open s then
    mkService (svc_broker s) (channel s) (senders s ++ [(Caller, item)]) (at_ s) true (stopping s) (cancelled s)
  else s.

(** A send ends: the semaphore of the channel serves the sends in the order
    in which they came. *)
Definition enter (s : S_) : option S_ :=
  match senders s with
  | [] => None
  | (who, item) :: rest =>
      if (length (channel s) <? BUFFER_SIZE)%nat then
        Some (mkService (svc_broker s) (channel s ++ [item]) rest
                (match who with Processor => Checking | Caller => at_ s end)
                (channel_open s) (stopping s) (cancelled s))
      else None
  end.

(** src/relayer_base/src/queue.rs:102-111 BufferProcessor::run (an item is published, or its send begins) *)
Definition attempt (item : QueueItem CT) (s : S_) : S_ :=
  let '(o, w') := publish_item name item false None (svc_broker s) in
  match o with
  | Done (Ok _) =>
      mkService w' (channel s) (senders s) Checking (channel_open s) (stopping s) (cancelled s)
  | Done (Err _) =>
      mkService w' (channel s) (senders s ++ [(Processor, item)]) Rebuffering
        (channel_open s) (stopping s) (cancelled s)
  | Panic _ =>
      mkService w' (channel s) (senders s) Ended (channel_open s) (stopping s) (cancelled s)
  end.

(** src/relayer_base/src/queue.rs:119-130 BufferProcessor::run (the shutdown signal) *)
Definition check_shutdown (s : S_) : S_ :=
  if stopping s then
    if (capacity s <? BUFFER_SIZE)%nat then set_phase Receiving s else set_phase Ended s
  else set_phase Receiving s.

(** src/relayer_base/src/queue.rs:90-133 BufferProcessor::run (one step of a task) *)
Definition svc_step (a : action CT) (s : S_) : option S_ :=
  match a with
  | Call item => Some (call_publish item s)
  | Enter => enter s
  | Receive =>
      match at_ s, channel s with
      | Receiving, item :: rest =>
          Some (mkService (svc_broker s) rest (senders s) (Publishing item)
                  (channel_open s) (stopping s) (cancelled s))
      | _, _ => None
      end
  | Attempt => match at_ s with Publishing item => Some (attempt item s) | _ => None end
  | CheckShutdown => match at_ s with Checking => Some (check_shutdown s) | _ => None end
  | Shutdown =>
      Some (mkService (svc_broker s) (channel s) (senders s) (at_ s) (channel_open s) true (cancelled s))
  | Cancel =>
      if stopping s then
        Some (mkService (svc_broker s) (channel s) (senders s) (at_ s) (channel_open s) true true)
      else None
  | ObserveCancel =>
      match at_ s with
      | Receiving => if cancelled s then Some (set_phase Ended s) else None
      | _ => None
      end
  | DropReceiver =>
      match at_ s with
      | Ended =>
          if stopping s then Some (mkService (svc_broker s) [] [] Ended false true (cancelled s)) else None
      | _ => None
      end
  end.

(** A schedule of steps, from a state on. *)
Fixpoint svc_run (acts : list (action CT)) (s : S_) : option S_ :=
  match acts with
  | [] => Some s
  | a :: acts => match svc_step a s with Some s' => svc_run acts s' | None => None end
  end.

(** src/relayer_base/src/queue.rs:476-498 Queue::close (the steps of a forced close) *)
Definition close_forced : list (action CT) := [Shutdown; Cancel; ObserveCancel; DropReceiver].

(** ** The sequential queue it refines *)

(** What is in hand, in the channel and in sends that wait, oldest first, is
    the buffer of the sequential queue. *)
Definition in_hand (s : S_) : list (QueueItem CT) :=
  match at_ s with Publishing item => [item] | _ => [] end.

Definition buffered (s : S_) : list (QueueItem CT) := in_hand s ++ channel s ++ map snd (senders s).

Definition abs (s : S_) : Queue CT W := mkQueue (svc_broker s) (buffered s) (channel_open s) (stopping s).

Inductive move : Type := MPublish (item : QueueItem CT) | MProcess | MShutdown | MDrop.

Definition move_do (q : Queue CT W) (m : move) : Queue CT W :=
  match m with
  | MPublish item => snd (publish item q)
  | MProcess => snd (processor_iteration name q)
  | MShutdown => snd (shutdown q)
  | MDrop => mkQueue (broker q) [] false true
  end.

Definition action_calls (a : action CT) : option (QueueItem CT) :=
  match a with Call item => Some item | _ => None end.
Definition move_publishes (m : move) : option (QueueItem CT) :=
  match m with MPublish item => Some item | _ => None end.

Definition processor_sends (s : S_) : nat :=
  length (filter (fun p => fst p = Processor) (senders s)).

(** What stays true: the channel is never over its size, the processor waits
    in one send exactly when it is putting an item back, and the receiver is
    only dropped once the processor is through. *)
Record well_formed (s : S_) : Prop := {
  wf_size : (length (channel s) <= BUFFER_SIZE)%nat;
  wf_sends : processor_sends s = match at_ s with Rebuffering => 1%nat | _ => 0%nat end;
  wf_open : channel_open s = false -> at_ s = Ended /\ channel s = [] /\ senders s = [];
}.
End service.

(** ** Each step of the service is one of the queue, or none *)

Section refinement.
Context {CT W : Type} {IC : ItemCodec CT} {A : Amqp W} {AL : AmqpLaws W} {P : Propagator}.
Variable name : string.
Abbreviation S_ := (Service CT W).

Lemma new_well_formed (w : W) : well_formed (service_new (CT := CT) w).
Proof. split; simpl; [unfold BUFFER_SIZE; lia|done|done]. Qed.

Lemma attempt_run (item : QueueItem CT) (s : S_) :
  exists r w', publish_item name item false None (svc_broker s) = (Done r, w') /\
    attempt name item s =
      mkService w' (channel s) (senders s ++ match r with Ok _ => [] | Err _ => [(Processor, item)] end)
        (match r with Ok _ => Checking | Err _ => Rebuffering end)
        (channel_open s) (stopping s) (cancelled s).
Proof.
  destruct (publish_item_run name item false None (svc_broker s)) as (r & w' & E & _).
  exists r, w'. split; [done|]. unfold attempt. rewrite E. destruct r; [|done]. by rewrite app_nil_r.
Qed.

(** Inversion of a step: one equation for the next state per action. *)
Lemma enter_inv (s s' : S_) :
  enter s = Some s' -> exists who item rest, senders s = (who, item) :: rest /\
    (length (channel s) < BUFFER_SIZE)%nat /\
    s' = mkService (svc_broker s) (channel s ++ [item]) rest
           (match who with Processor => Checking | Caller => at_ s end)
           (channel_open s) (stopping s) (cancelled s).
Proof.
  unfold enter. destruct (senders s) as [|[who item] rest]; [done|].
  destruct (Nat.ltb_spec (length (channel s)) BUFFER_SIZE); [|done]. intros [= <-].
  by exists who, item, rest.
Qed.

Lemma receive_inv (s s' : S_) :
  svc_step name Receive s = Some s' -> exists item rest, at_ s = Receiving /\ channel s = item :: rest /\
    s' = mkService (svc_broker s) rest (senders s) (Publishing item) (channel_open s) (stopping s) (cancelled s).
Proof.
  simpl. destruct (at_ s) eqn:Ep; try done. destruct (channel s) as [|item rest]; [done|].
  intros [= <-]. by exists item, rest.
Qed.

Lemma sends_cons who (item : QueueItem CT) rest :
  length (filter (fun p => fst p = Processor) ((who, item) :: rest)) =
  (match who with Processor => 1 | Caller => 0 end + length (filter (fun p => fst p = Processor) rest))%nat.
Proof. rewrite filter_cons. by destruct who. Qed.

Lemma step_well_formed (a : action CT) (s s' : S_) :
  well_formed s -> svc_step name a s = Some s' -> well_formed s'.
Proof.
  intros [Hsz Hsd Hop] E. unfold processor_sends in *. destruct a.
  - injection E as <-. unfold call_publish. destruct (channel_open s) eqn:Eo; [|by split; auto].
    split; unfold processor_sends; simpl; [done| |done]. rewrite list_basics.list.filter_app, length_app, sends_cons, Hsd. simpl. lia.
  - apply enter_inv in E as (who & item & rest & Es & Hl & ->).
    rewrite Es in Hsd. split; unfold processor_sends; simpl.
    + rewrite length_app. simpl. lia.
    + rewrite sends_cons in Hsd. destruct who; [done|]. destruct (at_ s); lia.
    + intros Ho. destruct (Hop Ho) as (_ & _ & H). by rewrite Es in H.
  - apply receive_inv in E as (item & rest & Ep & Ec & ->). rewrite Ep in Hsd. rewrite Ec in Hsz. simpl in Hsz.
    split; unfold processor_sends; simpl; [lia|done|].
    intros Ho. destruct (Hop Ho) as (H & _). congruence.
  - simpl in E. destruct (at_ s) as [|item| | |] eqn:Ep; simplify_eq.
    destruct (attempt_run item s) as (r & w' & _ & ->).
    split; unfold processor_sends; simpl; [done| |intros Ho; destruct (Hop Ho); congruence].
    rewrite list_basics.list.filter_app, length_app, Hsd. by destruct r.
  - simpl in E. destruct (at_ s) eqn:Ep; simplify_eq. unfold check_shutdown.
    destruct (stopping s), (capacity s <? BUFFER_SIZE)%nat; split; unfold processor_sends; simpl; try done;
      intros Ho; destruct (Hop Ho); congruence.
  - injection E as <-. by split.
  - simpl in E. destruct (stopping s); simplify_eq. by split.
  - simpl in E. destruct (at_ s) eqn:Ep; simplify_eq. destruct (cancelled s); simplify_eq.
    split; unfold processor_sends; simpl; [done|done|intros Ho; destruct (Hop Ho); congruence].
  - simpl in E. destruct (at_ s) eqn:Ep; simplify_eq. destruct (stopping s); simplify_eq.
    split; simpl; [unfold BUFFER_SIZE; lia|done|done].
Qed.

(** The move of the sequential queue an action stands for; a receipt and the
    end of a send only shift items inside the buffer. *)
Definition move_of (a : action CT) : option (move (CT := CT)) :=
  match a with
  | Call item => Some (MPublish item)
  | Attempt => Some MProcess
  | Shutdown => Some MShutdown
  | DropReceiver => Some MDrop
  | _ => None
  end.

Definition moves_do (q : Queue CT W) (ms : list move) : Queue CT W := foldl (move_do name) q ms.

Lemma process_head (q : Queue CT W) item rest r w' :
  buffer q = item :: rest -> receiver_open q = true ->
  publish_item name item false None (broker q) = (Done r, w') ->
  snd (processor_iteration name q) =
    mkQueue w' (rest ++ match r with Ok _ => [] | Err _ => [item] end) true (shutdown_signal q).
Proof.
  intros Hb Ho E. unfold processor_iteration. rewrite bind_run. unfold get_world at 1. rewrite Hb.
  rewrite bind_run. unfold put_world. erewrite bind_done by (apply on_broker_run; exact E).
  rewrite Ho. destruct r; simpl; rewrite bind_run; cbn; repeat case_match; by rewrite ?app_nil_r.
Qed.

Lemma step_refines (a : action CT) (s s' : S_) :
  well_formed s -> svc_step name a s = Some s' ->
  abs s' = match move_of a with Some m => move_do name (abs s) m | None => abs s end.
Proof.
  intros [Hsz Hsd Hop] E. unfold abs, buffered, in_hand. destruct a; simpl.
  - injection E as <-. unfold call_publish. destruct (channel_open s) eqn:Eo; simpl; [|by rewrite ?Eo].
    unfold publish, modify. simpl. by rewrite map_app, !app_assoc.
  - apply enter_inv in E as (who & item & rest & Es & Hl & ->). simpl. rewrite Es. simpl.
    destruct who; simpl.
    + by rewrite <- app_assoc.
    + assert (Ep : at_ s = Rebuffering) by (unfold processor_sends in Hsd; rewrite Es, sends_cons in Hsd; by destruct (at_ s)).
      rewrite Ep. simpl. by rewrite <- app_assoc.
  - apply receive_inv in E as (item & rest & Ep & Ec & ->). simpl. by rewrite Ep, Ec.
  - simpl in E. destruct (at_ s) as [|item| | |] eqn:Ep; simplify_eq.
    destruct (attempt_run item s) as (r & w' & E & ->). simpl.
    assert (Ho : channel_open s = true).
    { destruct (channel_open s); [done|]. by destruct (Hop eq_refl). }
    erewrite (process_head _ item _ r w'); [|reflexivity|exact Ho|exact E]. simpl.
    rewrite Ho, map_app. destruct r; simpl; by rewrite ?app_nil_r, ?app_assoc.
  - simpl in E. destruct (at_ s) eqn:Ep; simplify_eq. unfold check_shutdown.
    destruct (stopping s) eqn:Es, (capacity s <? BUFFER_SIZE)%nat; simpl; by rewrite ?Es.
  - by injection E as <-.
  - simpl in E. destruct (stopping s) eqn:Es; simplify_eq. simpl. by rewrite ?Es.
  - simpl in E. destruct (at_ s) eqn:Ep; simplify_eq. destruct (cancelled s); simplify_eq. done.
  - simpl in E. destruct (at_ s) eqn:Ep; simplify_eq. destruct (stopping s) eqn:Es; simplify_eq. done.
Qed.

Lemma run_refines (acts : list (action CT)) (s s' : S_) :
  well_formed s -> svc_run name acts s = Some s' ->
  well_formed s' /\ abs s' = moves_do (abs s) (omap move_of acts).
Proof.
  revert s. induction acts as [|a acts IH]; intros s Hwf; simpl.
  { by intros [= <-]. }
  destruct (svc_step name a s) as [s1|] eqn:E; [|done]. intros Hr.
  destruct (IH s1 (step_well_formed _ _ _ Hwf E) Hr) as [H1 H2]. split; [done|].
  rewrite H2, (step_refines _ _ _ Hwf E). by destruct (move_of a).
Qed.

Lemma move_keeps (m : move (CT := CT)) (q : Queue CT W) :
  m <> MDrop -> receiver_open q = true ->
  receiver_open (move_do name q m) = true /\
  (forall x, x ∈ published (broker q) -> x ∈ published (broker (move_do name q m))) /\
  exists sent, option_list (move_publishes m) ++ buffer q ≡ₚ sent ++ buffer (move_do name q m) /\
    Forall (on_queue name (broker (move_do name q m))) sent.
Proof.
  intros Hm Ho. destruct m as [item| | |]; [| | |done]; simpl.
  - unfold publish, modify. simpl. rewrite Ho. simpl. split; [done|]. split; [done|].
    exists []. split; [|done]. simpl. apply Permutation_cons_append.
  - destruct (buffer q) as [|item rest] eqn:Hb.
    { rewrite processor_idle by done. simpl. rewrite Hb. split; [done|]. split; [done|]. by exists []. }
    destruct (processor_iteration_run name q item rest Hb Ho) as (i & q1 & E & _ & _ & Ho1 & Hw & Hc).
    rewrite E. simpl. split; [done|]. split.
    { intros x Hx. rewrite Hw. by apply publish_item_published. }
    destruct Hc as [(-> & Hq & _) | (-> & _)].
    + exists [item]. split; [done|]. by constructor.
    + exists []. split; [|done]. simpl. apply Permutation_cons_append.
  - split; [done|]. split; [done|]. by exists [].
Qed.

Lemma moves_keep (ms : list (move (CT := CT))) (q : Queue CT W) :
  MDrop ∉ ms -> receiver_open q = true ->
  (forall x, x ∈ published (broker q) -> x ∈ published (broker (moves_do q ms))) /\
  exists sent, omap move_publishes ms ++ buffer q ≡ₚ sent ++ buffer (moves_do q ms) /\
    Forall (on_queue name (broker (moves_do q ms))) sent.
Proof.
  revert q. induction ms as [|m ms IH]; intros q Hm Ho.
  { split; [done|]. by exists []. }
  apply not_elem_of_cons in Hm as [Hm Hms].
  destruct (move_keeps m q) as (Ho1 & Hp1 & s1 & Hs1 & Hf1); [done|done|].
  destruct (IH (move_do name q m) Hms Ho1) as (Hp2 & s2 & Hs2 & Hf2).
  change (moves_do q (m :: ms)) with (moves_do (move_do name q m) ms).
  split; [auto|]. exists (s1 ++ s2). split.
  - rewrite <- app_assoc, <- Hs2, omap_cons. rewrite (Permutation_app_comm s1).
    rewrite <- app_assoc, (Permutation_app_comm (buffer _) s1), <- Hs1.
    destruct (move_publishes m); simpl; [|done]. apply Permutation_middle.
  - apply Forall_app. split; [|done]. eapply Forall_impl; [exact Hf1|].
    intros x (b & pr & Hb & Hin). exists b, pr. auto.
Qed.

Lemma calls_moves (acts : list (action CT)) :
  omap move_publishes (omap move_of acts) = omap action_calls acts.
Proof.
  induction acts as [|a acts IH]; [done|]. rewrite (omap_cons move_of), (omap_cons action_calls).
  by destruct a; simpl; rewrite <- ?IH.
Qed.

Lemma drop_moves (acts : list (action CT)) : DropReceiver ∉ acts -> MDrop ∉ omap move_of acts.
Proof.
  intros H Hin. apply list_elem_of_omap in Hin as (a & Ha & E). by destruct a; simplify_eq/=.
Qed.

(** C10: the concurrent queue refines the sequential one.  Whatever the
    schedule of callers, of the processor and of [close], and whatever the
    broker answers, the state is well formed (the channel holds at most
    [BUFFER_SIZE] items) and it is the state of the sequential queue after the
    moves the schedule stands for, in the same order; in particular, as long
    as the receiver is not dropped, what was published is, up to order, still
    buffered or on the broker. *)
Theorem service_refines_queue (acts : list (action CT)) (w : W) (s : S_) :
  svc_run name acts (service_new w) = Some s ->
  well_formed s /\
  abs s = moves_do (mkQueue w [] true false) (omap move_of acts) /\
  (DropReceiver ∉ acts ->
   exists sent, omap action_calls acts ≡ₚ sent ++ buffered s /\
     Forall (on_queue name (svc_broker s)) sent).
Proof.
  intros Hr. destruct (run_refines _ _ _ (new_well_formed w) Hr) as [Hwf Habs].
  split; [done|]. split; [done|]. intros Hd.
  destruct (moves_keep (omap move_of acts) (abs (service_new w)) (drop_moves _ Hd) eq_refl) as (_ & sent & Hs & Hf).
  rewrite calls_moves, <- Habs in Hs. rewrite <- Habs in Hf.
  exists sent. split; [|done]. by rewrite app_nil_r in Hs.
Qed.

(** ** A full buffer stops the processor *)

Definition stuck (s : S_) : Prop := at_ s = Rebuffering /\ length (channel s) = BUFFER_SIZE.

Lemma stuck_step (a : action CT) (s s' : S_) :
  stuck s -> svc_step name a s = Some s' ->
  stuck s' /\ channel s' = channel s /\ svc_broker s' = svc_broker s.
Proof.
  intros [Hp Hl] E. unfold stuck. destruct a; simpl in E; rewrite ?Hp in E; try done.
  - injection E as <-. unfold call_publish. by destruct (channel_open s).
  - apply enter_inv in E as (? & ? & ? & _ & Hlt & _). lia.
  - by injection E as <-.
  - destruct (stopping s); by simplify_eq.
Qed.

(** C35: once the processor has to put an item back while the channel is
    full, the queue is dead: whatever callers and [close] do and however long
    one waits, no item leaves the channel and nothing is told to the broker.
    The processor is the only receiver, and its [send] waits for itself.
    ([close] itself gives up waiting after five seconds.) *)
Theorem full_buffer_deadlocks (acts : list (action CT)) (s s' : S_) :
  at_ s = Rebuffering -> length (channel s) = BUFFER_SIZE ->
  svc_run name acts s = Some s' ->
  at_ s' = Rebuffering /\ channel s' = channel s /\ svc_broker s' = svc_broker s.
Proof.
  intros Hp Hl. assert (Hs : stuck s) by done. clear Hp Hl. revert s Hs.
  induction acts as [|a acts IH]; intros s Hs; simpl.
  { intros [= <-]. by destruct Hs. }
  destruct (svc_step name a s) as [s1|] eqn:E; [|done]. intros Hr.
  destruct (stuck_step _ _ _ Hs E) as (Hs1 & <- & <-). by apply IH.
Qed.
End refinement.

(** ** An item in the buffer reaches the broker *)

Definition is_processor {CT} (a : option (action CT)) : bool :=
  match a with Some Receive | Some Attempt | Some CheckShutdown => true | _ => false end.

Definition is_enter {CT} (a : option (action CT)) : bool :=
  match a with Some Enter => true | _ => false end.

Section liveness.
Context {CT W : Type} {IC : ItemCodec CT} {A : Amqp W} {AL : AmqpLaws W} {P : Propagator}.
Variable name : string.
Abbreviation S_ := (Service CT W).

Definition can_run (s : S_) : Prop :=
  match at_ s with
  | Receiving => channel s <> []
  | Publishing _ | Checking => True
  | Rebuffering | Ended => False
  end.

(** An execution without end: at each instant one action, or none of this
    queue.  The scheduler is fair to the processor and to the sends, the
    channel has room, nothing is cancelled, and an item that is tried again
    and again is taken one day. *)
Record fair_execution (σ : nat -> S_) (α : nat -> option (action CT)) : Prop := {
  fe_start : well_formed (σ 0%nat);
  fe_step : forall n, match α n with
    | Some a => svc_step name a (σ n) = Some (σ (S n))
    | None => σ (S n) = σ n
    end;
  fe_cancel : forall n, cancelled (σ n) = false;
  fe_room : forall n, (length (buffered (σ n)) <= BUFFER_SIZE)%nat;
  fe_processor : forall n, can_run (σ n) -> exists m, (n <= m)%nat /\ is_processor (α m) = true;
  fe_send : forall n, senders (σ n) <> [] -> exists m, (n <= m)%nat /\ is_enter (α m) = true;
  fe_broker : forall item,
    (forall n, exists m, (n <= m)%nat /\ α m = Some Attempt /\ at_ (σ m) = Publishing item) ->
    forall n, exists m, (n <= m)%nat /\ α m = Some Attempt /\ at_ (σ m) = Publishing item /\
      at_ (σ (S m)) = Checking;
}.

(** The first time something happens: what its absence preserves still holds
    then. *)
Lemma first_event (E : nat -> bool) (Q : nat -> Prop) n m :
  (n <= m)%nat -> E m = true -> Q n -> (forall k, Q k -> E k = false -> Q (S k)) ->
  exists k, (n <= k)%nat /\ E k = true /\ Q k.
Proof.
  intros Hle. remember (m - n)%nat as d eqn:Hd. revert n Hle Hd.
  induction d as [|d IH]; intros n Hle Hd Hm Hq Hs.
  - replace m with n in Hm by lia. by exists n.
  - destruct (E n) eqn:He; [by exists n|].
    destruct (IH (S n)) as (k & Hk & H1 & H2); [lia|lia|done|auto|done|]. exists k. split; [lia|done].
Qed.

Context (σ : nat -> S_) (α : nat -> option (action CT)) (F : fair_execution σ α).

Lemma execution_well_formed n : well_formed (σ n).
Proof.
  induction n as [|n IH]; [apply (fe_start _ _ F)|].
  pose proof (fe_step _ _ F n) as E. destruct (α n) as [a|]; [|by rewrite E].
  exact (step_well_formed _ _ _ _ IH E).
Qed.

(** The buffer is what counts: an action other than an attempt leaves the
    buffer in place and may add to its tail. *)
Lemma calm_buffer n :
  at_ (σ n) <> Ended -> α n <> Some Attempt -> exists l, buffered (σ (S n)) = buffered (σ n) ++ l.
Proof.
  intros Hne Ha. pose proof (fe_step _ _ F n) as E. destruct (α n) as [a|]; [|exists []; by rewrite E, app_nil_r].
  pose proof (step_refines _ _ _ _ (execution_well_formed n) E) as R.
  apply (f_equal buffer) in R. simpl in R. rewrite R.
  destruct a as [item| | | | | | | |]; simpl; try (exists []; by rewrite app_nil_r); [|].
  - unfold publish, modify. simpl. destruct (channel_open (σ n)); simpl; [by exists [item]|].
    exists []. by rewrite app_nil_r.
  - simpl in E. by destruct (at_ (σ n)).
Qed.

(** Nor does an action that is neither the processor's nor the end of a send
    move the processor. *)
Lemma calm_phase n :
  at_ (σ n) <> Ended -> is_processor (α n) = false -> is_enter (α n) = false ->
  at_ (σ (S n)) = at_ (σ n) /\ channel (σ (S n)) = channel (σ n) /\
  exists l, senders (σ (S n)) = senders (σ n) ++ l.
Proof.
  intros Hne Hp He. pose proof (fe_step _ _ F n) as E. pose proof (fe_cancel _ _ F n) as Hc.
  destruct (α n) as [a|]; [|rewrite E; repeat split; exists []; by rewrite app_nil_r].
  assert (Hnil : exists l, senders (σ n) = senders (σ n) ++ l) by (exists []; by rewrite app_nil_r).
  destruct a as [item| | | | | | | |]; try done; simpl in E.
  - injection E as <-. unfold call_publish. destruct (channel_open (σ n)); [|done].
    simpl. repeat split. by exists [(Caller, item)].
  - by injection E as <-.
  - destruct (stopping (σ n)); [by injection E as <-|done].
  - destruct (at_ (σ n)); try done. by rewrite Hc in E.
  - by destruct (at_ (σ n)).
Qed.

(** The send of the processor is among those that wait. *)
Lemma wf_waits (s : S_) :
  well_formed s -> at_ s = Rebuffering -> exists l1 item l2, senders s = l1 ++ (Processor, item) :: l2.
Proof.
  intros Hwf Hp. pose proof (wf_sends _ Hwf) as Hs. unfold processor_sends in Hs. rewrite Hp in Hs.
  induction (senders s) as [|[who item] l IH]; [done|]. rewrite sends_cons in Hs. destruct who.
  - destruct (IH Hs) as (l1 & y & l2 & ->). by exists ((Caller, item) :: l1), y, l2.
  - by exists [], item, l.
Qed.

(** The phases one by one: what the processor does next, and when. *)

Lemma publishing_attempts n item :
  at_ (σ n) = Publishing item -> exists m, (n <= m)%nat /\ α m = Some Attempt /\ at_ (σ m) = Publishing item.
Proof.
  intros Hp. destruct (fe_processor _ _ F n) as (m & Hle & Hm); [by unfold can_run; rewrite Hp|].
  destruct (first_event (fun k => is_processor (α k)) (fun k => at_ (σ k) = Publishing item) n m)
    as (k & Hk & Ek & Qk); [done|done|done| |].
  - intros k Hk Ek. destruct (is_enter (α k)) eqn:Ee; [|by destruct (calm_phase k) as [-> _]; [rewrite Hk|..]].
    pose proof (fe_step _ _ F k) as E. destruct (α k) as [[| | | | | | | |]|]; try done.
    apply enter_inv in E as (who & it & rest & Es & _ & ->). simpl. destruct who; [done|].
    pose proof (wf_sends _ (execution_well_formed k)) as Hs. unfold processor_sends in Hs.
    rewrite Es, sends_cons, Hk in Hs. done.
  - exists k. split; [done|]. split; [|done]. pose proof (fe_step _ _ F k) as E.
    destruct (α k) as [[| | | | | | | |]|]; simpl in E; try done; by rewrite Qk in E.
Qed.

Lemma receiving_receives n :
  at_ (σ n) = Receiving -> channel (σ n) <> [] ->
  exists m item, (n <= m)%nat /\ at_ (σ m) = Publishing item.
Proof.
  intros Hp Hc. destruct (fe_processor _ _ F n) as (m & Hle & Hm); [by unfold can_run; rewrite Hp|].
  destruct (first_event (fun k => is_processor (α k))
    (fun k => at_ (σ k) = Receiving /\ channel (σ k) <> []) n m)
    as (k & Hk & Ek & Qk & Ck); [done|done|done| |].
  - intros k [Hk Ck] Ek. destruct (is_enter (α k)) eqn:Ee.
    + pose proof (fe_step _ _ F k) as E. destruct (α k) as [[| | | | | | | |]|]; try done.
      apply enter_inv in E as (who & it & rest & Es & _ & ->). simpl.
      split; [|by destruct (channel (σ k))]. destruct who; [done|].
      pose proof (wf_sends _ (execution_well_formed k)) as Hs. unfold processor_sends in Hs.
      rewrite Es, sends_cons, Hk in Hs. done.
    + destruct (calm_phase k) as (-> & -> & _); [by rewrite Hk|done|done|done].
  - pose proof (fe_step _ _ F k) as E. destruct (α k) as [a|]; [|done].
    destruct a; try done; simpl in E; rewrite Qk in E; try done.
    destruct (channel (σ k)) as [|item rest]; [done|]. injection E as E.
    exists (S k), item. split; [lia|]. by rewrite <- E.
Qed.

Lemma room n : senders (σ n) <> [] -> in_hand (σ n) = [] -> (length (channel (σ n)) < BUFFER_SIZE)%nat.
Proof.
  intros Hs Hh. pose proof (fe_room _ _ F n) as H. unfold buffered in H. rewrite Hh in H.
  rewrite !length_app, length_map in H. destruct (senders (σ n)); [done|]. simpl in H. lia.
Qed.

Lemma receiving_proceeds n :
  at_ (σ n) = Receiving -> buffered (σ n) <> [] ->
  exists m item, (n <= m)%nat /\ at_ (σ m) = Publishing item.
Proof.
  intros Hp Hb. destruct (channel (σ n)) as [|x r] eqn:Hc.
  2: { apply receiving_receives; [done|by rewrite Hc]. }
  assert (Hs : senders (σ n) <> []).
  { unfold buffered, in_hand in Hb. rewrite Hp, Hc in Hb. by destruct (senders (σ n)). }
  destruct (fe_send _ _ F n Hs) as (m & Hle & Hm).
  destruct (first_event (fun k => is_enter (α k))
    (fun k => at_ (σ k) = Receiving /\ channel (σ k) = [] /\ senders (σ k) <> []) n m)
    as (k & Hk & Ek & Qk & Ck & Sk); [done|done|done| |].
  - intros k (Hk & Ck & Sk) Ek. destruct (is_processor (α k)) eqn:Ee.
    + pose proof (fe_step _ _ F k) as E. destruct (α k) as [[| | | | | | | |]|]; try done;
        simpl in E; rewrite Hk in E; try done. by rewrite Ck in E.
    + destruct (calm_phase k) as (-> & -> & l & ->); [by rewrite Hk|done|done|].
      split; [done|]. split; [done|]. by destruct (senders (σ k)).
  - pose proof (fe_step _ _ F k) as E. destruct (α k) as [[| | | | | | | |]|]; try done.
    apply enter_inv in E as (who & it & rest & Es & _ & E).
    destruct (receiving_receives (S k)) as (j & item & Hj & Pj); rewrite ?E; simpl.
    + destruct who; [done|]. pose proof (wf_sends _ (execution_well_formed k)) as Hs'.
      unfold processor_sends in Hs'. rewrite Es, sends_cons, Qk in Hs'. done.
    + by destruct (channel (σ k)).
    + exists j, item. split; [lia|done].
Qed.

(** The processor reaches [Publishing] from wherever it is, as long as there
    is something to publish. *)
Definition proceeds (n : nat) : Prop := exists m item, (n <= m)%nat /\ at_ (σ m) = Publishing item.

Lemma proceeds_later n m : (n <= m)%nat -> proceeds m -> proceeds n.
Proof. intros Hle (k & item & Hk & Pk). exists k, item. split; [lia|done]. Qed.

Lemma check_continues (s : S_) :
  at_ s = Checking -> buffered s <> [] -> check_shutdown s = set_phase Receiving s.
Proof.
  intros Hp Hb. unfold check_shutdown. destruct (stopping s); [|done].
  destruct (Nat.ltb_spec (capacity s) BUFFER_SIZE) as [|Hge]; [done|]. exfalso. apply Hb.
  unfold buffered, in_hand. rewrite Hp. unfold capacity in Hge.
  assert (length (channel s) = 0 /\ length (senders s) = 0)%nat as [H1 H2] by (unfold BUFFER_SIZE in *; lia).
  apply nil_length_inv in H1, H2. by rewrite H1, H2.
Qed.

Lemma checking_proceeds n : at_ (σ n) = Checking -> buffered (σ n) <> [] -> proceeds n.
Proof.
  intros Hp Hb. destruct (fe_processor _ _ F n) as (m & Hle & Hm); [by unfold can_run; rewrite Hp|].
  destruct (first_event (fun k => is_processor (α k))
    (fun k => at_ (σ k) = Checking /\ buffered (σ k) <> []) n m)
    as (k & Hk & Ek & Qk & Bk); [done|done|done| |].
  - intros k [Hk Bk] Ek. split.
    + destruct (is_enter (α k)) eqn:Ee; [|by destruct (calm_phase k) as [-> _]; [rewrite Hk|..]].
      pose proof (fe_step _ _ F k) as E. destruct (α k) as [[| | | | | | | |]|]; try done.
      apply enter_inv in E as (who & it & rest & Es & _ & ->). by destruct who.
    + destruct (calm_buffer k) as [l ->]; [by rewrite Hk|by intros H; rewrite H in Ek|].
      by destruct (buffered (σ k)).
  - pose proof (fe_step _ _ F k) as E. destruct (α k) as [a|]; [|done].
    destruct a; try done; simpl in E; rewrite Qk in E; try done. injection E as E.
    rewrite check_continues in E by done.
    apply (proceeds_later _ (S k)); [lia|]. unfold buffered, in_hand in Bk. rewrite Qk in Bk.
    apply receiving_proceeds; by rewrite <- E.
Qed.

Lemma rebuffering_proceeds n : at_ (σ n) = Rebuffering -> proceeds n.
Proof.
  intros Hp. destruct (wf_waits _ (execution_well_formed n) Hp) as (l1 & y & l2 & Es).
  remember (length l1) as d eqn:Hd. revert n l1 l2 Hp Es Hd.
  induction d as [d IH] using lt_wf_ind. intros n l1 l2 Hp Es Hd.
  destruct (fe_send _ _ F n) as (m & Hle & Hm); [by rewrite Es; destruct l1|].
  destruct (first_event (fun k => is_enter (α k))
    (fun k => at_ (σ k) = Rebuffering /\ exists l2, senders (σ k) = l1 ++ (Processor, y) :: l2) n m)
    as (k & Hk & Ek & Qk & l2' & Sk); [done|done|by eauto| |].
  - intros k (Hk & l2' & Sk) Ek. destruct (is_processor (α k)) eqn:Ee.
    + pose proof (fe_step _ _ F k) as E. destruct (α k) as [[| | | | | | | |]|]; try done;
        simpl in E; by rewrite Hk in E.
    + destruct (calm_phase k) as (-> & _ & l & ->); [by rewrite Hk|done|done|].
      split; [done|]. exists (l2' ++ l). by rewrite Sk, <- app_assoc.
  - pose proof (fe_step _ _ F k) as E. destruct (α k) as [[| | | | | | | |]|]; try done.
    apply enter_inv in E as (who & it & rest & Es' & _ & E). rewrite Sk in Es'.
    apply (proceeds_later _ (S k)); [lia|]. destruct who.
    + destruct l1 as [|x l1]; [done|]. injection Es' as -> <-.
      apply (IH (length l1) ltac:(simpl in Hd; lia) _ l1 l2'); [by rewrite E|by rewrite E|done].
    + apply checking_proceeds; rewrite E; simpl; [done|]. unfold buffered, in_hand. simpl.
      by destruct (channel (σ k)).
Qed.

Lemma buffer_proceeds n : at_ (σ n) <> Ended -> buffered (σ n) <> [] -> proceeds n.
Proof.
  intros Hne Hb. destruct (at_ (σ n)) eqn:Hp.
  - by apply receiving_proceeds.
  - by exists n, item.
  - by apply rebuffering_proceeds.
  - by apply checking_proceeds.
  - done.
Qed.

(** The item is [length l1] places behind the next one to be tried. *)
Definition waits_behind (x : QueueItem CT) (d : nat) (n : nat) : Prop :=
  at_ (σ n) <> Ended /\ exists l1 l2, buffered (σ n) = l1 ++ x :: l2 /\ (length l1 <= d)%nat.

Lemma calm_waits x d n : waits_behind x d n -> α n <> Some Attempt -> waits_behind x d (S n).
Proof.
  intros (Hne & l1 & l2 & Hb & Hd) Ha. destruct (calm_buffer n Hne Ha) as [l Hl]. split.
  - assert (Hne' : buffered (σ n) <> []) by (rewrite Hb; by destruct l1).
    pose proof (fe_step _ _ F n) as E. pose proof (fe_cancel _ _ F n) as Hc.
    destruct (α n) as [a|]; [|by rewrite E].
    destruct a; simpl in E; try done.
    + injection E as <-. unfold call_publish. by destruct (channel_open (σ n)).
    + apply enter_inv in E as (who & it & rest & _ & _ & ->). by destruct who.
    + destruct (at_ (σ n)), (channel (σ n)); try done. by injection E as <-.
    + destruct (at_ (σ n)) eqn:Hp; try done. rewrite check_continues in E by done. by injection E as <-.
    + by injection E as <-.
    + destruct (stopping (σ n)); [by injection E as <-|done].
    + destruct (at_ (σ n)); try done. by rewrite Hc in E.
    + by destruct (at_ (σ n)).
  - exists l1, (l2 ++ l). split; [|done]. by rewrite Hl, Hb, <- app_assoc.
Qed.

(** An attempt brings the item nearer, or it is the item that is tried. *)
Lemma attempt_waits x d n :
  waits_behind x d n -> α n = Some Attempt ->
  at_ (σ n) = Publishing x /\ (at_ (σ (S n)) = Checking \/ exists d', waits_behind x d' (S n)) \/
  (0 < d)%nat /\ waits_behind x (d - 1) (S n).
Proof.
  intros (Hne & l1 & l2 & Hb & Hd) Ha. pose proof (fe_step _ _ F n) as E. rewrite Ha in E. simpl in E.
  destruct (at_ (σ n)) as [|y| | |] eqn:Hp; try done. injection E as E.
  destruct (attempt_run name y (σ n)) as (r & w' & _ & Er). rewrite Er in E. clear Er.
  unfold buffered, in_hand in Hb. rewrite Hp in Hb. simpl in Hb.
  destruct l1 as [|z l1]; injection Hb as -> Hb.
  - left. split; [done|]. destruct r as [u|e]; [left; by rewrite <- E|right].
    exists (length (channel (σ n) ++ map snd (senders (σ n)))). unfold waits_behind. rewrite <- E. split; [done|].
    exists (channel (σ n) ++ map snd (senders (σ n))), []. split; [|done].
    unfold buffered, in_hand. simpl. by rewrite map_app, app_assoc.
  - right. simpl in Hd. split; [lia|]. split; [rewrite <- E; by destruct r|].
    exists l1, (l2 ++ match r with Ok _ => [] | Err _ => [z] end). split; [|lia].
    rewrite <- E. unfold buffered, in_hand. simpl. rewrite map_app.
    transitivity ((channel (σ n) ++ map snd (senders (σ n))) ++ match r with Ok _ => [] | Err _ => [z] end).
    + by destruct r; simpl; rewrite ?app_nil_r, <- ?app_assoc.
    + by rewrite Hb, <- app_assoc.
Qed.

(** Whoever waits is tried. *)
Lemma waits_tried x d n :
  waits_behind x d n ->
  exists m, (n <= m)%nat /\ α m = Some Attempt /\ at_ (σ m) = Publishing x /\
    (at_ (σ (S m)) = Checking \/ exists d', waits_behind x d' (S m)).
Proof.
  revert n. induction d as [d IH] using lt_wf_ind. intros n Hw.
  assert (Hp : exists m, (n <= m)%nat /\ α m = Some Attempt).
  { destruct Hw as (Hne & l1 & l2 & Hb & _).
    destruct (buffer_proceeds n Hne) as (k & y & Hk & Pk); [rewrite Hb; by destruct l1|].
    destruct (publishing_attempts k y Pk) as (m & Hm & Am & _). exists m. split; [lia|done]. }
  destruct Hp as (m & Hm & Am).
  destruct (first_event (fun k => match α k with Some Attempt => true | _ => false end)
    (waits_behind x d) n m) as (k & Hk & Ek & Wk); [done|by rewrite Am|done| |].
  - intros k Wk Ek. apply calm_waits; [done|]. intros H. by rewrite H in Ek.
  - destruct (α k) as [[| | | | | | | |]|] eqn:Ak; try done.
    destruct (attempt_waits x d k Wk Ak) as [[Hp Hc] | [Hpos Hw']].
    + by exists k.
    + destruct (IH (d - 1)%nat ltac:(lia) _ Hw') as (j & Hj & H). exists j. split; [lia|done].
Qed.

Lemma accepted_on_queue x n :
  α n = Some Attempt -> at_ (σ n) = Publishing x -> at_ (σ (S n)) = Checking ->
  on_queue name (svc_broker (σ (S n))) x.
Proof.
  intros Ha Hp Hc. pose proof (fe_step _ _ F n) as E. rewrite Ha in E. simpl in E. rewrite Hp in E.
  injection E as E. destruct (attempt_run name x (σ n)) as (r & w' & Ep & Er). rewrite Er in E.
  destruct r as [u|e]; [|by rewrite <- E in Hc]. rewrite <- E. simpl.
  destruct (publish_item_run name x false None (svc_broker (σ n))) as (r & w2 & E2 & _ & _ & H).
  rewrite Ep in E2. injection E2 as <- <-. destruct H as [[_ []] | (b & p & Hb & _ & Hpub)]; [by destruct u|].
  exists b, p. split; [done|]. rewrite Hpub. apply elem_of_app. right. by left.
Qed.

(** C13: what is published arrives.  In an execution that is fair to the
    processor and to waiting sends, in which the channel does not fill up,
    nothing is cancelled and the broker does not refuse one item for ever,
    every item that is buffered (in the channel, in a waiting send or in the
    processor's hand) is on the broker's queue some time later, however many
    items other callers publish meanwhile and however often it is refused. *)
Theorem published_eventually (item : QueueItem CT) (n : nat) :
  item ∈ buffered (σ n) -> at_ (σ n) <> Ended ->
  exists m, (n <= m)%nat /\ on_queue name (svc_broker (σ m)) item.
Proof using A AL F IC P.
  intros Hin Hne. set (accepted m := α m = Some Attempt /\ at_ (σ m) = Publishing item /\ at_ (σ (S m)) = Checking).
  assert (Hacc : exists m, (n <= m)%nat /\ accepted m).
  { apply NNPP. intros Hno.
    assert (Hw : forall j, exists k d, (n + j <= k)%nat /\ waits_behind item d k).
    { induction j as [|j (k & d & Hk & Wk)].
      - apply list_elem_of_split in Hin as (l1 & l2 & Hb). exists n, (length l1). split; [lia|].
        split; [done|]. by exists l1, l2.
      - destruct (waits_tried item d k Wk) as (m & Hm & Am & Pm & [Cm | (d' & Wm)]).
        + exfalso. apply Hno. exists m. split; [lia|done].
        + exists (S m), d'. split; [lia|done]. }
    destruct (fe_broker _ _ F item) with (n := n) as (m & Hm & Am); [|by apply Hno; exists m].
    intros N. destruct (Hw N) as (k & d & Hk & Wk). destruct (waits_tried item d k Wk) as (m & Hm & Am & Pm & _).
    exists m. split; [lia|done]. }
  destruct Hacc as (m & Hm & Am & Pm & Cm). exists (S m). split; [lia|]. by apply accepted_on_queue.
Qed.
End liveness.

(** ** Concrete runs *)

Module ServiceDemo.
Import QueueDemo.
Definition item (s : string) : QueueItem unit := QRetryConstructProof s.
(** One caller, a broker that refuses the first attempt. *)
Definition script : list (action unit) :=
  [Call (item "a"); Enter; Receive; Attempt; Enter; CheckShutdown; Receive; Attempt; CheckShutdown].
Definition w0 : MemBroker := idle [false].
Definition at_time (n : nat) : Service unit MemBroker :=
  default (service_new w0) (svc_run "q" (firstn n script) (service_new w0)).
Definition at_action (n : nat) : option (action unit) := nth_error script n.

(** A full channel: the processor has the first of [BUFFER_SIZE + 1] items in
    hand when the last is let in, and the broker refuses it. *)
Definition filler : list (action unit) := List.repeat (Call (item "x")) BUFFER_SIZE ++ List.repeat Enter BUFFER_SIZE.
Definition flood : list (action unit) := filler ++ [Receive; Call (item "y"); Enter; Attempt].
Definition flooded : option (Service unit MemBroker) := svc_run "q" flood (service_new w0).
Definition drowned : Service unit MemBroker := default (service_new w0) flooded.
Definition is_full (s : Service unit MemBroker) : bool :=
  (length (channel s) =? BUFFER_SIZE)%nat && bool_decide (is_Some flooded).
Definition waiting : list (action unit) := [Call (item "z"); Shutdown; Cancel].
Definition later : Service unit MemBroker := default drowned (svc_run "q" waiting drowned).

Lemma later_run : bool_decide (is_Some (svc_run "q" waiting drowned)) = true ->
  svc_run "q" waiting drowned = Some later.
Proof. intros H%bool_decide_eq_true. unfold later. by destruct H as [s ->]. Qed.
End ServiceDemo.
Import QueueDemo.

Lemma service_refines_queue_witness :
  exists s, svc_run "q" ServiceDemo.script (service_new ServiceDemo.w0) = Some s /\
  (well_formed s /\
  abs s = moves_do "q" (mkQueue ServiceDemo.w0 [] true false) (omap move_of ServiceDemo.script) /\
  (DropReceiver ∉ ServiceDemo.script ->
   exists sent, omap action_calls ServiceDemo.script ≡ₚ sent ++ buffered s /\
     Forall (on_queue "q" (svc_broker s)) sent)).
Proof.
  exists (ServiceDemo.at_time 9). split; [vm_compute; reflexivity|].
  apply (service_refines_queue "q" ServiceDemo.script ServiceDemo.w0). vm_compute. reflexivity.
Defined.

Lemma full_buffer_deadlocks_witness :
  ServiceDemo.is_full ServiceDemo.drowned = true /\
  at_ ServiceDemo.later = Rebuffering /\ channel ServiceDemo.later = channel ServiceDemo.drowned /\
  svc_broker ServiceDemo.later = svc_broker ServiceDemo.drowned.
Proof.
  split; [vm_compute; reflexivity|].
  apply (full_buffer_deadlocks "q" ServiceDemo.waiting); [vm_compute; reflexivity..|].
  apply ServiceDemo.later_run. vm_compute. reflexivity.
Defined.

Lemma demo_fair : fair_execution "q" ServiceDemo.at_time ServiceDemo.at_action.
Proof.
  assert (Hlate : forall n, (9 <= n)%nat -> ServiceDemo.at_time n = ServiceDemo.at_time 9).
  { intros n Hn. unfold ServiceDemo.at_time. by rewrite !firstn_all2 by (simpl; lia). }
  assert (Hnone : forall n, (9 <= n)%nat -> ServiceDemo.at_action n = None).
  { intros n Hn. by apply nth_error_None. }
  assert (Hsmall : forall n (Q : nat -> Prop), Q 0%nat -> Q 1%nat -> Q 2%nat -> Q 3%nat -> Q 4%nat ->
    Q 5%nat -> Q 6%nat -> Q 7%nat -> Q 8%nat -> ((9 <= n)%nat -> Q n) -> Q n).
  { intros n Q. do 9 (destruct n as [|n]; [done|]). intros. auto with lia. }
  split.
  - apply new_well_formed.
  - intros n. apply (Hsmall n); [vm_compute; reflexivity..|]. intros Hn.
    rewrite (Hnone n Hn), (Hlate n Hn), (Hlate (S n)); [reflexivity|lia].
  - intros n. apply (Hsmall n); [vm_compute; reflexivity..|]. intros Hn. rewrite (Hlate n Hn).
    vm_compute. reflexivity.
  - intros n. apply (Hsmall n); [vm_compute; lia..|]. intros Hn. rewrite (Hlate n Hn). vm_compute. lia.
  - intros n. apply (Hsmall n); [vm_compute; intros Hr..|intros Hn; rewrite (Hlate n Hn); vm_compute; intros Hr].
    1-4: exists 3%nat; split; [lia|reflexivity].
    1-4: exists 7%nat; split; [lia|reflexivity].
    + exists 8%nat. split; [lia|reflexivity].
    + by destruct (Hr eq_refl).
  - intros n. apply (Hsmall n); [vm_compute; intros Hr..|intros Hn; rewrite (Hlate n Hn); vm_compute; intros Hr].
    1-5: exists 4%nat; split; [lia|reflexivity].
    all: by destruct (Hr eq_refl).
  - intros item H. destruct (H 9%nat) as (m & Hm & Am & _). by rewrite (Hnone m Hm) in Am.
Qed.

Lemma published_eventually_witness :
  fair_execution "q" ServiceDemo.at_time ServiceDemo.at_action /\
  exists m, (1 <= m)%nat /\ on_queue "q" (svc_broker (ServiceDemo.at_time m)) (ServiceDemo.item "a").
Proof.
  split; [exact demo_fair|].
  apply (published_eventually "q" _ _ demo_fair (ServiceDemo.item "a") 1).
  - left.
  - vm_compute. discriminate.
Defined.
