(* ===== verification/Tracing.v ===== *)
(** * The tracing context of a delivery

    [relayer_base/src/logging.rs]: the context of a span is written into the
    headers of what is published and into strings, and read back by whoever
    takes the delivery. *)

From S2P Require Import Prelude.
From S2P Require Import Decimal.
From S2P Require Import Queue.

(** The other half of the OpenTelemetry propagator: what it reads from a
    carrier of strings. *)
Class Extractor : Type := {
  SpanContext : Type;
  extract : gmap string string -> SpanContext;
}.

Section tracing.
Context {P : Propagator} {X : Extractor}.

(** src/relayer_base/src/logging.rs:186-190 HeadersMap::set *)
Definition headers_map_set (h : gmap string string) (kv : string * string) : gmap string string :=
  <[fst kv := snd kv]> h.

(** src/relayer_base/src/logging.rs:193-197 HeadersMap::get *)
Definition headers_map_get (h : gmap string string) (key : string) : option string := h !! key.

(** src/relayer_base/src/logging.rs:142-151 distributed_tracing_headers_hash_map *)
Definition distributed_tracing_headers_hash_map : gmap string string := foldl headers_map_set ∅ injected.

(** src/relayer_base/src/logging.rs:153-158 hashmap_extract_parent_context *)
Definition hashmap_extract_parent_context (headers : gmap string string) : SpanContext := extract headers.

Definition as_long_string (v : AMQPValue) : option string :=
  match v with LongString s => Some s | _ => None end.

(** src/relayer_base/src/logging.rs:160-173 distributed_tracing_extract_parent_context *)
Definition distributed_tracing_extract_parent_context (delivery : Delivery) : SpanContext :=
  extract (omap as_long_string (default ∅ (headers (properties delivery)))).

(** ** What a consumer reads is what the publisher wrote *)

Lemma headers_agree l h : omap as_long_string (foldl headers_set h l) = foldl headers_map_set (omap as_long_string h) l.
Proof.
  revert h. induction l as [|[k v] l IH]; intros h; [done|]. simpl. rewrite IH. f_equal. unfold headers_set, headers_map_set. simpl.
  by rewrite (omap_insert_Some as_long_string h k (LongString v) v).
Qed.

(** A delivery that comes back with the headers [publish_item] gave its
    message has the context of the span that published it, whatever headers
    the properties had before; the same context is read from the string map
    that the cache of contexts stores. *)
Theorem context_survives (tag : Z) (body : string) (p : BasicProperties) :
  distributed_tracing_extract_parent_context (mkDelivery tag body (with_headers p distributed_tracing_headers)) =
  hashmap_extract_parent_context distributed_tracing_headers_hash_map.
Proof.
  unfold distributed_tracing_extract_parent_context, hashmap_extract_parent_context. simpl. f_equal.
  unfold distributed_tracing_headers, distributed_tracing_headers_hash_map. rewrite headers_agree. by rewrite omap_empty.
Qed.

(** A header that is not a string, such as a count of retries, is not part of
    the context. *)
Theorem counts_ignored (tag : Z) (body : string) (p : BasicProperties) (h : FieldTable) (n : Z) :
  h !! "x-retry-count" = None ->
  distributed_tracing_extract_parent_context (mkDelivery tag body (with_headers p (<["x-retry-count" := ShortUInt n]> h))) =
  distributed_tracing_extract_parent_context (mkDelivery tag body (with_headers p h)).
Proof.
  intros Hn. unfold distributed_tracing_extract_parent_context. simpl. f_equal. apply map_eq. intros k.
  rewrite !lookup_omap. destruct (decide (k = "x-retry-count")) as [->|Hne].
  - by rewrite lookup_insert_eq, Hn.
  - by rewrite lookup_insert_ne.
Qed.
End tracing.
