(* ===== verification/GmpApi.v ===== *)
(** * The GMP API client

    [relayer_base/src/gmp_api/mod.rs], [relayer_base/src/gmp_api/utils.rs]
    and the task parser of [relayer_base/src/utils.rs].  The HTTP client is
    the operation [send] of the class [Http]. *)

From S2P Require Import Prelude.
From S2P Require Import Interleaving.
From S2P Require Import Decimal.
From S2P Require Import GmpTypes.
From S2P Require Import Text.

(** ** HTTP *)

Inductive Method : Type := GET | POST.

Record Request : Type := mkRequest {
  method : Method;
  url : string;
  query : list (string * string);
  content_type : option string;
  request_body : option string;
}.

(** A response: its status, the text of the status error, and what reading
    the body gives. *)
Record Response : Type := mkResponse {
  is_success : bool;
  status_error : string;
  response_body : result string string;
}.

Class Http (W : Type) : Type := {
  send : Request -> M W (result Response string);
  requests : W -> list Request;
}.

(** ** The interface of the GMP API *)

(** The cross-chain messages of the XRPL gateway, of which this client uses
    the text of the fields of an interchain transfer. *)
Record InterchainTransferText : Type := mkTransfer {
  transfer_tx_id : string;
  transfer_destination_chain : string;
  transfer_amount : string;
  transfer_source_address : string;
  transfer_destination_address : string;
}.

Class XrplMessages : Type := {
  XRPLMessage : Type;
  as_interchain_transfer : XRPLMessage -> option InterchainTransferText;
  debug_XRPLMessage : XRPLMessage -> string;
}.

(** src/relayer_base/src/gmp_api/mod.rs:489-530 GmpApiTrait *)
Class GmpApiTrait `{!XrplMessages} (W : Type) : Type := {
  get_chain : string;
  get_tasks_action : option string -> M W (result (list Task) GmpApiError);
  post_events : list Event -> M W (result (list PostEventResult) GmpApiError);
  post_broadcast : string -> BroadcastRequest -> M W (result string GmpApiError);
  get_broadcast_result : string -> string -> M W (result string GmpApiError);
  post_query : string -> QueryRequest -> M W (result string GmpApiError);
  post_payload : string -> M W (result string GmpApiError);
  get_payload : string -> M W (result string GmpApiError);
  cannot_execute_message : string -> string -> string -> string -> CannotExecuteMessageReason ->
    M W (result unit GmpApiError);
  its_interchain_transfer : XRPLMessage -> M W (result unit GmpApiError);
  map_cannot_execute_message_to_event : string -> string -> string -> string ->
    CannotExecuteMessageReason -> outcome Event;
}.

(** The API, asked by a program besides the statements it shares a database
    through ([Interleaving]). *)
#[export] Instance talk_api {S A X} `{XM : XrplMessages} {API : GmpApiTrait X} : GmpApiTrait (Talk S A X) := {|
  get_chain := get_chain (W := X);
  get_tasks_action := fun i => on_aside (get_tasks_action i);
  post_events := fun es => on_aside (post_events es);
  post_broadcast := fun c d => on_aside (post_broadcast c d);
  get_broadcast_result := fun c i => on_aside (get_broadcast_result c i);
  post_query := fun c d => on_aside (post_query c d);
  post_payload := fun p => on_aside (post_payload p);
  get_payload := fun h => on_aside (get_payload h);
  cannot_execute_message := fun i m s d r => on_aside (cannot_execute_message i m s d r);
  its_interchain_transfer := fun m => on_aside (its_interchain_transfer m);
  map_cannot_execute_message_to_event := map_cannot_execute_message_to_event (W := X);
|}.

(** ** Parsing tasks *)

(** The shapes serde reads a task from. *)
Class TaskCodec : Type := {
  de_common :: Deserialize CommonTaskFields;
  de_construct_proof :: Deserialize ConstructProofTask;
  de_gateway_tx :: Deserialize GatewayTxTask;
  de_verify :: Deserialize VerifyTask;
  de_execute :: Deserialize ExecuteTask;
  de_refund :: Deserialize RefundTask;
  de_wasm :: Deserialize ReactToWasmEventTask;
  de_poll :: Deserialize ReactToRetriablePollTask;
  de_expired :: Deserialize ReactToExpiredSigningSessionTask;
  de_unknown :: Deserialize UnknownTask;
}.

(** src/relayer_base/src/utils.rs:34-36 parse_as *)
Definition parse_as {T} `{!Deserialize T} (value : Value) : result T GmpApiError :=
  rmap_err GmpInvalidResponse (from_value value).

(** src/relayer_base/src/utils.rs:38-80 parse_task *)
Definition parse_task `{!TaskCodec} (task_json : Value) : result Task GmpApiError :=
  try? task_headers := (parse_as task_json : result CommonTaskFields GmpApiError) in
  let ty := task_type task_headers in
  if decide (ty = "CONSTRUCT_PROOF") then
    try? task := parse_as task_json in Ok (TConstructProof task)
  else if decide (ty = "GATEWAY_TX") then
    try? task := parse_as task_json in Ok (TGatewayTx task)
  else if decide (ty = "VERIFY") then
    try? task := parse_as task_json in Ok (TVerify task)
  else if decide (ty = "EXECUTE") then
    try? task := parse_as task_json in Ok (TExecute task)
  else if decide (ty = "REFUND") then
    try? task := parse_as task_json in Ok (TRefund task)
  else if decide (ty = "REACT_TO_WASM_EVENT") then
    try? task := parse_as task_json in Ok (TReactToWasmEvent task)
  else if decide (ty = "REACT_TO_RETRIABLE_POLL") then
    try? task := parse_as task_json in Ok (TReactToRetriablePoll task)
  else if decide (ty = "REACT_TO_EXPIRED_SIGNING_SESSION") then
    try? task := parse_as task_json in Ok (TReactToExpiredSigningSession task)
  else
    try? task := parse_as task_json in Ok (TUnknown task).

(** ** [gmp_api/utils.rs] *)

(** A [HashSet] of strings is a [gset]; its elements come out in some order. *)

(** src/relayer_base/src/gmp_api/utils.rs:5-44 extract_message_ids_from_task *)
Definition extract_message_ids_from_task (task : Task) : gset string :=
  let own : gset string :=
    match task with
    | TExecute t => {[ message_id (execute_message (execute_task t)) ]}
    | TVerify t => {[ message_id (verify_message (verify_task t)) ]}
    | TConstructProof t => {[ message_id (proof_message (proof_task t)) ]}
    | TRefund t => {[ message_id (refund_message (refund_task t)) ]}
    | _ => ∅
    end in
  match task_meta (common task) with
  | Some meta =>
      match scoped_messages meta with
      | Some scoped => own ∪ list_to_set (map scoped_message_id scoped)
      | None => own
      end
  | None => own
  end.

Definition event_name (e : Event) : string :=
  match e with
  | Call _ _ _ _ => "Call"
  | GasRefunded _ _ _ _ _ => "GasRefunded"
  | GasCredit _ _ _ _ => "GasCredit"
  | MessageApproved _ _ _ => "MessageApproved"
  | MessageExecuted _ _ _ _ _ => "MessageExecuted"
  | CannotExecuteMessageV2 _ _ _ _ _ => "CannotExecuteMessageV2"
  | ITSInterchainTransfer _ _ _ _ _ _ _ => "ITSInterchainTransfer"
  end.

Definition event_message_id (e : Event) : string :=
  match e with
  | Call _ m _ _ | MessageApproved _ m _ => message_id m
  | GasRefunded _ m _ _ _ | GasCredit _ m _ _ | MessageExecuted _ m _ _ _
  | CannotExecuteMessageV2 _ m _ _ _ | ITSInterchainTransfer _ m _ _ _ _ _ => m
  end.

(** src/relayer_base/src/gmp_api/utils.rs:46-100 extract_message_ids_and_event_types_from_events *)
Definition extract_message_ids_and_event_types_from_events (events : list Event) :
  gset string * gset string :=
  foldl (fun acc e => ({[ event_message_id e ]} ∪ fst acc, {[ event_name e ]} ∪ snd acc))
    (∅, ∅) events.

(** ** The client *)

(** src/relayer_base/src/gmp_api/mod.rs:30-30 MAX_BROADCAST_WAIT_TIME_SECONDS *)
Definition MAX_BROADCAST_WAIT_TIME_SECONDS : Z := 60.
(** src/relayer_base/src/gmp_api/mod.rs:31-31 BROADCAST_POLL_INTERVAL_SECONDS *)
Definition BROADCAST_POLL_INTERVAL_SECONDS : Z := 2.

(** src/relayer_base/src/gmp_api/mod.rs:33-38 GmpApi *)
Record GmpApi : Type := mkGmpApi {
  rpc_url : string;
  gmp_chain : string;
}.

Section client.
Context {W : Type} {HH : Http W} {TT : Timer W} {J : Json} {C : Codecs} {TC : TaskCodec}
  {XM : XrplMessages} {SE : Serialize (list Event)} {SV : Serialize Value}
  {DP : Deserialize PostEventResponse} {DS : Deserialize StorePayloadResult}.
Variable self : GmpApi.

Definition error_body (r : Response) : string :=
  match response_body r with Ok b => b | Err _ => "Failed to read error body" end.

(** src/relayer_base/src/gmp_api/mod.rs:103-126 GmpApi::request_bytes_if_success *)
Definition request_bytes_if_success (request : Request) : M W (result string GmpApiError) :=
  let? response := map_err GmpRequestFailed (send request) in
  if is_success response then ret (rmap_err GmpInvalidResponse (response_body response))
  else ret (Err (GmpErrorResponse (error_body response))).

(** src/relayer_base/src/gmp_api/mod.rs:128-150 GmpApi::request_text_if_success *)
Definition request_text_if_success (request : Request) : M W (result string GmpApiError) :=
  let? response := map_err GmpRequestFailed (send request) in
  if is_success response then ret (rmap_err GmpInvalidResponse (response_body response))
  else ret (Err (GmpErrorResponse (error_body response))).

(** src/relayer_base/src/gmp_api/mod.rs:152-174 GmpApi::request_json *)
Definition request_json {T} (de : Value -> result T string) (request : Request) :
  M W (result T GmpApiError) :=
  let? response := map_err GmpRequestFailed (send request) in
  if is_success response then
    ret (rmap_err GmpInvalidResponse
      (try? b := response_body response in try? v := parse_json b in de v))
  else ret (Err (GmpErrorResponse (status_error response +:+ ": " +:+ error_body response))).

Definition get_request (u : string) : Request := mkRequest GET u [] None None.
Definition post_request (u ty body : string) : Request := mkRequest POST u [] (Some ty) (Some body).

(** [HashMap<String, Vec<Value>>], of which only the key [tasks] is read. *)
Definition de_tasks (v : Value) : result (option (list Value)) string :=
  match v with
  | VObject fields =>
      if forallb (fun p => match snd p with VArray _ => true | _ => false end) fields then
        Ok (match value_get v "tasks" with Some (VArray l) => Some l | _ => None end)
      else Err "invalid type"
  | _ => Err "invalid type"
  end.

Definition ok_task (v : Value) : option Task :=
  match parse_task v with Ok t => Some t | Err _ => None end.

(** src/relayer_base/src/gmp_api/mod.rs:184-211 GmpApi::get_tasks_action *)
Definition gmp_get_tasks_action (after : option string) : M W (result (list Task) GmpApiError) :=
  let request_url := rpc_url self +:+ "/chains/" +:+ gmp_chain self +:+ "/tasks" in
  let request := mkRequest GET request_url
    (match after with Some a => [("after", a)] | None => [] end) None None in
  let? response := request_json de_tasks request in
  ret (match response with
       | None => Err (GmpInvalidResponse "Missing 'tasks' field")
       | Some tasks_json => Ok (omap ok_task tasks_json)
       end).

(** src/relayer_base/src/gmp_api/mod.rs:213-233 GmpApi::post_events *)
Definition gmp_post_events (events : list Event) : M W (result (list PostEventResult) GmpApiError) :=
  let url := rpc_url self +:+ "/chains/" +:+ gmp_chain self +:+ "/events" in
  let? body := ret (rmap_err
    (fun e => GmpGenericError ("Failed to serialize events payload: " +:+ e)) (to_json events)) in
  let? response := request_json (from_value : Value -> result PostEventResponse string)
    (post_request url "application/json" body) in
  ret (Ok (results response)).

(** What a poll of a broadcast says: ask again, or the answer. *)
Definition poll_answer (response : Value) : option (result string GmpApiError) :=
  match value_get response "status" with
  | Some status =>
      match as_str status with
      | Some s =>
          if decide (s = "RECEIVED") then None
          else if decide (s = "SUCCESS") then
            Some (match value_get response "txHash" with
                  | None => Err (GmpGenericError "Broadcast result missing 'txHash' field")
                  | Some h => match as_str h with
                              | None => Err (GmpGenericError "'txHash' field is not a string")
                              | Some tx_hash => Ok tx_hash
                              end
                  end)
          else Some (Err (GmpGenericError (match value_get response "error" with
                                            | Some error => print_json error
                                            | None => print_json status
                                            end)))
      | None => Some (Err (GmpGenericError (match value_get response "error" with
                                             | Some error => print_json error
                                             | None => print_json status
                                             end)))
      end
  | None =>
      match value_get response "error" with
      | Some error => Some (Err (GmpGenericError (print_json error)))
      | None => Some (Err (GmpGenericError (match to_json response with
                                            | Ok s => "Broadcast failed: " +:+ s
                                            | Err e => "Failed to parse broadcast result " +:+
                                                       print_json response +:+ ": " +:+ e
                                            end)))
      end
  end.

(** src/relayer_base/src/gmp_api/mod.rs:303-377 GmpApi::get_broadcast_result (the loop) *)
Fixpoint poll_loop (fuel : nat) (retries : Z) (url broadcast_id : string) :
  M W (result string GmpApiError) :=
  match fuel with
  | O => panic "out of fuel"
  | S fuel =>
      if MAX_BROADCAST_WAIT_TIME_SECONDS / BROADCAST_POLL_INTERVAL_SECONDS <? retries then
        ret (Err (GmpTimeout ("Broadcast with id " +:+ broadcast_id +:+ " timed out")))
      else
        let? response := request_json Ok (get_request url) in
        match poll_answer response with
        | None =>
            let! _u := sleep BROADCAST_POLL_INTERVAL_SECONDS in
            poll_loop fuel (retries + 1) url broadcast_id
        | Some answer => ret answer
        end
  end.

(** The loop leaves when the counter, which starts at 0, exceeds 30. *)
Definition POLL_FUEL : nat := 32.

(** src/relayer_base/src/gmp_api/mod.rs:293-378 GmpApi::get_broadcast_result *)
Definition gmp_get_broadcast_result (contract_address broadcast_id : string) :
  M W (result string GmpApiError) :=
  let url := rpc_url self +:+ "/contracts/" +:+ contract_address +:+ "/broadcasts/" +:+ broadcast_id in
  poll_loop POLL_FUEL 0 url broadcast_id.

(** src/relayer_base/src/gmp_api/mod.rs:235-292 GmpApi::post_broadcast *)
Definition gmp_post_broadcast (contract_address : string) (data : BroadcastRequest) :
  M W (result string GmpApiError) :=
  let url := rpc_url self +:+ "/contracts/" +:+ contract_address +:+ "/broadcasts" in
  let 'BroadcastGeneric payload := data in
  let? body := ret (rmap_err
    (fun e => GmpGenericError ("Failed to serialize broadcast payload: " +:+ e)) (to_json payload)) in
  let? response := request_text_if_success (post_request url "application/json" body) in
  let? response_json := ret (rmap_err
    (fun e => GmpGenericError ("Failed to parse GMP response " +:+ response +:+ ": " +:+ e))
    (parse_json response)) in
  let? id_field := ret (ok_or (value_get response_json "broadcastID")
    (GmpGenericError "Missing 'broadcastID' field")) in
  let? broadcast_id := ret (ok_or (as_str id_field)
    (GmpGenericError "'broadcastID' field is not a string")) in
  let! broadcast_result := gmp_get_broadcast_result contract_address broadcast_id in
  ret (match broadcast_result with
       | Err (GmpTimeout _) => Ok "timeout"
       | r => r
       end).

(** src/relayer_base/src/gmp_api/mod.rs:379-397 GmpApi::post_query *)
Definition gmp_post_query (contract_address : string) (data : QueryRequest) :
  M W (result string GmpApiError) :=
  let url := rpc_url self +:+ "/contracts/" +:+ contract_address +:+ "/queries" in
  let 'QueryGeneric payload := data in
  let? body := ret (rmap_err
    (fun e => GmpGenericError ("Failed to serialize query payload: " +:+ e)) (to_json payload)) in
  request_text_if_success (post_request url "application/json" body).

(** src/relayer_base/src/gmp_api/mod.rs:399-410 GmpApi::post_payload *)
Definition gmp_post_payload (payload : string) : M W (result string GmpApiError) :=
  let url := rpc_url self +:+ "/payloads" in
  let? response := request_json (from_value : Value -> result StorePayloadResult string)
    (post_request url "application/octet-stream" payload) in
  ret (Ok (trim_start_matches "0x" (keccak256 response))).

(** src/relayer_base/src/gmp_api/mod.rs:412-418 GmpApi::get_payload *)
Definition gmp_get_payload (hash : string) : M W (result string GmpApiError) :=
  let url := rpc_url self +:+ "/payloads/0x" +:+ to_lowercase hash in
  let? response := request_bytes_if_success (get_request url) in
  ret (Ok (hex_encode response)).

(** src/relayer_base/src/gmp_api/mod.rs:420-439 GmpApi::map_cannot_execute_message_to_event *)
Definition gmp_map_cannot_execute_message_to_event
    (id message_id source_chain details : string) (reason : CannotExecuteMessageReason) : Event :=
  CannotExecuteMessageV2
    (mkCommonEvent "CANNOT_EXECUTE_MESSAGE/V2"
       ("cannot-execute-task-v" +:+ print_u64 2 +:+ "-" +:+ id) None)
    message_id source_chain reason details.

(** src/relayer_base/src/gmp_api/mod.rs:441-455 GmpApi::cannot_execute_message *)
Definition gmp_cannot_execute_message
    (id message_id source_chain details : string) (reason : CannotExecuteMessageReason) :
  M W (result unit GmpApiError) :=
  let event := gmp_map_cannot_execute_message_to_event id message_id source_chain details reason in
  let? _r := gmp_post_events [event] in
  ret (Ok tt).

(** src/relayer_base/src/gmp_api/mod.rs:457-486 GmpApi::its_interchain_transfer *)
Definition gmp_its_interchain_transfer (xrpl_message : XRPLMessage) : M W (result unit GmpApiError) :=
  match as_interchain_transfer xrpl_message with
  | Some m =>
      let event := ITSInterchainTransfer
        (mkCommonEvent "ITS/INTERCHAIN_TRANSFER"
           ("its-interchain-transfer-" +:+ transfer_tx_id m) None)
        (transfer_tx_id m) (transfer_destination_chain m) (mkAmount None (transfer_amount m))
        (transfer_source_address m) (transfer_destination_address m) (repeat_string "0" 32) in
      let? _r := gmp_post_events [event] in
      ret (Ok tt)
  | None =>
      ret (Err (GmpGenericError
        ("Cannot send ITSInterchainTransfer event for message: " +:+ debug_XRPLMessage xrpl_message)))
  end.

(** src/relayer_base/src/gmp_api/mod.rs:177-182 impl GmpApiTrait for GmpApi *)
Definition GmpApi_impl : GmpApiTrait W := {|
  get_chain := gmp_chain self;
  get_tasks_action := gmp_get_tasks_action;
  post_events := gmp_post_events;
  post_broadcast := gmp_post_broadcast;
  get_broadcast_result := gmp_get_broadcast_result;
  post_query := gmp_post_query;
  post_payload := gmp_post_payload;
  get_payload := gmp_get_payload;
  cannot_execute_message := gmp_cannot_execute_message;
  its_interchain_transfer := gmp_its_interchain_transfer;
  map_cannot_execute_message_to_event := fun a b c d e =>
    Done (gmp_map_cannot_execute_message_to_event a b c d e);
|}.
End client.

(** ** Properties *)

Class HttpLaws (W : Type) `{!Http W, !Timer W} : Prop := {
  send_logged : forall r w, exists o w', send r w = (Done o, w') /\ requests w' = requests w ++ [r];
  sleep_quiet : forall d w, exists w', sleep d w = (Done tt, w') /\ requests w' = requests w;
}.

(** The kind a task of a given [type] field is read as. *)
Definition kind_of_type (ty : string) : TaskKind :=
  default Unknown (snd <$> List.find (fun p => bool_decide (fst p = ty))
    [("CONSTRUCT_PROOF", ConstructProof); ("GATEWAY_TX", GatewayTx); ("VERIFY", Verify);
     ("EXECUTE", Execute); ("REFUND", Refund); ("REACT_TO_WASM_EVENT", ReactToWasmEvent);
     ("REACT_TO_RETRIABLE_POLL", ReactToRetriablePoll);
     ("REACT_TO_EXPIRED_SIGNING_SESSION", ReactToExpiredSigningSession)]).

(** The [common] part of a task is what serde reads from the same document
    (the fields are flattened). *)
Class TaskCodecLaws `{!TaskCodec} : Prop := {
  flattened : forall v t, parse_task v = Ok t -> from_value v = Ok (common t);
}.

(** A task is read by the shape its [type] field names: the kind of a
    parsed task is the one of the table, an unlisted type gives [Unknown], and
    the task carries the headers of the document. *)
Theorem parse_task_kind {TC : TaskCodec} {TL : TaskCodecLaws} (v : Value) (t : Task) :
  parse_task v = Ok t ->
  from_value v = Ok (common t) /\ kind t = kind_of_type (task_type (common t)).
Proof.
  intros Hp. pose proof (flattened v t Hp) as Hc. split; [done|]. revert Hp.
  unfold parse_task. unfold parse_as at 1. rewrite Hc. cbn [rmap_err rbind].
  generalize (task_type (common t)) as ty. intros ty.
  unfold parse_as.
  repeat (destruct (decide (ty = _)) as [->|?]; [
    match goal with |- context [@from_value ?T ?I v] => destruct (@from_value T I v) end;
      cbn [rmap_err rbind]; [by intros [= <-]|done] |]).
  match goal with |- context [@from_value ?T ?I v] => destruct (@from_value T I v) end;
    cbn [rmap_err rbind]; [|done].
  intros [= <-]. unfold kind_of_type. cbn [List.find fst].
  by rewrite !bool_decide_eq_false_2 by congruence.
Qed.

Lemma extract_events_spec events :
  extract_message_ids_and_event_types_from_events events =
    (list_to_set (map event_message_id events), list_to_set (map event_name events)).
Proof.
  unfold extract_message_ids_and_event_types_from_events.
  assert (H : forall l (a b : gset string),
    foldl (fun acc e => ({[ event_message_id e ]} ∪ fst acc, {[ event_name e ]} ∪ snd acc)) (a, b) l =
    (list_to_set (map event_message_id l) ∪ a, list_to_set (map event_name l) ∪ b)).
  { induction l as [|e l IH]; intros a b; cbn [foldl map list_to_set fst snd].
    - by rewrite !(left_id_L ∅ (∪)).
    - rewrite IH. f_equal; set_solver. }
  by rewrite H, !(right_id_L ∅ (∪)).
Qed.

Section client_properties.
Context {W : Type} {H : Http W} {T : Timer W} {HL : HttpLaws W} {J : Json} {C : Codecs} {TC : TaskCodec}
  {SE : Serialize (list Event)} {SV : Serialize Value}.
Variable self : GmpApi.

Lemma request_json_run {R} (de : Value -> result R string) req w :
  exists o w', request_json de req w = (Done o, w') /\ requests w' = requests w ++ [req].
Proof.
  unfold request_json. destruct (send_logged req w) as ([r|e] & w' & E & Hr);
    rewrite bind_ok_run, map_err_run, E; simpl.
  - destruct (is_success r); eexists _, w'; (split; [reflexivity|done]).
  - eexists _, w'. split; [reflexivity|done].
Qed.

Lemma poll_loop_bounded fuel retries u id w :
  0 <= retries <= 31 -> 32 <= Z.of_nat fuel + retries ->
  exists o w', poll_loop fuel retries u id w = (Done o, w') /\
    Z.of_nat (length (requests w')) <= Z.of_nat (length (requests w)) + (31 - retries).
Proof.
  revert retries w. induction fuel as [|fuel IH]; intros retries w Hr Hf; [lia|]. simpl.
  destruct (Z.ltb_spec (MAX_BROADCAST_WAIT_TIME_SECONDS / BROADCAST_POLL_INTERVAL_SECONDS) retries) as [Hlt|Hge].
  { eexists _, w. split; [reflexivity|lia]. }
  change (MAX_BROADCAST_WAIT_TIME_SECONDS / BROADCAST_POLL_INTERVAL_SECONDS) with 30 in Hge.
  destruct (request_json_run Ok (get_request u) w) as ([v|e] & w1 & E & Hl); rewrite bind_ok_run, E.
  - destruct (poll_answer v) as [a|].
    + eexists _, w1. split; [reflexivity|]. rewrite Hl, length_app. simpl. lia.
    + destruct (sleep_quiet BROADCAST_POLL_INTERVAL_SECONDS w1) as (w2 & E2 & Hs).
      erewrite bind_done by exact E2.
      destruct (IH (retries + 1) w2) as (o & w3 & E3 & H3); [lia|lia|].
      exists o, w3. split; [exact E3|]. rewrite Hs, Hl, length_app in H3. simpl in H3. lia.
  - eexists _, w1. split; [reflexivity|]. rewrite Hl, length_app. simpl. lia.
Qed.

(** Waiting for a broadcast always ends, whatever the server answers:
    after at most 31 requests the call returns. *)
Theorem broadcast_wait_ends (contract_address broadcast_id : string) (w : W) :
  exists r w', gmp_get_broadcast_result self contract_address broadcast_id w = (Done r, w') /\
    (length (requests w') <= length (requests w) + 31)%nat.
Proof.
  unfold gmp_get_broadcast_result, POLL_FUEL.
  destruct (poll_loop_bounded 32 0 (rpc_url self +:+ "/contracts/" +:+ contract_address +:+ "/broadcasts/" +:+ broadcast_id)
    broadcast_id w) as (o & w' & E & Hl); [lia|lia|].
  exists o, w'. split; [exact E|lia].
Qed.

(** [n] polls in a row are answered [RECEIVED]. *)
Inductive pending (u : string) : nat -> W -> W -> Prop :=
| pending_none w : pending u 0 w w
| pending_more n w v w1 w2 w3 :
    request_json Ok (get_request u) w = (Done (Ok v), w1) ->
    poll_answer v = None ->
    sleep BROADCAST_POLL_INTERVAL_SECONDS w1 = (Done tt, w2) ->
    pending u n w2 w3 ->
    pending u (S n) w w3.

Lemma poll_loop_pending u id n w w' :
  pending u n w w' -> forall fuel retries,
  retries + Z.of_nat n <= 31 -> poll_loop (n + fuel) retries u id w = poll_loop fuel (retries + Z.of_nat n) u id w'.
Proof.
  intros Hp. induction Hp as [w|n w v w1 w2 w3 E Ha Es _ IH]; intros fuel retries Hr.
  - simpl. f_equal. lia.
  - simpl.
    destruct (Z.ltb_spec (MAX_BROADCAST_WAIT_TIME_SECONDS / BROADCAST_POLL_INTERVAL_SECONDS) retries) as [Hlt|Hge].
    + change (MAX_BROADCAST_WAIT_TIME_SECONDS / BROADCAST_POLL_INTERVAL_SECONDS) with 30 in Hlt. lia.
    + rewrite bind_ok_run, E, Ha. erewrite bind_done by exact Es. rewrite IH by lia. f_equal. lia.
Qed.

(** The first answer other than [RECEIVED] among the first 31 decides:
    [SUCCESS] gives the transaction hash, anything else an error; with 31
    pending answers the wait times out. *)
Theorem broadcast_result_spec (contract_address broadcast_id : string) (n : nat) (w w1 : W) :
  let u := rpc_url self +:+ "/contracts/" +:+ contract_address +:+ "/broadcasts/" +:+ broadcast_id in
  pending u n w w1 ->
  (n = 31%nat -> gmp_get_broadcast_result self contract_address broadcast_id w =
     (Done (Err (GmpTimeout ("Broadcast with id " +:+ broadcast_id +:+ " timed out"))), w1)) /\
  (forall v w2 a, (n <= 30)%nat -> request_json Ok (get_request u) w1 = (Done (Ok v), w2) ->
     poll_answer v = Some a ->
     gmp_get_broadcast_result self contract_address broadcast_id w = (Done a, w2)).
Proof.
  intros u Hp. split.
  - intros ->. unfold gmp_get_broadcast_result, POLL_FUEL. fold u.
    change 32%nat with (31 + 1)%nat. by rewrite (poll_loop_pending _ _ _ _ _ Hp) by lia.
  - intros v w2 a Hn E Ha. unfold gmp_get_broadcast_result. fold u.
    replace POLL_FUEL with (n + S (31 - n))%nat by (unfold POLL_FUEL; lia).
    rewrite (poll_loop_pending _ _ _ _ _ Hp) by lia. rewrite Z.add_0_l. generalize (31 - n)%nat as k. intros k. simpl.
    destruct (Z.ltb_spec (MAX_BROADCAST_WAIT_TIME_SECONDS / BROADCAST_POLL_INTERVAL_SECONDS) (Z.of_nat n)) as [Hlt|Hge].
    + change (MAX_BROADCAST_WAIT_TIME_SECONDS / BROADCAST_POLL_INTERVAL_SECONDS) with 30 in Hlt. lia.
    + by rewrite bind_ok_run, E, Ha.
Qed.

(** A broadcast that is still pending when the wait ends is not an
    error for the caller: [post_broadcast] never answers [Timeout], it
    answers the transaction hash ["timeout"]. *)
Theorem post_broadcast_no_timeout (contract_address : string) (data : BroadcastRequest) (w : W) (s : string) :
  fst (gmp_post_broadcast self contract_address data w) <> Done (Err (GmpTimeout s)).
Proof.
  unfold gmp_post_broadcast. destruct data as [payload]. rewrite bind_ok_run. simpl.
  destruct (to_json payload) as [body|e]; simpl; [|done].
  unfold request_text_if_success. rewrite bind_ok_run, bind_ok_run, map_err_run.
  destruct (send_logged (post_request (rpc_url self +:+ "/contracts/" +:+ contract_address +:+ "/broadcasts")
    "application/json" body) w) as ([r|e] & w1 & -> & _); [|done].
  cbn [rmap_err]. destruct (is_success r); [|done]. cbn [ret].
  destruct (response_body r) as [b|e]; [|done]. cbn [rmap_err].
  rewrite bind_ok_run. simpl. destruct (parse_json b) as [j|e]; [|done]. simpl.
  rewrite bind_ok_run. simpl. destruct (value_get j "broadcastID") as [f|]; [|done]. simpl.
  rewrite bind_ok_run. simpl. destruct (as_str f) as [id|]; [|done]. simpl.
  rewrite bind_run. destruct (gmp_get_broadcast_result self contract_address id w1) as [[[h|[]]|why] w2]; done.
Qed.

(** What a fetch of tasks returns: the tasks of the reply that parse, in
    the order of the reply. A malformed task is left out silently; a reply
    without tasks, or with none that parses, gives the same list. *)
Theorem get_tasks_spec (after : option string) (w : W) (tasks : list Task) :
  fst (gmp_get_tasks_action self after w) = Done (Ok tasks) ->
  exists req r w1 b doc vs,
    req = mkRequest GET (rpc_url self +:+ "/chains/" +:+ gmp_chain self +:+ "/tasks")
            (match after with Some a => [("after", a)] | None => [] end) None None /\
    send req w = (Done (Ok r), w1) /\ is_success r = true /\ response_body r = Ok b /\
    parse_json b = Ok doc /\ value_get doc "tasks" = Some (VArray vs) /\
    tasks = omap ok_task vs /\
    (forall t, t ∈ tasks <-> exists v, v ∈ vs /\ parse_task v = Ok t).
Proof.
  unfold gmp_get_tasks_action, request_json.
  set (req := mkRequest GET _ _ None None). rewrite !bind_ok_run, map_err_run.
  destruct (send req w) as [[[r|e]|why] w1] eqn:E; [|done|done]. cbn [rmap_err].
  destruct (is_success r) eqn:Hs; [|done]. cbn [ret].
  destruct (response_body r) as [b|e] eqn:Hb; [|done]. cbn [rbind].
  destruct (parse_json b) as [doc|e] eqn:Hd; [|done]. cbn [rbind rmap_err].
  unfold de_tasks. destruct doc as [| | | | |fields]; try done.
  destruct (forallb _ fields); [|done]. cbn [rmap_err].
  destruct (value_get (VObject fields) "tasks") as [[| | | |vs|]|] eqn:Hv; simpl; try done.
  intros [= <-]. exists req, r, w1, b, (VObject fields), vs.
  do 6 (split; [done|]). split; [done|]. intros t. rewrite list_elem_of_omap.
  unfold ok_task. split; intros (v & Hin & Hp); exists v; (split; [done|]).
  - destruct (parse_task v); [|done]. by simplify_eq.
  - by rewrite Hp.
Qed.
End client_properties.

(** ** A scripted server, for concrete runs *)

Module Script.
Record World : Type := mkWorld { replies : list (result Response string); log : list Request }.

#[export] Instance http : Http World := {|
  send := fun r w =>
    (Done (match replies w with x :: _ => x | [] => Err "no reply" end),
     mkWorld (tail (replies w)) (log w ++ [r]));
  requests := log;
|}.
#[export] Instance timer : Timer World := {| sleep := fun _ w => (Done tt, w) |}.
#[export] Instance laws : HttpLaws World.
Proof. split; intros; eexists; [eexists|]; done. Qed.

Definition reply (b : string) : result Response string := Ok (mkResponse true "" (Ok b)).

(** A body [s] is the document [{"status": s, "txHash": "h", "tasks": [s]}]. *)
#[export] Instance json : Json := {|
  parse_json := fun s => Ok (VObject [("status", VString s); ("txHash", VString "h")]);
  print_json := fun _ => "";
|}.
#[export] Instance ser : Serialize Value := {| to_json := fun _ => Ok "" |}.
#[export] Instance ser_events : Serialize (list Event) := {| to_json := fun _ => Ok "" |}.

Definition task_json : Json := {|
  parse_json := fun s => Ok (VObject [("tasks", VArray [VString s; VNull; VString s])]);
  print_json := fun _ => "";
|}.

(** Tasks of the type [VERIFY], read from a string that is their id. *)
Definition a_message : GatewayV2Message := mkMessage "m" "src" "a" "b" "h".
Definition headers (v : Value) : result CommonTaskFields string :=
  match v with VString s => Ok (mkCommonTask s "c" "t" "VERIFY" None) | _ => Err "not a task" end.
Definition nope {T} : Deserialize T := {| from_value := fun _ => Err "not modelled here" |}.
#[export] Instance codec : TaskCodec := {|
  de_common := {| from_value := headers |};
  de_construct_proof := nope; de_gateway_tx := nope;
  de_verify := {| from_value := fun v =>
    rbind (headers v) (fun c => Ok (mkVerifyTask c (mkVerifyFields a_message "p"))) |};
  de_execute := nope; de_refund := nope; de_wasm := nope; de_poll := nope; de_expired := nope;
  de_unknown := nope;
|}.
#[export] Instance codec_laws : TaskCodecLaws.
Proof.
  split. intros v t. unfold parse_task, parse_as. simpl.
  destruct v; simpl; [done|done|done| |done|done]. by intros [= <-].
Qed.
Definition api : GmpApi := mkGmpApi "http://api" "ton".
End Script.
Import Script.

Lemma parse_task_kind_witness :
  from_value (VString "id-1") =
    Ok (common (TVerify (mkVerifyTask (mkCommonTask "id-1" "c" "t" "VERIFY" None)
                           (mkVerifyFields a_message "p")))) /\ Verify = kind_of_type "VERIFY".
Proof.
  exact (parse_task_kind (VString "id-1")
    (TVerify (mkVerifyTask (mkCommonTask "id-1" "c" "t" "VERIFY" None) (mkVerifyFields a_message "p")))
    eq_refl).
Defined.

Lemma broadcast_wait_ends_witness :
  exists r w', gmp_get_broadcast_result api "c" "id" (mkWorld [reply "RECEIVED"; reply "SUCCESS"] []) = (Done r, w') /\
    (length (requests w') <= 31)%nat.
Proof. exact (broadcast_wait_ends api "c" "id" (mkWorld [reply "RECEIVED"; reply "SUCCESS"] [])). Defined.

Lemma broadcast_result_spec_witness :
  let w := mkWorld [reply "RECEIVED"; reply "SUCCESS"] [] in
  gmp_get_broadcast_result api "c" "id" w =
    (Done (Ok "h"), mkWorld [] [get_request "http://api/contracts/c/broadcasts/id";
                                get_request "http://api/contracts/c/broadcasts/id"]).
Proof.
  eapply (broadcast_result_spec api "c" "id" 1 (mkWorld [reply "RECEIVED"; reply "SUCCESS"] [])).
  - eapply pending_more; [reflexivity|reflexivity|reflexivity|apply pending_none].
  - lia.
  - reflexivity.
  - reflexivity.
Defined.

Lemma get_tasks_spec_witness :
  let tasks := [TVerify (mkVerifyTask (mkCommonTask "7" "c" "t" "VERIFY" None) (mkVerifyFields a_message "p"));
                TVerify (mkVerifyTask (mkCommonTask "7" "c" "t" "VERIFY" None) (mkVerifyFields a_message "p"))] in
  exists req r w1 b doc vs,
    req = mkRequest GET "http://api/chains/ton/tasks" [("after", "6")] None None /\
    send req (mkWorld [reply "7"] []) = (Done (Ok r), w1) /\ is_success r = true /\ response_body r = Ok b /\
    @parse_json task_json b = Ok doc /\ value_get doc "tasks" = Some (VArray vs) /\
    tasks = omap ok_task vs /\
    (forall t, t ∈ tasks <-> exists v, v ∈ vs /\ parse_task v = Ok t).
Proof. exact (get_tasks_spec (J := task_json) api (Some "6") (mkWorld [reply "7"] []) _ eq_refl). Defined.
