(* ===== verification/GmpAudit.v ===== *)
(** * Auditing the GMP API in the database

    [relayer_base/src/models/gmp_events.rs], [relayer_base/src/models/gmp_tasks.rs]
    and [relayer_base/src/gmp_api/gmp_api_db_audit_decorator.rs]: a GMP API
    that records tasks, events and responses, and otherwise behaves as the one
    it wraps. A task handed to [tokio::spawn] is a job that runs later. *)

From S2P Require Import Prelude.
From S2P Require Import Store.
From S2P Require Import GmpTypes.
From S2P Require Import Text.
From S2P Require Import GmpApi.

(** src/relayer_base/src/models/gmp_events.rs:8-18 EventModel *)
Record EventModel : Type := mkEventModel {
  em_event_id : string;
  em_message_id : option string;
  em_event_type : string;
  em_event : Event;
  em_response : option PostEventResult;
}.

(** src/relayer_base/src/models/gmp_events.rs:20-73 EventModel::from_event *)
Definition from_event (event : Event) : EventModel :=
  let '(event_id, event_type, message_id) :=
    match event with
    | GasRefunded c m _ _ _ | GasCredit c m _ _ | CannotExecuteMessageV2 c m _ _ _
    | ITSInterchainTransfer c m _ _ _ _ _ => (event_id c, event_type c, Some m)
    | MessageExecuted c m _ _ _ => (event_id c, event_type c, Some m)
    | Call c message _ _ => (event_id c, event_type c, Some (message_id message))
    | MessageApproved c message _ => (event_id c, event_type c, Some (message_id message))
    end in
  mkEventModel event_id message_id event_type event None.

(** [chrono]'s parser of RFC 3339 timestamps. *)
Class Chrono : Type := { parse_from_rfc3339 : string -> result Z string }.

(** src/relayer_base/src/models/gmp_tasks.rs:8-19 TaskModel *)
Record TaskModel : Type := mkTaskModel {
  tm_task_id : string;
  tm_chain : string;
  tm_timestamp : Z;
  tm_task_type : string;
  tm_message_id : option string;
  tm_task : Task;
}.

(** src/relayer_base/src/models/gmp_tasks.rs:21-65 TaskModel::from_task *)
Definition from_task `{!Chrono} (now : Z) (task : Task) : TaskModel :=
  let '(c, message_id) :=
    match task with
    | TExecute t => (execute_common t, Some (message_id (execute_message (execute_task t))))
    | TVerify t => (verify_common t, Some (message_id (verify_message (verify_task t))))
    | TConstructProof t => (proof_common t, Some (message_id (proof_message (proof_task t))))
    | TRefund t => (refund_common t, Some (message_id (refund_message (refund_task t))))
    | TGatewayTx t => (gateway_common t, None)
    | TReactToWasmEvent t => (wasm_common t, None)
    | TReactToExpiredSigningSession t => (expired_common t, None)
    | TReactToRetriablePoll t => (poll_common t, None)
    | TUnknown t => (unknown_common t, None)
    end in
  let timestamp := match parse_from_rfc3339 (task_timestamp c) with Ok t => t | Err _ => now end in
  mkTaskModel (id c) (chain c) timestamp (task_type c) message_id task.

Record AuditTables : Type := mkAudit {
  gmp_events : list EventModel;
  gmp_tasks : list TaskModel;
}.
Abbreviation AuditDb := (Store AuditTables).

(** src/relayer_base/src/models/gmp_events.rs:97-114 PgGMPEvents::insert_event *)
Definition insert_event (event : EventModel) : M AuditDb (result unit string) :=
  sql_exec (fun _ t => mkAudit (gmp_events t ++ [event]) (gmp_tasks t)).

Definition set_response (id : string) (r : PostEventResult) (e : EventModel) : EventModel :=
  if decide (em_event_id e = id) then
    mkEventModel (em_event_id e) (em_message_id e) (em_event_type e) (em_event e) (Some r)
  else e.

(** src/relayer_base/src/models/gmp_events.rs:116-134 PgGMPEvents::update_event_response *)
Definition update_event_response (event_id : string) (response : PostEventResult) :
  M AuditDb (result unit string) :=
  sql_exec (fun _ t => mkAudit (map (set_response event_id response) (gmp_events t)) (gmp_tasks t)).

(** src/relayer_base/src/models/gmp_tasks.rs:83-103 PgGMPTasks::insert_task *)
Definition insert_task (task : TaskModel) : M AuditDb (result unit string) :=
  sql_exec (fun _ t => mkAudit (gmp_events t) (gmp_tasks t ++ [task])).

(** A spawned job. *)
Inductive Job : Type :=
| InsertTask (task : TaskModel)
| UpdateResponse (event_id : string) (response : PostEventResult).

Definition run_job (j : Job) : M AuditDb unit :=
  let! _r := match j with
             | InsertTask task => insert_task task
             | UpdateResponse event_id response => update_event_response event_id response
             end in
  ret tt.

(** src/relayer_base/src/gmp_api/gmp_api_db_audit_decorator.rs:60-65 GmpApiDbAuditDecorator *)
Record Audited (W : Type) : Type := mkAudited {
  inner : W;
  db : AuditDb;
  spawned : list Job;
}.
Arguments mkAudited {W} inner db spawned.
Arguments inner {W} a.
Arguments db {W} a.
Arguments spawned {W} a.

Section decorator.
Context {W : Type} {XM : XrplMessages} {API : GmpApiTrait W} {CH : Chrono}.
Abbreviation A := (Audited W).

Definition on_api {X} (m : M W X) : M A X := fun a =>
  let '(o, w') := m (inner a) in (o, mkAudited w' (db a) (spawned a)).
Definition on_db {X} (m : M AuditDb X) : M A X := fun a =>
  let '(o, d') := m (db a) in (o, mkAudited (inner a) d' (spawned a)).
Definition spawn (j : Job) : M A unit :=
  modify (fun a => mkAudited (inner a) (db a) (spawned a ++ [j])).

(** A [for] loop over a list. *)
Fixpoint for_each {X} (xs : list X) (body : X -> M A unit) : M A unit :=
  match xs with
  | [] => ret tt
  | x :: xs => let! _u := body x in for_each xs body
  end.

(** src/relayer_base/src/gmp_api/gmp_api_db_audit_decorator.rs:117-133 GmpApiDbAuditDecorator::get_tasks_action *)
Definition audit_get_tasks_action (after : option string) : M A (result (list Task) GmpApiError) :=
  let? tasks := on_api (get_tasks_action after) in
  let! a := get_world in
  let! _u := for_each tasks (fun task => spawn (InsertTask (from_task (clock (db a)) task))) in
  ret (Ok tasks).

(** src/relayer_base/src/gmp_api/gmp_api_db_audit_decorator.rs:135-203 GmpApiDbAuditDecorator::post_events *)
Definition audit_post_events (events : list Event) : M A (result (list PostEventResult) GmpApiError) :=
  let event_models := map from_event events in
  let! _u := for_each event_models (fun m => let! _r := on_db (insert_event m) in ret tt) in
  let! posted := on_api (post_events events) in
  match posted with
  | Ok results =>
      let! _u := for_each results (fun result =>
        match event_models !! index result with
        | Some event => spawn (UpdateResponse (em_event_id event) result)
        | None => ret tt
        end) in
      ret (Ok results)
  | Err err =>
      let error_result := mkPostResult "error" 0 (Some (show_GmpApiError err)) None in
      let! _u := for_each event_models (fun m =>
        let! _r := on_db (update_event_response (em_event_id m) error_result) in ret tt) in
      ret (Err err)
  end.

(** src/relayer_base/src/gmp_api/gmp_api_db_audit_decorator.rs:244-264 GmpApiDbAuditDecorator::cannot_execute_message *)
Definition audit_cannot_execute_message
    (id message_id source_chain details : string) (reason : CannotExecuteMessageReason) :
  M A (result unit GmpApiError) :=
  match map_cannot_execute_message_to_event (W := W) id message_id source_chain details reason with
  | Done event => let? _r := audit_post_events [event] in ret (Ok tt)
  | Panic why => panic why
  end.

(** src/relayer_base/src/gmp_api/gmp_api_db_audit_decorator.rs:106-281 impl GmpApiTrait for GmpApiDbAuditDecorator *)
#[export] Instance Decorated : GmpApiTrait A := {|
  get_chain := get_chain (W := W);
  get_tasks_action := audit_get_tasks_action;
  post_events := audit_post_events;
  post_broadcast := fun c d => on_api (post_broadcast c d);
  get_broadcast_result := fun c i => on_api (get_broadcast_result c i);
  post_query := fun c d => on_api (post_query c d);
  post_payload := fun p => on_api (post_payload p);
  get_payload := fun h => on_api (get_payload h);
  cannot_execute_message := audit_cannot_execute_message;
  its_interchain_transfer := fun m => on_api (its_interchain_transfer m);
  map_cannot_execute_message_to_event := fun _ _ _ _ _ => Panic "not implemented";
|}.

(** ** Properties *)

Lemma for_each_inner {X} (xs : list X) (body : X -> M A unit) a :
  (forall x a, exists a', body x a = (Done tt, a') /\ inner a' = inner a) ->
  exists a', for_each xs body a = (Done tt, a') /\ inner a' = inner a.
Proof.
  intros Hb. revert a. induction xs as [|x xs IH]; intros a; simpl; [by exists a|].
  destruct (Hb x a) as (a1 & E1 & H1). erewrite bind_done by exact E1.
  destruct (IH a1) as (a2 & E2 & H2). exists a2. split; [done|congruence].
Qed.

Lemma on_db_run {X} (m : M AuditDb (result X string)) a :
  (exists r d', m (db a) = (Done r, d')) ->
  exists a', (let! _r := on_db m in ret tt) a = (Done tt, a') /\ inner a' = inner a /\
    db a' = snd (m (db a)) /\ spawned a' = spawned a.
Proof. intros (r & d' & E). unfold on_db. rewrite bind_run, E. by eexists. Qed.

Lemma sql_runs {X} (stmt : Z -> AuditTables -> X * AuditTables) d :
  exists r d', sql stmt d = (Done r, d').
Proof. destruct (sql_cases stmt d) as [[e E] | E]; eexists _, _; exact E. Qed.

Lemma insert_event_inner m a :
  exists a', (let! _r := on_db (insert_event m) in ret tt) a = (Done tt, a') /\ inner a' = inner a.
Proof.
  destruct (on_db_run (insert_event m) a) as (a' & E & Hi & _); [apply sql_runs|]. by exists a'.
Qed.

Lemma update_response_inner i r a :
  exists a', (let! _r := on_db (update_event_response i r) in ret tt) a = (Done tt, a') /\ inner a' = inner a.
Proof.
  destruct (on_db_run (update_event_response i r) a) as (a' & E & Hi & _); [apply sql_runs|]. by exists a'.
Qed.

(** A call of the decorated API has the outcome and the effects of the same
    call of the API it wraps. *)
Definition transparent {X} (m : M A X) (m0 : M W X) : Prop :=
  forall a, fst (m a) = fst (m0 (inner a)) /\ inner (snd (m a)) = snd (m0 (inner a)).

Lemma on_api_transparent {X} (m : M W X) : transparent (on_api m) m.
Proof. intros a. unfold on_api. by destruct (m (inner a)). Qed.

Lemma get_tasks_transparent after : transparent (audit_get_tasks_action after) (get_tasks_action after).
Proof.
  intros a. unfold audit_get_tasks_action, on_api. rewrite bind_ok_run.
  destruct (get_tasks_action after (inner a)) as [[[tasks|e]|why] w']; [|done|done].
  rewrite bind_run. unfold get_world.
  match goal with |- context [for_each tasks ?b] =>
    destruct (for_each_inner tasks b (mkAudited w' (db a) (spawned a))) as (a2 & E & H2);
      [intros x a1; by eexists|] end.
  rewrite bind_run, E. done.
Qed.

Lemma post_events_transparent events : transparent (audit_post_events events) (post_events events).
Proof.
  intros a. unfold audit_post_events.
  destruct (for_each_inner (map from_event events)
    (fun m => let! _r := on_db (insert_event m) in ret tt) a insert_event_inner) as (a1 & E1 & H1).
  rewrite bind_run, E1, bind_run. unfold on_api. rewrite H1.
  destruct (post_events events (inner a)) as [[[rs|e]|why] w']; [| |done].
  - match goal with |- context [for_each rs ?b] =>
      destruct (for_each_inner rs b (mkAudited w' (db a1) (spawned a1))) as (a2 & E2 & H2) end.
    { intros r a2. destruct (map from_event events !! index r); by eexists. }
    by rewrite bind_run, E2.
  - match goal with |- context [for_each _ ?b] =>
      destruct (for_each_inner (map from_event events) b (mkAudited w' (db a1) (spawned a1))) as (a2 & E2 & H2);
        [intros m a2; apply update_response_inner|] end.
    by rewrite bind_run, E2.
Qed.

Lemma transparent_ok {X Y} (m : M A (result X GmpApiError)) m0 (y : Y) : transparent m m0 ->
  transparent (let? _r := m in ret (Ok y)) (let? _r := m0 in ret (Ok y)).
Proof.
  intros Hm a. destruct (Hm a) as [Ho Hw]. rewrite !bind_ok_run. destruct (m a) as [o a'], (m0 (inner a)) as [o0 w'].
  simpl in Ho, Hw. subst o0 w'. by destruct o as [[x|e]|why].
Qed.

(** An API that refuses a message by posting the event it makes of the
    refusal, as the one the processes wrap does (instance below). *)
Class PostsRefusals : Prop := {
  refusal_posted : forall id message_id source_chain details reason,
    cannot_execute_message (W := W) id message_id source_chain details reason =
    match map_cannot_execute_message_to_event (W := W) id message_id source_chain details reason with
    | Done event => let? _r := post_events (W := W) [event] in ret (Ok tt)
    | Panic why => panic why
    end;
}.

(** C32: auditing is invisible to the caller: whatever the database answers,
    each of the nine calls of the API that reach the network has exactly the
    outcome, and exactly the effects outside the database, of the same call
    of the wrapped API; so has the chain's name.  Only the conversion of a
    refusal to its event, which nothing outside the API calls, is not
    implemented by the decorator and panics. *)
Theorem audit_transparent `{!PostsRefusals} :
  (forall after, transparent (get_tasks_action (W := A) after) (get_tasks_action after)) /\
  (forall events, transparent (post_events (W := A) events) (post_events events)) /\
  (forall c d, transparent (post_broadcast (W := A) c d) (post_broadcast c d)) /\
  (forall c i, transparent (get_broadcast_result (W := A) c i) (get_broadcast_result c i)) /\
  (forall c d, transparent (post_query (W := A) c d) (post_query c d)) /\
  (forall p, transparent (post_payload (W := A) p) (post_payload p)) /\
  (forall h, transparent (get_payload (W := A) h) (get_payload h)) /\
  (forall i m s d r, transparent (cannot_execute_message (W := A) i m s d r) (cannot_execute_message i m s d r)) /\
  (forall m, transparent (its_interchain_transfer (W := A) m) (its_interchain_transfer m)) /\
  get_chain (W := A) = get_chain (W := W) /\
  (forall i m s d r, exists why, map_cannot_execute_message_to_event (W := A) i m s d r = Panic why).
Proof.
  split; [exact get_tasks_transparent|]. split; [exact post_events_transparent|].
  do 5 (split; [by intros; apply on_api_transparent|]). split; [|split; [by intros; apply on_api_transparent|]].
  - intros i m s d r. rewrite refusal_posted.
    change (cannot_execute_message (W := A) i m s d r) with (audit_cannot_execute_message i m s d r).
    unfold audit_cannot_execute_message.
    by destruct (map_cannot_execute_message_to_event i m s d r); [apply transparent_ok, post_events_transparent|intros a].
  - split; [done|]. by eexists.
Qed.

Definition rows (a : A) : list EventModel := gmp_events (tables (db a)).

(** A loop of statements that all succeed. *)
Lemma for_each_exec {X} (xs : list X) (stmt : X -> M AuditDb (result unit string))
    (f : X -> list EventModel -> list EventModel) a :
  (forall x d, faults d = [] -> exists d', stmt x d = (Done (Ok tt), d') /\ faults d' = [] /\
     gmp_events (tables d') = f x (gmp_events (tables d))) ->
  faults (db a) = [] ->
  exists a', for_each xs (fun x => let! _r := on_db (stmt x) in ret tt) a = (Done tt, a') /\
    faults (db a') = [] /\ rows a' = foldl (fun rs x => f x rs) (rows a) xs /\
    inner a' = inner a /\ spawned a' = spawned a.
Proof.
  intros Hs. revert a. induction xs as [|x xs IH]; intros a Hf; simpl; [by exists a|].
  destruct (Hs x (db a) Hf) as (d1 & E1 & Hf1 & Hr1).
  rewrite bind_run. unfold on_db at 1. rewrite bind_run, E1. cbn [ret].
  destruct (IH (mkAudited (inner a) d1 (spawned a)) Hf1) as (a2 & E2 & Hf2 & Hr2 & Hi2 & Hsp2).
  exists a2. split; [exact E2|]. split; [done|]. split; [|done]. rewrite Hr2. unfold rows. simpl. by rewrite Hr1.
Qed.

Lemma for_each_spawn (rs : list PostEventResult) (ms : list EventModel) a :
  exists a', for_each rs (fun r => match ms !! index r with
                                   | Some m => spawn (UpdateResponse (em_event_id m) r)
                                   | None => ret tt end) a = (Done tt, a') /\
    db a' = db a /\ spawned a' = spawned a ++
      omap (fun r => (fun m => UpdateResponse (em_event_id m) r) <$> ms !! index r) rs.
Proof.
  revert a. induction rs as [|r rs IH]; intros a; simpl; [exists a; by rewrite app_nil_r|].
  rewrite bind_run. destruct (ms !! index r) as [m|]; simpl.
  - unfold spawn, modify.
    destruct (IH (mkAudited (inner a) (db a) (spawned a ++ [UpdateResponse (em_event_id m) r]))) as (a2 & E & Hd & Hs).
    exists a2. split; [exact E|]. split; [done|]. rewrite Hs. simpl. by rewrite <- app_assoc.
  - apply IH.
Qed.

Lemma foldl_set_response (ms : list EventModel) r rs :
  foldl (fun rs m => map (set_response (em_event_id m) r) rs) rs ms =
  map (fun e => if decide (em_event_id e ∈ map em_event_id ms) then set_response (em_event_id e) r e else e) rs.
Proof.
  assert (Hid : forall i e, em_event_id (set_response i r e) = em_event_id e).
  { intros i e. unfold set_response. by case_decide. }
  assert (Hrr : forall e, set_response (em_event_id e) r (set_response (em_event_id e) r e) =
                          set_response (em_event_id e) r e).
  { intros e. unfold set_response. by repeat case_decide. }
  revert rs. induction ms as [|m ms IH]; intros rs; cbn [foldl map].
  - induction rs as [|e rs IHr]; [done|]. cbn [map]. rewrite <- IHr. by rewrite decide_False by set_solver.
  - rewrite IH, map_map. apply map_ext. intros e. rewrite Hid.
    destruct (decide (em_event_id e = em_event_id m)) as [Heq|Hne].
    + rewrite (decide_True (P := em_event_id e ∈ em_event_id m :: _)) by (rewrite Heq; by left).
      rewrite <- Heq, Hrr. by case_decide.
    + assert (He : set_response (em_event_id m) r e = e) by (unfold set_response; by rewrite decide_False).
      rewrite He.
      destruct (decide (em_event_id e ∈ map em_event_id ms)) as [H1|H1];
        destruct (decide (em_event_id e ∈ em_event_id m :: map em_event_id ms)) as [H2|H2];
        rewrite elem_of_cons in H2; done || (exfalso; tauto).
Qed.

(** Events are written ahead.  With a database that answers, posting
    leaves one new row per event before the API is called, even if that call
    never returns; a posted event's row waits for a spawned job with the
    response of its index, and when the API answers an error every row with
    the id of a posted event carries that error when the call returns. *)
Theorem events_recorded (events : list Event) (a : A) :
  faults (db a) = [] ->
  let a' := snd (audit_post_events events a) in
  let ahead := rows a ++ map from_event events in
  match fst (audit_post_events events a) with
  | Done (Ok rs) =>
      rows a' = ahead /\
      spawned a' = spawned a ++ omap (fun r =>
        (fun m => UpdateResponse (em_event_id m) r) <$> map from_event events !! index r) rs
  | Done (Err e) =>
      let err := mkPostResult "error" 0 (Some (show_GmpApiError e)) None in
      rows a' = map (fun row => if decide (em_event_id row ∈ map em_event_id (map from_event events))
                                then set_response (em_event_id row) err row else row) ahead /\
      spawned a' = spawned a
  | Panic _ => rows a' = ahead /\ spawned a' = spawned a
  end.
Proof.
  intros Hf. cbv zeta. unfold audit_post_events.
  destruct (for_each_exec (map from_event events) insert_event (fun m rs => rs ++ [m]) a) as
    (a1 & E1 & Hf1 & Hr1 & Hi1 & Hs1); [|done|].
  { intros m d Hd. eexists. unfold insert_event, sql_exec. rewrite sql_no_fault by (unfold next_fault; by rewrite Hd).
    split; [done|]. simpl. by rewrite Hd. }
  assert (Happ : forall ms rs, foldl (fun rs (m : EventModel) => rs ++ [m]) rs ms = rs ++ ms).
  { induction ms as [|m ms IH]; intros rs; simpl; [by rewrite app_nil_r|]. by rewrite IH, <- app_assoc. }
  rewrite Happ in Hr1. rewrite bind_run, E1, bind_run. unfold on_api. rewrite Hi1.
  destruct (post_events events (inner a)) as [[[rs|e]|why] w'].
  - destruct (for_each_spawn rs (map from_event events) (mkAudited w' (db a1) (spawned a1))) as (a2 & E2 & Hd2 & Hs2).
    rewrite bind_run, E2. cbn [ret fst snd]. split; [|by rewrite Hs2, <- Hs1].
    unfold rows at 1. rewrite Hd2. exact Hr1.
  - set (err := mkPostResult "error" 0 (Some (show_GmpApiError e)) None).
    destruct (for_each_exec (map from_event events) (fun m => update_event_response (em_event_id m) err)
      (fun m rs => map (set_response (em_event_id m) err) rs) (mkAudited w' (db a1) (spawned a1))) as
      (a2 & E2 & Hf2 & Hr2 & Hi2 & Hs2); [|done|].
    { intros m d Hd. eexists. unfold update_event_response, sql_exec.
      rewrite sql_no_fault by (unfold next_fault; by rewrite Hd). split; [done|]. simpl. by rewrite Hd. }
    rewrite bind_run, E2. cbn [ret fst snd]. split; [|by rewrite Hs2].
    rewrite Hr2, foldl_set_response. unfold rows at 1. simpl. unfold rows in Hr1. by rewrite Hr1.
  - cbn [fst snd]. split; [exact Hr1|exact Hs1].
Qed.
End decorator.

Arguments PostsRefusals W {XM API}.

(** The client the processes wrap posts its refusals. *)
#[export] Instance gmp_posts_refusals {W} `{XM : XrplMessages, Http W, Timer W, !Json, !Codecs, !TaskCodec,
    !Serialize (list Event), !Serialize Value, !Deserialize PostEventResponse, !Deserialize StorePayloadResult} self :
  PostsRefusals W (API := GmpApi_impl self).
Proof. by constructor. Qed.

(** An API for concrete runs: it rejects every post. *)
Module AuditDemo.
#[export] Instance messages : XrplMessages := {|
  XRPLMessage := unit; as_interchain_transfer := fun _ => None; debug_XRPLMessage := fun _ => "";
|}.
#[export] Instance api : GmpApiTrait unit := {|
  get_chain := "ton";
  get_tasks_action := fun _ => ret (Ok []);
  post_events := fun _ => ret (Err (GmpTimeout "late"));
  post_broadcast := fun _ _ => ret (Ok "h");
  get_broadcast_result := fun _ _ => ret (Ok "h");
  post_query := fun _ _ => ret (Ok "q");
  post_payload := fun _ => ret (Ok "p");
  get_payload := fun _ => ret (Ok "p");
  cannot_execute_message := fun _ _ _ _ _ => ret (Err (GmpTimeout "late"));
  its_interchain_transfer := fun _ => ret (Ok tt);
  map_cannot_execute_message_to_event := fun i m s d r =>
    Done (CannotExecuteMessageV2 (mkCommonEvent "CANNOT_EXECUTE_MESSAGE/V2" i None) m s r d);
|}.
#[export] Instance api_posts_refusals : PostsRefusals unit.
Proof. by constructor. Qed.
#[export] Instance chrono : Chrono := {| parse_from_rfc3339 := fun _ => Err "no timestamp" |}.
Definition start : Audited unit := mkAudited tt (mkStore (mkAudit [] []) 0 []) [].
Definition event : Event := GasCredit (mkCommonEvent "GAS_CREDIT" "e1" None) "m1" "r" (mkAmount None "5").
End AuditDemo.
Import AuditDemo.

Lemma audit_transparent_witness :
  transparent (cannot_execute_message (W := Audited unit) "t1" "m1" "axelar" "no gas" InsufficientGas)
    (cannot_execute_message (W := unit) "t1" "m1" "axelar" "no gas" InsufficientGas).
Proof.
  destruct (audit_transparent (W := unit)) as (_ & _ & _ & _ & _ & _ & _ & H & _). apply H.
Defined.

Lemma events_recorded_witness :
  let a' := snd (audit_post_events [event] start) in
  rows a' = map (fun row => if decide (em_event_id row ∈ map em_event_id (map from_event [event]))
                            then set_response (em_event_id row)
                                   (mkPostResult "error" 0 (Some (show_GmpApiError (GmpTimeout "late"))) None) row
                            else row) (rows start ++ map from_event [event]) /\
  spawned a' = spawned start.
Proof. exact (events_recorded [event] start eq_refl). Defined.
