(* ===== verification/Database.v ===== *)
(** * The relayer's tables

    [relayer_base/src/database.rs], [relayer_base/src/payload_cache.rs],
    [relayer_base/src/price_view.rs] and
    [relayer_base/src/models/task_retries.rs]. *)

From S2P Require Import Prelude.
From S2P Require Import Store.
From S2P Require Import GmpTypes.
From S2P Require Import Text.

(** [router_api::CrossChainId] and [rust_decimal::Decimal]. *)
Class CrossChain : Type := {
  CrossChainId : Type;
  cc_new : string -> string -> result CrossChainId string;
  cc_to_string : CrossChainId -> string;
}.

Class CrossChainLaws `{!CrossChain} : Prop := {
  cc_to_string_inj :: Inj (=) (=) cc_to_string;
  cc_new_text : forall s m c, cc_new s m = Ok c -> cc_to_string c = s +:+ "_" +:+ m;
}.

Class DecimalLib : Type := {
  Dec : Type;
  dec_one : Dec;
  dec_to_string : Dec -> string;
  dec_from_str : string -> result Dec string;
  (** [*] and [/], which panic on overflow and on division by zero. *)
  dec_mul : Dec -> Dec -> outcome Dec;
  dec_div : Dec -> Dec -> outcome Dec;
  dec_round : Dec -> Dec;
}.

Class DecimalLaws `{!DecimalLib} : Prop := {
  dec_roundtrip : forall d, dec_from_str (dec_to_string d) = Ok d;
}.

(** src/relayer_base/src/database.rs:9-28 Database *)
Class Database `{!CrossChain, !DecimalLib} (W : Type) : Type := {
  store_latest_height : string -> string -> Z -> M W (result unit string);
  get_latest_height : string -> string -> M W (result (option Z) string);
  store_latest_task_id : string -> string -> string -> M W (result unit string);
  get_latest_task_id : string -> string -> M W (result (option string) string);
  db_store_payload : CrossChainId -> string -> M W (result unit string);
  db_get_payload : CrossChainId -> M W (result (option string) string);
  db_clear_payload : CrossChainId -> M W (result unit string);
  db_get_price : string -> M W (result (option Dec) string);
  store_price : string -> Dec -> M W (result unit string);
}.

Record DbTables : Type := mkDb {
  subscriber_cursors : gmap (string * string) Z;
  distributor_cursors : gmap (string * string) string;
  messages_with_payload : gmap string string;
  pair_prices : gmap string string;
}.
Abbreviation Db := (Store DbTables).

Definition set_subscriber_cursors f t :=
  mkDb (f (subscriber_cursors t)) (distributor_cursors t) (messages_with_payload t) (pair_prices t).
Definition set_distributor_cursors f t :=
  mkDb (subscriber_cursors t) (f (distributor_cursors t)) (messages_with_payload t) (pair_prices t).
Definition set_payloads f t :=
  mkDb (subscriber_cursors t) (distributor_cursors t) (f (messages_with_payload t)) (pair_prices t).
Definition set_prices f t :=
  mkDb (subscriber_cursors t) (distributor_cursors t) (messages_with_payload t) (f (pair_prices t)).

Section postgres.
Context `{!CrossChain, !DecimalLib}.

(** src/relayer_base/src/database.rs:44-56 PostgresDB::store_latest_height *)
Definition pg_store_latest_height (chain context : string) (height : Z) : M Db (result unit string) :=
  sql_exec (fun _ => set_subscriber_cursors (insert (chain, context) height)).

(** src/relayer_base/src/database.rs:58-66 PostgresDB::get_latest_height *)
Definition pg_get_latest_height (chain context : string) : M Db (result (option Z) string) :=
  sql_query (fun _ t => subscriber_cursors t !! (chain, context)).

(** src/relayer_base/src/database.rs:68-78 PostgresDB::store_latest_task_id *)
Definition pg_store_latest_task_id (chain context task_id : string) : M Db (result unit string) :=
  sql_exec (fun _ => set_distributor_cursors (insert (chain, context) task_id)).

(** src/relayer_base/src/database.rs:80-88 PostgresDB::get_latest_task_id *)
Definition pg_get_latest_task_id (chain context : string) : M Db (result (option string) string) :=
  sql_query (fun _ t => distributor_cursors t !! (chain, context)).

(** src/relayer_base/src/database.rs:90-97 PostgresDB::get_payload *)
Definition pg_get_payload (cc_id : CrossChainId) : M Db (result (option string) string) :=
  sql_query (fun _ t => messages_with_payload t !! cc_to_string cc_id).

(** src/relayer_base/src/database.rs:99-107 PostgresDB::store_payload *)
Definition pg_store_payload (cc_id : CrossChainId) (value : string) : M Db (result unit string) :=
  sql_exec (fun _ => set_payloads (insert (cc_to_string cc_id) value)).

(** src/relayer_base/src/database.rs:109-116 PostgresDB::clear_payload *)
Definition pg_clear_payload (cc_id : CrossChainId) : M Db (result unit string) :=
  sql_exec (fun _ => set_payloads (delete (cc_to_string cc_id))).

(** src/relayer_base/src/database.rs:118-127 PostgresDB::store_price *)
Definition pg_store_price (pair : string) (price : Dec) : M Db (result unit string) :=
  sql_exec (fun _ => set_prices (insert pair (dec_to_string price))).

(** src/relayer_base/src/database.rs:129-143 PostgresDB::get_price *)
Definition pg_get_price (pair : string) : M Db (result (option Dec) string) :=
  let? maybe_row := sql_query (fun _ t => pair_prices t !! pair) in
  ret (match maybe_row with
       | Some price => rbind (dec_from_str price) (fun d => Ok (Some d))
       | None => Ok None
       end).

(** src/relayer_base/src/database.rs:42-144 impl Database for PostgresDB *)
#[export] Instance PostgresDB : Database Db := {|
  store_latest_height := pg_store_latest_height;
  get_latest_height := pg_get_latest_height;
  store_latest_task_id := pg_store_latest_task_id;
  get_latest_task_id := pg_get_latest_task_id;
  db_store_payload := pg_store_payload;
  db_get_payload := pg_get_payload;
  db_clear_payload := pg_clear_payload;
  db_get_price := pg_get_price;
  store_price := pg_store_price;
|}.
End postgres.

(** ** The payload cache *)

(** src/relayer_base/src/payload_cache.rs:10-14 PayloadCacheValue *)
Record PayloadCacheValue : Type := mkPayload {
  cached_message : GatewayV2Message;
  cached_payload : string;
}.

Class PayloadCodec : Type := {
  payload_to_string : PayloadCacheValue -> result string string;
  payload_from_str : string -> result PayloadCacheValue string;
}.

Class PayloadCodecLaws `{!PayloadCodec} : Prop := {
  payload_roundtrip : forall v s, payload_to_string v = Ok s -> payload_from_str s = Ok v;
}.

(** src/relayer_base/src/payload_cache.rs:21-31 PayloadCacheTrait *)
Class PayloadCacheTrait `{!CrossChain} (W : Type) : Type := {
  cache_get : CrossChainId -> M W (result (option PayloadCacheValue) string);
  cache_store : CrossChainId -> PayloadCacheValue -> M W (result unit string);
  cache_clear : CrossChainId -> M W (result unit string);
}.

Section cache.
Context {CC : CrossChain} {DL : DecimalLib} {PC : PayloadCodec} {W : Type} {DB : Database W}.

(** src/relayer_base/src/payload_cache.rs:44-59 PayloadCache::get *)
Definition payload_get (cc_id : CrossChainId) : M W (result (option PayloadCacheValue) string) :=
  let? value := map_err (fun e => "Failed to get payload from database: " +:+ e) (db_get_payload cc_id) in
  ret (match value with
       | Some value => rbind (payload_from_str value) (fun v => Ok (Some v))
       | None => Ok None
       end).

(** src/relayer_base/src/payload_cache.rs:61-74 PayloadCache::store *)
Definition payload_store (cc_id : CrossChainId) (value : PayloadCacheValue) : M W (result unit string) :=
  let? value := ret (payload_to_string value) in
  map_err (fun e => "Failed to store payload: " +:+ e) (db_store_payload cc_id value).

(** src/relayer_base/src/payload_cache.rs:76-84 PayloadCache::clear *)
Definition payload_clear (cc_id : CrossChainId) : M W (result unit string) :=
  map_err (fun e => "Failed to clear payload: " +:+ e) (db_clear_payload cc_id).

(** src/relayer_base/src/payload_cache.rs:39-85 impl PayloadCacheTrait for PayloadCache *)
#[export] Instance PayloadCache : PayloadCacheTrait W := {|
  cache_get := payload_get;
  cache_store := payload_store;
  cache_clear := payload_clear;
|}.
End cache.

(** ** Prices *)

(** [str::split_once] on a character. *)
Fixpoint split_once (sep : Ascii.ascii) (s : string) : option (string * string) :=
  match s with
  | EmptyString => None
  | String c s =>
      if decide (c = sep) then Some (EmptyString, s)
      else match split_once sep s with
           | Some (a, b) => Some (String c a, b)
           | None => None
           end
  end.

(** src/relayer_base/src/price_view.rs:6-9 PriceViewTrait *)
Class PriceViewTrait `{!DecimalLib} (W : Type) : Type := {
  pv_get_price : string -> M W (result Dec string);
}.

(** src/relayer_base/src/price_view.rs:28-45 PriceView::get_price *)
Definition get_price `{!CrossChain, !DecimalLib} {W} `{!Database W} (pair : string) :
  M W (result Dec string) :=
  match split_once "/"%char pair with
  | None => ret (Err "Invalid pair")
  | Some (symbol_a, symbol_b) =>
      if decide (symbol_a = symbol_b) then ret (Ok dec_one)
      else
        let? maybe_price := map_err (fun e => "Failed to get price: " +:+ e) (db_get_price pair) in
        ret (ok_or maybe_price "Price not found")
  end.

(** src/relayer_base/src/price_view.rs:26-46 impl PriceViewTrait for PriceView *)
Definition PriceView `{!CrossChain, !DecimalLib} {W} `{!Database W} : PriceViewTrait W := {| pv_get_price := get_price |}.

(** ** Task retries *)

(** src/relayer_base/src/models/mod.rs:6-12 Model *)
Class Model (E P W : Type) : Type := {
  model_upsert : E -> M W (result unit string);
  model_find : P -> M W (result (option E) string);
  model_delete : E -> M W (result unit string);
}.

(** src/relayer_base/src/models/task_retries.rs:6-11 TaskRetries *)
Record TaskRetries : Type := mkRetries {
  retries_message_id : string;
  retries : Z;
}.

Abbreviation RetriesDb := (Store (gmap string Z)).

(** src/relayer_base/src/models/task_retries.rs:26-33 PgTaskRetriesModel::find *)
Definition retries_find (id : string) : M RetriesDb (result (option TaskRetries) string) :=
  sql_query (fun _ t => mkRetries id <$> t !! id).

(** src/relayer_base/src/models/task_retries.rs:35-48 PgTaskRetriesModel::upsert *)
Definition retries_upsert (entry : TaskRetries) : M RetriesDb (result unit string) :=
  sql_exec (fun _ => insert (retries_message_id entry) (retries entry)).

(** src/relayer_base/src/models/task_retries.rs:50-58 PgTaskRetriesModel::delete *)
Definition retries_delete (entry : TaskRetries) : M RetriesDb (result unit string) :=
  sql_exec (fun _ => delete (retries_message_id entry)).

(** src/relayer_base/src/models/task_retries.rs:25-59 impl Model for PgTaskRetriesModel *)
#[export] Instance PgTaskRetriesModel : Model TaskRetries string RetriesDb := {|
  model_upsert := retries_upsert; model_find := retries_find; model_delete := retries_delete;
|}.

(** ** Properties *)

Section properties.
Context {CC : CrossChain} {CL : CrossChainLaws} {DL : DecimalLib} {PC : PayloadCodec} {PL : PayloadCodecLaws}.

(** A payload that was stored is the one that is read back until it is
    stored again or cleared; other messages' payloads are not touched. *)
Theorem payload_cache_roundtrip (c c' : CrossChainId) (v : PayloadCacheValue) (s : string) (d : Db) :
  faults d = [] -> payload_to_string v = Ok s ->
  let stored := snd (payload_store c v d) in
  fst (payload_store c v d) = Done (Ok tt) /\
  fst (payload_get c stored) = Done (Ok (Some v)) /\
  fst (payload_get c (snd (payload_clear c stored))) = Done (Ok None) /\
  (c' <> c -> fst (payload_get c' stored) = fst (payload_get c' d)) /\
  (c' <> c -> fst (payload_get c' (snd (payload_clear c stored))) = fst (payload_get c' d)).
Proof.
  intros Hf Hs. destruct d as [t ck fs]. simpl in Hf. subst fs.
  unfold payload_store, payload_get, payload_clear, bind_ok, map_err, bind, ret. rewrite Hs. simpl.
  unfold sql_query, sql. simpl.
  rewrite lookup_insert_eq, lookup_delete_eq. simpl.
  rewrite (payload_roundtrip v s Hs). split; [done|]. split; [done|]. split; [done|].
  split; intros Hc; assert (Hne : cc_to_string c' <> cc_to_string c) by (by intros ?%cc_to_string_inj).
  - by rewrite lookup_insert_ne.
  - by rewrite lookup_delete_ne, lookup_insert_ne.
Qed.

Lemma pg_price_roundtrip {DLL : DecimalLaws} pair p (d : Db) :
  faults d = [] ->
  fst (pg_get_price pair (snd (pg_store_price pair p d))) = Done (Ok (Some p)).
Proof.
  intros Hf. destruct d as [t ck fs]. simpl in Hf. subst fs. unfold pg_get_price.
  rewrite bind_ok_run. simpl. rewrite lookup_insert_eq. simpl. by rewrite dec_roundtrip.
Qed.
End properties.

Module DbDemo.
#[export] Instance cross_chain : CrossChain := {|
  CrossChainId := string; cc_new := fun s m => Ok (s +:+ "_" +:+ m); cc_to_string := fun s => s;
|}.
#[export] Instance cross_chain_laws : CrossChainLaws.
Proof. split; [intros a b H; exact H|]. by intros s m c [= <-]. Qed.
#[export] Instance decimals : DecimalLib := {|
  Dec := string; dec_one := "1"; dec_to_string := fun s => s; dec_from_str := Ok;
  dec_mul := fun a _ => Done a; dec_div := fun a _ => Done a; dec_round := fun a => a;
|}.
Definition a_payload : PayloadCacheValue := mkPayload (mkMessage "m" "c" "a" "b" "h") "p".
#[export] Instance payload_codec : PayloadCodec := {|
  payload_to_string := fun v => if decide (cached_payload v = "p") then
      (match cached_message v with mkMessage "m" "c" "a" "b" "h" => Ok "p" | _ => Err "no" end) else Err "no";
  payload_from_str := fun s => Ok a_payload;
|}.
#[export] Instance payload_codec_laws : PayloadCodecLaws.
Proof.
  split. intros [[m c a b h] p] s. simpl. case_decide as Hp; [|done]. simpl in Hp. subst p.
  intros H. repeat (case_match; try done).
Qed.
Definition empty : Db := mkStore (mkDb ∅ ∅ ∅ ∅) 0 [].
End DbDemo.
Import DbDemo.

Lemma payload_cache_roundtrip_witness :
  let stored := snd (payload_store "c_1" a_payload empty) in
  fst (payload_store "c_1" a_payload empty) = Done (Ok tt) /\
  fst (payload_get "c_1" stored) = Done (Ok (Some a_payload)) /\
  fst (payload_get "c_1" (snd (payload_clear "c_1" stored))) = Done (Ok None) /\
  ("c_2" <> "c_1" -> fst (payload_get "c_2" stored) = fst (payload_get "c_2" empty)) /\
  ("c_2" <> "c_1" -> fst (payload_get "c_2" (snd (payload_clear "c_1" stored))) = fst (payload_get "c_2" empty)).
Proof. exact (payload_cache_roundtrip "c_1" "c_2" a_payload "p" empty eq_refl eq_refl). Defined.
