(* ===== verification/Logging.v ===== *)
(** * Tracing contexts shared through Redis

    [relayer_base/src/logging_ctx_cache.rs] and the parts of
    [relayer_base/src/logging.rs] that talk to it.  A tracing context is a map
    of propagation headers. *)

From S2P Require Import Prelude.
From S2P Require Import Text.

(** [GET] and [SETEX] as the cache uses them: reading a key that is not there
    as a [String] is an error. *)
Class RedisStrings (W : Type) : Type := {
  redis_get : string -> M W (result string string);
  redis_set_ex : string -> string -> Z -> M W (result unit string);
  redis_contents : W -> gmap string string;
}.

(** The contexts, as headers and as text. *)
Abbreviation Ctx := (gmap string string).
Class CtxCodec : Type := {
  ctx_to_string : Ctx -> result string string;
  ctx_from_str : string -> result Ctx string;
}.

(** src/relayer_base/src/logging_ctx_cache.rs:31-31 EXPIRATION_TIME *)
Definition EXPIRATION_TIME : Z := 604800.

(** src/relayer_base/src/logging_ctx_cache.rs:33-51 LoggingCtxCache *)
Class LoggingCtxCache (W : Type) : Type := {
  get_or_insert : list string -> Ctx -> M W (option Ctx);
}.

(** src/relayer_base/src/logging_ctx_cache.rs:42-50 LoggingCtxCache::get_or_store_context *)
Definition get_or_store_context {W} `{!LoggingCtxCache W} (ids : list string) (span : Ctx) :
  M W (option Ctx) := get_or_insert ids span.

(** src/relayer_base/src/logging.rs:108-129 connect_span_to_message_id (the parent the span is given) *)
Definition connect_span_to_message_id {W} `{!LoggingCtxCache W} (span : Ctx) (message_ids : list string) :
  M W (option Ctx) := get_or_store_context message_ids span.

Section cache.
Context {W : Type} {R : RedisStrings W} {CC : CtxCodec}.

Definition ctx_key (message_id : string) : string := "logging_ctx:" +:+ message_id.

(** src/relayer_base/src/logging_ctx_cache.rs:73-93 RedisLoggingCtxCache::store_cache *)
Definition store_cache (serialized message_id : string) : M W unit :=
  let! _r := redis_set_ex (ctx_key message_id) serialized EXPIRATION_TIME in
  ret tt.

(** src/relayer_base/src/logging_ctx_cache.rs:95-109 RedisLoggingCtxCache::deserialize_ctx *)
Definition deserialize_ctx (serialized : string) : option Ctx :=
  match ctx_from_str serialized with Ok ctx => Some ctx | Err _ => None end.

(** src/relayer_base/src/logging_ctx_cache.rs:125-142 RedisLoggingCtxCache::get_or_insert (the lookup) *)
Fixpoint find_context (message_ids : list string) : M W (option Ctx) :=
  match message_ids with
  | [] => ret None
  | message_id :: ids =>
      let! r := redis_get (ctx_key message_id) in
      match r with
      | Ok serialized =>
          match deserialize_ctx serialized with
          | Some value => ret (Some value)
          | None => find_context ids
          end
      | Err _ => find_context ids
      end
  end.

Fixpoint store_all (serialized : string) (message_ids : list string) : M W unit :=
  match message_ids with
  | [] => ret tt
  | id :: ids => let! _u := store_cache serialized id in store_all serialized ids
  end.

(** src/relayer_base/src/logging_ctx_cache.rs:114-154 RedisLoggingCtxCache::get_or_insert *)
Definition redis_get_or_insert (message_ids : list string) (ctx : Ctx) : M W (option Ctx) :=
  match message_ids with
  | [] => ret None
  | _ =>
      let! found := find_context message_ids in
      match found with
      | Some value => ret (Some value)
      | None =>
          match ctx_to_string ctx with
          | Err _ => ret None
          | Ok serialized =>
              let! _u := store_all serialized message_ids in
              ret None
          end
      end
  end.

#[export] Instance RedisLoggingCtxCache : LoggingCtxCache W := {| get_or_insert := redis_get_or_insert |}.

(** A server that answers. *)
Class RedisStringLaws : Prop := {
  get_answer : forall k w, redis_get k w =
    (Done (match redis_contents w !! k with Some v => Ok v | None => Err "nil" end), w);
  set_answer : forall k v ttl w, exists w', redis_set_ex k v ttl w = (Done (Ok tt), w') /\
    redis_contents w' = <[k := v]> (redis_contents w);
}.

Definition stored_context (w : W) (id : string) : option Ctx :=
  redis_contents w !! ctx_key id ≫= deserialize_ctx.

Fixpoint first_stored (w : W) (ids : list string) : option Ctx :=
  match ids with
  | [] => None
  | id :: ids => match stored_context w id with Some c => Some c | None => first_stored w ids end
  end.

Context {RL : RedisStringLaws}.

Lemma find_context_spec ids w : find_context ids w = (Done (first_stored w ids), w).
Proof.
  induction ids as [|id ids IH]; simpl; [done|].
  rewrite bind_run, get_answer. unfold stored_context.
  destruct (redis_contents w !! ctx_key id) as [v|]; simpl; [|done].
  by destruct (deserialize_ctx v).
Qed.

Lemma store_all_spec s ids w :
  exists w', store_all s ids w = (Done tt, w') /\
    redis_contents w' = foldl (fun m id => <[ctx_key id := s]> m) (redis_contents w) ids.
Proof.
  revert w. induction ids as [|id ids IH]; intros w; simpl; [by exists w|].
  destruct (set_answer (ctx_key id) s EXPIRATION_TIME w) as (w1 & E & H1).
  unfold store_cache at 1. rewrite bind_run, bind_run, E. simpl.
  destruct (IH w1) as (w2 & E2 & H2). exists w2. split; [done|]. by rewrite H2, H1.
Qed.

Lemma ctx_key_inj a b : ctx_key a = ctx_key b -> a = b.
Proof. unfold ctx_key. simpl. intros H. by repeat injection H as H. Qed.

Lemma foldl_insert_lookup s ids (m : gmap string string) k :
  foldl (fun m id => <[ctx_key id := s]> m) m ids !! k =
    if decide (k ∈ map ctx_key ids) then Some s else m !! k.
Proof.
  revert m. induction ids as [|id ids IH]; intros m; cbn [foldl map]; [by rewrite decide_False by (by apply not_elem_of_nil)|].
  rewrite IH. destruct (decide (k ∈ map ctx_key ids)) as [H|H].
  - by rewrite decide_True by (by right).
  - destruct (decide (k = ctx_key id)) as [->|Hk].
    + rewrite lookup_insert_eq. by rewrite decide_True by (by left).
    + rewrite lookup_insert_ne by done. rewrite decide_False; [done|].
      intros [?|?]%elem_of_cons; done.
Qed.

(** With a server that answers, the cache looks for the contexts of the
    message ids in order: the first one stored is returned and nothing is
    written; when there is none, the span's own context is stored under every
    id, so that the next lookup of any of them finds it — and the answer is
    [None], not the context that was just stored. *)
Theorem get_or_insert_spec (ids : list string) (ctx : Ctx) (s : string) (w : W) :
  ctx_to_string ctx = Ok s -> ctx_from_str s = Ok ctx ->
  match first_stored w ids with
  | Some found => redis_get_or_insert ids ctx w = (Done (Some found), w)
  | None => exists w', redis_get_or_insert ids ctx w = (Done None, w') /\
      forall id, stored_context w' id = if decide (id ∈ ids) then Some ctx else stored_context w id
  end.
Proof.
  intros Hs Hd. unfold redis_get_or_insert. destruct ids as [|i ids].
  { exists w. split; [done|]. intros id. rewrite decide_False; [done|apply not_elem_of_nil]. }
  rewrite bind_run, find_context_spec. destruct (first_stored w (i :: ids)) as [c|]; [done|].
  rewrite Hs, bind_run. destruct (store_all_spec s (i :: ids) w) as (w' & E & Hw). rewrite E.
  exists w'. split; [done|]. intros id. unfold stored_context. rewrite Hw, foldl_insert_lookup.
  destruct (decide (id ∈ i :: ids)) as [Hin|Hin].
  - rewrite decide_True by (by apply list_elem_of_fmap_2). simpl. unfold deserialize_ctx. by rewrite Hd.
  - rewrite decide_False; [done|]. intros (x & Hx%ctx_key_inj & Hxin)%list_elem_of_fmap. by subst x.
Qed.
End cache.

Module LoggingDemo.
#[export] Instance redis : RedisStrings (gmap string string) := {|
  redis_get := fun k w => (Done (match w !! k with Some v => Ok v | None => Err "nil" end), w);
  redis_set_ex := fun k v _ w => (Done (Ok tt), <[k := v]> w);
  redis_contents := fun w => w;
|}.
#[export] Instance redis_laws : @RedisStringLaws (gmap string string) redis.
Proof. split; [done|]. intros k v ttl w. by eexists. Qed.
#[export] Instance codec : CtxCodec := {|
  ctx_to_string := fun c => Ok (default "" (c !! "traceparent"));
  ctx_from_str := fun s => Ok {["traceparent" := s]};
|}.
End LoggingDemo.
Import LoggingDemo.

Lemma get_or_insert_spec_witness :
  exists w', redis_get_or_insert ["m1"; "m2"] {["traceparent" := "t"]} (∅ : gmap string string) = (Done None, w') /\
    forall id, stored_context w' id =
      if decide (id ∈ ["m1"; "m2"]) then Some {["traceparent" := "t"]}
      else stored_context (∅ : gmap string string) id.
Proof. exact (get_or_insert_spec ["m1"; "m2"] {["traceparent" := "t"]} "t" ∅ eq_refl eq_refl). Defined.
