(* ===== verification/Distributor.v ===== *)
(** * The distributor

    [relayer_base/src/distributor.rs]: it fetches the tasks of the GMP API
    after its cursor and hands each to the includer's or the ingestor's
    queue. *)

From S2P Require Import Prelude.
From S2P Require Import Store.
From S2P Require Import GmpTypes.
From S2P Require Import Text.
From S2P Require Import GmpApi.
From S2P Require Import GmpAudit.
From S2P Require Import Queue.
From S2P Require Import Database.
From S2P Require Import Logging.

(** src/relayer_base/src/distributor.rs:15-20 RecoverySettings *)
Record RecoverySettings : Type := mkRecovery {
  from_task_id : option string;
  to_task_id : string;
  tasks_filter : option (list TaskKind);
}.

(** src/relayer_base/src/distributor.rs:22-32 Distributor *)
Record Distributor : Type := mkDistributor {
  last_task_id : option string;
  context : string;
  recovery_settings : option RecoverySettings;
  refunds_enabled : bool;
  supported_includer_tasks : list TaskKind;
  supported_ingestor_tasks : list TaskKind;
}.

Definition set_last_task_id (id : option string) (d : Distributor) : Distributor :=
  mkDistributor id (context d) (recovery_settings d) (refunds_enabled d)
    (supported_includer_tasks d) (supported_ingestor_tasks d).

(** The names of the two queues in [publish]. *)
Definition INCLUDER : string := "includer".
Definition INGESTOR : string := "ingestor".

Section distributor.
Context {CT W : Type} {XM : XrplMessages} {API : GmpApiTrait W} {CC : CrossChain} {DL : DecimalLib}
  {DB : Database W} {QA : QueueApi CT W} {LC : LoggingCtxCache W} {T : Timer W}.
(** The order in which a set of message ids is listed, and the tracing
    context of a task's span. *)
Variable list_ids : gset string -> list string.
Variable span : Task -> Ctx.

(** src/relayer_base/src/distributor.rs:39-74 Distributor::new *)
Definition distributor_new (ctx : string) (refunds : bool) : M W Distributor :=
  let! r := get_latest_task_id (get_chain (W := W)) ctx in
  match r with
  | Err _ => panic "Failed to get latest task id"
  | Ok last => ret (mkDistributor last ctx None refunds
      [Refund; GatewayTx]
      [Verify; ConstructProof; ReactToWasmEvent; ReactToRetriablePoll; ReactToExpiredSigningSession])
  end.

(** src/relayer_base/src/distributor.rs:92-104 Distributor::store_last_task_id *)
Definition store_last_task_id (self : Distributor) : M W (result unit DistributorError) :=
  match last_task_id self with
  | Some task_id =>
      map_err (fun e => DistGenericError ("Failed to store last_task_id: " +:+ e))
        (store_latest_task_id (get_chain (W := W)) (context self) task_id)
  | None => ret (Ok tt)
  end.

(** src/relayer_base/src/distributor.rs:76-90 Distributor::new_with_recovery_settings *)
Definition new_with_recovery_settings (ctx : string) (settings : RecoverySettings) (refunds : bool) :
  M W (result Distributor DistributorError) :=
  let! d := distributor_new ctx refunds in
  let d := mkDistributor (from_task_id settings) (context d) (Some settings) (refunds_enabled d)
             (supported_includer_tasks d) (supported_ingestor_tasks d) in
  let? _u := store_last_task_id d in
  ret (Ok d).

(** src/relayer_base/src/distributor.rs:132-152 Distributor::work (where a task goes) *)
Definition queue_of (self : Distributor) (filter : option (list TaskKind)) (task : Task) : option string :=
  if match filter with Some kinds => negb (bool_decide (kind task ∈ kinds)) | None => false end then None
  else if bool_decide (kind task = Refund) && negb (refunds_enabled self) then None
  else if bool_decide (kind task ∈ supported_includer_tasks self) then Some INCLUDER
  else if bool_decide (kind task ∈ supported_ingestor_tasks self) then Some INGESTOR
  else None.

(** src/relayer_base/src/distributor.rs:120-156 Distributor::work (the loop) *)
Fixpoint work_loop (filter : option (list TaskKind)) (tasks : list Task) (self : Distributor)
    (processed : list string) : M W (Distributor * list string) :=
  match tasks with
  | [] => ret (self, processed)
  | task :: tasks =>
      let! _c := connect_span_to_message_id (span task) (list_ids (extract_message_ids_from_task task)) in
      let processed := processed ++ [task_id task] in
      let self := set_last_task_id (Some (task_id task)) self in
      let! _s := store_last_task_id self in
      let! _p := (match queue_of self filter task with
                  | Some queue => queue_publish queue (QTask task)
                  | None => ret tt
                  end) in
      work_loop filter tasks self processed
  end.

(** src/relayer_base/src/distributor.rs:106-158 Distributor::work *)
Definition work (filter : option (list TaskKind)) (self : Distributor) :
  M W (Distributor * result (list string) DistributorError) :=
  let! tasks := map_err (fun e => DistGenericError ("Failed to get tasks: " +:+ show_GmpApiError e))
                  (get_tasks_action (last_task_id self)) in
  match tasks with
  | Err e => ret (self, Err e)
  | Ok tasks =>
      let! r := work_loop filter tasks self [] in
      ret (fst r, Ok (snd r))
  end.

(** src/relayer_base/src/distributor.rs:160-175 Distributor::run (the loop, [rounds] rounds of it) *)
Fixpoint run (rounds : nat) (self : Distributor) : M W Distributor :=
  match rounds with
  | O => ret self
  | S rounds =>
      let! r := work None self in
      let! _u := sleep 2 in
      run rounds (fst r)
  end.

(** src/relayer_base/src/distributor.rs:185-203 Distributor::run_recovery (the loop) *)
Fixpoint recovery_loop (fuel : nat) (settings : RecoverySettings) (self : Distributor) :
  M W (Distributor * bool) :=
  match fuel with
  | O => ret (self, false)
  | S fuel =>
      let! r := work (tasks_filter settings) self in
      let recovered := match snd r with
                       | Ok task_ids => bool_decide (to_task_id settings ∈ task_ids)
                       | Err _ => false
                       end in
      if recovered then ret (fst r, true)
      else
        let! _u := sleep 2 in
        recovery_loop fuel settings (fst r)
  end.

(** src/relayer_base/src/distributor.rs:177-204 Distributor::run_recovery ([true]: it has returned) *)
Definition run_recovery (fuel : nat) (self : Distributor) : M W (Distributor * bool) :=
  match recovery_settings self with
  | None => ret (self, true)
  | Some settings => recovery_loop fuel settings self
  end.

(** src/relayer_base/src/distributor.rs:206-208 Distributor::set_supported_includer_tasks *)
Definition set_supported_includer_tasks (tasks : list TaskKind) (d : Distributor) : Distributor :=
  mkDistributor (last_task_id d) (context d) (recovery_settings d) (refunds_enabled d)
    tasks (supported_ingestor_tasks d).

(** src/relayer_base/src/distributor.rs:210-212 Distributor::set_supported_ingestor_tasks *)
Definition set_supported_ingestor_tasks (tasks : list TaskKind) (d : Distributor) : Distributor :=
  mkDistributor (last_task_id d) (context d) (recovery_settings d) (refunds_enabled d)
    (supported_includer_tasks d) tasks.
End distributor.

(** ** The distributor against a task server

    The world of the statements: the API's state, the database, and what
    happened, in order: cursor writes and publications. *)

Inductive Effect (CT : Type) : Type :=
| Cursor (id : string)
| Published (queue : string) (item : QueueItem CT).
Arguments Cursor {CT} id.
Arguments Published {CT} queue item.

Record World (X CT : Type) : Type := mkWorld {
  api_state : X;
  dbs : Db;
  trace : list (Effect CT);
}.
Arguments mkWorld {X CT} api_state dbs trace.
Arguments api_state {X CT} w.
Arguments dbs {X CT} w.
Arguments trace {X CT} w.

Section world.
Context {X CT : Type} {XM : XrplMessages} {API : GmpApiTrait X} {CC : CrossChain} {DL : DecimalLib}.
Abbreviation W := (World X CT).

Definition via_api {A} (m : M X A) : M W A := fun w =>
  let '(o, x) := m (api_state w) in (o, mkWorld x (dbs w) (trace w)).
Definition via_db {A} (m : M Db A) : M W A := fun w =>
  let '(o, d) := m (dbs w) in (o, mkWorld (api_state w) d (trace w)).

Definition observe {A} (e : Effect CT) (m : M W (result A string)) : M W (result A string) := fun w =>
  match m w with
  | (Done (Ok a), w') => (Done (Ok a), mkWorld (api_state w') (dbs w') (trace w' ++ [e]))
  | r => r
  end.

#[export] Instance world_api : GmpApiTrait W := {|
  get_chain := get_chain (W := X);
  get_tasks_action := fun a => via_api (get_tasks_action a);
  post_events := fun e => via_api (post_events e);
  post_broadcast := fun c d => via_api (post_broadcast c d);
  get_broadcast_result := fun c i => via_api (get_broadcast_result c i);
  post_query := fun c d => via_api (post_query c d);
  post_payload := fun p => via_api (post_payload p);
  get_payload := fun h => via_api (get_payload h);
  cannot_execute_message := fun a b c d e => via_api (cannot_execute_message a b c d e);
  its_interchain_transfer := fun m => via_api (its_interchain_transfer m);
  map_cannot_execute_message_to_event := map_cannot_execute_message_to_event (W := X);
|}.

#[export] Instance world_db : Database W := {|
  store_latest_height := fun c x h => via_db (pg_store_latest_height c x h);
  get_latest_height := fun c x => via_db (pg_get_latest_height c x);
  store_latest_task_id := fun c x i => observe (Cursor i) (via_db (pg_store_latest_task_id c x i));
  get_latest_task_id := fun c x => via_db (pg_get_latest_task_id c x);
  db_store_payload := fun c v => via_db (pg_store_payload c v);
  db_get_payload := fun c => via_db (pg_get_payload c);
  db_clear_payload := fun c => via_db (pg_clear_payload c);
  db_get_price := fun p => via_db (pg_get_price p);
  store_price := fun p d => via_db (pg_store_price p d);
|}.

#[export] Instance world_queues : QueueApi CT W := {|
  queue_publish := fun q item => modify (fun w => mkWorld (api_state w) (dbs w) (trace w ++ [Published q item]));
  queue_republish := fun _ _ _ => ret (Ok tt);
|}.
#[export] Instance world_logging : LoggingCtxCache W := {| get_or_insert := fun _ _ => ret None |}.
#[export] Instance world_timer : Timer W := {| sleep := fun _ => ret tt |}.

Variable list_ids : gset string -> list string.
Variable span : Task -> Ctx.

(** The contract of the API: [L] is the list of all tasks to come, each with
    its own id; a fetch answers an error or a run of tasks that starts right
    after the cursor. *)
Definition after_cursor (L : list Task) (cursor : option string) (k : nat) : Prop :=
  match cursor with
  | None => k = 0%nat
  | Some id => exists t, L !! (k - 1)%nat = Some t /\ task_id t = id /\ (0 < k)%nat
  end.

Definition serves (L : list Task) : Prop :=
  forall cursor k (x : X), after_cursor L cursor k ->
    (exists e x', get_tasks_action cursor x = (Done (Err e), x')) \/
    (exists n x', get_tasks_action cursor x = (Done (Ok (take n (drop k L))), x')).

Definition published_of (tr : list (Effect CT)) : list (string * QueueItem CT) :=
  omap (fun e => match e with Published q i => Some (q, i) | Cursor _ => None end) tr.

Definition routed (d : Distributor) (filter : option (list TaskKind)) (tasks : list Task) :
  list (string * QueueItem CT) :=
  omap (fun t => (fun q => (q, QTask t)) <$> queue_of d filter t) tasks.

(** What one task does to the trace, with and without its cursor write. *)
Definition task_effects (d : Distributor) (filter : option (list TaskKind)) (t : Task) : list (Effect CT) :=
  match queue_of d filter t with Some q => [Published q (QTask t)] | None => [] end.

Definition same_routing (d d' : Distributor) : Prop :=
  context d' = context d /\ recovery_settings d' = recovery_settings d /\
  refunds_enabled d' = refunds_enabled d /\
  supported_includer_tasks d' = supported_includer_tasks d /\
  supported_ingestor_tasks d' = supported_ingestor_tasks d.

Lemma queue_of_same d d' filter t : same_routing d d' -> queue_of d' filter t = queue_of d filter t.
Proof. intros (_ & _ & Hr & Hi & Hg). unfold queue_of. by rewrite Hr, Hi, Hg. Qed.

Lemma routed_same d d' filter l : same_routing d d' -> routed d' filter l = routed d filter l.
Proof.
  intros H. unfold routed. induction l as [|t l IH]; [done|].
  by rewrite !omap_cons, (queue_of_same _ _ _ _ H), IH.
Qed.

Definition cursor_row (d : Distributor) (w : W) : option string :=
  distributor_cursors (tables (dbs w)) !! (get_chain (W := X), context d).

(** Writing the cursor: it is in the table and in the trace, or neither. *)
Lemma store_cursor_run d id w :
  last_task_id d = Some id ->
  exists r w', store_last_task_id (W := W) d w = (Done r, w') /\ api_state w' = api_state w /\
    ((trace w' = trace w ++ [Cursor id] /\ cursor_row d w' = Some id) \/
     (trace w' = trace w /\ cursor_row d w' = cursor_row d w /\ faults (dbs w) <> [])) /\
    (faults (dbs w) = [] -> faults (dbs w') = []).
Proof.
  intros Hid. unfold store_last_task_id. rewrite Hid, map_err_run. simpl. unfold observe, via_db.
  unfold pg_store_latest_task_id, sql_exec.
  destruct (next_fault (dbs w)) as [e|] eqn:Hf.
  - rewrite (sql_fault _ _ e Hf). simpl. eexists _, _. split; [reflexivity|]. simpl. split; [done|].
    unfold next_fault in Hf. split; [right|by intros ->]. split; [done|]. split; [done|].
    by destruct (faults (dbs w)).
  - rewrite (sql_no_fault _ _ Hf). simpl. eexists _, _. split; [reflexivity|]. simpl. split; [done|].
    split; [left|by intros ->]. split; [done|]. unfold cursor_row. simpl. by rewrite lookup_insert_eq.
Qed.

Lemma published_of_app a b : published_of (a ++ b) = published_of a ++ published_of b.
Proof. apply omap_app. Qed.

Lemma routed_app d f a b : routed d f (a ++ b) = routed d f a ++ routed d f b.
Proof. apply omap_app. Qed.

Fixpoint last_id (tasks : list Task) (old : option string) : option string :=
  match tasks with
  | [] => old
  | t :: tasks => last_id tasks (Some (task_id t))
  end.

(** The loop over a batch: every task is routed once, in order. *)
Lemma work_loop_run filter tasks d ids w :
  exists d' w', work_loop (W := W) list_ids span filter tasks d ids w = (Done (d', ids ++ map task_id tasks), w') /\
    same_routing d d' /\ last_task_id d' = last_id tasks (last_task_id d) /\
    api_state w' = api_state w /\
    published_of (trace w') = published_of (trace w) ++ routed d filter tasks /\
    (faults (dbs w) = [] -> faults (dbs w') = [] /\ cursor_row d w' = last_id tasks (cursor_row d w) /\
       trace w' = trace w ++ flat_map (fun t => Cursor (task_id t) :: task_effects d filter t) tasks).
Proof.
  revert d ids w. induction tasks as [|t tasks IH]; intros d ids w; cbn [work_loop].
  { exists d, w. unfold routed. simpl. rewrite !app_nil_r. done. }
  erewrite bind_done by reflexivity. cbv zeta. set (d1 := set_last_task_id (Some (task_id t)) d).
  destruct (store_cursor_run d1 (task_id t) w eq_refl) as (r & w1 & E1 & Ha1 & Ht1 & Hf1).
  erewrite bind_done by exact E1.
  assert (Hsame1 : same_routing d d1) by done.
  set (w2 := mkWorld (api_state w1) (dbs w1) (trace w1 ++ task_effects d filter t)).
  assert (E2 : (match queue_of d1 filter t with
                | Some queue => queue_publish queue (QTask t) | None => ret tt end) w1 = (Done tt, w2)).
  { rewrite (queue_of_same _ _ _ _ Hsame1). unfold w2, task_effects.
    destruct (queue_of d filter t); [done|]. rewrite app_nil_r. by destruct w1. }
  erewrite bind_done by exact E2.
  destruct (IH d1 (ids ++ [task_id t]) w2) as (d' & w' & E & Hs & Hlast & Hapi & Hpub & Hok).
  exists d', w'. split; [rewrite E; by rewrite <- app_assoc|]. split; [exact Hs|].
  split; [exact Hlast|]. split; [by rewrite Hapi|].
  assert (Hpe : published_of (task_effects d filter t) = routed d filter [t]).
  { unfold task_effects, routed. simpl. by destruct (queue_of d filter t). }
  assert (Hp1 : published_of (trace w1) = published_of (trace w)).
  { destruct Ht1 as [[-> _] | [-> _]]; [|done]. rewrite published_of_app. by rewrite app_nil_r. }
  split.
  - rewrite Hpub. unfold w2. simpl. rewrite published_of_app, Hp1, Hpe.
    rewrite (routed_same d d1) by done. by rewrite <- app_assoc, <- (routed_app d filter [t]).
  - intros Hf. destruct Ht1 as [[Ht1 Hc1] | [_ [_ Hbad]]]; [|done].
    destruct (Hok (Hf1 Hf)) as (Hf2 & Hc2 & Ht2). split; [done|].
    change (cursor_row d1 w') with (cursor_row d w') in Hc2.
    change (cursor_row d1 w2) with (cursor_row d1 w1) in Hc2. rewrite Hc1 in Hc2.
    split; [exact Hc2|].
    rewrite Ht2. unfold w2. simpl. rewrite Ht1, <- !app_assoc. simpl. do 3 f_equal.
Qed.

Lemma work_ok filter d w tasks x :
  get_tasks_action (last_task_id d) (api_state w) = (Done (Ok tasks), x) ->
  work (W := W) (CT := CT) list_ids span filter d w =
    (let! r := work_loop (W := W) list_ids span filter tasks d [] in ret (fst r, Ok (snd r)))
      (mkWorld x (dbs w) (trace w)).
Proof.
  intros E. unfold work. rewrite bind_run, map_err_run. simpl get_tasks_action. unfold via_api.
  by rewrite E.
Qed.

Lemma work_err filter d w e x :
  get_tasks_action (last_task_id d) (api_state w) = (Done (Err e), x) ->
  exists e', work (W := W) (CT := CT) list_ids span filter d w =
    (Done (d, Err e'), mkWorld x (dbs w) (trace w)).
Proof.
  intros E. unfold work. rewrite bind_run, map_err_run. simpl get_tasks_action. unfold via_api.
  rewrite E. by eexists.
Qed.

(** One round. If the fetch fails, nothing is published, nothing is
    stored and the cursor stays. Otherwise every task fetched is handled once
    and in order: it goes to the one queue its kind and the settings name, or
    is dropped; the ids of all of them are returned, and the cursor moves to
    the last — whatever the database answers. *)
Theorem work_spec (filter : option (list TaskKind)) (d : Distributor) (w : W)
    (answer : result (list Task) GmpApiError) (x : X) :
  get_tasks_action (last_task_id d) (api_state w) = (Done answer, x) ->
  exists d' r w', work (W := W) list_ids span filter d w = (Done (d', r), w') /\
    api_state w' = x /\ same_routing d d' /\
    match answer with
    | Err _ => d' = d /\ trace w' = trace w /\ dbs w' = dbs w /\ is_ok r = false
    | Ok tasks => r = Ok (map task_id tasks) /\ last_task_id d' = last_id tasks (last_task_id d) /\
        published_of (trace w') = published_of (trace w) ++ routed d filter tasks
    end.
Proof.
  intros E. destruct answer as [tasks|e].
  - rewrite (work_ok _ _ _ _ _ E).
    destruct (work_loop_run filter tasks d [] (mkWorld x (dbs w) (trace w)))
      as (d' & w' & E' & Hs & Hl & Ha & Hp & _).
    erewrite bind_done by exact E'. eexists _, _, _. split; [reflexivity|]. by rewrite Ha.
  - destruct (work_err filter d w e x E) as [e' ->]. eexists _, _, _. split; [reflexivity|]. done.
Qed.

Lemma last_id_snoc tasks t old : last_id (tasks ++ [t]) old = Some (task_id t).
Proof. revert old. induction tasks as [|t' tasks IH]; intros old; [done|]. apply IH. Qed.

Lemma after_cursor_batch L cursor k n :
  after_cursor L cursor k ->
  let batch := take n (drop k L) in
  after_cursor L (last_id batch cursor) (k + length batch) /\ take (k + length batch) L = take k L ++ batch.
Proof.
  intros Hk batch.
  destruct (decide (length L <= k)%nat) as [Hlen|Hlen].
  { assert (Hb : batch = []) by (unfold batch; by rewrite drop_ge, take_nil by lia).
    rewrite Hb. simpl. by rewrite Nat.add_0_r, app_nil_r. }
  assert (HL : L = take k L ++ batch ++ drop n (drop k L)).
  { unfold batch. by rewrite (take_drop n (drop k L)), take_drop. }
  assert (Hkl : length (take k L) = k) by (rewrite length_take; lia).
  split.
  - destruct batch as [|t0 batch0 _] eqn:Hb using rev_ind; [by rewrite Nat.add_0_r|].
    rewrite last_id_snoc, length_app. simpl. exists t0. split; [|split; [done|lia]].
    rewrite HL at 1. rewrite <- app_assoc, app_assoc. simpl.
    apply list_lookup_middle. rewrite length_app. lia.
  - rewrite HL at 1. rewrite app_assoc, take_app_length'; [done|]. rewrite length_app. lia.
Qed.

Lemma same_routing_trans d1 d2 d3 : same_routing d1 d2 -> same_routing d2 d3 -> same_routing d1 d3.
Proof. intros (?&?&?&?&?) (?&?&?&?&?). repeat split; congruence. Qed.

(** One round against an API that keeps its contract. *)
Lemma work_advance L filter d k w :
  serves L -> after_cursor L (last_task_id d) k ->
  exists d' r w' n, work (W := W) list_ids span filter d w = (Done (d', r), w') /\
    same_routing d d' /\ after_cursor L (last_task_id d') (k + length (take n (drop k L))) /\
    published_of (trace w') = published_of (trace w) ++ routed d filter (take n (drop k L)) /\
    (r = Ok (map task_id (take n (drop k L))) \/ is_ok r = false).
Proof.
  intros HL Hk. destruct (HL _ _ (api_state w) Hk) as [(e & x & E) | (n & x & E)].
  - destruct (work_err filter d w e x E) as [e' ->]. eexists d, _, _, 0%nat.
    split; [reflexivity|]. split; [done|]. rewrite take_0. simpl. rewrite Nat.add_0_r, app_nil_r.
    split; [done|]. split; [done|by right].
  - rewrite (work_ok _ _ _ _ _ E).
    destruct (work_loop_run filter (take n (drop k L)) d [] (mkWorld x (dbs w) (trace w)))
      as (d' & w' & E' & Hs & Hl & Ha & Hp & _).
    erewrite bind_done by exact E'. eexists d', _, w', n. split; [reflexivity|].
    split; [done|]. split; [rewrite Hl; by apply after_cursor_batch|]. split; [done|by left].
Qed.

Lemma run_batches (L : list Task) (rounds : nat) (d : Distributor) (k : nat) (w : W) :
  serves L -> after_cursor L (last_task_id d) k ->
  exists d' w' n, run (W := W) list_ids span rounds d w = (Done d', w') /\
    published_of (trace w') = published_of (trace w) ++ routed d None (take n (drop k L)) /\
    after_cursor L (last_task_id d') (k + length (take n (drop k L))).
Proof.
  intros HL. revert d k w. induction rounds as [|rounds IH]; intros d k w Hk; simpl.
  { exists d, w, 0%nat. rewrite take_0. simpl. by rewrite app_nil_r, Nat.add_0_r. }
  destruct (work_advance L None d k w HL Hk) as (d1 & r & w1 & n & E & Hs & Hk1 & Hp & _).
  erewrite bind_done by exact E. erewrite bind_done by reflexivity.
  destruct (IH d1 _ w1 Hk1) as (d2 & w2 & m & E2 & Hp2 & Hk2).
  set (b1 := take n (drop k L)) in *. set (b2 := take m (drop (k + length b1) L)) in *.
  assert (Hb : b1 ++ b2 = take (length b1 + m) (drop k L)).
  { unfold b2. rewrite <- drop_drop.
    assert (Hd : drop k L = b1 ++ drop (length b1) (drop k L)).
    { unfold b1. rewrite <- (take_drop n (drop k L)) at 1. f_equal. rewrite length_take.
      destruct (decide (n <= length (drop k L))%nat); [by rewrite Nat.min_l|].
      rewrite Nat.min_r by lia. by rewrite !drop_ge by lia. }
    rewrite Hd at 2. by rewrite take_app_add. }
  exists d2, w2, (length b1 + m)%nat. rewrite <- Hb. split; [exact E2|].
  split; [by rewrite Hp2, Hp, routed_app, (routed_same d d1), <- app_assoc|].
  by rewrite length_app, Nat.add_assoc.
Qed.

(** C9: over any number of rounds, with fetches that fail and cursor writes
    that fail in between, the tasks published are exactly the ones of a prefix
    of the API's task list that have a queue, each once and in order, and the
    cursor stands right behind that prefix: nothing is skipped and nothing is
    published twice. *)
Theorem run_in_order (L : list Task) (rounds : nat) (d : Distributor) (k : nat) (w : W) :
  serves L -> after_cursor L (last_task_id d) k ->
  exists d' w' n, run (W := W) list_ids span rounds d w = (Done d', w') /\
    published_of (trace w') = published_of (trace w) ++ routed d None (take n (drop k L)) /\
    after_cursor L (last_task_id d') (k + length (take n (drop k L))).
Proof. apply run_batches. Qed.

(** An API that also answers, with at least one task while there are any. *)
Definition eager (L : list Task) : Prop :=
  forall cursor k (x : X), after_cursor L cursor k ->
    exists n x', get_tasks_action cursor x = (Done (Ok (take (S n) (drop k L))), x').

(** Recovery ends. If the task the settings name is still ahead of the
    cursor and the API answers, the loop leaves after at most as many rounds
    as there are tasks ahead, having fetched that task. *)
Theorem recovery_ends (L : list Task) (settings : RecoverySettings) (d : Distributor) (k : nat) (w : W) :
  eager L -> after_cursor L (last_task_id d) k -> recovery_settings d = Some settings ->
  to_task_id settings ∈ map task_id (drop k L) ->
  exists d' w', run_recovery (W := W) list_ids span (length (drop k L)) d w = (Done (d', true), w').
Proof.
  intros HL Hk Hset Hin. unfold run_recovery. rewrite Hset. clear Hset.
  remember (length (drop k L)) as fuel eqn:Hf. assert (Hfuel : (length (drop k L) <= fuel)%nat) by lia. clear Hf.
  revert d k w Hk Hin Hfuel. induction fuel as [|fuel IH]; intros d k w Hk Hin Hfuel.
  { assert (H0 : length (drop k L) = 0%nat) by lia. apply nil_length_inv in H0. rewrite H0 in Hin.
    by apply elem_of_nil in Hin. }
  simpl. destruct (HL _ _ (api_state w) Hk) as (n & x & E).
  rewrite bind_run, (work_ok _ _ _ _ _ E).
  destruct (work_loop_run (tasks_filter settings) (take (S n) (drop k L)) d [] (mkWorld x (dbs w) (trace w)))
    as (d1 & w1 & E1 & _ & Hl & _).
  erewrite bind_done by exact E1. cbn [ret fst snd app].
  case_bool_decide as Hc; [by eexists _, _|].
  erewrite bind_done by reflexivity.
  destruct (after_cursor_batch L (last_task_id d) k (S n) Hk) as [Hk1 _]. rewrite <- Hl in Hk1.
  assert (Hdrop : drop (k + length (take (S n) (drop k L))) L = drop (S n) (drop k L)).
  { rewrite <- drop_drop, length_take.
    destruct (decide (S n <= length (drop k L))%nat); [by rewrite Nat.min_l|].
    rewrite Nat.min_r by lia. by rewrite !drop_ge by lia. }
  eapply IH; [exact Hk1| |].
  - rewrite Hdrop. rewrite <- (take_drop (S n) (drop k L)), map_app in Hin.
    apply elem_of_app in Hin as [Hin|Hin]; [done|exact Hin].
  - rewrite Hdrop, length_drop. destruct (drop k L) as [|t l] eqn:Hd; [by apply elem_of_nil in Hin|].
    simpl in *. lia.
Qed.

(** What a crash leaves behind: the effects up to some point. *)
Definition cursors_of (tr : list (Effect CT)) : list string :=
  omap (fun e => match e with Cursor id => Some id | Published _ _ => None end) tr.

Lemma prefix_of_task d filter t (p : list (Effect CT)) rest :
  p `prefix_of` (Cursor (task_id t) :: task_effects d filter t) ++ rest ->
  p = [] \/ p = [Cursor (task_id t)] \/
  exists p', p = Cursor (task_id t) :: task_effects d filter t ++ p' /\ p' `prefix_of` rest.
Proof.
  intros [q Hq]. destruct p as [|e p]; [by left|]. right. simpl in Hq. injection Hq as <- Hq.
  unfold task_effects in *. destruct (queue_of d filter t) as [qn|]; simpl in *.
  - destruct p as [|e p]; [by left|]. injection Hq as <- Hq. right. exists p. split; [done|by exists q].
  - right. exists p. split; [done|by exists q].
Qed.

(** A process that dies in the middle of a batch loses at most one task.
    The cursor is written before the task is published: at any point of the
    round, the tasks published are those up to the cursor, or those up to the
    one before it, and on a restart the task at the cursor is not fetched
    again. *)
Theorem crash_loses_at_most_one (filter : option (list TaskKind)) (tasks : list Task) (d : Distributor)
    (ids : list string) (w : W) (p : list (Effect CT)) :
  faults (dbs w) = [] ->
  let w' := snd (work_loop (W := W) list_ids span filter tasks d ids w) in
  trace w ++ p `prefix_of` trace w' ->
  exists k, cursors_of p = map task_id (take k tasks) /\
    (published_of p = routed d filter (take k tasks) \/
     published_of p = routed d filter (take (k - 1) tasks)).
Proof.
  intros Hf w' Hp. destruct (work_loop_run filter tasks d ids w) as (d1 & w1 & E1 & _ & _ & _ & _ & Hok).
  destruct (Hok Hf) as (_ & _ & Ht). unfold w' in Hp. rewrite E1 in Hp. simpl in Hp. rewrite Ht in Hp.
  apply prefix_app_inv in Hp. clear -Hp.
  revert p Hp. induction tasks as [|t tasks IH]; intros p Hp.
  { apply prefix_nil_inv in Hp. subst p. by exists 0%nat; split; [|left]. }
  change (flat_map _ (t :: tasks)) with ((Cursor (task_id t) :: task_effects d filter t) ++
    flat_map (fun t => Cursor (task_id t) :: task_effects d filter t) tasks) in Hp.
  apply prefix_of_task in Hp as [->|[->|(p' & -> & Hp')]].
  - exists 0%nat. split; [done|by left].
  - exists 1%nat. split; [done|right]. done.
  - destruct (IH p' Hp') as (k & Hc & Hpub). exists (S k).
    assert (Hce : cursors_of (task_effects d filter t) = []).
    { unfold task_effects. by destruct (queue_of d filter t). }
    assert (Hpe : published_of (task_effects d filter t) = routed d filter [t]).
    { unfold task_effects, routed. simpl. by destruct (queue_of d filter t). }
    assert (Hhead : published_of (Cursor (task_id t) :: task_effects d filter t ++ p') =
                    routed d filter [t] ++ published_of p').
    { change (published_of (Cursor (task_id t) :: task_effects d filter t ++ p'))
        with (published_of (task_effects d filter t ++ p')). by rewrite published_of_app, Hpe. }
    split.
    + unfold cursors_of. rewrite omap_cons, omap_app. fold (cursors_of (task_effects d filter t)).
      fold (cursors_of p'). by rewrite Hce, Hc.
    + rewrite Hhead. destruct Hpub as [->| ->].
      * left. by rewrite <- routed_app.
      * destruct k as [|k]; [left|right]; rewrite <- routed_app; [done|].
        f_equal. simpl. by rewrite Nat.sub_0_r.
Qed.

(** After rounds with a database that answers, a restarted distributor
    continues where the old one stood. *)
Theorem restart_resumes (rounds : nat) (d : Distributor) (w : W) :
  faults (dbs w) = [] -> cursor_row d w = last_task_id d ->
  (forall cursor (x : X), exists r x', get_tasks_action cursor x = (Done r, x')) ->
  exists d' w', run (W := W) list_ids span rounds d w = (Done d', w') /\
    exists d2 w2, distributor_new (W := W) (context d) (refunds_enabled d) w' = (Done d2, w2) /\
      last_task_id d2 = last_task_id d'.
Proof.
  intros Hf Hc HA.
  assert (Hgen : exists d' w', run (W := W) list_ids span rounds d w = (Done d', w') /\
    faults (dbs w') = [] /\ cursor_row d w' = last_task_id d').
  { revert d w Hf Hc. induction rounds as [|rounds IH]; intros d w Hf Hc; [by exists d, w|]. simpl.
    destruct (HA (last_task_id d) (api_state w)) as ([tasks|e] & x & E).
    - rewrite bind_run, (work_ok _ _ _ _ _ E).
      destruct (work_loop_run None tasks d [] (mkWorld x (dbs w) (trace w)))
        as (d1 & w1 & E1 & Hs & Hl & _ & _ & Hok).
      destruct (Hok Hf) as (Hf1 & Hc1 & _).
      erewrite bind_done by exact E1. cbn [ret fst]. erewrite bind_done by reflexivity.
      destruct (IH d1 w1 Hf1) as (d2 & w2 & E2 & Hf2 & Hc2).
      + unfold cursor_row in *. destruct Hs as (-> & _). rewrite Hl, Hc1. simpl. by rewrite Hc.
      + exists d2, w2. split; [exact E2|]. split; [done|].
        unfold cursor_row in *. destruct Hs as (Hctx & _). by rewrite <- Hctx.
    - destruct (work_err None d w e x E) as [e' Ew]. rewrite bind_run, Ew.
      erewrite bind_done by reflexivity. simpl. apply IH; done. }
  destruct Hgen as (d' & w' & E & Hf' & Hc'). exists d', w'. split; [exact E|].
  unfold distributor_new. rewrite bind_run. simpl. unfold via_db, pg_get_latest_task_id, sql_query.
  rewrite sql_no_fault by (unfold next_fault; by rewrite Hf'). simpl.
  eexists _, _. split; [reflexivity|]. simpl. exact Hc'.
Qed.
End world.

(** A batch of malformed tasks stalls the distributor.  The client drops
    the tasks it cannot parse, so the round returns no id and the cursor does
    not move: the next fetch asks for the same batch again. *)
Theorem malformed_batch_stalls {X CT : Type} {XM : XrplMessages} {HH : Http X} {TT : Timer X} {J : Json}
    {C : Codecs} {TC : TaskCodec} {SE : Serialize (list Event)} {SV : Serialize Value}
    {DP : Deserialize PostEventResponse} {DS : Deserialize StorePayloadResult}
    {CC : CrossChain} {DL : DecimalLib}
    (list_ids : gset string -> list string) (span : Task -> Ctx) (api : GmpApi)
    (filter : option (list TaskKind)) (d : Distributor) (w : World X CT) (vs : list Value) (x : X) :
  let request := mkRequest GET (rpc_url api +:+ "/chains/" +:+ gmp_chain api +:+ "/tasks")
    (match last_task_id d with Some a => [("after", a)] | None => [] end) None None in
  request_json de_tasks request (api_state w) = (Done (Ok (Some vs)), x) ->
  Forall (fun v => is_ok (parse_task v) = false) vs ->
  work (W := World X CT) (API := world_api (API := GmpApi_impl api)) list_ids span filter d w =
    (Done (d, Ok []), mkWorld x (dbs w) (trace w)).
Proof.
  intros request E Hvs. unfold work. rewrite bind_run, map_err_run. simpl get_tasks_action.
  unfold via_api, gmp_get_tasks_action. fold request. rewrite bind_ok_run, E. simpl.
  assert (Hnone : omap ok_task vs = []).
  { clear E. induction Hvs as [|v vs Hv _ IH]; [done|]. rewrite omap_cons, IH. unfold ok_task.
    by destruct (parse_task v). }
  by rewrite Hnone.
Qed.

(** ** A task server, for concrete runs *)

Module DistributorDemo.
Export AuditDemo DbDemo.
Definition a_task (i k : string) : Task :=
  TVerify (mkVerifyTask (mkCommonTask i "ton" "t" k None) (mkVerifyFields (mkMessage i "a" "b" "c" "d") "p")).
Definition tasks : list Task := [a_task "1" "VERIFY"; a_task "2" "VERIFY"; a_task "3" "VERIFY"].

Definition position (cursor : option string) : nat :=
  match cursor with
  | Some id => if decide (id = "1") then 1 else if decide (id = "2") then 2 else 3
  | None => 0
  end.

#[export] Instance server : GmpApiTrait nat := {|
  get_chain := "ton";
  get_tasks_action := fun cursor n => (Done (Ok (take 2 (drop (position cursor) tasks))), S n);
  post_events := fun _ => ret (Ok []);
  post_broadcast := fun _ _ => ret (Ok "h");
  get_broadcast_result := fun _ _ => ret (Ok "h");
  post_query := fun _ _ => ret (Ok "q");
  post_payload := fun _ => ret (Ok "p");
  get_payload := fun _ => ret (Ok "p");
  cannot_execute_message := fun _ _ _ _ _ => ret (Ok tt);
  its_interchain_transfer := fun _ => ret (Ok tt);
  map_cannot_execute_message_to_event := fun _ _ _ _ _ => Panic "none";
|}.

Lemma position_spec cursor k : after_cursor tasks cursor k -> k = position cursor.
Proof.
  destruct cursor as [id|]; [|done]. intros (t & Ht & <- & Hk).
  destruct k as [|[|[|[|k]]]]; simpl in Ht; simplify_eq; [lia|done|done|done].
Qed.

Lemma tasks_served : serves (X := nat) tasks.
Proof. intros cursor k x ->%position_spec. right. exists 2%nat. by eexists. Qed.

Lemma tasks_eager : eager (X := nat) tasks.
Proof. intros cursor k x ->%position_spec. exists 1%nat. by eexists. Qed.

Definition d0 : Distributor := mkDistributor None "ctx" (Some (mkRecovery None "3" None)) true
  [Refund; GatewayTx] [Verify].
Definition w0 : World nat unit := mkWorld 0%nat DbDemo.empty [].
Definition ids : gset string -> list string := elements.
Definition no_span : Task -> Ctx := fun _ => ∅.
End DistributorDemo.
Import DistributorDemo.

Lemma work_spec_witness :
  exists d' r w', work (W := World nat unit) ids no_span None d0 w0 = (Done (d', r), w') /\
    api_state w' = 1%nat /\ same_routing d0 d' /\
    r = Ok ["1"; "2"] /\ last_task_id d' = Some "2" /\
    published_of (trace w') = [] ++ routed d0 None (take 2 tasks).
Proof. exact (work_spec ids no_span None d0 w0 (Ok (take 2 tasks)) 1%nat eq_refl). Defined.

Lemma run_in_order_witness :
  exists d' w' n, run (W := World nat unit) ids no_span 3 d0 w0 = (Done d', w') /\
    published_of (trace w') = published_of (trace w0) ++ routed d0 None (take n (drop 0 tasks)) /\
    after_cursor tasks (last_task_id d') (0 + length (take n (drop 0 tasks))).
Proof. exact (run_in_order ids no_span tasks 3 d0 0 w0 tasks_served eq_refl). Defined.

Lemma recovery_ends_witness :
  exists d' w', run_recovery (W := World nat unit) ids no_span (length (drop 0 tasks)) d0 w0 = (Done (d', true), w').
Proof.
  refine (recovery_ends ids no_span tasks (mkRecovery None "3" None) d0 0 w0 tasks_eager eq_refl eq_refl _).
  right. right. left.
Defined.

Lemma crash_loses_at_most_one_witness :
  exists k, cursors_of (CT := unit) [Cursor "1"] = map task_id (take k tasks) /\
    (published_of (CT := unit) [Cursor "1"] = routed d0 None (take k tasks) \/
     published_of (CT := unit) [Cursor "1"] = routed d0 None (take (k - 1) tasks)).
Proof.
  refine (crash_loses_at_most_one (X := nat) ids no_span None tasks d0 [] w0 [Cursor "1"] eq_refl _).
  eexists. reflexivity.
Defined.

Lemma restart_resumes_witness :
  exists d' w', run (W := World nat unit) ids no_span 2 d0 w0 = (Done d', w') /\
    exists d2 w2, distributor_new (W := World nat unit) (context d0) (refunds_enabled d0) w' = (Done d2, w2) /\
      last_task_id d2 = last_task_id d'.
Proof.
  refine (restart_resumes ids no_span 2 d0 w0 eq_refl eq_refl _). intros cursor x. eexists. eexists. reflexivity.
Defined.

Abbreviation ScriptedWorld := (World Script.World unit).
Abbreviation mkScripted := (@mkWorld Script.World unit).
Import Script.

Lemma malformed_batch_stalls_witness :
  let w := mkScripted (Script.mkWorld [Script.reply "x"] []) DbDemo.empty ([] : list (Effect unit)) in
  let bad := {| parse_json := fun s => Ok (VObject [("tasks", VArray [VNull; VNull])]);
                print_json := fun _ => "" |} in
  exists x, work (W := ScriptedWorld) (API := world_api (API := GmpApi_impl (J := bad)
      (C := text_codecs) (DP := Script.nope)
      (DS := Script.nope) Script.api)) ids no_span None d0 w =
    (Done (d0, Ok []), mkScripted x DbDemo.empty []).
Proof.
  eexists.
  refine (malformed_batch_stalls (J := {| parse_json := fun s => Ok (VObject [("tasks", VArray [VNull; VNull])]);
                print_json := fun _ => "" |}) (C := text_codecs) (DP := Script.nope) (DS := Script.nope)
    ids no_span Script.api None d0
    (mkScripted (Script.mkWorld [Script.reply "x"] []) DbDemo.empty []) [VNull; VNull] _ eq_refl _).
  by repeat constructor.
Defined.
