(* ===== verification/Recovery.v ===== *)
(** * Recovery tools

    [recovery_tools/src/bin/dlq_recovery.rs]: an operator decides on each
    message of a dead-letter queue.
    [relayer_base/src/bin/scripts/queue_migration.rs]: tasks of the old queue
    are moved to the queues of the includer and of the ingestor. *)

From S2P Require Import Prelude.
From S2P Require Import Store.
From S2P Require Import Text.
From S2P Require Import Utf8.
From S2P Require Import GmpTypes.
From S2P Require Import Database.
From S2P Require Import GmpApi.
From S2P Require Import Queue.
From S2P Require Import Logging.
From S2P Require Import Distributor.

(** ** What the operator types *)

(** [char::is_whitespace], on the encodings of the characters. *)
Definition is_whitespace (c : string) : bool :=
  match c with
  | String a EmptyString => byte_in 9 13 a || byte_in 32 32 a
  | String a (String b EmptyString) => byte_in 194 194 a && (byte_in 133 133 b || byte_in 160 160 b)
  | String a (String b (String d EmptyString)) =>
      (byte_in 225 225 a && byte_in 154 154 b && byte_in 128 128 d) ||
      (byte_in 226 226 a && byte_in 128 128 b &&
         (byte_in 128 138 d || byte_in 168 169 d || byte_in 175 175 d)) ||
      (byte_in 226 226 a && byte_in 129 129 b && byte_in 159 159 d) ||
      (byte_in 227 227 a && byte_in 128 128 b && byte_in 128 128 d)
  | _ => false
  end.

Fixpoint drop_spaces (cs : list string) : list string :=
  match cs with c :: cs' => if is_whitespace c then drop_spaces cs' else cs | [] => [] end.

(** [str::trim]. *)
Definition trim (s : string) : string :=
  concat_chars (rev (drop_spaces (rev (drop_spaces (chars s))))).

Class Operator (W : Type) : Type := { next_line : M W (result (option string) string) }.

(** ** The dead-letter queue *)

Section dlq.
Context {W : Type} {AM : Amqp W} {OP : Operator W}.
Variable main_queue : string.

(** [basic_publish] here is the publication with its confirmation; these are
    the errors of the confirmation, which end the tool. *)
Variable at_confirmation : string -> bool.

Definition requeue (delivery : Delivery) : M W (result unit string) := basic_nack (delivery_tag delivery) true.

(** src/recovery_tools/src/bin/dlq_recovery.rs:68-113 main (the message is recovered) *)
Definition dlq_recover (delivery : Delivery) : M W (result unit string) :=
  match headers (properties delivery) with
  | None => panic "Headers are not set"
  | Some new_headers =>
      let new_headers := delete "x-retry-count" new_headers in
      let new_properties := mkProperties (Some new_headers) (Some 2) in
      let! confirm := basic_publish "" main_queue (data delivery) new_properties in
      match confirm with
      | Ok true =>
          let? _a := basic_ack (delivery_tag delivery) in ret (Ok tt)
      | Ok false => let? _n := requeue delivery in ret (Ok tt)
      | Err e => if at_confirmation e then ret (Err e) else ret (Ok tt)
      end
  end.

(** src/recovery_tools/src/bin/dlq_recovery.rs:55-128 main (one delivery) *)
Definition dlq_on_delivery (delivery : Delivery) : M W (result unit string) :=
  let! line := next_line in
  let user_input := match line with Ok (Some line) => line | _ => "" end in
  let answer := to_lowercase (trim user_input) in
  if bool_decide (answer = "r") then dlq_recover delivery
  else if bool_decide (answer = "d") then basic_ack (delivery_tag delivery)
  else requeue delivery.

(** src/recovery_tools/src/bin/dlq_recovery.rs:53-133 main (the loop) *)
Fixpoint dlq_run (results : list (result Delivery string)) : M W (result unit string) :=
  match results with
  | [] => ret (Ok tt)
  | Ok delivery :: results => let? _u := dlq_on_delivery delivery in dlq_run results
  | Err _ :: results => dlq_run results
  end.
End dlq.

(** ** The migration *)

(** src/relayer_base/src/bin/scripts/queue_migration.rs:45-57 main (where a task goes; [None]: it is dropped) *)
Definition migration_queue (kind : TaskKind) : option string :=
  match kind with
  | Refund | GatewayTx => Some INCLUDER
  | Verify | ConstructProof | ReactToWasmEvent | ReactToRetriablePoll | ReactToExpiredSigningSession => Some INGESTOR
  | Unknown | Execute => None
  end.

Section migration.
Context {CT W : Type} {AM : Amqp W} {QA : QueueApi CT W} {IC : ItemCodec CT} {TT : Timer W}.

(** src/relayer_base/src/bin/scripts/queue_migration.rs:37-65 main (one delivery) *)
Definition migrate_one (delivery : Delivery) : M W (result unit string) :=
  let? task_item := ret (from_slice (CT := CT) (data delivery)) in
  match task_item with
  | QTask task =>
      match migration_queue (kind task) with
      | None => let? _a := basic_ack (delivery_tag delivery) in ret (Ok tt)
      | Some queue =>
          let! _p := queue_publish queue task_item in
          let! _a := basic_ack (delivery_tag delivery) in
          ret (Ok tt)
      end
  | _ => ret (Ok tt)
  end.

(** src/relayer_base/src/bin/scripts/queue_migration.rs:35-71 main (the loop) *)
Fixpoint migrate (deliveries : list (result Delivery string)) : M W (result unit string) :=
  match deliveries with
  | [] => ret (Ok tt)
  | Ok delivery :: deliveries => let? _u := migrate_one delivery in migrate deliveries
  | Err _ :: deliveries => let! _s := sleep 1 in migrate deliveries
  end.
End migration.

(** ** Properties *)

Section dlq_properties.
Context {W : Type} {AM : Amqp W} {AL : AmqpLaws W} {OP : Operator W}.
Variable main_queue : string.
Variable at_confirmation : string -> bool.
Hypothesis line_quiet : forall w : W, exists r w', next_line w = (Done r, w') /\
  published w' = published w /\ acked w' = acked w /\ nacked w' = nacked w.

Definition typed (w : W) : string :=
  match fst (next_line w) with Done (Ok (Some line)) => to_lowercase (trim line) | _ => to_lowercase (trim "") end.

(** C29: the dead-letter tool loses no message the operator did not drop.  A
    message it acknowledges was either dropped by name, or a copy with the
    same body and no retries counted is on the main queue; the copy is made
    only if the operator asked for it, and any answer but these two hands the
    message back. *)
Theorem dlq_keeps (d : Delivery) (w w' : W) (o : outcome (result unit string)) :
  dlq_on_delivery main_queue at_confirmation d w = (o, w') ->
  (acked w' = acked w \/
   acked w' = acked w ++ [delivery_tag d] /\
     (typed w = "d" \/
      typed w = "r" /\ exists p, published w' = published w ++ [mkMsg main_queue (data d) p] /\ retry_count p = 0)) /\
  (published w' <> published w -> typed w = "r") /\
  (typed w <> "r" -> typed w <> "d" -> acked w' = acked w /\ published w' = published w).
Proof.
  unfold dlq_on_delivery, typed. rewrite bind_run.
  destruct (line_quiet w) as (line & w1 & -> & Hp1 & Ha1 & Hn1). cbn [fst].
  set (answer := to_lowercase (trim (match line with Ok (Some l) => l | _ => "" end))).
  assert (Ht : match line with Ok (Some l) => to_lowercase (trim l) | _ => to_lowercase (trim "") end = answer)
    by (by destruct line as [[l|]|]).
  rewrite Ht. cbv zeta. fold answer. clearbody answer. clear Ht.
  destruct (bool_decide_reflect (answer = "r")) as [->|Hr].
  - unfold dlq_recover. destruct (headers (properties d)) as [h|].
    2: { intros [= <- <-]. rewrite Ha1, Hp1. split; [by left|]. split; [done|by intros []]. }
    rewrite bind_run. set (p := mkProperties _ _).
    destruct (publish_done "" main_queue (data d) p w1) as (c & w2 & -> & Ha2 & Hn2 & Hp2).
    assert (Hz : retry_count p = 0) by (unfold retry_count, p; simpl; by rewrite lookup_delete_eq).
    destruct c as [[|]|e].
    + rewrite bind_ok_run. destruct (ack_done (delivery_tag d) w2) as (a & w3 & -> & Hp3 & _ & _ & Ha3).
      intros H. assert (w' = w3) as -> by (by destruct a; injection H).
      split; [|split; [done|by intros []]].
      destruct Hp2 as [Hp2|[_ []]]; [|done].
      destruct Ha3 as [Ha3|Ha3]; [left; congruence|right]. split; [congruence|]. right. split; [done|].
      exists p. split; [|done]. by rewrite Hp3, Hp2, Hp1.
    + rewrite bind_ok_run. unfold requeue.
      destruct (nack_done (delivery_tag d) true w2) as (a & w3 & -> & Hp3 & Ha3 & _).
      intros H. assert (w' = w3) as -> by (by destruct a; injection H).
      split; [left; congruence|]. split; [done|by intros []].
    + intros H. assert (w' = w2) as -> by (by destruct (at_confirmation e); injection H).
      split; [left; congruence|]. split; [done|by intros []].
  - destruct (bool_decide_reflect (answer = "d")) as [->|Hd].
    + destruct (ack_done (delivery_tag d) w1) as (a & w3 & -> & Hp3 & _ & _ & Ha3).
      intros [= <- <-]. rewrite Hp3, Hp1. split; [|split; [done|by intros _ []]].
      destruct Ha3 as [->| ->]; [left; congruence|right]. rewrite Ha1. split; [done|by left].
    + unfold requeue. destruct (nack_done (delivery_tag d) true w1) as (a & w3 & -> & Hp3 & Ha3 & _).
      intros [= <- <-]. rewrite Hp3, Hp1, Ha3, Ha1. split; [by left|done].
Qed.
End dlq_properties.

(** The migration sends a task where a fresh distributor would send it, the
    tasks to execute apart: those it acknowledges and drops. *)
Theorem migration_agrees (self : Distributor) (task : Task) :
  supported_includer_tasks self = [Refund; GatewayTx] ->
  supported_ingestor_tasks self =
    [Verify; ConstructProof; ReactToWasmEvent; ReactToRetriablePoll; ReactToExpiredSigningSession] ->
  refunds_enabled self = true ->
  queue_of self None task = migration_queue (kind task).
Proof.
  intros Hi Hg Hr. unfold queue_of. rewrite Hi, Hg, Hr. by destruct (kind task).
Qed.

Module RecoveryDemo.
(** An operator who answers the listed lines. *)
Record Desk : Type := mkDesk { desk_broker : MemBroker; lines : list string }.
Definition on_desk {A} (m : M MemBroker A) : M Desk A := fun w =>
  let '(o, b) := m (desk_broker w) in (o, mkDesk b (lines w)).
#[export] Instance desk_amqp : Amqp Desk := {|
  basic_publish := fun e k b p => on_desk (basic_publish e k b p);
  basic_ack := fun t => on_desk (basic_ack t);
  basic_nack := fun t r => on_desk (basic_nack t r);
  amqp_connect := fun u => on_desk (amqp_connect u);
  create_channel := on_desk create_channel;
  confirm_select := on_desk confirm_select;
  basic_qos := fun n => on_desk (basic_qos n);
  exchange_declare := fun e => on_desk (exchange_declare e);
  queue_declare := fun q a => on_desk (queue_declare q a);
  queue_bind := fun q e k => on_desk (queue_bind q e k);
  published := fun w => published (desk_broker w);
  acked := fun w => acked (desk_broker w);
  nacked := fun w => nacked (desk_broker w);
  queue_args := fun w => queue_args (desk_broker w);
  bindings := fun w => bindings (desk_broker w);
|}.
#[export] Instance desk_laws : AmqpLaws Desk.
Proof.
  assert (H : forall A (m : M MemBroker A) w o b, m (desk_broker w) = (o, b) -> on_desk m w = (o, mkDesk b (lines w)))
    by (intros A m w o b E; unfold on_desk; by rewrite E).
  split.
  - intros ex key m p w. destruct (publish_done ex key m p (desk_broker w)) as (r & b & E & L).
    exists r, (mkDesk b (lines w)). split; [by apply H|exact L].
  - intros tag w. destruct (ack_done tag (desk_broker w)) as (r & b & E & L).
    exists r, (mkDesk b (lines w)). split; [by apply H|exact L].
  - intros tag f w. destruct (nack_done tag f (desk_broker w)) as (r & b & E & L).
    exists r, (mkDesk b (lines w)). split; [by apply H|exact L].
  - intros q args w. destruct (queue_declare_done q args (desk_broker w)) as (r & b & E & L).
    exists r, (mkDesk b (lines w)). split; [by apply H|exact L].
  - intros q ex key w. destruct (queue_bind_done q ex key (desk_broker w)) as (r & b & E & L).
    exists r, (mkDesk b (lines w)). split; [by apply H|exact L].
Qed.
#[export] Instance desk_operator : Operator Desk := {|
  next_line := fun w => (Done (Ok (head (lines w))), mkDesk (desk_broker w) (tail (lines w)));
|}.
Lemma desk_line_quiet (w : Desk) : exists r w', next_line w = (Done r, w') /\
  published w' = published w /\ acked w' = acked w /\ nacked w' = nacked w.
Proof. by eexists _, _. Qed.
Definition refused (e : string) : bool := bool_decide (e = "connection closed").
Definition letter : Delivery := mkDelivery 3 "body" (mkProperties (Some {["x-retry-count" := ShortUInt 4]}) None).
Definition desk : Desk := mkDesk (QueueDemo.idle []) [" R "].
End RecoveryDemo.
Import RecoveryDemo.

Lemma dlq_keeps_witness :
  let w' := snd (dlq_on_delivery "main" refused letter desk) in
  acked w' = [3] /\
  (acked w' = acked desk \/
   acked w' = acked desk ++ [delivery_tag letter] /\
     (typed desk = "d" \/
      typed desk = "r" /\ exists p, published w' = published desk ++ [mkMsg "main" (data letter) p] /\ retry_count p = 0)) /\
  (published w' <> published desk -> typed desk = "r") /\
  (typed desk <> "r" -> typed desk <> "d" -> acked w' = acked desk /\ published w' = published desk).
Proof.
  split; [vm_compute; reflexivity|].
  apply (dlq_keeps "main" refused desk_line_quiet letter desk _ (fst (dlq_on_delivery "main" refused letter desk))).
  by destruct (dlq_on_delivery "main" refused letter desk).
Defined.
