(* ===== verification/Includer.v ===== *)
(** * The includer

    [relayer_base/src/includer.rs], [relayer_base/src/includer_worker.rs] and
    [relayer_base/src/proof_retrier.rs]: tasks that end in a transaction on
    the chain, what is reported when they do not, and how a delivery is
    settled. *)

From S2P Require Import Prelude.
From S2P Require Import Decimal.
From S2P Require Import GmpTypes.
From S2P Require Import Text.
From S2P Require Import GmpApi.
From S2P Require Import Queue.
From S2P Require Import Database.
From S2P Require Import GmpAudit.

(** ** Interfaces to the chain *)

(** src/relayer_base/src/includer.rs:47-54 BroadcastResult *)
Record BroadcastResult : Type := mkBroadcast {
  tx_hash : string;
  status : result unit BroadcasterError;
  result_message_id : option string;
  result_source_chain : option string;
}.

(** src/relayer_base/src/includer.rs:56-77 Broadcaster *)
Class Broadcaster (W : Type) : Type := {
  broadcast_prover_message : string -> M W (result BroadcastResult BroadcasterError);
  broadcast_refund : string -> M W (result string BroadcasterError);
  broadcast_execute_message : ExecuteTaskFields -> M W (result BroadcastResult BroadcasterError);
  broadcast_refund_message : RefundTaskFields -> M W (result string BroadcasterError);
}.

(** src/relayer_base/src/includer.rs:23-45 RefundManager *)
Class RefundManager (W : Type) : Type := {
  Wallet : Type;
  is_refund_manager_managed : bool;
  build_refund_tx : string -> string -> string -> Wallet ->
    M W (result (option (string * string * string)) RefundManagerError);
  is_refund_processed : RefundTask -> string -> M W (result bool RefundManagerError);
  get_wallet_lock : M W (result Wallet RefundManagerError);
  release_wallet_lock : Wallet -> M W (result unit RefundManagerError);
}.

(** src/ton/src/refund_manager.rs:18-54 impl RefundManager for TONRefundManager *)
Definition TONRefundManager {W} : RefundManager W := {|
  Wallet := unit;
  is_refund_manager_managed := false;
  build_refund_tx := fun _ _ _ _ => ret (Ok None);
  is_refund_processed := fun _ _ => ret (Ok false);
  get_wallet_lock := ret (Ok tt);
  release_wallet_lock := fun _ => ret (Ok tt);
|}.

(** [INCR], [EXPIRE] and [GET] on counters in Redis. *)
Class RedisCounters (W : Type) : Type := {
  incr : string -> M W (result Z string);
  expire : string -> Z -> M W (result unit string);
  get_counter : string -> M W (result (option string) string);
}.

Definition show_RefundManagerError (e : RefundManagerError) : string :=
  match e with
  | RefInvalidAmount s => "Invalid amount: " +:+ s
  | RefInvalidRecipient s => "Invalid recipient: " +:+ s
  | RefGenericError s => "Generic error: " +:+ s
  end.

Definition CONSTRUCT_PROOF_QUEUE : string := "construct_proof".
Definition TASKS_QUEUE : string := "tasks".

(** ** The worker *)

Section worker.
Context {CT W : Type} {XM : XrplMessages} {API : GmpApiTrait W} {CC : CrossChain} {DL : DecimalLib}
  {PCT : PayloadCacheTrait W} {QA : QueueApi CT W} {BC : Broadcaster W} {RM : RefundManager W}
  {RC : RedisCounters W} {CO : Codecs} {IC : ItemCodec CT}.

(** src/relayer_base/src/includer_worker.rs:77-79 IncluderWorker::broadcast_result_has_message *)
Definition broadcast_result_has_message (r : BroadcastResult) : bool :=
  match result_message_id r, result_source_chain r with Some _, Some _ => true | _, _ => false end.

Definition consumer_error {T} (r : result T BroadcasterError) : result T IncluderError :=
  rmap_err (fun e => IncConsumerError (show_BroadcasterError e)) r.

(** src/relayer_base/src/includer_worker.rs:95-157 IncluderWorker::consume (execute tasks) *)
Definition consume_execute (execute_task : ExecuteTask) : M W (result unit IncluderError) :=
  let! r := broadcast_execute_message (GmpTypes.execute_task execute_task) in
  match r with
  | Err (BcIrrelevantTask _) => ret (Ok tt)
  | Err e => ret (Err (IncConsumerError (show_BroadcasterError e)))
  | Ok broadcast_result =>
      if broadcast_result_has_message broadcast_result && is_ok (status broadcast_result) then ret (Ok tt)
      else
        match status broadcast_result with
        | Ok _ => panic "Expected broadcast_result.status to be Err"
        | Err err =>
            let '(gmp_error, retry) :=
              match err with
              | BcInsufficientGas _ => (InsufficientGas, false)
              | _ => (ExecuteError, true)
              end in
            let? _r := (match result_message_id broadcast_result, result_source_chain broadcast_result with
                        | Some message_id, Some source_chain =>
                            map_err (fun e => IncConsumerError (show_GmpApiError e))
                              (cannot_execute_message (id (execute_common execute_task)) message_id
                                 source_chain (show_BroadcasterError err) gmp_error)
                        | _, _ => ret (Ok tt)
                        end) in
            if (retry : bool) then ret (Err (IncConsumerError (show_BroadcasterError err)))
            else ret (Ok tt)
        end
  end.

Definition failed_proof_key (cc_id : string) : string := "failed_proof:" +:+ cc_id.

(** src/relayer_base/src/includer_worker.rs:158-229 IncluderWorker::consume (gateway transactions) *)
Definition consume_gateway_tx (task : GatewayTxTask) : M W (result unit IncluderError) :=
  let? data := ret (rmap_err IncConsumerError (base64_decode (execute_data (gateway_task task)))) in
  let? broadcast_result := map_err (fun e => IncConsumerError (show_BroadcasterError e))
                             (broadcast_prover_message (hex_encode data)) in
  match result_message_id broadcast_result, result_source_chain broadcast_result with
  | Some message_id, Some source_chain =>
      match status broadcast_result with
      | Err e =>
          let? cross_chain_id := ret (rmap_err IncConsumerError (cc_new source_chain message_id)) in
          let! _p := queue_publish CONSTRUCT_PROOF_QUEUE (QRetryConstructProof (cc_to_string cross_chain_id)) in
          let redis_key := failed_proof_key (cc_to_string cross_chain_id) in
          let? _i := map_err IncGenericError (incr redis_key) in
          let? _x := map_err IncGenericError (expire redis_key (60 * 60 * 12)) in
          let? _c := map_err (fun e => IncConsumerError (show_GmpApiError e))
                       (cannot_execute_message (id (gateway_common task)) message_id source_chain
                          (show_BroadcasterError e) ExecuteError) in
          ret (Ok tt)
      | Ok _ =>
          let? cross_chain_id := ret (rmap_err IncConsumerError (cc_new source_chain message_id)) in
          let? _c := map_err IncConsumerError (cache_clear cross_chain_id) in
          ret (Ok tt)
      end
  | _, _ => ret (consumer_error (status broadcast_result))
  end.

(** src/relayer_base/src/includer_worker.rs:230-326 IncluderWorker::consume (refunds) *)
Definition consume_refund (task : RefundTask) : M W (result unit IncluderError) :=
  if negb is_refund_manager_managed then
    let! r := broadcast_refund_message (refund_task task) in
    ret (match r with
         | Ok _ => Ok tt
         | Err (BcInsufficientGas _) => Ok tt
         | Err e => Err (IncGenericError (show_BroadcasterError e))
         end)
  else
    let refund_error := fun e => IncConsumerError (show_RefundManagerError e) in
    let? processed := map_err refund_error (is_refund_processed task (id (refund_common task))) in
    if (processed : bool) then ret (Ok tt)
    else
      let balance := remaining_gas_balance (refund_task task) in
      match token_id balance with
      | Some _ => ret (Err (IncGenericError "Refund task with token_id is not supported"))
      | None =>
          let? wallet := map_err refund_error get_wallet_lock in
          let? refund_info := map_err refund_error
            (build_refund_tx (refund_recipient_address (refund_task task)) (amount balance)
               (id (refund_common task)) wallet) in
          let? _r := (match refund_info with
            | Some (tx_blob, refunded_amount, fee) =>
                let! b := map_err (fun e => IncConsumerError (show_BroadcasterError e)) (broadcast_refund tx_blob) in
                match b with
                | Err err =>
                    let? _u := map_err refund_error (release_wallet_lock wallet) in
                    ret (Err err)
                | Ok hash =>
                    let gas_refunded := GasRefunded (mkCommonEvent "GAS_REFUNDED" hash None)
                      (message_id (refund_message (refund_task task)))
                      (refund_recipient_address (refund_task task))
                      (mkAmount None refunded_amount) (mkAmount None fee) in
                    let! _p := post_events [gas_refunded] in
                    ret (Ok tt)
                end
            | None => ret (Ok tt)
            end) in
          let? _u := map_err refund_error (release_wallet_lock wallet) in
          ret (Ok tt)
      end.

(** src/relayer_base/src/includer_worker.rs:91-333 IncluderWorker::consume *)
Definition consume (item : QueueItem CT) : M W (result unit IncluderError) :=
  match item with
  | QTask (TExecute t) => consume_execute t
  | QTask (TGatewayTx t) => consume_gateway_tx t
  | QTask (TRefund t) => consume_refund t
  | QTask _ => ret (Err IncIrrelevantTask)
  | _ => ret (Err (IncGenericError "Invalid queue item"))
  end.

(** src/relayer_base/src/includer_worker.rs:345-351 IncluderWorker::process_delivery *)
Definition process_delivery (data : string) : M W (result unit IncluderError) :=
  let? item := ret (rmap_err (fun e => IncGenericError ("Invalid JSON: " +:+ e)) (from_slice data)) in
  consume item.
End worker.

(** How the two consumers settle a delivery, given the handler of its data
    and which of its errors stands for an irrelevant task. *)
Section settle.
Context {CT W : Type} {QA : QueueApi CT W} {A : Amqp W} {E : Type}.
Variable irrelevant : E -> bool.
Variable handler : string -> M W (result unit E).

(** src/relayer_base/src/includer.rs:109-139 Includer::on_delivery (settling the delivery) *)
Definition settle (queue : string) (delivery : Delivery) (r : result unit E) : M W unit :=
  match r with
  | Err e =>
      let! _n := queue_republish (CT := CT) queue delivery (irrelevant e) in
      ret tt
  | Ok _ =>
      let! _a := basic_ack (delivery_tag delivery) in
      ret tt
  end.

(** src/relayer_base/src/includer.rs:99-142 Includer::on_delivery *)
Definition on_delivery (queue : string) (delivery : Delivery) : M W unit :=
  let! r := handler (data delivery) in
  settle queue delivery r.
End settle.

Definition includer_irrelevant (e : IncluderError) : bool :=
  match e with IncIrrelevantTask => true | _ => false end.

(** ** The proof retrier *)

Section retrier.
Context {CT W : Type} {CC : CrossChain} {PCT : PayloadCacheTrait W} {QA : QueueApi CT W}
  {RC : RedisCounters W} {IC : ItemCodec CT} {AM : Amqp W}.
(** A fresh uuid and the current time, as text. *)
Variable new_uuid : W -> string.
Variable now_rfc3339 : W -> string.

(** src/relayer_base/src/proof_retrier.rs:75-84 ProofRetrier::process_delivery (the id's two parts) *)
Definition split_cc_id (cc_id : string) : result CrossChainId string :=
  try? source_chain := ok_or (split "_"%char cc_id !! 0%nat) "Failed to get source chain" in
  try? message_id := ok_or (split "_"%char cc_id !! 1%nat) "Failed to get message id" in
  rmap_err (fun e => "Failed to parse CrossChainId: " +:+ e) (cc_new source_chain message_id).

(** src/relayer_base/src/proof_retrier.rs:92-104 ProofRetrier::process_delivery (the task) *)
Definition retry_task (uuid now : string) (v : PayloadCacheValue) : Task :=
  TConstructProof (mkProofTask
    (mkCommonTask ("proof_retrier_" +:+ uuid) "xrpl" now "CONSTRUCT_PROOF" None)
    (mkProofFields (cached_message v) (cached_payload v))).

Definition MAX_PROOF_FAILURES : Z := 10.

(** src/relayer_base/src/proof_retrier.rs:47-122 ProofRetrier::process_delivery *)
Definition retrier_process_delivery (delivery : Delivery) : M W (result unit string) :=
  let? item := ret (rmap_err (fun e => "Failed to deserialize QueueItem: " +:+ e)
                     (from_slice (CT := CT) (data delivery))) in
  match item with
  | QRetryConstructProof cc_id =>
      let? raw := map_err (fun e => "Failed to get Redis key: " +:+ e)
                    (get_counter ("failed_proof:" +:+ cc_id)) in
      let value := match raw with Some s => parse_i64 s | None => None end in
      if match value with Some v => MAX_PROOF_FAILURES <=? v | None => false end then
        ret (Err ("Message " +:+ cc_id +:+ " has failed too many times"))
      else
        let? cc := ret (split_cc_id cc_id) in
        let? cached := map_err (fun e => "Failed to get payload: " +:+ e) (cache_get cc) in
        match cached with
        | Some v =>
            let! w := get_world in
            let! _p := queue_publish TASKS_QUEUE (QTask (retry_task (new_uuid w) (now_rfc3339 w) v)) in
            ret (Ok tt)
        | None => ret (Err ("Payload not found in cache for CrossChainId: " +:+ cc_to_string cc))
        end
  | _ => ret (Err "Irrelevant queue item")
  end.

(** src/relayer_base/src/proof_retrier.rs:133-174 ProofRetrier::run (one delivery) *)
Definition retrier_on_delivery (delivery : Delivery) : M W (result unit string) :=
  let? item := ret (rmap_err (fun e => "Failed to deserialize QueueItem: " +:+ e)
                     (from_slice (CT := CT) (data delivery))) in
  match item with
  | QRetryConstructProof _ =>
      let! r := retrier_process_delivery delivery in
      match r with
      | Ok _ => basic_ack (delivery_tag delivery)
      | Err e =>
          if contains "has failed too many times" e then
            let! _n := basic_nack (delivery_tag delivery) false in ret (Ok tt)
          else
            let! _n := queue_republish (CT := CT) CONSTRUCT_PROOF_QUEUE delivery false in ret (Ok tt)
      end
  | _ =>
      let! _n := queue_republish (CT := CT) CONSTRUCT_PROOF_QUEUE delivery true in ret (Ok tt)
  end.
End retrier.

(** ** Properties of the worker *)

Section worker_properties.
Context {CT W : Type} {XM : XrplMessages} {API : GmpApiTrait W} {BC : Broadcaster W} {RM : RefundManager W}.

(** An execute task is acknowledged in three cases only: the chain does
    not care for it, it was broadcast, or it was refused for lack of gas —
    and then, when the message is known, the refusal has been reported to the
    GMP API as [INSUFFICIENT_GAS]. Every other failure comes back as an error,
    so that the delivery is retried. *)
Theorem execute_acknowledged (task : ExecuteTask) (w w' : W) :
  consume_execute task w = (Done (Ok tt), w') ->
  exists r w1, broadcast_execute_message (execute_task task) w = (Done r, w1) /\
    ((exists s, r = Err (BcIrrelevantTask s)) /\ w' = w1 \/
     exists br, r = Ok br /\
       (is_ok (status br) = true /\ broadcast_result_has_message br = true /\ w' = w1 \/
        exists s, status br = Err (BcInsufficientGas s) /\
          match result_message_id br, result_source_chain br with
          | Some m, Some c =>
              cannot_execute_message (id (execute_common task)) m c
                (show_BroadcasterError (BcInsufficientGas s)) InsufficientGas w1 = (Done (Ok tt), w')
          | _, _ => w' = w1
          end)).
Proof.
  unfold consume_execute. rewrite bind_run.
  destruct (broadcast_execute_message (execute_task task) w) as [[r|why] w1]; [|done].
  intros H. exists r, w1. split; [done|]. destruct r as [br|e].
  - right. exists br. split; [done|].
    destruct (broadcast_result_has_message br && is_ok (status br)) eqn:Hb.
    + left. apply andb_true_iff in Hb as [? ?]. by injection H as ->.
    + destruct (status br) as [?|err] eqn:Hs; [done|]. right.
      destruct err as [s|s|s|s|s|s]; cbn zeta iota in H; rewrite bind_ok_run in H;
        destruct (result_message_id br) as [m|], (result_source_chain br) as [c|];
        cbn [ret] in H; try done;
        rewrite ?map_err_run in H;
        try (match type of H with context [cannot_execute_message ?a ?b ?c ?d ?e ?f] =>
          destruct (cannot_execute_message a b c d e f) as [[[[]|]|] w2] eqn:Hc end;
          cbn [rmap_err ret] in H; try done).
      all: exists s; split; [done|]. all: by injection H as ->.
  - left. destruct e; try done. split; [by eexists|]. by injection H as ->.
Qed.

Lemma execute_irrelevant task w w1 s :
  broadcast_execute_message (execute_task task) w = (Done (Err (BcIrrelevantTask s)), w1) ->
  consume_execute task w = (Done (Ok tt), w1).
Proof. intros H. unfold consume_execute. by rewrite bind_run, H. Qed.

(** ** The wallet of the refunds

    [held] counts the wallets that are locked; the chain's operations other
    than the two on locks leave it alone. *)
Class RefundLaws (held : W -> nat) : Prop := {
  processed_quiet : forall t i w, exists r w', is_refund_processed t i w = (Done r, w') /\ held w' = held w;
  build_quiet : forall a b i v w, exists r w', build_refund_tx a b i v w = (Done r, w') /\ held w' = held w;
  broadcast_quiet : forall b w, exists r w', broadcast_refund b w = (Done r, w') /\ held w' = held w;
  events_quiet : forall e w, exists r w', post_events e w = (Done r, w') /\ held w' = held w;
  lock_held : forall w, exists r w', get_wallet_lock w = (Done r, w') /\
    held w' = (held w + if is_ok r then 1 else 0)%nat;
  lock_released : forall v w, exists r w', release_wallet_lock v w = (Done r, w') /\
    (held w = held w' + if is_ok r then 1 else 0)%nat;
}.

Context {held : W -> nat} {RL : RefundLaws held}.

Ltac run_call H :=
  let r := fresh "r" in let w' := fresh "w" in let E := fresh "E" in let Hh := fresh "Hh" in
  destruct H as (r & w' & E & Hh); rewrite ?map_err_run, E; destruct r; cbn [rmap_err is_ok] in Hh |- *.

(** Whatever happens to a refund, the wallet lock it takes is given
    back when it returns [Ok], and after an error at most this one lock is
    still held. *)
Theorem refund_lock_balance (task : RefundTask) (w : W) :
  is_refund_manager_managed (W := W) = true ->
  exists r w', consume_refund task w = (Done r, w') /\
    (held w' = held w \/ held w' = S (held w) /\ is_ok r = false).
Proof.
  intros Hm. unfold consume_refund. rewrite Hm. cbn [negb]. cbv zeta.
  rewrite bind_ok_run. run_call (processed_quiet task (id (refund_common task)) w);
    [|by eexists _, _; split; [reflexivity|left]].
  destruct t; [by eexists _, _; split; [reflexivity|left]|].
  destruct (token_id _); [by eexists _, _; split; [reflexivity|left]|].
  rewrite bind_ok_run. run_call (lock_held w0); [|eexists _, _; split; [reflexivity|left; lia]].
  rewrite bind_ok_run.
  run_call (build_quiet (refund_recipient_address (refund_task task))
    (amount (remaining_gas_balance (refund_task task))) (id (refund_common task)) t w1).
  2: { eexists _, _. split; [reflexivity|]. right. split; [lia|done]. }
  destruct t0 as [[[blob amt] fee]|]; rewrite bind_ok_run.
  - rewrite bind_run. run_call (broadcast_quiet blob w2).
    + rewrite bind_run.
      match goal with |- context [post_events ?e w3] => destruct (events_quiet e w3) as (r4 & w4 & E4 & Hh4) end.
      rewrite E4. cbn [ret]. rewrite bind_ok_run. run_call (lock_released t w4).
      * eexists _, _. split; [reflexivity|]. left. lia.
      * eexists _, _. split; [reflexivity|]. right. split; [lia|done].
    + rewrite bind_ok_run. run_call (lock_released t w3).
      * eexists _, _. split; [reflexivity|]. left. lia.
      * eexists _, _. split; [reflexivity|]. right. split; [lia|done].
  - cbn [ret]. rewrite bind_ok_run. run_call (lock_released t w2).
    + eexists _, _. split; [reflexivity|]. left. lia.
    + eexists _, _. split; [reflexivity|]. right. split; [lia|done].
Qed.

(** A refund whose transaction cannot be built returns the error and
    keeps the wallet locked: the early return skips the release. *)
Theorem refund_build_leaks_lock (task : RefundTask) (w w1 w2 w3 : W) (v : Wallet) (e : RefundManagerError) :
  is_refund_manager_managed (W := W) = true ->
  token_id (remaining_gas_balance (refund_task task)) = None ->
  is_refund_processed task (id (refund_common task)) w = (Done (Ok false), w1) ->
  get_wallet_lock w1 = (Done (Ok v), w2) ->
  build_refund_tx (refund_recipient_address (refund_task task))
    (amount (remaining_gas_balance (refund_task task))) (id (refund_common task)) v w2 = (Done (Err e), w3) ->
  consume_refund task w = (Done (Err (IncConsumerError (show_RefundManagerError e))), w3) /\
  held w3 = S (held w).
Proof.
  intros Hm Ht Hp Hg Hb. split.
  - unfold consume_refund. rewrite Hm. cbn [negb]. cbv zeta. rewrite bind_ok_run, map_err_run, Hp. cbn [rmap_err].
    rewrite Ht, bind_ok_run, map_err_run, Hg. cbn [rmap_err].
    by rewrite bind_ok_run, map_err_run, Hb.
  - destruct (processed_quiet task (id (refund_common task)) w) as (r & x & E & Hh). rewrite Hp in E. simplify_eq.
    destruct (lock_held x) as (r & y & E & Hh2). rewrite Hg in E. simplify_eq. simpl in Hh2.
    match type of Hb with build_refund_tx ?a ?b ?c ?d ?x = _ => destruct (build_quiet a b c d x) as (r & z & E & Hh3) end.
    rewrite Hb in E. simplify_eq. lia.
Qed.
End worker_properties.

(** ** Settling a delivery on the real queue *)

Section settling.
Context {CT W : Type} {IC : ItemCodec CT} {AM : Amqp W} {AL : AmqpLaws W} {P : Propagator} {E : Type}.
Variable name : string.
Variable irrelevant : E -> bool.
Variable handler : string -> M (Queue CT W) (result unit E).

(** The queue of the delivery, with the operations of [queue.rs]. *)
Definition this_queue : QueueApi CT (Queue CT W) := {|
  queue_publish := fun _ item => publish item;
  queue_republish := fun _ d force => republish name d force;
|}.
Definition this_broker : Amqp (Queue CT W) := {|
  basic_publish := fun a b c d => on_broker (basic_publish a b c d);
  basic_ack := fun t => on_broker (basic_ack t);
  basic_nack := fun t b => on_broker (basic_nack t b);
  amqp_connect := fun u => on_broker (amqp_connect u);
  create_channel := on_broker create_channel;
  confirm_select := on_broker confirm_select;
  basic_qos := fun n => on_broker (basic_qos n);
  exchange_declare := fun e => on_broker (exchange_declare e);
  queue_declare := fun q a => on_broker (queue_declare q a);
  queue_bind := fun q e k => on_broker (queue_bind q e k);
  published := fun q => published (broker q);
  acked := fun q => acked (broker q);
  nacked := fun q => nacked (broker q);
  queue_args := fun q => queue_args (broker q);
  bindings := fun q => bindings (broker q);
|}.

(** What answering a delivery leaves, for each result of its handler.
    - [Ok]: it is acknowledged, and nothing else happens.
    - An error of an irrelevant task: it is acknowledged and, if that did not
      fail and the buffer's receiver is there, its item is put at the tail of
      the buffer.
    - Any other error: the buffer is left alone; it is acknowledged only with
      a copy of its item in the retry queue, rejected without a requeue only
      past the retry limit, and otherwise not answered or handed back. *)
Definition settled (d : Delivery) (item : QueueItem CT) (r : result unit E) (q1 q2 : Queue CT W) : Prop :=
  match r with
  | Ok _ => exists a, basic_ack (delivery_tag d) (broker q1) = (Done a, broker q2) /\ buffer q2 = buffer q1
  | Err e =>
      if irrelevant e then exists a, basic_ack (delivery_tag d) (broker q1) = (Done a, broker q2) /\
        buffer q2 = (if is_ok a && receiver_open q1 then buffer q1 ++ [item] else buffer q1)
      else
        buffer q2 = buffer q1 /\
        (acked (broker q2) = acked (broker q1) \/
         acked (broker q2) = acked (broker q1) ++ [delivery_tag d] /\
         exists b p, to_vec item = Ok b /\
           published (broker q2) = published (broker q1) ++ [mkMsg (retry_queue_name name) b p]) /\
        (nacked (broker q2) = nacked (broker q1) \/
         acked (broker q2) = acked (broker q1) /\
         nacked (broker q2) = nacked (broker q1) ++ [(delivery_tag d, negb (MAX_RETRIES <? retry_count (properties d)))])
  end.

Lemma settle_settled (d : Delivery) (item : QueueItem CT) (q : Queue CT W) (r : result unit E) :
  from_slice (data d) = Ok item ->
  exists q2, settle (QA := this_queue) (A := this_broker) irrelevant name d r q = (Done tt, q2) /\ settled d item r q q2.
Proof.
  intros Hd. unfold settle, settled. destruct (ack_done (delivery_tag d) (broker q)) as (ra & wa & Ea & _).
  destruct r as [[]|e]; [|simpl queue_republish; destruct (irrelevant e)].
  - rewrite bind_run. simpl. erewrite on_broker_run by exact Ea. cbn [ret]. eexists. split; [reflexivity|]. by exists ra.
  - unfold republish. rewrite bind_run, Hd, bind_ok_run. cbn [ret].
    erewrite bind_done by (apply on_broker_run; exact Ea). rewrite Ea. destruct ra as [[]|e2].
    + unfold publish, modify. rewrite bind_run. simpl. eexists. split; [reflexivity|]. exists (Ok tt). by destruct (receiver_open q).
    + eexists. split; [reflexivity|]. by exists (Err e2).
  - destruct (republish_run name d item q Hd) as (r2 & q2 & E2 & Hb2 & Ha2 & _ & Hn2).
    erewrite bind_done by exact E2. by exists q2.
Qed.

(** What it comes to while the buffer takes items. *)
Lemma settle_run (d : Delivery) (item : QueueItem CT) (q : Queue CT W) (r : result unit E) :
  from_slice (data d) = Ok item -> receiver_open q = true ->
  (forall tag w e w', basic_ack tag w = (Done (Err e), w') -> acked w' = acked w) ->
  delivery_tag d ∉ acked (broker q) ->
  exists q2, settle (QA := this_queue) (A := this_broker) irrelevant name d r q = (Done tt, q2) /\
    (delivery_tag d ∈ acked (broker q2) ->
       is_ok r = true \/
       (exists b p, to_vec item = Ok b /\ mkMsg (retry_queue_name name) b p ∈ published (broker q2)) \/
       item ∈ buffer q2).
Proof.
  intros Hd Ho Hclean Hna. destruct (settle_settled d item q r Hd) as (q2 & E2 & Hs). exists q2. split; [done|].
  intros Hin. unfold settled in Hs. destruct r as [[]|e]; [by left|]. right. destruct (irrelevant e).
  - destruct Hs as ([[]|ea] & Ea & Hb); simpl in Hb.
    + right. rewrite Hb, Ho. apply elem_of_app. right. by left.
    + by rewrite (Hclean _ _ _ _ Ea) in Hin.
  - destruct Hs as (_ & [Ha|(_ & b & p & Hb & Hp)] & _); [by rewrite Ha in Hin|].
    left. exists b, p. split; [done|]. rewrite Hp. apply elem_of_app. right. by left.
Qed.

(** C3: no delivery is lost.  Its handler runs once, and then its result
    decides.  A success is acknowledged.  After an error that does not stand
    for an irrelevant task the in-memory buffer is not touched: the delivery
    is acknowledged only when the broker was given a copy with the same item
    for the retry queue, and rejected towards the dead letters only past the
    retry limit; in all other cases the broker still has it.  The delivery of
    an irrelevant task is acknowledged, and its item goes to the buffer
    exactly if that did not fail and the queue is not closed. *)
Theorem delivery_not_lost (d : Delivery) (item : QueueItem CT) (q q1 : Queue CT W) (r : result unit E) :
  from_slice (data d) = Ok item -> handler (data d) q = (Done r, q1) ->
  exists q2, on_delivery (QA := this_queue) (A := this_broker) irrelevant handler name d q = (Done tt, q2) /\
    settled d item r q1 q2.
Proof. intros Hd Hh. unfold on_delivery. rewrite bind_run, Hh. by apply settle_settled. Qed.
End settling.

(** ** The proof retrier *)

Lemma split_plain sep (a : string) : ~ In sep (String.list_ascii_of_string a) -> split sep a = [a].
Proof.
  induction a as [|c a IH]; simpl; [done|]. intros Hn.
  destruct (decide (c = sep)) as [->|Hc]; [by destruct Hn; left|]. rewrite IH; [done|]. intros Hin. apply Hn. by right.
Qed.

Lemma split_two sep (a b : string) :
  ~ In sep (String.list_ascii_of_string a) ->
  split sep (a +:+ String sep b) = a :: split sep b.
Proof.
  induction a as [|c a IH]; simpl; intros Hn.
  - by destruct (decide (sep = sep)).
  - destruct (decide (c = sep)) as [->|Hc]; [by destruct Hn; left|]. rewrite IH; [done|].
    intros Hin. apply Hn. by right.
Qed.

(** The retrier finds the payload of the message it is told about as long
    as neither the chain nor the message id contains an underscore; of a
    message id that does, it keeps only the part before the first underscore,
    which is another message. *)
Theorem cc_id_parts {CC : CrossChain} {CL : CrossChainLaws} (s m : string) (c : CrossChainId) :
  cc_new s m = Ok c -> ~ In "_"%char (String.list_ascii_of_string s) ->
  (~ In "_"%char (String.list_ascii_of_string m) -> split_cc_id (cc_to_string c) = Ok c) /\
  (forall m1 m2, m = m1 +:+ String "_"%char m2 -> ~ In "_"%char (String.list_ascii_of_string m1) ->
     split_cc_id (cc_to_string c) =
       rmap_err (fun e => "Failed to parse CrossChainId: " +:+ e) (cc_new s m1)).
Proof.
  intros Hc Hs. unfold split_cc_id. rewrite (cc_new_text s m c Hc).
  change (s +:+ "_" +:+ m) with (s +:+ String "_"%char m). rewrite split_two by done.
  split.
  - intros Hm. rewrite split_plain by done. simpl. by rewrite Hc.
  - intros m1 m2 -> Hm1. rewrite split_two by done. done.
Qed.

Lemma cc_id_parts_witness :
  (~ In "_"%char (String.list_ascii_of_string "0xab_1") ->
     @split_cc_id DbDemo.cross_chain "xrpl_0xab_1" = Ok "xrpl_0xab_1") /\
  (forall m1 m2, "0xab_1" = m1 +:+ String "_"%char m2 -> ~ In "_"%char (String.list_ascii_of_string m1) ->
     @split_cc_id DbDemo.cross_chain "xrpl_0xab_1" =
       rmap_err (fun e => "Failed to parse CrossChainId: " +:+ e) (@cc_new DbDemo.cross_chain "xrpl" m1)).
Proof.
  refine (cc_id_parts (CC := DbDemo.cross_chain) (CL := DbDemo.cross_chain_laws) "xrpl" "0xab_1" "xrpl_0xab_1" eq_refl _).
  simpl. intros H. repeat (destruct H as [H|H]; [discriminate H|]). exact H.
Defined.

Section retrier_properties.
Context {CT W : Type} {CC : CrossChain} {PCT : PayloadCacheTrait W} {QA : QueueApi CT W}
  {RC : RedisCounters W} {IC : ItemCodec CT} {AM : Amqp W}.
Variable new_uuid : W -> string.
Variable now_rfc3339 : W -> string.

(** A proof that has failed ten times is given up: its delivery is
    rejected without requeue, which hands it to the dead-letter queue, and no
    task is published for it. *)
Theorem retrier_gives_up (d : Delivery) (cc_id s : string) (n : Z) (w w1 w2 : W) (r : result unit string) :
  from_slice (CT := CT) (data d) = Ok (QRetryConstructProof cc_id) ->
  get_counter ("failed_proof:" +:+ cc_id) w = (Done (Ok (Some s)), w1) ->
  parse_i64 s = Some n -> MAX_PROOF_FAILURES <= n ->
  basic_nack (delivery_tag d) false w1 = (Done r, w2) ->
  retrier_on_delivery (CT := CT) new_uuid now_rfc3339 d w = (Done (Ok tt), w2).
Proof.
  intros Hd Hg Hp Hn Hk. unfold retrier_on_delivery. rewrite bind_ok_run, Hd. cbn [ret rmap_err].
  assert (E : retrier_process_delivery (CT := CT) new_uuid now_rfc3339 d w =
    (Done (Err ("Message " +:+ cc_id +:+ " has failed too many times")), w1)).
  { unfold retrier_process_delivery. rewrite bind_ok_run, Hd. cbn [ret rmap_err].
    rewrite bind_ok_run, map_err_run, Hg. cbn [rmap_err]. rewrite Hp. cbv zeta.
    by destruct (Z.leb_spec MAX_PROOF_FAILURES n); [|lia]. }
  rewrite bind_run, E.
  assert (Hc : contains "has failed too many times" ("Message " +:+ cc_id +:+ " has failed too many times") = true).
  { assert (Hpre : forall pat a b, contains pat b = true -> contains pat (a +:+ b) = true).
    { intros pat a b Hb. induction a as [|x a IH]; [done|]. simpl. by destruct (strip_prefix pat _). }
    apply Hpre, Hpre. reflexivity. }
  rewrite Hc, bind_run, Hk. done.
Qed.
End retrier_properties.

(** ** A chain for concrete runs

    The world counts the locks that are held. The broadcaster refuses every
    message for lack of gas; no refund transaction can be built. *)

Module IncluderDemo.
Export AuditDemo DbDemo QueueDemo.
#[export] Instance chain_api : GmpApiTrait nat := {|
  get_chain := "ton";
  get_tasks_action := fun _ => ret (Ok []);
  post_events := fun _ => ret (Ok []);
  post_broadcast := fun _ _ => ret (Ok "h");
  get_broadcast_result := fun _ _ => ret (Ok "h");
  post_query := fun _ _ => ret (Ok "q");
  post_payload := fun _ => ret (Ok "p");
  get_payload := fun _ => ret (Ok "p");
  cannot_execute_message := fun _ _ _ _ _ => ret (Ok tt);
  its_interchain_transfer := fun _ => ret (Ok tt);
  map_cannot_execute_message_to_event := fun _ _ _ _ _ => Panic "none";
|}.
#[export] Instance broadcaster : Broadcaster nat := {|
  broadcast_prover_message := fun _ => ret (Err (BcGenericError "no"));
  broadcast_refund := fun _ => ret (Ok "hash");
  broadcast_execute_message := fun t =>
    ret (Ok (mkBroadcast "" (Err (BcInsufficientGas "low")) (Some "m") (Some "c")));
  broadcast_refund_message := fun _ => ret (Ok "hash");
|}.
#[export] Instance refunds : RefundManager nat := {|
  Wallet := unit;
  is_refund_manager_managed := true;
  build_refund_tx := fun a _ _ _ => ret (if decide (a = "bad") then Err (RefInvalidRecipient a) else Ok None);
  is_refund_processed := fun _ _ => ret (Ok false);
  get_wallet_lock := fun n => (Done (Ok tt), S n);
  release_wallet_lock := fun _ n => match n with S n => (Done (Ok tt), n) | O => (Done (Err (RefGenericError "free")), n) end;
|}.
#[export] Instance refund_laws : RefundLaws (fun n : nat => n).
Proof.
  split; intros; try (eexists _, _; split; [reflexivity|]; simpl; lia).
  destruct w as [|n]; eexists _, _; (split; [reflexivity|]); simpl; lia.
Qed.
Definition msg : GatewayV2Message := mkMessage "m" "c" "a" "b" "h".
Definition meta (i : string) : CommonTaskFields := mkCommonTask i "ton" "t" "X" None.
Definition execute : ExecuteTask := mkExecuteTask (meta "e") (mkExecuteFields msg "p" (mkAmount None "1")).
Definition refund (to : string) : RefundTask := mkRefundTask (meta "r") (mkRefundFields msg to (mkAmount None "1")).
End IncluderDemo.
Import IncluderDemo.

Lemma execute_acknowledged_witness :
  exists r w1, broadcast_execute_message (execute_task execute) 0%nat = (Done r, w1) /\
    ((exists s, r = Err (BcIrrelevantTask s)) /\ 0%nat = w1 \/
     exists br, r = Ok br /\
       (is_ok (status br) = true /\ broadcast_result_has_message br = true /\ 0%nat = w1 \/
        exists s, status br = Err (BcInsufficientGas s) /\
          match result_message_id br, result_source_chain br with
          | Some m, Some c =>
              cannot_execute_message (id (execute_common execute)) m c
                (show_BroadcasterError (BcInsufficientGas s)) InsufficientGas w1 = (Done (Ok tt), 0%nat)
          | _, _ => 0%nat = w1
          end)).
Proof. exact (execute_acknowledged execute 0%nat 0%nat eq_refl). Defined.

Lemma refund_lock_balance_witness :
  exists r w', consume_refund (refund "x") 0%nat = (Done r, w') /\ (w' = 0%nat \/ w' = 1%nat /\ is_ok r = false).
Proof. exact (refund_lock_balance (held := fun n : nat => n) (refund "x") 0%nat eq_refl). Defined.

Lemma refund_build_leaks_lock_witness :
  consume_refund (refund "bad") 0%nat = (Done (Err (IncConsumerError "Invalid recipient: bad")), 1%nat) /\ 1%nat = 1%nat.
Proof.
  exact (refund_build_leaks_lock (held := fun n : nat => n) (refund "bad") 0%nat 0%nat 1%nat 1%nat tt
           (RefInvalidRecipient "bad") eq_refl eq_refl eq_refl eq_refl eq_refl).
Defined.

Lemma delivery_not_lost_witness :
  let q := QueueDemo.queue [] [] in
  exists q2, on_delivery (QA := this_queue "q") (A := this_broker) (E := IncluderError) includer_irrelevant
      (fun _ => ret (Err (IncGenericError "no"))) "q" (QueueDemo.delivery 0) q = (Done tt, q2) /\
    buffer q2 = buffer q /\
    (acked (broker q2) = acked (broker q) \/
     acked (broker q2) = acked (broker q) ++ [7] /\
     exists b p, to_vec (QRetryConstructProof (CT := unit) "tx") = Ok b /\
       published (broker q2) = published (broker q) ++ [mkMsg (retry_queue_name "q") b p]) /\
    (nacked (broker q2) = nacked (broker q) \/
     acked (broker q2) = acked (broker q) /\ nacked (broker q2) = nacked (broker q) ++ [(7, true)]).
Proof.
  exact (delivery_not_lost (E := IncluderError) "q" includer_irrelevant (fun _ => ret (Err (IncGenericError "no")))
            (QueueDemo.delivery 0) (QRetryConstructProof "tx") (QueueDemo.queue [] [])
            (QueueDemo.queue [] []) (Err (IncGenericError "no")) eq_refl eq_refl).
Defined.

Module RetrierDemo.
#[export] Instance counters : RedisCounters MemBroker := {|
  incr := fun _ => ret (Ok 11); expire := fun _ _ => ret (Ok tt); get_counter := fun _ => ret (Ok (Some "11"));
|}.
#[export] Instance cache : PayloadCacheTrait MemBroker := {|
  cache_get := fun _ => ret (Ok None); cache_store := fun _ _ => ret (Ok tt); cache_clear := fun _ => ret (Ok tt);
|}.
#[export] Instance queues : QueueApi unit MemBroker := {|
  queue_publish := fun _ _ => ret tt; queue_republish := fun _ _ _ => ret (Ok tt);
|}.
End RetrierDemo.
Import RetrierDemo.

Lemma retrier_gives_up_witness :
  retrier_on_delivery (CT := unit) (fun _ => "u") (fun _ => "t") (QueueDemo.delivery 0) (QueueDemo.idle []) =
    (Done (Ok tt), mkMem [] [] [(7, false)] ∅ [] []).
Proof.
  refine (retrier_gives_up (CT := unit) (fun _ => "u") (fun _ => "t") (QueueDemo.delivery 0) "tx" "11" 11
           (QueueDemo.idle []) (QueueDemo.idle []) _ (Ok tt) eq_refl eq_refl eq_refl _ eq_refl).
  vm_compute. discriminate.
Defined.
