(* ===== verification/Retrier.v ===== *)
(** * The loop of the proof retrier

    [relayer_base/src/proof_retrier.rs], [ProofRetrier::run]: one delivery
    after the other, until an error that [?] lets through. *)

From S2P Require Import Prelude.
From S2P Require Import Decimal.
From S2P Require Import GmpTypes.
From S2P Require Import GmpApi.
From S2P Require Import Database.
From S2P Require Import Redis.
From S2P Require Import Text.
From S2P Require Import Queue.
From S2P Require Import Includer.

Section retrier.
Context {CT W : Type} {CC : CrossChain} {PCT : PayloadCacheTrait W} {QA : QueueApi CT W}
  {RC : RedisCounters W} {IC : ItemCodec CT} {AM : Amqp W}.
Variable new_uuid : W -> string.
Variable now_rfc3339 : W -> string.

(** What the stream of the consumer answers, call after call; [None]: it has
    ended. *)
Abbreviation Stream := (list (option (result Delivery string))).

(** src/relayer_base/src/proof_retrier.rs:131-182 ProofRetrier::run (the loop; [Ok]: it goes on) *)
Fixpoint retrier_loop (stream : Stream) : M W (result unit string) :=
  match stream with
  | [] => ret (Ok tt)
  | Some (Ok delivery) :: stream =>
      let? _u := retrier_on_delivery (CT := CT) new_uuid now_rfc3339 delivery in
      retrier_loop stream
  | Some (Err _) :: stream => retrier_loop stream
  | None :: stream => retrier_loop stream
  end.

(** src/relayer_base/src/proof_retrier.rs:124-183 ProofRetrier::run *)
Definition retrier_run (created : result unit string) (stream : Stream) : M W (result unit string) :=
  match created with
  | Err e => ret (Err ("Failed to create consumer: " +:+ e))
  | Ok _ => retrier_loop stream
  end.

(** A stream that has ended is asked again at once, for ever. *)
Theorem retrier_spins (n : nat) (w : W) : retrier_loop (repeat None n) w = (Done (Ok tt), w).
Proof. induction n as [|n IH]; [done|exact IH]. Qed.

(** One body that cannot be read ends the process.  The delivery is not
    answered and nothing behind it is looked at; the broker delivers it again
    to the next process, which ends the same way. *)
Theorem bad_body_ends (d : Delivery) (e : string) (before behind : Stream) (w w1 : W) :
  from_slice (CT := CT) (data d) = Err e -> retrier_loop before w = (Done (Ok tt), w1) ->
  retrier_loop (before ++ Some (Ok d) :: behind) w = (Done (Err ("Failed to deserialize QueueItem: " +:+ e)), w1) /\
  retrier_run (Ok tt) (Some (Ok d) :: behind) w1 = (Done (Err ("Failed to deserialize QueueItem: " +:+ e)), w1).
Proof.
  intros He. assert (Hd : forall w, retrier_loop (Some (Ok d) :: behind) w = (Done (Err ("Failed to deserialize QueueItem: " +:+ e)), w)).
  { intros w0. simpl. unfold retrier_on_delivery. by rewrite bind_ok_run, bind_ok_run, He. }
  intros Hb. split; [|apply Hd]. revert w Hb. induction before as [|[[x|x]|] before IH]; intros w Hb; [by injection Hb as ->|..].
  - simpl in *. rewrite bind_ok_run in Hb |- *.
    destruct (retrier_on_delivery new_uuid now_rfc3339 x w) as [[[u|e1]|why] w2]; [by apply IH|done..].
  - by apply IH.
  - by apply IH.
Qed.

(** The loop goes on as long as bodies can be read and the broker takes
    every acknowledgement. *)
Theorem retrier_goes_on (stream : Stream) (w : W) :
  (forall d, Some (Ok d) ∈ stream -> exists item, from_slice (CT := CT) (data d) = Ok item) ->
  (forall d w, exists r w', retrier_process_delivery (CT := CT) new_uuid now_rfc3339 d w = (Done r, w')) ->
  (forall tag w, exists w', basic_ack tag w = (Done (Ok tt), w')) ->
  (forall tag b w, exists r w', basic_nack tag b w = (Done r, w')) ->
  (forall q d force w, exists r w', queue_republish (CT := CT) q d force w = (Done r, w')) ->
  exists w', retrier_loop stream w = (Done (Ok tt), w').
Proof.
  intros Hb Hp Ha Hn Hr. revert w. induction stream as [|[[d|e]|] stream IH]; intros w; [by exists w|..].
  2, 3: apply IH; intros d' Hd'; apply Hb; by right.
  assert (Hd : exists w1, retrier_on_delivery (CT := CT) new_uuid now_rfc3339 d w = (Done (Ok tt), w1)).
  { unfold retrier_on_delivery. destruct (Hb d ltac:(by left)) as [item ->]. rewrite bind_ok_run. cbn [ret rmap_err].
    assert (Hrep : forall force w, exists w1, (let! _n := queue_republish (CT := CT) CONSTRUCT_PROOF_QUEUE d force in ret (Ok tt)) w =
      (Done (Ok tt : result unit string), w1)).
    { intros force w0. rewrite bind_run. destruct (Hr CONSTRUCT_PROOF_QUEUE d force w0) as (r & w1 & ->). by eexists. }
    destruct item as [t|t|s]; [apply Hrep..|]. rewrite bind_run. destruct (Hp d w) as (r & w1 & ->).
    destruct r as [u|e]; [by apply Ha|]. destruct (contains _ e); [|apply Hrep].
    rewrite bind_run. destruct (Hn (delivery_tag d) false w1) as (r & w2 & ->). by eexists. }
  destruct Hd as [w1 Hd]. simpl. rewrite bind_ok_run, Hd. apply IH. intros d' Hd'. apply Hb. by right.
Qed.
End retrier.
