(* ===== verification/QueueConsumer.v ===== *)
(** * The consumers of the queues

    [relayer_base/src/queue_consumer.rs], with the connection of
    [relayer_base/src/queue.rs] and the [run] of [includer.rs] and
    [ingestor.rs]: a loop takes deliveries from a consumer's stream and spawns
    a task for each.  The tasks, the rest of the program and the health check
    of the connection run in any order; a task has a point in between, where
    its handler is through and the delivery not settled yet. *)

From S2P Require Import Prelude.
From S2P Require Import GmpTypes.
From S2P Require Import Queue.
From S2P Require Import QueueService.
From S2P Require Import Includer.

Inductive LoopPhase : Type := Consuming | Draining | Returned.

(** One consumer at work.  [tasks] is its tracker: a delivery whose handler
    is yet to run, or the handler's answer.  What was received and how each
    task ended ([None]: its handler panicked) is kept for the statements. *)
Record Consumer (CT W E : Type) : Type := mkConsumer {
  shared : Queue CT W;
  queue_channel : nat;
  channel_alive : bool;
  consumer_channel : nat;
  arrived : list (result Delivery string);
  tasks : list (Delivery * option (result unit E));
  loop_at : LoopPhase;
  token : bool;
  received : list Delivery;
  ended : list (Delivery * option (result unit E));
}.
Arguments mkConsumer {CT W E}.
Arguments shared {CT W E} c.
Arguments queue_channel {CT W E} c.
Arguments channel_alive {CT W E} c.
Arguments consumer_channel {CT W E} c.
Arguments arrived {CT W E} c.
Arguments tasks {CT W E} c.
Arguments loop_at {CT W E} c.
Arguments token {CT W E} c.
Arguments received {CT W E} c.
Arguments ended {CT W E} c.

(** Who moves next: the broker pushes to the stream, the connection breaks,
    the health check ticks, the loop looks at its stream or at the token, a
    task makes one of its two steps, or someone else uses the queue. *)
Inductive event (CT : Type) : Type :=
| Arrive (r : result Delivery string)
| Disconnect
| HealthTick (fuel : nat)
| NextMessage
| StreamEnded
| CancelToken
| ObserveToken
| RunHandler (i : nat)
| SettleDelivery (i : nat)
| AllDone
| Others (m : move (CT := CT)).
Arguments Arrive {CT} r.
Arguments Disconnect {CT}.
Arguments HealthTick {CT} fuel.
Arguments NextMessage {CT}.
Arguments StreamEnded {CT}.
Arguments CancelToken {CT}.
Arguments ObserveToken {CT}.
Arguments RunHandler {CT} i.
Arguments SettleDelivery {CT} i.
Arguments AllDone {CT}.
Arguments Others {CT} m.

Section consumer.
Context {CT W E : Type} {IC : ItemCodec CT} {AM : Amqp W} {TI : Timer W} {P : Propagator}.
Variable name url : string.
Variable num_workers : nat.
Variable irrelevant : E -> bool.
Variable handler : string -> M (Queue CT W) (result unit E).
Abbreviation C := (Consumer CT W E).

Definition with_tasks (q : Queue CT W) (ts : list (Delivery * option (result unit E)))
    (en : list (Delivery * option (result unit E))) (c : C) : C :=
  mkConsumer q (queue_channel c) (channel_alive c) (consumer_channel c) (arrived c) ts (loop_at c) (token c)
    (received c) en.

Definition with_arrived (l : list (result Delivery string)) (c : C) : C :=
  mkConsumer (shared c) (queue_channel c) (channel_alive c) (consumer_channel c) l (tasks c) (loop_at c)
    (token c) (received c) (ended c).

Definition with_loop (p : LoopPhase) (t : bool) (c : C) : C :=
  mkConsumer (shared c) (queue_channel c) (channel_alive c) (consumer_channel c) (arrived c) (tasks c) p t
    (received c) (ended c).

Definition with_channel (q : Queue CT W) (n : nat) (alive : bool) (c : C) : C :=
  mkConsumer q n alive (consumer_channel c) (arrived c) (tasks c) (loop_at c) (token c) (received c) (ended c).

(** src/relayer_base/src/queue.rs:256-259 Queue::is_connected *)
Definition is_connected (c : C) : bool := channel_alive c.

(** src/relayer_base/src/queue.rs:392-407 Queue::refresh_connection *)
Definition refresh_connection (fuel : nat) (c : C) : C :=
  match on_broker (connect name fuel url (Z.of_nat num_workers)) (shared c) with
  | (Done true, q) => with_channel q (S (queue_channel c)) true c
  | (_, q) => with_channel q (queue_channel c) (channel_alive c) c
  end.

(** src/relayer_base/src/queue.rs:242-254 Queue::connection_health_check (one tick) *)
Definition connection_health_check (fuel : nat) (c : C) : C :=
  if is_connected c then c else refresh_connection fuel c.

(** src/relayer_base/src/queue.rs:459-474 Queue::consumer (the stream is bound to the channel of that moment) *)
Definition consumer_new (q : Queue CT W) (channel : nat) : C :=
  mkConsumer q channel true channel [] [] Consuming false [] [].

(** The stream of a consumer ends with its channel. *)
Definition stream_alive (c : C) : bool := channel_alive c && (consumer_channel c =? queue_channel c)%nat.

Definition pending (c : C) : list Delivery :=
  omap (fun r => match r with Ok d => Some d | Err _ => None end) (arrived c).
Definition delivered (c : C) : list Delivery := received c ++ pending c.

Definition is_settled (q : Queue CT W) (tag : Z) : Prop :=
  tag ∈ acked (broker q) \/ tag ∈ map fst (nacked (broker q)).
#[export] Instance is_settled_dec q tag : Decision (is_settled q tag) := _.

(** What the broker waits for an answer to; [basic_qos] bounds it. *)
Definition outstanding (c : C) : list Delivery :=
  filter (fun d => ~ is_settled (shared c) (delivery_tag d)) (delivered c).

(** The broker gives a delivery a tag of its own. *)
Definition may_arrive (d : Delivery) (c : C) : bool :=
  stream_alive c && (length (outstanding c) <? num_workers)%nat &&
  bool_decide (delivery_tag d ∉ map delivery_tag (delivered c)) &&
  bool_decide (~ is_settled (shared c) (delivery_tag d)).

(** src/relayer_base/src/includer.rs:102-114 Includer::on_delivery (the task it spawns) *)
Definition spawn (d : Delivery) (c : C) : C :=
  mkConsumer (shared c) (queue_channel c) (channel_alive c) (consumer_channel c) (arrived c)
    (tasks c ++ [(d, None)]) (loop_at c) (token c) (received c ++ [d]) (ended c).

(** src/relayer_base/src/queue_consumer.rs:27-41 QueueConsumer::work (the next message) *)
Definition on_next (c : C) : option C :=
  match arrived c with
  | Ok delivery :: rest => Some (spawn delivery (with_arrived rest c))
  | Err _ :: rest => Some (with_arrived rest c)
  | [] => if stream_alive c then None else Some c
  end.

(** src/relayer_base/src/includer.rs:109-112 Includer::on_delivery (the handler of a task) *)
Definition run_handler (i : nat) (c : C) : option C :=
  match tasks c !! i with
  | Some (d, None) =>
      let '(o, q) := handler (data d) (shared c) in
      Some match o with
           | Done r => with_tasks q (<[i := (d, Some r)]> (tasks c)) (ended c) c
           | Panic _ => with_tasks q (delete i (tasks c)) (ended c ++ [(d, None)]) c
           end
  | _ => None
  end.

Definition settle_task (i : nat) (c : C) : option C :=
  match tasks c !! i with
  | Some (d, Some r) =>
      let '(_, q) := settle (QA := this_queue name) (A := this_broker) irrelevant name d r (shared c) in
      Some (with_tasks q (delete i (tasks c)) (ended c ++ [(d, Some r)]) c)
  | _ => None
  end.

(** src/relayer_base/src/queue_consumer.rs:16-47 QueueConsumer::work *)
Definition work_step (e : event CT) (c : C) : option C :=
  match e, loop_at c with
  | NextMessage, Consuming => match arrived c with [] => None | _ => on_next c end
  | StreamEnded, Consuming => match arrived c with [] => on_next c | _ => None end
  | ObserveToken, Consuming => if token c then Some (with_loop Draining true c) else None
  | AllDone, Draining => match tasks c with [] => Some (with_loop Returned (token c) c) | _ => None end
  | CancelToken, _ => Some (with_loop (loop_at c) true c)
  | RunHandler i, _ => run_handler i c
  | SettleDelivery i, _ => settle_task i c
  | Arrive (Ok d), _ => if may_arrive d c then Some (with_arrived (arrived c ++ [Ok d]) c) else None
  | Arrive (Err e), _ => if stream_alive c then Some (with_arrived (arrived c ++ [Err e]) c) else None
  | Disconnect, _ => Some (with_channel (shared c) (queue_channel c) false c)
  | HealthTick fuel, _ => Some (connection_health_check fuel c)
  | Others m, _ =>
      Some (with_channel (move_do name (shared c) m) (queue_channel c) (channel_alive c) c)
  | _, _ => None
  end.

(** src/relayer_base/src/includer.rs:156-165 Includer::run (up to the loop: no consumer, no loop) *)
Definition includer_start (created : result unit string) (q : Queue CT W) (channel : nat) : C :=
  match created with
  | Ok _ => consumer_new q channel
  | Err _ => with_loop Returned false (consumer_new q channel)
  end.

(** src/relayer_base/src/ingestor.rs:126-133 Ingestor::run (the first loop to return ends both) *)
Definition ingestor_run_over (events tasks : C) : bool :=
  match loop_at events, loop_at tasks with
  | Returned, _ | _, Returned => true
  | _, _ => false
  end.

(** src/relayer_base/src/ingestor.rs:171-186 run_ingestor (what a signal starts, as the loop sees it) *)
Definition shutdown_order : list (event CT) :=
  [CancelToken; Others MShutdown; Others MDrop; ObserveToken].

Fixpoint work_run (es : list (event CT)) (c : C) : option C :=
  match es with
  | [] => Some c
  | e :: es => match work_step e c with Some c' => work_run es c' | None => None end
  end.

Lemma work_run_app (es1 es2 : list (event CT)) (c : C) :
  work_run (es1 ++ es2) c = match work_run es1 c with Some c' => work_run es2 c' | None => None end.
Proof. revert c. induction es1 as [|e es1 IH]; intros c; simpl; [done|]. by destruct (work_step e c). Qed.
End consumer.

(** ** What a step does to the shared queue *)

Section footprints.
Context {CT W E : Type} {IC : ItemCodec CT} {AM : Amqp W} {AL : AmqpLaws W} {P : Propagator}.
Variable name : string.
Abbreviation Q := (Queue CT W).

(** Nothing that was published is taken back, and a buffered item stays in
    the buffer or reaches the queue. *)
Record later (q q' : Q) : Prop := {
  later_published : forall m, m ∈ published (broker q) -> m ∈ published (broker q');
  later_open : receiver_open q = true -> receiver_open q' = true;
  later_buffer : forall item, item ∈ buffer q -> item ∈ buffer q' \/ on_queue name (broker q') item;
}.

(** A step that answers the broker about one delivery at most. *)
Record touches (t0 : option Z) (q q' : Q) : Prop := {
  touches_later : later q q';
  touches_acked : forall t, Some t <> t0 -> t ∈ acked (broker q') <-> t ∈ acked (broker q);
  touches_settled : forall t, Some t <> t0 -> is_settled q' t <-> is_settled q t;
}.

(** The item is where it will be handled again. *)
Definition safe (q : Q) (item : QueueItem CT) : Prop :=
  item ∈ buffer q \/ on_queue name (broker q) item \/
  exists b p, to_vec item = Ok b /\ mkMsg (retry_queue_name name) b p ∈ published (broker q).

Lemma safe_later q q' item : later q q' -> safe q item -> safe q' item.
Proof.
  intros [Hp _ Hb] [H | [(b & p & E1 & H) | (b & p & E1 & H)]].
  - destruct (Hb _ H) as [H'|H']; [by left|by right; left].
  - right; left. exists b, p. auto.
  - right; right. exists b, p. auto.
Qed.

Lemma later_refl q : later q q.
Proof. split; auto. Qed.

Lemma touches_refl t0 q : touches t0 q q.
Proof. split; [apply later_refl|done|done]. Qed.

Lemma touches_same_acks t0 q q' :
  later q q' -> acked (broker q') = acked (broker q) -> nacked (broker q') = nacked (broker q) -> touches t0 q q'.
Proof. intros Hl Ha Hn. split; [done| |]; intros t _; unfold is_settled; by rewrite Ha, ?Hn. Qed.

Lemma move_touches (m : move (CT := CT)) q :
  m <> MDrop -> receiver_open q = true -> touches None q (move_do name q m).
Proof.
  intros Hm Ho. destruct (move_keeps name m q Hm Ho) as (Ho' & Hp & sent & Hs & Hf).
  apply touches_same_acks.
  - split; [done|done|]. intros item Hin.
    assert (Hin' : item ∈ sent ++ buffer (move_do name q m)).
    { rewrite <- Hs. apply elem_of_app. by right. }
    apply elem_of_app in Hin' as [Hin'|Hin']; [right|by left]. by eapply Forall_forall in Hf; [|exact Hin'].
  - destruct m; simpl; try done; [unfold publish, modify; simpl; by destruct (receiver_open q)|].
    destruct (buffer q) as [|x rest] eqn:Hb; [by rewrite processor_idle|].
    destruct (processor_iteration_run name q x rest Hb Ho) as (i & q1 & -> & _ & _ & _ & Hw & _). simpl. rewrite Hw.
    by destruct (publish_item_run name x false None (broker q)) as (r & w' & -> & ? & _).
  - destruct m; simpl; try done; [unfold publish, modify; simpl; by destruct (receiver_open q)|].
    destruct (buffer q) as [|x rest] eqn:Hb; [by rewrite processor_idle|].
    destruct (processor_iteration_run name q x rest Hb Ho) as (i & q1 & -> & _ & _ & _ & Hw & _). simpl. rewrite Hw.
    by destruct (publish_item_run name x false None (broker q)) as (r & w' & -> & _ & ? & _).
Qed.

Lemma same_buffer_later q w' :
  (forall m, m ∈ published (broker q) -> m ∈ published w') ->
  later q (mkQueue w' (buffer q) (receiver_open q) (shutdown_signal q)).
Proof. intros H. split; simpl; auto. Qed.

Lemma ack_touches tag q :
  exists r q', on_broker (basic_ack tag) q = (Done r, q') /\ touches (Some tag) q q' /\
    buffer q' = buffer q /\ receiver_open q' = receiver_open q.
Proof.
  destruct (ack_done tag (broker q)) as (r & w' & E1 & Hp & Hn & _ & Ha).
  eexists r, _. split; [by apply on_broker_run|]. split; [|done]. split; simpl.
  - apply same_buffer_later. by rewrite Hp.
  - intros t Ht. destruct Ha as [-> | ->]; [done|]. rewrite elem_of_app, list_elem_of_singleton.
    split; [by intros [?| ->]|by left].
  - intros t Ht. unfold is_settled. simpl. rewrite Hn. destruct Ha as [-> | ->]; [done|].
    rewrite elem_of_app, list_elem_of_singleton. split; [by intros [[?| ->]|?]; [left| |right]|].
    intros [?|?]; [by left; left|by right].
Qed.

Lemma nack_touches tag b q :
  exists r q', on_broker (basic_nack tag b) q = (Done r, q') /\ touches (Some tag) q q' /\
    buffer q' = buffer q /\ receiver_open q' = receiver_open q /\ acked (broker q') = acked (broker q).
Proof.
  destruct (nack_done tag b (broker q)) as (r & w' & E1 & Hp & Ha & Hn).
  eexists r, _. split; [by apply on_broker_run|]. split; [|done]. split; simpl.
  - apply same_buffer_later. by rewrite Hp.
  - intros t Ht. by rewrite Ha.
  - intros t Ht. unfold is_settled. simpl. rewrite Ha. destruct Hn as [-> | ->]; [done|].
    rewrite map_app, elem_of_app. simpl. rewrite list_elem_of_singleton.
    split; [by intros [?|[?| ->]]; [left|right|]|]. intros [?|?]; [by left|by right; left].
Qed.

Lemma publish_touches t0 (item : QueueItem CT) q : touches t0 q (snd (publish item q)).
Proof.
  unfold publish, modify. simpl. destruct (receiver_open q); [|apply touches_refl].
  apply touches_same_acks; [|done|done]. split; simpl; [done|done|]. intros x Hx. left. apply elem_of_app. by left.
Qed.

Lemma touches_trans t0 q1 q2 q3 : touches t0 q1 q2 -> touches t0 q2 q3 -> touches t0 q1 q3.
Proof.
  intros [[P1 O1 B1] A1 S1] [[P2 O2 B2] A2 S2]. split; [split|..]; auto.
  - intros item H. destruct (B1 item H) as [H'|(b & p & Eb & H')]; [by apply B2|]. right. exists b, p. auto.
  - intros t Ht. by rewrite A2, A1.
  - intros t Ht. by rewrite S2, S1.
Qed.

Lemma publish_item_touches t0 item retry props q :
  exists r q', on_broker (publish_item name item retry props) q = (Done r, q') /\ touches t0 q q' /\
    buffer q' = buffer q /\ receiver_open q' = receiver_open q.
Proof.
  destruct (publish_item_run name item retry props (broker q)) as (r & w' & E1 & Ha & Hn & Hp).
  eexists r, _. split; [by apply on_broker_run|]. split; [|done].
  apply touches_same_acks; [|done|done]. apply same_buffer_later. intros m Hm.
  destruct Hp as [[-> _] | (b & p & _ & _ & ->)]; [done|]. apply elem_of_app. by left.
Qed.

Lemma republish_touches (d : Delivery) force q :
  exists r q', republish name d force q = (Done r, q') /\ touches (Some (delivery_tag d)) q q' /\
    (forall e, from_slice (CT := CT) (data d) = Err e -> q' = q).
Proof.
  unfold republish. destruct (from_slice (data d)) as [item|e] eqn:Hd; rewrite bind_ok_run; cbn [ret].
  2: { exists (Err e), q. split; [done|]. split; [apply touches_refl|done]. }
  destruct force.
  - destruct (ack_touches (delivery_tag d) q) as (r & q1 & E1 & T1 & _). erewrite bind_done by exact E1.
    destruct r as [[]|e]; [|by exists (Err ("Failed to ack message: " +:+ e)), q1].
    rewrite bind_run. eexists _, _. split; [reflexivity|]. split; [|done].
    eapply touches_trans; [exact T1|]. apply publish_touches.
  - destruct (MAX_RETRIES <? retry_count (properties d)).
    + destruct (nack_touches (delivery_tag d) false q) as (r & q1 & E1 & T1 & _). erewrite bind_done by exact E1.
      eexists _, q1. split; [reflexivity|done].
    + set (props := with_headers _ _).
      destruct (publish_item_touches (Some (delivery_tag d)) item true (Some props) q) as (r & q1 & E1 & T1 & _).
      erewrite bind_done by exact E1. destruct r as [u|e].
      * destruct (ack_touches (delivery_tag d) q1) as (r2 & q2 & E2 & T2 & _). erewrite bind_done by exact E2.
        eexists _, q2. split; [reflexivity|]. split; [by eapply touches_trans|done].
      * destruct (nack_touches (delivery_tag d) true q1) as (r2 & q2 & E2 & T2 & _). erewrite bind_done by exact E2.
        eexists _, q2. split; [reflexivity|]. split; [by eapply touches_trans|done].
Qed.

Lemma settle_touches irrelevant (d : Delivery) (r : result unit E) q :
  exists q', settle (QA := this_queue name) (A := this_broker) irrelevant name d r q = (Done tt, q') /\
    touches (Some (delivery_tag d)) q q' /\
    (is_ok r = false -> forall e, from_slice (CT := CT) (data d) = Err e -> q' = q).
Proof.
  unfold settle. destruct r as [[]|e].
  - destruct (ack_touches (delivery_tag d) q) as (r & q1 & E1 & T1 & _).
    exists q1. split; [|by split]. rewrite bind_run. simpl. by rewrite E1.
  - simpl. destruct (republish_touches d (irrelevant e) q) as (r & q1 & E1 & T1 & Hu).
    exists q1. split; [|split; [done|by intros _]]. rewrite bind_run. simpl. by rewrite E1.
Qed.
End footprints.

(** ** What is true of a consumer at any time *)

Section invariant.
Context {CT W E : Type} {IC : ItemCodec CT} {AM : Amqp W} {AL : AmqpLaws W} {TI : Timer W} {P : Propagator}.
Variable name url : string.
Variable num_workers : nat.
Variable irrelevant : E -> bool.
Variable handler : string -> M (Queue CT W) (result unit E).
(** The handlers leave deliveries to the loop, and an [ack] that fails was
    not counted. *)
Hypothesis handler_touches : forall body q, touches name None q (snd (handler body q)).
Hypothesis ack_clean : forall tag w e w', basic_ack tag w = (Done (Err e), w') -> acked w' = acked w.
(** Declaring the topology answers no delivery. *)
Hypothesis connect_touches : forall fuel q,
  touches name None q (snd (on_broker (connect name fuel url (Z.of_nat num_workers)) q)).
Abbreviation C := (Consumer CT W E).
Abbreviation step := (work_step name url num_workers irrelevant handler).

(** What may be said of a delivery whose task has ended. *)
Definition fate (q : Queue CT W) (d : Delivery) (r : option (result unit E)) : Prop :=
  match r with
  | None => ~ is_settled q (delivery_tag d)
  | Some (Ok _) => True
  | Some (Err _) =>
      match from_slice (CT := CT) (data d) with
      | Err _ => ~ is_settled q (delivery_tag d)
      | Ok item => delivery_tag d ∈ acked (broker q) -> safe name q item
      end
  end.

Record consumer_ok (c : C) : Prop := {
  ok_open : receiver_open (shared c) = true;
  ok_received : received c ≡ₚ map fst (tasks c) ++ map fst (ended c);
  ok_tags : NoDup (map delivery_tag (delivered c));
  ok_returned : loop_at c = Returned -> tasks c = [];
  ok_pending : forall d, d ∈ pending c -> ~ is_settled (shared c) (delivery_tag d);
  ok_tasks : forall d r, (d, r) ∈ tasks c -> ~ is_settled (shared c) (delivery_tag d);
  ok_ended : forall d r, (d, r) ∈ ended c -> fate (shared c) d r;
}.

Lemma fate_touches t0 q q' d r :
  touches name t0 q q' -> Some (delivery_tag d) <> t0 -> fate q d r -> fate q' d r.
Proof.
  intros [Hl Ha Hs] Ht. unfold fate. destruct r as [[u|e]|]; [done| |by rewrite Hs].
  destruct (from_slice (data d)); [|by rewrite Hs]. rewrite Ha by done. intros H Hin.
  by eapply safe_later, H.
Qed.

Lemma new_ok (q : Queue CT W) n : receiver_open q = true -> consumer_ok (consumer_new q n).
Proof.
  intros Ho. split; simpl; try done.
  - constructor.
  - by intros d ?%not_elem_of_nil.
  - by intros d r ?%not_elem_of_nil.
  - by intros d r ?%not_elem_of_nil.
Qed.

Lemma shared_ok (c : C) q n alive :
  consumer_ok c -> touches name None (shared c) q -> consumer_ok (with_channel q n alive c).
Proof.
  intros [Ho Hr Ht Hl Hp Hk He] T. pose proof (touches_settled _ _ _ _ T) as Ts.
  split; simpl; try done.
  - by apply (later_open _ _ _ (touches_later _ _ _ _ T)).
  - intros d Hd. rewrite Ts by done. by apply Hp.
  - intros d r Hd. rewrite Ts by done. by eapply Hk.
  - intros d r Hd. eapply fate_touches; [exact T|done|]. by apply He.
Qed.

Lemma spawn_ok (c : C) d rest :
  consumer_ok c -> loop_at c = Consuming -> arrived c = Ok d :: rest -> consumer_ok (spawn d (with_arrived rest c)).
Proof.
  intros [Ho Hr Ht Hl Hp Hk He] El Ea.
  assert (Epend : pending c = d :: pending (with_arrived rest c)) by (unfold pending; by rewrite Ea).
  assert (Edel : delivered (spawn d (with_arrived rest c)) = delivered c).
  { unfold delivered. rewrite Epend. simpl. by rewrite <- app_assoc. }
  split; try done.
  - simpl. rewrite Hr, map_app. simpl. rewrite <- !app_assoc. simpl.
    rewrite (Permutation_app_comm (map fst (ended c)) [d]). done.
  - by rewrite Edel.
  - simpl. by rewrite El.
  - intros d' Hd'. apply Hp. rewrite Epend. by right.
  - simpl. intros d' r Hin. apply elem_of_app in Hin as [Hin|Hin%list_elem_of_singleton]; [by eapply Hk|].
    injection Hin as -> ->. apply Hp. rewrite Epend. by left.
Qed.

Lemma skip_ok (c : C) e rest : consumer_ok c -> arrived c = Err e :: rest -> consumer_ok (with_arrived rest c).
Proof.
  intros [Ho Hr Ht Hl Hp Hk He] Ea.
  assert (Epend : pending c = pending (with_arrived rest c)) by (unfold pending; by rewrite Ea).
  split; try done; [unfold delivered in *; by rewrite <- Epend|]. intros d Hd. apply Hp. by rewrite Epend.
Qed.

Lemma arrive_ok (c : C) r :
  consumer_ok c ->
  (forall d, r = Ok d -> (delivery_tag d ∉ map delivery_tag (delivered c)) /\
     ~ is_settled (shared c) (delivery_tag d)) ->
  consumer_ok (with_arrived (arrived c ++ [r]) c).
Proof.
  intros [Ho Hr Ht Hl Hp Hk He] Hd.
  assert (Epend : pending (with_arrived (arrived c ++ [r]) c) =
    pending c ++ (match r with Ok d => [d] | Err _ => [] end)).
  { unfold pending. simpl. rewrite omap_app. by destruct r. }
  split; try done.
  - unfold delivered in *. rewrite Epend. simpl. rewrite app_assoc, map_app. apply NoDup_app.
    split; [done|]. destruct r as [d|e]; simpl; [|split; [by intros ? _ ?%not_elem_of_nil|constructor]].
    destruct (Hd d eq_refl) as [Hf _]. split; [|apply NoDup_singleton].
    by intros x Hx ->%list_elem_of_singleton.
  - intros d Hin. rewrite Epend in Hin. apply elem_of_app in Hin as [Hin|Hin]; [by apply Hp|].
    destruct r as [d'|e]; [|by apply not_elem_of_nil in Hin]. apply list_elem_of_singleton in Hin as ->.
    by apply Hd.
Qed.

(** The tags of a task, of the other tasks, of what ended and of what is yet
    to be received differ. *)
Lemma task_tags (c : C) i d r d' :
  consumer_ok c -> tasks c !! i = Some (d, r) ->
  ((exists r', (d', r') ∈ delete i (tasks c)) \/ (exists r', (d', r') ∈ ended c) \/ d' ∈ pending c) ->
  delivery_tag d' <> delivery_tag d.
Proof.
  intros [Ho Hr Ht Hl Hp Hk He] Hi Hd'. pose proof (delete_Permutation _ _ _ Hi) as Hperm.
  unfold delivered in Ht. rewrite map_app in Ht.
  assert (Hnd : NoDup (delivery_tag d :: map delivery_tag
    (map fst (delete i (tasks c)) ++ map fst (ended c) ++ pending c))).
  { eapply NoDup_Permutation_proper; [|exact Ht].
    rewrite <- map_app. change (delivery_tag d :: map delivery_tag (map fst (delete i (tasks c)) ++ map fst (ended c) ++ pending c))
      with (map delivery_tag (d :: map fst (delete i (tasks c)) ++ map fst (ended c) ++ pending c)).
    apply Permutation_map. pose proof (Permutation_map fst Hperm) as Hf. rewrite Hr, Hf. simpl.
    by rewrite <- app_assoc. }
  apply NoDup_cons in Hnd as [Hni _]. intros Heq. apply Hni. rewrite <- Heq.
  apply (list_elem_of_fmap_2 delivery_tag). apply elem_of_app.
  destruct Hd' as [[r' Hin] | [[r' Hin] | Hin]].
  - left. by apply (list_elem_of_fmap_2 fst _ (d', r')).
  - right. apply elem_of_app. left. by apply (list_elem_of_fmap_2 fst _ (d', r')).
  - right. apply elem_of_app. by right.
Qed.

Lemma in_delete (c : C) i x : x ∈ delete i (tasks c) -> x ∈ tasks c.
Proof. intros H. eapply elem_of_submseteq; [exact H|]. apply sublist_submseteq, sublist_delete. Qed.

Lemma received_delete (c : C) i d r r' :
  received c ≡ₚ map fst (tasks c) ++ map fst (ended c) -> tasks c !! i = Some (d, r) ->
  received c ≡ₚ map fst (delete i (tasks c)) ++ map fst (ended c ++ [(d, r')]).
Proof.
  intros Hr Hi. pose proof (Permutation_map fst (delete_Permutation _ _ _ Hi)) as Hf.
  rewrite Hr, Hf, map_app. simpl. rewrite app_assoc. apply Permutation_cons_append.
Qed.

Lemma handler_ok (c c' : C) i : consumer_ok c -> run_handler handler i c = Some c' -> consumer_ok c'.
Proof.
  intros Hok. unfold run_handler. destruct (tasks c !! i) as [[d [r|]]|] eqn:Hi; [done| |done].
  pose proof (handler_touches (data d) (shared c)) as T.
  destruct (handler (data d) (shared c)) as [o q]. simpl in T. intros [= <-].
  pose proof (shared_ok c q (queue_channel c) (channel_alive c) Hok T) as [Ho Hr Ht Hl Hp Hk He]. simpl in *.
  assert (Hd : ~ is_settled q (delivery_tag d)) by (eapply Hk; by eapply list_elem_of_lookup_2).
  destruct o as [r|why]; split; simpl; try done.
  - replace (map fst (<[i:=(d, Some r)]> (tasks c))) with (map fst (tasks c)); [done|].
    symmetry. etransitivity; [apply (list_fmap_insert fst)|]. apply list_insert_id. by rewrite list_lookup_fmap, Hi.
  - intros H. rewrite (Hl H) in Hi. done.
  - intros d' r' Hin. apply list_elem_of_lookup_1 in Hin as [j Hj].
    apply list_lookup_insert_Some in Hj as [(_ & [= <- <-] & _) | [_ Hj]]; [done|].
    eapply Hk. by eapply list_elem_of_lookup_2.
  - by eapply received_delete.
  - intros H. by rewrite (Hl H).
  - intros d' r' Hin. eapply Hk. by eapply in_delete.
  - intros d' r' Hin. apply elem_of_app in Hin as [Hin|[= -> ->]%list_elem_of_singleton]; [by apply He|done].
Qed.

Lemma settle_ok (c c' : C) i : consumer_ok c -> settle_task name irrelevant i c = Some c' -> consumer_ok c'.
Proof.
  intros Hok. unfold settle_task. destruct (tasks c !! i) as [[d [r|]]|] eqn:Hi; [|done..].
  destruct (settle_touches name irrelevant d r (shared c)) as (q & Eq & T & Hu). rewrite Eq. intros [= <-].
  pose proof (fun d' => task_tags c i d (Some r) d' Hok Hi) as Hne.
  pose proof Hok as [Ho Hr Ht Hl Hp Hk He]. pose proof (touches_settled _ _ _ _ T) as Ts.
  assert (Hd : ~ is_settled (shared c) (delivery_tag d)) by (eapply Hk; by eapply list_elem_of_lookup_2).
  split; simpl; try done.
  - by apply (later_open _ _ _ (touches_later _ _ _ _ T)).
  - by eapply received_delete.
  - intros H. by rewrite (Hl H).
  - intros d' Hd'. rewrite Ts; [by apply Hp|]. intros [= Heq]. by apply (Hne d'); [right; right|].
  - intros d' r' Hd'. rewrite Ts; [by eapply Hk, in_delete|].
    intros [= Heq]. by apply (Hne d'); [left; exists r'|].
  - intros d' r' Hin. apply elem_of_app in Hin as [Hin|[= -> ->]%list_elem_of_singleton].
    + eapply fate_touches; [exact T| |by apply He]. intros [= Heq]. by apply (Hne d'); [right; left; exists r'|].
    + unfold fate. destruct r as [u|e]; [done|]. destruct (from_slice (data d)) as [item|e'] eqn:Ef.
      * destruct (settle_run name irrelevant d item (shared c) (Err e) Ef Ho ack_clean) as (q2 & E2 & Hs).
        { intros Hin. apply Hd. by left. }
        rewrite Eq in E2. injection E2 as <-. intros Hin.
        destruct (Hs Hin) as [[=]|[H|H]]; [by right; right|by left].
      * by rewrite (Hu eq_refl e' eq_refl).
Qed.

Lemma step_ok (e : event CT) (c c' : C) :
  consumer_ok c -> e <> Others MDrop -> step e c = Some c' -> consumer_ok c'.
Proof.
  intros Hok He Es.
  assert (Hloop : forall p t, (p = Returned -> tasks c = []) -> consumer_ok (with_loop p t c)).
  { intros p t H. by destruct Hok. }
  destruct e as [r| |fuel| | | | |i|i| |m]; simpl in Es.
  - destruct r as [d|e]; [destruct (may_arrive num_workers d c) eqn:Hm|destruct (stream_alive c)]; simplify_eq.
    + apply arrive_ok; [done|]. intros d' [= <-]. unfold may_arrive in Hm.
      rewrite !andb_true_iff, !bool_decide_eq_true in Hm. tauto.
    + by apply arrive_ok.
  - injection Es as <-. apply shared_ok; [done|apply touches_refl].
  - injection Es as <-. unfold connection_health_check. destruct (is_connected c); [done|].
    unfold refresh_connection. pose proof (connect_touches fuel (shared c)) as T.
    destruct (on_broker _ _) as [[[]|why] q]; by apply shared_ok.
  - destruct (loop_at c) eqn:El; try done. destruct (arrived c) as [|[d|e] rest] eqn:Ea; [done| |];
      unfold on_next in Es; rewrite Ea in Es; injection Es as <-; [by apply spawn_ok|by eapply skip_ok].
  - destruct (loop_at c) eqn:El; try done. destruct (arrived c) as [|[d|e] rest] eqn:Ea; [|done..].
    unfold on_next in Es. rewrite Ea in Es. destruct (stream_alive c); by simplify_eq.
  - injection Es as <-. apply Hloop. apply Hok.
  - destruct (loop_at c); try done. destruct (token c); simplify_eq. by apply Hloop.
  - by eapply handler_ok.
  - by eapply settle_ok.
  - destruct (loop_at c); try done. destruct (tasks c); simplify_eq. by apply Hloop.
  - injection Es as <-. apply shared_ok; [done|]. apply move_touches; [by intros ->|apply Hok].
Qed.

Lemma run_ok (es : list (event CT)) (c c' : C) :
  consumer_ok c -> Others MDrop ∉ es -> work_run name url num_workers irrelevant handler es c = Some c' ->
  consumer_ok c'.
Proof.
  revert c. induction es as [|e es IH]; intros c Hok Hd; [by intros [= <-]|].
  apply not_elem_of_cons in Hd as [He Hd]. simpl. destruct (step e c) as [c1|] eqn:E1; [|done].
  intros Hr. eapply IH; [|done|exact Hr]. by eapply step_ok.
Qed.

(** C14: handled concurrently, in any order, and with the rest of the program
    and a failing connection around them, deliveries are accounted for.  At
    any time until the queue is closed, every delivery received is in the
    hands of one task or its task has ended; one that the broker counts as
    acknowledged was handled with success or its item is on a queue, in the
    retry queue or in the buffer; and when [work] returns no task is left. *)
Theorem consumer_accounts (es : list (event CT)) (q : Queue CT W) (n : nat) (c : C) :
  receiver_open q = true -> Others MDrop ∉ es ->
  work_run name url num_workers irrelevant handler es (consumer_new q n) = Some c ->
  received c ≡ₚ map fst (tasks c) ++ map fst (ended c) /\
  (loop_at c = Returned -> tasks c = []) /\
  forall d item, d ∈ received c -> from_slice (data d) = Ok item ->
    delivery_tag d ∈ acked (broker (shared c)) ->
    (d, Some (Ok tt)) ∈ ended c \/ safe name (shared c) item.
Proof.
  intros Ho Hd Hr. assert (Hok : consumer_ok c).
  { eapply run_ok; [|exact Hd|exact Hr]. by apply new_ok. }
  destruct Hok as [_ Hrec _ Hl _ Hk He]. split; [done|]. split; [done|].
  intros d item Hin Hi Ha. rewrite Hrec in Hin. apply elem_of_app in Hin as [Hin|Hin];
    apply list_elem_of_fmap in Hin as ([d' r] & -> & Hin); simpl in *.
  - exfalso. eapply Hk; [exact Hin|by left].
  - specialize (He _ _ Hin). unfold fate in He. destruct r as [[[]|e]|]; [by left| |].
    + rewrite Hi in He. right. by apply He.
    + exfalso. apply He. by left.
Qed.

(** ** Deliveries that starve the consumer *)

(** A task that ended without an answer to the broker: its handler panicked,
    or failed on a body that [republish] cannot read either. *)
Definition poison (x : Delivery * option (result unit E)) : bool :=
  match x with
  | (_, None) => true
  | (d, Some (Err _)) => negb (is_ok (from_slice (CT := CT) (data d)))
  | _ => false
  end.

Definition poisoned (c : C) : nat := length (filter (fun x => poison x = true) (ended c)).

Lemma poison_outstanding (c : C) : consumer_ok c -> (poisoned c <= length (outstanding c))%nat.
Proof.
  intros Hok. unfold outstanding, delivered, poisoned.
  rewrite list_basics.list.filter_app, length_app, (ok_received _ Hok), list_basics.list.filter_app, length_app.
  pose proof (ok_ended _ Hok) as He.
  enough (H : (length (filter (fun x => poison x = true) (ended c)) <=
    length (filter (fun d => ~ is_settled (shared c) (delivery_tag d)) (map fst (ended c))))%nat) by lia.
  induction (ended c) as [|[d r] l IH]; [done|].
  assert (IHl := IH (fun d r H => He d r (list_elem_of_further _ _ _ H))).
  specialize (He d r (list_elem_of_here _ _)). simpl map. rewrite !filter_cons. unfold fate in He. simpl in He |- *.
  destruct r as [[u|e]|]; simpl.
  - case_decide; simpl; lia.
  - destruct (from_slice (data d)); simpl; repeat case_decide; simpl; solve [lia|done].
  - repeat case_decide; simpl; solve [lia|done].
Qed.

(** What a step does to what was delivered, apart from an arrival. *)
Lemma step_delivered (e : event CT) (c c' : C) :
  step e c = Some c' ->
  (exists d, e = Arrive (Ok d) /\ may_arrive num_workers d c = true) \/ delivered c' = delivered c.
Proof.
  intros Es. destruct e as [r| |fuel| | | | |i|i| |m]; simpl in Es.
  - destruct r as [d|e].
    + destruct (may_arrive num_workers d c) eqn:Hm; [left; by exists d|done].
    + right. destruct (stream_alive c); simplify_eq. unfold delivered, pending. simpl.
      by rewrite omap_app, app_nil_r.
  - right. by injection Es as <-.
  - right. injection Es as <-. unfold connection_health_check. destruct (is_connected c); [done|].
    unfold refresh_connection. by destruct (on_broker _ _) as [[[]|why] q].
  - right. destruct (loop_at c); try done. unfold on_next in Es.
    destruct (arrived c) as [|[d|e] rest] eqn:Ea; simplify_eq; unfold delivered, pending; simpl; rewrite Ea; [|done].
    simpl. by rewrite <- app_assoc.
  - right. destruct (loop_at c); try done. destruct (arrived c) as [|[d|e] rest] eqn:Ea; try done.
    unfold on_next in Es. rewrite Ea in Es. by destruct (stream_alive c); simplify_eq.
  - right. by injection Es as <-.
  - right. destruct (loop_at c); try done. by destruct (token c); simplify_eq.
  - right. unfold run_handler in Es. destruct (tasks c !! i) as [[d [r|]]|]; [done| |done].
    destruct (handler (data d) (shared c)) as [[r|why] q]; by injection Es as <-.
  - right. unfold settle_task in Es. destruct (tasks c !! i) as [[d [r|]]|]; [|done..].
    destruct (settle _ _ _ _ _) as [o q]. by injection Es as <-.
  - right. destruct (loop_at c); try done. by destruct (tasks c); simplify_eq.
  - right. by injection Es as <-.
Qed.

Lemma step_ended (e : event CT) (c c' : C) :
  step e c = Some c' -> exists l, ended c' = ended c ++ l.
Proof.
  intros Es. assert (Hnil : exists l, ended c = ended c ++ l) by (exists []; by rewrite app_nil_r).
  destruct e as [[d|e]| |fuel| | | | |i|i| |m]; simpl in Es.
  9: { unfold run_handler in Es. destruct (tasks c !! i) as [[d [r|]]|]; [done| |done].
       destruct (handler (data d) (shared c)) as [[r|why] q]; injection Es as <-; simpl; [done|by eexists]. }
  9: { unfold settle_task in Es. destruct (tasks c !! i) as [[d [r|]]|]; [|done..].
       destruct (settle _ _ _ _ _) as [o q]. injection Es as <-. by eexists. }
  4: { injection Es as <-. unfold connection_health_check, refresh_connection.
       destruct (is_connected c); [done|]. by destruct (on_broker _ _) as [[[]|why] q]. }
  all: unfold on_next in Es; simplify_eq/=; repeat (case_match; simplify_eq/=); done.
Qed.

(** Poison starves the consumer.  A task that panics, or that fails on a
    body nobody can read, leaves its delivery unanswered for good, and the
    broker hands out [num_workers] unanswered deliveries at most: once so many
    were poison, nothing is delivered on this channel any more, on any
    schedule. *)
Theorem poison_starves (es1 es2 : list (event CT)) (q : Queue CT W) (n : nat) (c c' : C) :
  receiver_open q = true -> Others MDrop ∉ es1 ++ es2 ->
  work_run name url num_workers irrelevant handler es1 (consumer_new q n) = Some c ->
  (num_workers <= poisoned c)%nat ->
  work_run name url num_workers irrelevant handler es2 c = Some c' ->
  delivered c' = delivered c /\ (num_workers <= length (outstanding c'))%nat.
Proof.
  intros Ho Hd H1 Hp H2. rewrite not_elem_of_app in Hd. destruct Hd as [Hd1 Hd2].
  assert (Hok : consumer_ok c) by (eapply run_ok; [by apply new_ok|exact Hd1|exact H1]). clear H1 Hd1.
  revert c Hok Hp H2. induction es2 as [|e es IH]; intros c Hok Hp; simpl.
  { intros [= <-]. split; [done|]. pose proof (poison_outstanding c Hok). lia. }
  apply not_elem_of_cons in Hd2 as [He Hd2]. destruct (step e c) as [c1|] eqn:Es; [|done]. intros H2.
  assert (Hp1 : (num_workers <= poisoned c1)%nat).
  { destruct (step_ended _ _ _ Es) as [l El]. unfold poisoned in *.
    rewrite El, list_basics.list.filter_app, length_app. lia. }
  destruct (IH Hd2 c1) as [Hdel Hout]; [by eapply step_ok|done|done|]. split; [|done].
  rewrite Hdel. destruct (step_delivered _ _ _ Es) as [(d & -> & Hm)|Heq]; [|done]. exfalso.
  unfold may_arrive in Hm. rewrite !andb_true_iff, Nat.ltb_lt in Hm.
  pose proof (poison_outstanding c Hok). lia.
Qed.
End invariant.

(** ** A connection that breaks, and a shutdown *)

Section connection.
Context {CT W E : Type} {IC : ItemCodec CT} {AM : Amqp W} {TI : Timer W} {P : Propagator}.
Variable name url : string.
Variable num_workers : nat.
Variable irrelevant : E -> bool.
Variable handler : string -> M (Queue CT W) (result unit E).
Abbreviation C := (Consumer CT W E).

Definition stream_over (c : C) : Prop :=
  (consumer_channel c < queue_channel c)%nat \/
  (consumer_channel c = queue_channel c /\ channel_alive c = false).

Lemma stream_over_dead (c : C) : stream_over c -> stream_alive c = false.
Proof.
  unfold stream_alive. intros [H|[H1 ->]]; [|done]. apply andb_false_iff. right. apply Nat.eqb_neq. lia.
Qed.

Lemma step_over (e : event CT) (c c' : C) :
  work_step name url num_workers irrelevant handler e c = Some c' -> stream_over c -> stream_over c'.
Proof.
  unfold stream_over. intros Es Hs. destruct e as [[d|e]| |fuel| | | | |i|i| |m]; simpl in Es.
  9: { unfold run_handler in Es. destruct (tasks c !! i) as [[d [r|]]|]; [done| |done].
       by destruct (handler (data d) (shared c)) as [[r|why] q]; injection Es as <-. }
  9: { unfold settle_task in Es. destruct (tasks c !! i) as [[d [r|]]|]; [|done..].
       destruct (settle _ _ _ _ _) as [o q]. by injection Es as <-. }
  4: { injection Es as <-. unfold connection_health_check, refresh_connection.
       destruct (is_connected c); [done|]. destruct (on_broker _ _) as [[[]|why] q]; [|done..].
       left. simpl. lia. }
  3: { injection Es as <-. simpl. destruct Hs as [Hs|[Hs _]]; [by left|by right]. }
  all: unfold on_next in Es; simplify_eq/=; repeat (case_match; simplify_eq/=); done.
Qed.

(** A consumer is deaf once its connection broke.  The health check
    opens a new channel for the publisher, but the stream of the consumer
    belongs to the old one: whatever happens later, reconnecting any number
    of times included, nothing is delivered to the loop, which goes on asking
    an ended stream until it is told to stop. *)
Theorem deaf_after_disconnect (es : list (event CT)) (c c' : C) :
  stream_over c -> work_run name url num_workers irrelevant handler es c = Some c' ->
  delivered c' = delivered c /\ stream_alive c' = false /\
  (loop_at c' = Consuming -> arrived c' = [] ->
   work_step name url num_workers irrelevant handler StreamEnded c' = Some c').
Proof.
  revert c. induction es as [|e es IH]; intros c Hs; simpl.
  - intros [= <-]. split; [done|]. split; [by apply stream_over_dead|]. intros Hl Ha.
    simpl. rewrite Hl, Ha. unfold on_next. by rewrite Ha, stream_over_dead.
  - destruct (work_step name url num_workers irrelevant handler e c) as [c1|] eqn:Es; [|done]. intros Hr.
    destruct (IH c1 (step_over _ _ _ Es Hs) Hr) as [Hdel Hrest]. split; [|done]. rewrite Hdel.
    destruct (step_delivered _ _ _ _ _ _ _ _ Es) as [(d & -> & Hm)|Heq]; [|done].
    unfold may_arrive in Hm. by rewrite (stream_over_dead c Hs) in Hm.
Qed.

(** What the tasks have yet to do. *)
Fixpoint work_left (ts : list (Delivery * option (result unit E))) : nat :=
  match ts with
  | [] => 0
  | (_, None) :: ts => 2 + work_left ts
  | (_, Some _) :: ts => 1 + work_left ts
  end%nat.

Definition is_task_step (e : event CT) : bool :=
  match e with RunHandler _ | SettleDelivery _ => true | _ => false end.

Lemma work_left_at ts i x : ts !! i = Some x ->
  work_left ts = (match snd x with None => 2 | Some _ => 1 end + work_left (delete i ts))%nat /\
  forall r, work_left (<[i := (fst x, Some r)]> ts) = (1 + work_left (delete i ts))%nat.
Proof.
  revert i. induction ts as [|[d y] ts IH]; intros i Hi; [done|]. destruct i as [|i].
  - injection Hi as <-. simpl. by destruct y.
  - destruct (IH i Hi) as [H1 H2]. simpl. split.
    + rewrite H1. destruct y; lia.
    + intros r. rewrite H2. destruct y; lia.
Qed.

Lemma task_step_left (e : event CT) (c c' : C) :
  work_step name url num_workers irrelevant handler e c = Some c' -> is_task_step e = true ->
  loop_at c' = loop_at c /\ (work_left (tasks c') < work_left (tasks c))%nat.
Proof.
  intros Es He. destruct e; try done; simpl in Es.
  - unfold run_handler in Es. destruct (tasks c !! i) as [[d [r|]]|] eqn:Hi; [done| |done].
    destruct (work_left_at _ _ _ Hi) as [H1 H2]. simpl in H1, H2.
    destruct (handler (data d) (shared c)) as [[r|why] q]; injection Es as <-; simpl; (split; [done|]).
    + rewrite H2. lia.
    + lia.
  - unfold settle_task in Es. destruct (tasks c !! i) as [[d [r|]]|] eqn:Hi; [|done..].
    destruct (work_left_at _ _ _ Hi) as [H1 _]. simpl in H1.
    destruct (settle _ _ _ _ _) as [o q]. injection Es as <-. simpl. split; [done|lia].
Qed.

Lemma task_step_enabled (c : C) : tasks c <> [] ->
  exists e c', is_task_step e = true /\ work_step name url num_workers irrelevant handler e c = Some c'.
Proof.
  intros Ht. destruct (tasks c) as [|[d r] ts] eqn:Et; [done|]. destruct r as [r|].
  - exists (SettleDelivery 0). simpl. unfold settle_task. rewrite Et. simpl.
    destruct (settle _ _ _ _ _) as [o q]. by eexists.
  - exists (RunHandler 0). simpl. unfold run_handler. rewrite Et. simpl.
    destruct (handler _ _) as [o q]. by eexists.
Qed.

(** A shutdown comes to its end.  Once the loop has seen the token, its
    tasks can make two steps per delivery at most, whatever the order, and
    wherever they are there is a way on until all are through and [work]
    returns. *)
Theorem drain_ends (c : C) :
  loop_at c = Draining ->
  (forall es c', Forall (fun e => is_task_step e = true) es ->
     work_run name url num_workers irrelevant handler es c = Some c' ->
     loop_at c' = Draining /\ (length es + work_left (tasks c') <= 2 * length (tasks c))%nat) /\
  exists es c', (length es <= S (2 * length (tasks c)))%nat /\
    work_run name url num_workers irrelevant handler es c = Some c' /\ loop_at c' = Returned /\ tasks c' = [].
Proof.
  assert (Hb : forall ts : list (Delivery * option (result unit E)), (work_left ts <= 2 * length ts)%nat).
  { induction ts as [|[d [r|]] ts IH]; simpl; lia. }
  intros Hl. split.
  - intros es c' Hf Hr. enough (loop_at c' = Draining /\ (length es + work_left (tasks c') <= work_left (tasks c))%nat)
      as [? ?] by (split; [done|specialize (Hb (tasks c)); lia]).
    revert c Hl Hr. induction Hf as [|e es He Hf IH]; intros c Hl; simpl; [by intros [= <-]|].
    destruct (work_step _ _ _ _ _ e c) as [c1|] eqn:Es; [|done]. intros Hr.
    destruct (task_step_left _ _ _ Es He) as [Hl1 Hlt]. destruct (IH c1) as [H1 H2]; [by rewrite Hl1|done|].
    split; [done|lia].
  - enough (exists es c', (length es <= S (work_left (tasks c)))%nat /\
      work_run name url num_workers irrelevant handler es c = Some c' /\ loop_at c' = Returned /\ tasks c' = [])
      as (es & c' & H & ?) by (exists es, c'; split; [specialize (Hb (tasks c)); lia|done]).
    remember (work_left (tasks c)) as k eqn:Hk. revert c Hl Hk.
    induction k as [k IH] using lt_wf_ind. intros c Hl Hk.
    destruct (decide (tasks c = [])) as [Ht|Ht].
    + exists [AllDone], (with_loop Returned (token c) c). simpl. rewrite Hl, Ht. split; [lia|done].
    + destruct (task_step_enabled c Ht) as (e & c1 & He & Es). destruct (task_step_left _ _ _ Es He) as [Hl1 Hlt].
      destruct (IH (work_left (tasks c1)) ltac:(lia) c1) as (es & c' & Hlen & Hr & H); [by rewrite Hl1|done|].
      exists (e :: es), c'. simpl. rewrite Es. split; [lia|done].
Qed.
End connection.

(** ** Concrete runs *)

Module ConsumerDemo.
Import QueueDemo.
(** A handler that leaves the queue alone: a body "boom" makes it panic, a
    body "no" makes it fail. *)
Definition answer (body : string) : M (Queue unit MemBroker) (result unit string) :=
  if decide (body = "boom") then panic "index out of bounds"
  else if decide (body = "no") then ret (Err "refused") else ret (Ok tt).
Definition never (e : string) : bool := false.
Definition parcel (tag : Z) (body : string) : Delivery := mkDelivery tag body (mkProperties None None).
Definition queue0 : Queue unit MemBroker := QueueDemo.queue [] [].
Abbreviation run := (work_run "q" "amqp://" 2 never answer).

Definition busy : list (event unit) :=
  [Arrive (Ok (parcel 1 "yes")); Arrive (Ok (parcel 2 "no")); NextMessage; NextMessage;
   RunHandler 1; Others (MPublish (QRetryConstructProof "x")); SettleDelivery 1; Disconnect; HealthTick 1;
   RunHandler 0; Others MProcess; CancelToken; ObserveToken; SettleDelivery 0; AllDone].
Definition after_busy : Consumer unit MemBroker string :=
  default (consumer_new queue0 0) (run busy (consumer_new queue0 0)).

Definition two_booms : list (event unit) :=
  [Arrive (Ok (parcel 1 "boom")); Arrive (Ok (parcel 2 "boom")); NextMessage; RunHandler 0; NextMessage; RunHandler 0].
Definition starved : Consumer unit MemBroker string :=
  default (consumer_new queue0 0) (run two_booms (consumer_new queue0 0)).
Definition wait_on : list (event unit) := [Arrive (Err "io"); NextMessage; Others MProcess; HealthTick 1].
Definition still_starved : Consumer unit MemBroker string := default starved (run wait_on starved).

Definition broken : list (event unit) := [Disconnect; HealthTick 1].
Definition deaf : Consumer unit MemBroker string :=
  default (consumer_new queue0 0) (run broken (consumer_new queue0 0)).

Definition later_on : list (event unit) := [StreamEnded; HealthTick 1; Others MProcess; Disconnect; HealthTick 1; StreamEnded].
Definition still_deaf : Consumer unit MemBroker string := default deaf (run later_on deaf).

(** A task nobody here cares for is in its handler's hands when the signal
    arrives; its queue is closed before the task is waited for. *)
Definition shrug (e : string) : bool := true.
Definition caught_out : list (event unit) :=
  [Arrive (Ok (parcel 1 "no")); NextMessage; RunHandler 0] ++ shutdown_order ++ [SettleDelivery 0; AllDone].
Definition after_close : Consumer unit MemBroker string :=
  default (consumer_new queue0 0)
    (work_run "q" "amqp://" 2 shrug answer caught_out (consumer_new queue0 0)).

Definition draining : list (event unit) :=
  [Arrive (Ok (parcel 1 "yes")); Arrive (Ok (parcel 2 "no")); NextMessage; NextMessage; CancelToken; ObserveToken].
Definition drains : Consumer unit MemBroker string :=
  default (consumer_new queue0 0) (run draining (consumer_new queue0 0)).

Lemma answer_touches body q : touches "q" None q (snd (answer body q)).
Proof. unfold answer. repeat case_decide; apply touches_refl. Qed.

Definition records (w : MemBroker) := (mem_published w, mem_acked w, mem_nacked w).

Lemma ask_records {X} (f : MemBroker -> X * MemBroker) (no : X) :
  (forall w, records (snd (f w)) = records w) -> preserves records (mem_ask f no).
Proof.
  intros Hf w. unfold mem_ask.
  set (w1 := mkMem _ _ _ _ _ _). specialize (Hf w1).
  destruct (answers w) as [|[] l]; [| |done]; destruct (f w1); exact Hf.
Qed.

Lemma setup_records name n : preserves records (setup_rabbitmq (W := MemBroker) name n).
Proof.
  unfold setup_rabbitmq.
  repeat (apply preserves_bind_ok; [|intros _]); try apply preserves_ret; by apply ask_records.
Qed.

Lemma connect_records name fuel url n : preserves records (connect (W := MemBroker) name fuel url n).
Proof.
  induction fuel as [|fuel IH]; simpl; [apply preserves_ret|].
  apply preserves_bind; [by apply ask_records|]. intros r. apply preserves_bind.
  - destruct r; [apply setup_records|apply preserves_ret].
  - intros [|]; [apply preserves_ret|]. apply preserves_bind; [apply preserves_ret|]. intros _. apply IH.
Qed.

Lemma demo_connect fuel (q : Queue unit MemBroker) :
  touches "q" None q (snd (on_broker (connect "q" fuel "amqp://" (Z.of_nat 2)) q)).
Proof.
  pose proof (connect_records "q" fuel "amqp://" (Z.of_nat 2) (broker q)) as H. unfold on_broker.
  destruct (connect "q" fuel "amqp://" (Z.of_nat 2) (broker q)) as [o w]. unfold records in H. simpl in H.
  injection H as Hp Ha Hn. apply touches_same_acks; [|done|done]. split; simpl; [by rewrite Hp|done|by left].
Qed.

Lemma demo_ack_clean tag (w : MemBroker) (e : string) w' : basic_ack tag w = (Done (Err e), w') -> acked w' = acked w.
Proof. simpl. unfold mem_ask. destruct (answers w) as [|[] l]; intros H; by simplify_eq/=. Qed.
End ConsumerDemo.
Import QueueDemo ConsumerDemo.

Lemma consumer_accounts_witness :
  work_run "q" "amqp://" 2 never answer busy (consumer_new queue0 0) = Some after_busy /\
  received after_busy ≡ₚ map fst (tasks after_busy) ++ map fst (ended after_busy) /\
  (loop_at after_busy = Returned -> tasks after_busy = []) /\
  forall d item, d ∈ received after_busy -> from_slice (data d) = Ok item ->
    delivery_tag d ∈ acked (broker (shared after_busy)) ->
    (d, Some (Ok tt)) ∈ ended after_busy \/ safe "q" (shared after_busy) item.
Proof.
  split; [vm_compute; reflexivity|].
  apply (consumer_accounts "q" "amqp://" 2 never answer answer_touches demo_ack_clean demo_connect busy queue0 0).
  - reflexivity.
  - vm_compute. by repeat (apply not_elem_of_cons; split; [discriminate|]); apply not_elem_of_nil.
  - vm_compute. reflexivity.
Defined.

Lemma poison_starves_witness :
  delivered still_starved = delivered starved /\ (2 <= length (outstanding still_starved))%nat.
Proof.
  apply (poison_starves "q" "amqp://" 2 never answer answer_touches demo_ack_clean demo_connect
           two_booms wait_on queue0 0 starved still_starved).
  - reflexivity.
  - vm_compute. by repeat (apply not_elem_of_cons; split; [discriminate|]); apply not_elem_of_nil.
  - vm_compute. reflexivity.
  - vm_compute. lia.
  - vm_compute. reflexivity.
Defined.

Lemma deaf_after_disconnect_witness :
  queue_channel still_deaf = 2%nat /\
  delivered still_deaf = delivered deaf /\ stream_alive still_deaf = false /\
  (loop_at still_deaf = Consuming -> arrived still_deaf = [] ->
   work_step "q" "amqp://" 2 never answer StreamEnded still_deaf = Some still_deaf).
Proof.
  split; [vm_compute; reflexivity|].
  apply (deaf_after_disconnect "q" "amqp://" 2 never answer later_on deaf still_deaf).
  - left. vm_compute. lia.
  - vm_compute. reflexivity.
Defined.

Lemma drain_ends_witness :
  loop_at drains = Draining /\
  (forall es c', Forall (fun e => is_task_step e = true) es ->
     work_run "q" "amqp://" 2 never answer es drains = Some c' ->
     loop_at c' = Draining /\ (length es + work_left (tasks c') <= 2 * length (tasks drains))%nat) /\
  exists es c', (length es <= S (2 * length (tasks drains)))%nat /\
    work_run "q" "amqp://" 2 never answer es drains = Some c' /\ loop_at c' = Returned /\ tasks c' = [].
Proof.
  split; [vm_compute; reflexivity|].
  apply (drain_ends "q" "amqp://" 2 never answer drains). vm_compute. reflexivity.
Defined.

(** A signal closes the queue before the tasks are waited for: a task that is
    given back meanwhile is acknowledged and put into a buffer without a
    reader. *)
Example close_before_tasks_loses :
  loop_at after_close = Returned /\ 1 ∈ acked (broker (shared after_close)) /\
  published (broker (shared after_close)) = [] /\ buffer (shared after_close) = [].
Proof. split; [vm_compute; reflexivity|]. split; [vm_compute; left|]. by split; vm_compute. Qed.

(** One of the two loops of the ingestor can return while the other has tasks. *)
Example ingestor_abandons : exists c : Consumer unit MemBroker string,
  ingestor_run_over (with_loop Returned true (consumer_new queue0 0)) c = true /\ tasks c <> [].
Proof. exists drains. vm_compute. done. Qed.
