(* ===== verification/Pipeline.v ===== *)
(** * From the distributor to a consumer

    What the distributor publishes on a queue, what the buffer and its
    processor do with it, and what the consumer at the other end answers, put
    together: [distributor.rs], [queue.rs], [queue_consumer.rs] and
    [includer.rs] around one queue of the broker. *)

From S2P Require Import Prelude.
From S2P Require Import Store.
From S2P Require Import GmpTypes.
From S2P Require Import GmpApi.
From S2P Require Import Database.
From S2P Require Import Decimal.
From S2P Require Import Logging.
From S2P Require Import Redis.
From S2P Require Import Queue.
From S2P Require Import QueueService.
From S2P Require Import Distributor.
From S2P Require Import Includer.
From S2P Require Import QueueConsumer.

(** ** What a call does to the queue *)

Section grows.
Context {CT W E : Type} {IC : ItemCodec CT} {AM : Amqp W} {AL : AmqpLaws W} {P : Propagator}.
Variable name : string.
Abbreviation Q := (Queue CT W).

(** A message that holds an item, for the queue or its retry queue. *)
Definition holds (m : Queue.Message) (item : QueueItem CT) : Prop :=
  to_vec item = Ok (Queue.body m) /\ (routing_key m = name \/ routing_key m = retry_queue_name name).

(** Publications are added at the end, and an item that leaves the buffer is
    among them. *)
Record grows (q q' : Q) : Prop := {
  grows_published : published (broker q) `prefix_of` published (broker q');
  grows_open : receiver_open q = true -> receiver_open q' = true;
  grows_buffer : forall item, item ∈ buffer q -> item ∈ buffer q' \/
    exists i m, (length (published (broker q)) <= i)%nat /\ published (broker q') !! i = Some m /\ holds m item;
}.

(** A call that neither answers a delivery nor uses the buffer. *)
Record quiet (q q' : Q) : Prop := {
  quiet_published : published (broker q) `prefix_of` published (broker q');
  quiet_acked : acked (broker q') = acked (broker q);
  quiet_nacked : nacked (broker q') = nacked (broker q);
  quiet_buffer : buffer q' = buffer q;
  quiet_open : receiver_open q' = receiver_open q;
}.

Lemma quiet_refl q : quiet q q.
Proof. by split. Qed.

Lemma quiet_grows q q' : quiet q q' -> grows q q'.
Proof. intros [H1 _ _ H2 H3]. split; [done|congruence|]. intros item Hi. left. by rewrite H2. Qed.

Lemma quiet_touches q q' : quiet q q' -> touches name None q q'.
Proof.
  intros [[l Hl] Ha Hn Hb Ho]. apply touches_same_acks; [|done|done]. split.
  - intros m Hm. rewrite Hl. apply elem_of_app. by left.
  - by rewrite Ho.
  - intros item Hi. left. by rewrite Hb.
Qed.

Lemma grows_refl q : grows q q.
Proof. apply quiet_grows, quiet_refl. Qed.

Lemma grows_trans q1 q2 q3 : grows q1 q2 -> grows q2 q3 -> grows q1 q3.
Proof.
  intros [P1 O1 B1] [P2 O2 B2]. split; [by transitivity (published (broker q2))|auto|].
  intros item Hi. pose proof (prefix_length _ _ P1) as Hlen. destruct (B1 item Hi) as [H|(i & m & Hle & Hm & Hh)].
  - destruct (B2 item H) as [|(i & m & Hle & Hm & Hh)]; [by left|]. right. exists i, m. split; [lia|done].
  - right. exists i, m. split; [done|]. split; [|done]. by eapply prefix_lookup_Some.
Qed.

Lemma publish_grows (item : QueueItem CT) q : grows q (snd (publish item q)).
Proof.
  unfold publish, modify. simpl. destruct (receiver_open q) eqn:Ho; [|apply grows_refl].
  split; simpl; [done|done|]. intros x Hx. left. apply elem_of_app. by left.
Qed.

Lemma on_broker_grows {A} (m : M W A) q :
  published (broker q) `prefix_of` published (snd (m (broker q))) -> grows q (snd (on_broker m q)).
Proof.
  intros H. unfold on_broker. destruct (m (broker q)) as [o w']. simpl in *. split; simpl; [done|done|]. by left.
Qed.

(** One iteration of the processor. *)
Lemma processor_grows q :
  receiver_open q = true -> let q' := snd (processor_iteration name q) in grows q q' /\ acked (broker q') = acked (broker q).
Proof.
  intros Ho. cbv zeta. destruct (buffer q) as [|item rest] eqn:Hb.
  { rewrite processor_idle by done. split; [apply grows_refl|done]. }
  destruct (processor_iteration_run name q item rest Hb Ho) as (i & q1 & -> & _ & _ & Ho1 & Hw & Hc).
  simpl. destruct (publish_item_run name item false None (broker q)) as (r & w' & E1 & Ha & _ & Hp).
  rewrite E1 in Hw, Hc. simpl in Hw, Hc. subst w'. split; [|done].
  assert (Hpre : published (broker q) `prefix_of` published (broker q1)).
  { destruct Hp as [[-> _] | (b & p & _ & _ & ->)]; [done|by eexists]. }
  split; [done|done|]. rewrite Hb. intros x [->|Hx]%elem_of_cons.
  - destruct Hc as [(_ & _ & Hr) | [-> _]]; [|left; apply elem_of_app; right; by left]. right.
    injection Hr as ->. destruct Hp as [[_ []] | (b & p & Hv & _ & Hp)]; [done|].
    exists (length (published (broker q))), (mkMsg name b p). rewrite Hp, list_lookup_middle by done.
    split; [lia|]. split; [done|]. split; [done|by left].
  - left. destruct Hc as [(-> & _)|(-> & _)]; [done|]. apply elem_of_app. by left.
Qed.

Lemma move_grows (m : move (CT := CT)) q :
  m <> MDrop -> receiver_open q = true ->
  grows q (move_do name q m) /\ acked (broker (move_do name q m)) = acked (broker q) /\
  forall item, m = MPublish item -> item ∈ buffer (move_do name q m).
Proof.
  intros Hm Ho. destruct m as [item| | |]; simpl; [| | |done].
  - split; [apply publish_grows|]. unfold publish, modify. simpl. rewrite Ho. split; [done|].
    intros x [= <-]. simpl. apply elem_of_app. right. by left.
  - destruct (processor_grows q Ho) as [H1 H2]. by split.
  - split; [|done]. split; simpl; [done|done|by left].
Qed.
End grows.

(** ** What an answer does to the queue *)

Section settled.
Context {CT W E : Type} {IC : ItemCodec CT} {AM : Amqp W} {AL : AmqpLaws W} {P : Propagator}.
Variable name : string.
Hypothesis ack_clean : forall tag w e w', basic_ack tag w = (Done (Err e), w') -> acked w' = acked w.
Abbreviation Q := (Queue CT W).

(** The item of a delivery that is acknowledged waits elsewhere: in the
    buffer, or in a message that was published before the answer. *)
Definition handed_on (d : Delivery) (q q' : Q) : Prop :=
  forall item, from_slice (data d) = Ok item -> item ∈ buffer q' \/
    exists i m, (length (published (broker q)) <= i)%nat /\ published (broker q') !! i = Some m /\ holds name m item.

Definition answered (d : Delivery) (done : bool) (q q' : Q) : Prop :=
  acked (broker q') = acked (broker q) \/
  (acked (broker q') = acked (broker q) ++ [delivery_tag d] /\ (done = true \/ handed_on d q q')).

Lemma ack_grows d q :
  exists r q', on_broker (basic_ack (delivery_tag d)) q = (Done r, q') /\ grows name q q' /\ answered d true q q'.
Proof.
  destruct (ack_done (delivery_tag d) (broker q)) as (r & w' & E1 & Hp & _ & _ & Ha).
  eexists r, _. split; [by apply on_broker_run|]. split; [split; simpl; [by rewrite Hp|done|by left]|].
  destruct Ha as [Ha|Ha]; [by left|right]. split; [done|by left].
Qed.

Lemma nack_grows tag b q :
  exists r q', on_broker (basic_nack tag b) q = (Done r, q') /\ grows name q q' /\ acked (broker q') = acked (broker q).
Proof.
  destruct (nack_done tag b (broker q)) as (r & w' & E1 & Hp & Ha & _).
  eexists r, _. split; [by apply on_broker_run|]. split; [|done]. split; simpl; [by rewrite Hp|done|by left].
Qed.

(** A forced requeue acknowledges and then puts the item in the buffer. *)
Lemma requeue_grows (d : Delivery) q :
  receiver_open q = true ->
  exists r q', republish name d true q = (Done r, q') /\ grows name q q' /\ answered d false q q'.
Proof.
  intros Ho. unfold republish. destruct (from_slice (data d)) as [item|e] eqn:Hd; rewrite bind_ok_run; cbn [ret].
  2: { exists (Err e), q. split; [done|]. split; [apply grows_refl|by left]. }
  destruct (ack_done (delivery_tag d) (broker q)) as (r & w' & E1 & Hp & _ & _ & Ha).
  erewrite bind_done by (apply on_broker_run; exact E1).
  assert (G1 : grows name q (mkQueue w' (buffer q) (receiver_open q) (shutdown_signal q))).
  { split; simpl; [by rewrite Hp|done|by left]. }
  destruct r as [[]|e]; cbn [ret].
  - rewrite bind_run. eexists _, _. split; [reflexivity|]. split; [eapply grows_trans; [exact G1|apply publish_grows]|].
    unfold publish, modify. simpl. rewrite Ho. unfold answered. simpl. destruct Ha as [Ha|Ha]; [by left|right].
    split; [done|right]. intros x Hx. left. simpl. rewrite Hd in Hx. injection Hx as ->. apply elem_of_app. right. by left.
  - eexists _, _. split; [reflexivity|]. split; [done|]. left. by eapply ack_clean.
Qed.

(** A retry publishes a copy before it acknowledges. *)
Lemma retry_grows (d : Delivery) q :
  exists r q', republish name d false q = (Done r, q') /\ grows name q q' /\ answered d false q q'.
Proof.
  unfold republish. destruct (from_slice (data d)) as [item|e] eqn:Hd; rewrite bind_ok_run; cbn [ret].
  2: { exists (Err e), q. split; [done|]. split; [apply grows_refl|by left]. }
  destruct (MAX_RETRIES <? retry_count (properties d)).
  { destruct (nack_grows (delivery_tag d) false q) as (r & q1 & E1 & G1 & A1). erewrite bind_done by exact E1.
    eexists _, q1. split; [reflexivity|]. split; [done|by left]. }
  set (props := with_headers _ _).
  destruct (publish_item_run name item true (Some props) (broker q)) as (r & w1 & E1 & A1 & _ & P1).
  erewrite bind_done by (apply on_broker_run; exact E1). set (q1 := mkQueue w1 _ _ _).
  assert (G1 : grows name q q1).
  { split; simpl; [|done|by left]. destruct P1 as [[-> _]|(b & p & _ & _ & ->)]; [done|by eexists]. }
  destruct r as [[]|e].
  - destruct P1 as [[_ []]|(b & p & Hb & _ & P1)]; [done|].
    assert (H1 : handed_on d q q1).
    { intros x Hx. rewrite Hd in Hx. injection Hx as <-. right. exists (length (published (broker q))).
      eexists. simpl. rewrite P1, list_lookup_middle by done. split; [lia|]. split; [done|]. split; [done|by right]. }
    destruct (ack_done (delivery_tag d) w1) as (r2 & w2 & E2 & Hp2 & _ & _ & Ha2).
    erewrite bind_done by (apply on_broker_run; exact E2). eexists _, _. split; [reflexivity|]. split.
    + eapply grows_trans; [exact G1|]. split; simpl; [by rewrite Hp2|done|by left].
    + unfold answered. simpl. rewrite <- A1. destruct Ha2 as [Ha2|Ha2]; [by left|right]. split; [done|right].
      intros x Hx. simpl. rewrite Hp2. by apply H1.
  - destruct (nack_grows (delivery_tag d) true q1) as (r2 & q2 & E2 & G2 & A2). erewrite bind_done by exact E2.
    eexists _, q2. split; [reflexivity|]. split; [by eapply grows_trans|]. left. by rewrite A2.
Qed.

Lemma settle_grows irrelevant (d : Delivery) (r : result unit E) q :
  receiver_open q = true ->
  exists q', settle (QA := this_queue name) (A := this_broker) irrelevant name d r q = (Done tt, q') /\
    grows name q q' /\ answered d (is_ok r) q q'.
Proof.
  intros Ho. unfold settle. destruct r as [[]|e].
  - destruct (ack_grows d q) as (r & q1 & E1 & G1 & A1).
    exists q1. split; [|done]. rewrite bind_run. simpl. by rewrite E1.
  - simpl. destruct (irrelevant e).
    + destruct (requeue_grows d q Ho) as (r & q1 & E1 & G1 & A1). exists q1. split; [|done].
      rewrite bind_run. simpl. by rewrite E1.
    + destruct (retry_grows d q) as (r & q1 & E1 & G1 & A1). exists q1. split; [|done].
      rewrite bind_run. simpl. by rewrite E1.
Qed.
End settled.

(** ** Where a task is *)

Section pipeline.
Context {CT W E : Type} {IC : ItemCodec CT} {AM : Amqp W} {AL : AmqpLaws W} {TI : Timer W} {P : Propagator}.
Variable name url : string.
Variable num_workers : nat.
Variable irrelevant : E -> bool.
Variable handler : string -> M (Queue CT W) (result unit E).
Hypothesis handler_quiet : forall body q, quiet q (snd (handler body q)).
Hypothesis ack_clean : forall tag w e w', basic_ack tag w = (Done (Err e), w') -> acked w' = acked w.
Hypothesis connect_quiet : forall fuel (q : Queue CT W),
  quiet q (snd (on_broker (connect name fuel url (Z.of_nat num_workers)) q)).
(** An item that reads back as it was written. *)
Definition readable (item : QueueItem CT) : Prop := forall b, to_vec item = Ok b -> from_slice b = Ok item.
(** The message a delivery brings, by its number among the publications. *)
Variable carries : Z -> nat.
Abbreviation C := (Consumer CT W E).
Abbreviation step := (work_step name url num_workers irrelevant handler).

(** The broker delivers what was published. *)
Definition brings (c : C) (d : Delivery) : Prop :=
  exists m, published (broker (shared c)) !! carries (delivery_tag d) = Some m /\ Queue.body m = data d.

Definition event_genuine (e : event CT) (c : C) : Prop :=
  match e with Arrive (Ok d) => brings c d | _ => True end.

Fixpoint genuine (es : list (event CT)) (c : C) : Prop :=
  match es with
  | [] => True
  | e :: es => event_genuine e c /\ (forall c', step e c = Some c' -> genuine es c')
  end.

(** A message of the queue, or of its retry queue, that no delivery of it was
    acknowledged for: the broker keeps it. *)
Definition kept (c : C) (item : QueueItem CT) : Prop :=
  exists i m, published (broker (shared c)) !! i = Some m /\ holds name m item /\
    forall tag, tag ∈ acked (broker (shared c)) -> carries tag <> i.

(** The item is buffered, kept by the broker, or was handled with success. *)
Definition accounted (c : C) (item : QueueItem CT) : Prop :=
  item ∈ buffer (shared c) \/ kept c item \/
  exists d, (d, Some (Ok tt)) ∈ ended c /\ from_slice (data d) = Ok item.

Record pipeline_ok (c : C) : Prop := {
  pipe_consumer : consumer_ok name c;
  pipe_acked : forall tag, tag ∈ acked (broker (shared c)) -> (carries tag < length (published (broker (shared c))))%nat;
  pipe_brings : forall d, d ∈ delivered c -> brings c d;
}.

(** A step that answers no delivery. *)
Lemma grows_accounted (c c' : C) item :
  pipeline_ok c -> grows name (shared c) (shared c') -> acked (broker (shared c')) = acked (broker (shared c)) ->
  (forall x, x ∈ ended c -> x ∈ ended c') -> accounted c item -> accounted c' item.
Proof.
  intros Hok [Hp _ Hb] Ha He [H|[(i & m & Hm & Hh & Ho)|(d & Hd & Hi)]].
  - destruct (Hb item H) as [H'|(i & m & Hle & Hm & Hh)]; [by left|]. right; left. exists i, m. split; [done|].
    split; [done|]. intros tag Ht. rewrite Ha in Ht. apply (pipe_acked _ Hok) in Ht. lia.
  - right; left. exists i, m. split; [by eapply prefix_lookup_Some|]. split; [done|]. by rewrite Ha.
  - right; right. exists d. auto.
Qed.

Lemma brings_grows (c c' : C) d : grows name (shared c) (shared c') -> brings c d -> brings c' d.
Proof. intros [Hp _ _] (m & Hm & Hb). exists m. split; [by eapply prefix_lookup_Some|done]. Qed.

Lemma acked_grows (c c' : C) :
  pipeline_ok c -> grows name (shared c) (shared c') ->
  forall tag, tag ∈ acked (broker (shared c)) -> (carries tag < length (published (broker (shared c'))))%nat.
Proof.
  intros Hok [Hp _ _] tag Ht. apply (pipe_acked _ Hok) in Ht. apply prefix_length in Hp. lia.
Qed.

(** The answer to one delivery. *)
Lemma settle_accounted (c c' : C) i :
  pipeline_ok c -> settle_task name irrelevant i c = Some c' ->
  pipeline_ok c' /\ forall item, readable item -> accounted c item -> accounted c' item.
Proof.
  intros Hok Hs. pose proof (settle_ok name irrelevant ack_clean c c' i (pipe_consumer _ Hok) Hs) as Hc'.
  unfold settle_task in Hs. destruct (tasks c !! i) as [[d [r|]]|] eqn:Hi; [|done..].
  destruct (settle_grows name ack_clean irrelevant d r (shared c)) as (q & Eq & G & A); [apply (pipe_consumer _ Hok)|].
  rewrite Eq in Hs. injection Hs as <-. set (c' := with_tasks q _ _ c) in *.
  assert (Hin : d ∈ delivered c).
  { apply elem_of_app. left. rewrite (ok_received _ _ (pipe_consumer _ Hok)). apply elem_of_app. left.
    apply (list_elem_of_fmap_2 fst _ (d, Some r)). by eapply list_elem_of_lookup_2. }
  destruct (pipe_brings _ Hok d Hin) as (m0 & Hm0 & Hb0).
  assert (He : forall x, x ∈ ended c -> x ∈ ended c') by (intros x Hx; apply elem_of_app; by left).
  split.
  - split; [done| |intros x Hx; by eapply (brings_grows c c'), pipe_brings].
    intros tag Ht. destruct A as [A|[A _]]; change (broker (shared c')) with (broker q) in *; rewrite A in Ht.
    + by eapply (acked_grows c c').
    + apply elem_of_app in Ht as [Ht| ->%list_elem_of_singleton]; [by eapply (acked_grows c c')|].
      pose proof (prefix_lookup_Some _ _ _ _ Hm0 (grows_published _ _ _ G)) as Hl. by apply lookup_lt_Some in Hl.
  - intros item Hread Hacc. destruct A as [A|[A Hfin]]; [by eapply (grows_accounted c c')|].
    pose proof G as [Hp _ Hb].
    (* what waits at a number the acknowledged deliveries do not carry *)
    assert (Hlate : forall j m, (length (published (broker (shared c))) <= j)%nat -> published (broker q) !! j = Some m ->
      holds name m item -> kept c' item).
    { intros j m Hle Hm Hh. exists j, m. split; [done|]. split; [done|]. intros tag Ht.
      change (broker (shared c')) with (broker q) in Ht. rewrite A in Ht.
      apply elem_of_app in Ht as [Ht| ->%list_elem_of_singleton].
      - apply (pipe_acked _ Hok) in Ht. lia.
      - apply lookup_lt_Some in Hm0. lia. }
    destruct Hacc as [H|[(j & m & Hm & Hh & Ho)|(x & Hx & Hi')]].
    + destruct (Hb item H) as [H'|(j & m & Hle & Hm & Hh)]; [by left|]. right; left. by eapply Hlate.
    + destruct (decide (carries (delivery_tag d) = j)) as [<-|Hne].
      * rewrite Hm0 in Hm. injection Hm as <-. destruct Hh as [Hv _]. rewrite Hb0 in Hv. apply Hread in Hv.
        destruct Hfin as [Hr|Hfin].
        -- right; right. exists d. split; [|done]. apply elem_of_app. right. destruct r as [[]|]; [by left|done].
        -- destruct (Hfin item Hv) as [H|(j & m & Hle & Hm & Hh)]; [by left|]. right; left. by eapply Hlate.
      * right; left. exists j, m. split; [by eapply prefix_lookup_Some|]. split; [done|]. intros tag Ht.
        change (broker (shared c')) with (broker q) in Ht. rewrite A in Ht.
        apply elem_of_app in Ht as [Ht| ->%list_elem_of_singleton]; [by apply Ho|done].
    + right; right. exists x. auto.
Qed.

(** Steps that leave the answers alone. *)
Lemma other_accounted (c c' : C) :
  pipeline_ok c -> consumer_ok name c' -> grows name (shared c) (shared c') ->
  acked (broker (shared c')) = acked (broker (shared c)) -> (forall x, x ∈ ended c -> x ∈ ended c') ->
  (forall d, d ∈ delivered c' -> d ∈ delivered c \/ brings c d) ->
  pipeline_ok c' /\ forall item, readable item -> accounted c item -> accounted c' item.
Proof.
  intros Hok Hc' G A He Hd. split.
  - split; [done| |].
    + intros tag Ht. rewrite A in Ht. by apply (acked_grows c c').
    + intros d Hin. apply (brings_grows c c'); [done|]. destruct (Hd d Hin) as [H|H]; [by apply (pipe_brings _ Hok)|done].
  - intros item _. by apply grows_accounted.
Qed.

Lemma step_consumer (e : event CT) (c c' : C) :
  consumer_ok name c -> e <> Others MDrop -> step e c = Some c' -> consumer_ok name c'.
Proof.
  apply (step_ok name url num_workers irrelevant handler); [|done|].
  - intros body q. by apply quiet_touches.
  - intros fuel q. by apply quiet_touches.
Qed.

Lemma same_shared (c c' : C) : shared c' = shared c ->
  grows name (shared c) (shared c') /\ acked (broker (shared c')) = acked (broker (shared c)).
Proof. intros ->. split; [apply grows_refl|done]. Qed.

Lemma quiet_shared (c : C) q : quiet (shared c) q -> grows name (shared c) q /\ acked (broker q) = acked (broker (shared c)).
Proof. intros H. split; [by apply quiet_grows|apply H]. Qed.

Lemma health_shared fuel (c : C) : let c' := connection_health_check name url num_workers fuel c in
  quiet (shared c) (shared c') /\ ended c' = ended c /\ delivered c' = delivered c.
Proof.
  cbv zeta. unfold connection_health_check. destruct (is_connected c); [split; [apply quiet_refl|done]|].
  unfold refresh_connection. pose proof (connect_quiet fuel (shared c)) as Hq.
  by destruct (on_broker _ _) as [[[]|why] q].
Qed.

(** A delivery that is new to the consumer has just arrived. *)
Lemma arrived_delivered (c : C) r d :
  d ∈ delivered (with_arrived (arrived c ++ [r]) c) -> d ∈ delivered c \/ r = Ok d.
Proof.
  unfold delivered, pending. simpl. rewrite omap_app, !elem_of_app. intros [H|[H|H]]; auto.
  destruct r as [d'|e]; [|by apply not_elem_of_nil in H]. apply list_elem_of_singleton in H as ->. by right.
Qed.

Lemma next_delivered (c c' : C) : on_next c = Some c' ->
  shared c' = shared c /\ ended c' = ended c /\ delivered c' = delivered c.
Proof.
  unfold on_next. destruct (arrived c) as [|[d|e] rest] eqn:Ea.
  - destruct (stream_alive c); [done|]. by intros [= <-].
  - intros [= <-]. unfold delivered, pending. simpl. rewrite Ea. simpl. by rewrite <- app_assoc.
  - intros [= <-]. unfold delivered, pending. simpl. by rewrite Ea.
Qed.

Lemma handler_shared (c c' : C) i : run_handler handler i c = Some c' ->
  quiet (shared c) (shared c') /\ (forall x, x ∈ ended c -> x ∈ ended c') /\ delivered c' = delivered c.
Proof.
  unfold run_handler. destruct (tasks c !! i) as [[d [r|]]|]; [done| |done].
  pose proof (handler_quiet (data d) (shared c)) as Hq. destruct (handler (data d) (shared c)) as [o q].
  intros [= <-]. destruct o as [r|why]; split; try done. split; [|done]. intros x Hx. apply elem_of_app. by left.
Qed.

(** One step of the pipeline keeps every item accounted for. *)
Lemma step_accounted (e : event CT) (c c' : C) :
  pipeline_ok c -> e <> Others MDrop -> event_genuine e c -> step e c = Some c' ->
  pipeline_ok c' /\ forall item, readable item -> accounted c item -> accounted c' item.
Proof.
  intros Hok Hne Hg Hs. pose proof (step_consumer e c c' (pipe_consumer _ Hok) Hne Hs) as Hc'.
  assert (Hquiet : quiet (shared c) (shared c') -> (forall x, x ∈ ended c -> x ∈ ended c') ->
    (forall d, d ∈ delivered c' -> d ∈ delivered c \/ brings c d) ->
    pipeline_ok c' /\ forall item, readable item -> accounted c item -> accounted c' item).
  { intros Hsh He Hd. by apply other_accounted; [| |apply quiet_grows|apply Hsh| |]. }
  assert (Hstill : shared c' = shared c -> ended c' = ended c -> delivered c' = delivered c ->
    pipeline_ok c' /\ forall item, readable item -> accounted c item -> accounted c' item).
  { intros Hsh He Hd. apply Hquiet; [rewrite Hsh; apply quiet_refl|by rewrite He|rewrite Hd; by left]. }
  destruct e as [r| |fuel| | | | |i|i| |m]; simpl in Hs.
  - destruct r as [d|e]; [destruct (may_arrive num_workers d c)|destruct (stream_alive c)]; try done; injection Hs as <-.
    all: apply Hquiet; [apply quiet_refl|done|].
    + intros x Hx. destruct (arrived_delivered c (Ok d) x Hx) as [|[= <-]]; [by left|by right].
    + intros x Hx. destruct (arrived_delivered c (Err e) x Hx) as [|[=]]. by left.
  - injection Hs as <-. by apply Hstill.
  - injection Hs as <-. destruct (health_shared fuel c) as (Hq & He & Hd).
    apply Hquiet; [exact Hq|by rewrite He|rewrite Hd; by left].
  - destruct (loop_at c); [|done..]. destruct (arrived c) as [|r l] eqn:Ea; [done|].
    destruct (next_delivered c c' Hs) as (? & ? & ?). by apply Hstill.
  - destruct (loop_at c); [|done..]. destruct (arrived c) as [|r l] eqn:Ea; [|done].
    destruct (next_delivered c c' Hs) as (? & ? & ?). by apply Hstill.
  - injection Hs as <-. by apply Hstill.
  - destruct (loop_at c); [|done..]. destruct (token c); [|done]. injection Hs as <-. by apply Hstill.
  - destruct (handler_shared c c' i Hs) as (Hq & He & Hd). apply Hquiet; [done|done|rewrite Hd; by left].
  - by eapply settle_accounted.
  - destruct (loop_at c); [done| |done]. destruct (tasks c); [|done]. injection Hs as <-. by apply Hstill.
  - injection Hs as <-. destruct (move_grows name m (shared c)) as (G & A & _); [by intros ->|apply (pipe_consumer _ Hok)|].
    apply other_accounted; [done|done|exact G|exact A|done|by left].
Qed.

Lemma publish_accounted (item : QueueItem CT) (c c' : C) :
  pipeline_ok c -> step (Others (MPublish item)) c = Some c' -> accounted c' item.
Proof.
  intros Hok. simpl. intros [= <-]. left. simpl.
  destruct (move_grows name (MPublish item) (shared c)) as (_ & _ & H); [done|apply (pipe_consumer _ Hok)|]. by apply H.
Qed.

(** Over a run, every item published is accounted for ever after. *)
Lemma run_accounted (es : list (event CT)) (c c' : C) :
  pipeline_ok c -> Others MDrop ∉ es -> genuine es c ->
  work_run name url num_workers irrelevant handler es c = Some c' ->
  pipeline_ok c' /\ (forall item, readable item -> accounted c item -> accounted c' item) /\
  forall item, readable item -> Others (MPublish item) ∈ es -> accounted c' item.
Proof.
  revert c. induction es as [|e es IH]; intros c Hok Hd Hg; simpl.
  { intros [= <-]. split; [done|]. split; [done|]. by intros item _ ?%not_elem_of_nil. }
  apply not_elem_of_cons in Hd as [He Hd]. destruct Hg as [Hg1 Hg].
  destruct (step e c) as [c1|] eqn:E1; [|done]. intros Hr.
  destruct (step_accounted e c c1 Hok) as [Hok1 Hk1]; [by intros ->|done|done|].
  destruct (IH c1 Hok1 Hd (Hg c1 eq_refl) Hr) as (Hok2 & Hk2 & Hp2).
  split; [done|]. split; [by auto|]. intros item Hread [<-|Hin]%elem_of_cons; [|by apply Hp2].
  apply Hk2; [done|]. exact (publish_accounted item c c1 Hok E1).
Qed.

Lemma pipeline_new (q : Queue CT W) n : receiver_open q = true -> acked (broker q) = [] -> pipeline_ok (consumer_new q n).
Proof.
  intros Ho Ha. split; [by apply new_ok|simpl; rewrite Ha; by intros t ?%not_elem_of_nil|].
  by intros d ?%not_elem_of_nil.
Qed.

(** ** The distributor at the other end *)

Section distributor.
Context {X : Type} {XM : XrplMessages} {API : GmpApiTrait X} {CC : CrossChain} {DL : DecimalLib}.
Variable list_ids : gset string -> list string.
Variable span : Task -> Ctx.

(** C4: no task is lost between the chain and its consumer.  Take any number
    of rounds of the distributor, with fetches and cursor writes that fail in
    between, and, around the queue it publishes to, any interleaving of its
    publications with the buffer's processor, other users of the queue, the
    broker's deliveries and redeliveries, broken connections, and the
    handlers and the answers of the consumer at the other end; the broker may
    refuse any call.  Then every task between the cursor at the start and the
    cursor at the end that is routed to the queue is in one of three places
    until the queue is closed: in the buffer; in a message of the queue, its
    retry queue or its dead-letter queue that was not acknowledged; or
    handled with success. *)
Theorem task_accounted (L : list Task) (rounds : nat) (d : Distributor) (k : nat) (w : World X CT) (label : string) :
  serves L -> after_cursor L (last_task_id d) k -> trace w = [] ->
  exists d' w' m, run (W := World X CT) list_ids span rounds d w = (Done d', w') /\
    after_cursor L (last_task_id d') (k + length (take m (drop k L))) /\
    forall (q : Queue CT W) (n : nat) (es : list (event CT)) (c : C),
      receiver_open q = true -> acked (broker q) = [] -> Others MDrop ∉ es ->
      (forall item, (label, item) ∈ published_of (trace w') -> Others (MPublish item) ∈ es) ->
      genuine es (consumer_new q n) ->
      work_run name url num_workers irrelevant handler es (consumer_new q n) = Some c ->
      forall t, t ∈ take m (drop k L) -> queue_of d None t = Some label -> readable (QTask t) ->
        accounted c (QTask t).
Proof.
  intros HL Hk Hw. destruct (run_batches list_ids span L rounds d k w HL Hk) as (d' & w' & m & Erun & Hp & Hc).
  exists d', w', m. split; [exact Erun|]. split; [exact Hc|]. intros q n es c Ho Ha Hdrop Hpub Hg Hr t Ht Hq Hread.
  destruct (run_accounted es (consumer_new q n) c) as (_ & _ & Hacc); [by apply pipeline_new|done..|].
  apply Hacc, Hpub; [done|]. rewrite Hp, Hw. simpl. apply list_elem_of_omap. exists t. split; [done|]. by rewrite Hq.
Qed.
End distributor.
End pipeline.

(** ** A concrete run *)

Module PipelineDemo.
Export DistributorDemo.
#[export] Existing Instance QueueDemo.propagator.
(** A task is written as its id. *)
#[export] Instance codec : ItemCodec unit := {|
  to_vec := fun i => match i with QTask t => Ok (task_id t) | _ => Err "not encodable" end;
  from_slice := fun s => Ok (QTask (a_task s "VERIFY"));
|}.
Definition task (i : string) : QueueItem unit := QTask (a_task i "VERIFY").
Definition answer (body : string) : M (Queue unit MemBroker) (result unit string) :=
  ret (if decide (body = "2") then Err "refused" else Ok tt).
Definition never (e : string) : bool := false.
Definition carries (tag : Z) : nat := Z.to_nat (tag - 1).
Definition parcel (tag : Z) (body : string) : Delivery := mkDelivery tag body (mkProperties None None).
Definition queue0 : Queue unit MemBroker := mkQueue (QueueDemo.idle []) [] true false.
(** The first task is handled, the second refused, the third just published. *)
Definition busy : list (QueueConsumer.event unit) :=
  [Others (MPublish (task "1")); Others (MPublish (task "2")); Others MProcess; Arrive (Ok (parcel 1 "1"));
   NextMessage; Others MProcess; Arrive (Ok (parcel 2 "2")); NextMessage; RunHandler 0; RunHandler 1;
   SettleDelivery 0; SettleDelivery 0; Others (MPublish (task "3"))].
Abbreviation drive := (work_run (IC := codec) "q" "amqp://" 2 never answer).
Definition after_busy : Consumer unit MemBroker string := default (consumer_new queue0 0) (drive busy (consumer_new queue0 0)).

Lemma answer_quiet body q : quiet q (snd (answer body q)).
Proof. apply quiet_refl. Qed.

Lemma connect_quiet {CT} name url workers fuel (q : Queue CT MemBroker) :
  quiet q (snd (on_broker (connect name fuel url workers) q)).
Proof.
  pose proof (ConsumerDemo.connect_records name fuel url workers (broker q)) as H. unfold on_broker.
  destruct (connect name fuel url workers (broker q)) as [o w]. unfold ConsumerDemo.records in H. simpl in H.
  injection H as Hp Ha Hn. by split; simpl; [rewrite Hp| | | |].
Qed.

(** The queue is not closed. *)
Lemma no_drop {CT} (es : list (QueueConsumer.event CT)) :
  forallb (fun e => match e with Others MDrop => false | _ => true end) es = true -> Others MDrop ∉ es.
Proof. rewrite forallb_forall. intros H Hin%list_elem_of_In. by specialize (H _ Hin). Qed.

Lemma busy_genuine : genuine (IC := codec) "q" "amqp://" 2 never answer carries busy (consumer_new queue0 0).
Proof.
  unfold busy. repeat (split; [first [exact I | eexists; split; vm_compute; reflexivity]|];
    intros c Hc; vm_compute in Hc; injection Hc as <-). exact I.
Qed.
End PipelineDemo.
Import PipelineDemo.

Lemma task_accounted_witness :
  drive busy (consumer_new queue0 0) = Some after_busy /\
  forall i, i ∈ ["1"; "2"; "3"] -> accounted "q" carries after_busy (task i).
Proof.
  split; [vm_compute; reflexivity|].
  destruct (task_accounted (IC := codec) "q" "amqp://" 2 never answer answer_quiet ConsumerDemo.demo_ack_clean (connect_quiet "q" "amqp://" (Z.of_nat 2))
    carries elements (fun _ => ∅) DistributorDemo.tasks 2 d0 0 w0 INGESTOR tasks_served eq_refl eq_refl)
    as (d' & w' & m & Hrun & Hc & H).
  assert (Hm : published_of (trace w') = [(INGESTOR, task "1"); (INGESTOR, task "2"); (INGESTOR, task "3")]).
  { apply (f_equal snd) in Hrun. simpl in Hrun. rewrite <- Hrun. vm_compute. reflexivity. }
  intros i Hi. apply (H queue0 0%nat busy after_busy).
  - reflexivity.
  - reflexivity.
  - apply (no_drop busy eq_refl).
  - intros item Hin. rewrite Hm in Hin. rewrite !elem_of_cons in Hin.
    destruct Hin as [[= ->]|[[= ->]|[[= ->]|[]%elem_of_nil]]]; unfold busy; rewrite !elem_of_cons; tauto.
  - apply busy_genuine.
  - vm_compute. reflexivity.
  - assert (Hd : Some "3" = last_task_id d').
    { apply (f_equal (fun p => match fst p with Done x => last_task_id x | _ => None end)) in Hrun. simpl in Hrun.
      rewrite <- Hrun. vm_compute. reflexivity. }
    rewrite <- Hd in Hc. apply position_spec in Hc. vm_compute position in Hc.
    destruct m as [|[|[|m]]]; [vm_compute in Hc; discriminate..|]. rewrite !elem_of_cons in Hi.
    destruct Hi as [-> |[-> |[-> |[]%elem_of_nil]]]; simpl; rewrite !elem_of_cons; auto.
  - rewrite !elem_of_cons in Hi. by destruct Hi as [-> |[-> |[-> |[]%elem_of_nil]]].
  - intros b [= <-]. reflexivity.
Defined.
