(* ===== verification/TonCells.v ===== *)
(** * Cells

    The cells of [tonlib_core] are a parameter: a builder that collects bits
    and references, a parser that takes them off again.  On top of them,
    [ton/src/boc/buffer_to_cell.rs] and [ton/src/boc/cell_to.rs] keep a byte
    string in a chain of cells. *)

From S2P Require Import Prelude.
From S2P Require Import Text.
From S2P Require Import TonLib.

(** ** The interface of [tonlib_core::cell] *)

Class CellLib `{!TonLib} : Type := {
  Cell : Type;
  CellBuilder : Type;
  CellParser : Type;
  builder_new : CellBuilder;
  store_uint : nat -> N -> M CellBuilder (result unit string);
  store_reference : Cell -> M CellBuilder (result unit string);
  store_address : TonAddress -> M CellBuilder (result unit string);
  store_tonhash : TonHash -> M CellBuilder (result unit string);
  store_coins : N -> M CellBuilder (result unit string);
  build : CellBuilder -> result Cell string;
  parser : Cell -> CellParser;
  load_uint : nat -> M CellParser (result N string);
  (** The bits as bytes. *)
  load_bits : nat -> M CellParser (result string string);
  load_address : M CellParser (result TonAddress string);
  load_coins : M CellParser (result N string);
  load_tonhash : M CellParser (result TonHash string);
  (** [load_dict] with 16-bit keys and references to cells as values: the
      values, in the dictionary's iteration order. *)
  load_dict : M CellParser (result (list Cell) string);
  next_reference : M CellParser (result Cell string);
  (** The longest chain of references below a cell. *)
  cell_depth : Cell -> nat;
  cell_from_boc_hex : string -> result Cell string;
  cell_from_boc_b64 : string -> result Cell string;
  cell_to_boc_hex : Cell -> result string string;
}.

(** Big-endian bits of a number and back. *)
Fixpoint to_bits (n : nat) (v : N) : list bool :=
  match n with
  | O => []
  | S n => N.testbit v (N.of_nat n) :: to_bits n v
  end.
Fixpoint of_bits (acc : N) (bits : list bool) : N :=
  match bits with
  | [] => acc
  | b :: bits => of_bits (2 * acc + (if b then 1 else 0))%N bits
  end.

Definition MAX_CELL_BITS : nat := 1023.
Definition MAX_CELL_REFS : nat := 4.

(** The documented behaviour of the interface.  [cell_data] and [cell_refs]
    are what a cell holds; a store appends, a load takes from the front and
    fails without consuming references when there is too little. *)
Class CellLaws `{!TonLib} `{!CellLib} : Type := {
  cell_data : Cell -> list bool;
  cell_refs : Cell -> list Cell;
  put : CellBuilder -> list bool * list Cell;
  left : CellParser -> list bool * list Cell;
  address_bits : TonAddress -> list bool;
  hash_bits : TonHash -> list bool;
  coins_bits : N -> list bool;
  address_bits_length : forall a, length (address_bits a) = 267%nat;
  hash_bits_length : forall h, length (hash_bits h) = 256%nat;
  coins_bits_length : forall v, (v < 2 ^ 120)%N -> (length (coins_bits v) <= 124)%nat;
  builder_new_put : put builder_new = ([], []);
  build_ok : forall b, exists c, build b = Ok c /\ cell_data c = fst (put b) /\ cell_refs c = snd (put b);
  store_uint_ok : forall n v b, (v < 2 ^ N.of_nat n)%N -> (length (fst (put b)) + n <= MAX_CELL_BITS)%nat ->
    exists b', store_uint n v b = (Done (Ok tt), b') /\ put b' = (fst (put b) ++ to_bits n v, snd (put b));
  store_reference_ok : forall c b, (length (snd (put b)) < MAX_CELL_REFS)%nat ->
    exists b', store_reference c b = (Done (Ok tt), b') /\ put b' = (fst (put b), snd (put b) ++ [c]);
  store_address_ok : forall a b, (length (fst (put b)) + 267 <= MAX_CELL_BITS)%nat ->
    exists b', store_address a b = (Done (Ok tt), b') /\ put b' = (fst (put b) ++ address_bits a, snd (put b));
  store_tonhash_ok : forall h b, (length (fst (put b)) + 256 <= MAX_CELL_BITS)%nat ->
    exists b', store_tonhash h b = (Done (Ok tt), b') /\ put b' = (fst (put b) ++ hash_bits h, snd (put b));
  store_coins_ok : forall v b, (v < 2 ^ 120)%N -> (length (fst (put b)) + 124 <= MAX_CELL_BITS)%nat ->
    exists b', store_coins v b = (Done (Ok tt), b') /\ put b' = (fst (put b) ++ coins_bits v, snd (put b));
  parser_left : forall c, left (parser c) = (cell_data c, cell_refs c);
  load_uint_ok : forall n p, (n <= length (fst (left p)))%nat ->
    exists p', load_uint n p = (Done (Ok (of_bits 0 (take n (fst (left p))))), p') /\
      left p' = (drop n (fst (left p)), snd (left p));
  load_uint_short : forall n p, (length (fst (left p)) < n)%nat ->
    exists e p', load_uint n p = (Done (Err e), p') /\ snd (left p') = snd (left p);
  load_address_ok : forall a rest p, fst (left p) = address_bits a ++ rest ->
    exists p', load_address p = (Done (Ok a), p') /\ left p' = (rest, snd (left p));
  load_coins_ok : forall v rest p, (v < 2 ^ 120)%N -> fst (left p) = coins_bits v ++ rest ->
    exists p', load_coins p = (Done (Ok v), p') /\ left p' = (rest, snd (left p));
  load_tonhash_ok : forall h rest p, fst (left p) = hash_bits h ++ rest ->
    exists p', load_tonhash p = (Done (Ok h), p') /\ left p' = (rest, snd (left p));
  next_reference_ok : forall c rest p, snd (left p) = c :: rest ->
    exists p', next_reference p = (Done (Ok c), p') /\ left p' = (fst (left p), rest);
  next_reference_none : forall p, snd (left p) = [] ->
    exists e p', next_reference p = (Done (Err e), p') /\ left p' = left p;
  cell_depth_refs : forall c r, r ∈ cell_refs c -> (cell_depth r < cell_depth c)%nat;
}.

(** ** Errors *)

(** src/ton/src/error.rs:3-11 BocError *)
Inductive BocError : Type :=
| BocEncodingError (s : string)
| BocParsingError (s : string)
| InvalidOpCode (s : string).

(** src/ton/src/error.rs:3-11 BocError (Display) *)
Definition show_BocError (e : BocError) : string :=
  match e with
  | BocEncodingError s => "BocEncodingError: " +:+ s
  | BocParsingError s => "BocParsingError: " +:+ s
  | InvalidOpCode s => "Invalid Op Code: " +:+ s
  end.

(** src/ton/src/error.rs:13-17 TONRpcError *)
Inductive TONRpcError : Type := DataError (s : string).

(** src/ton/src/error.rs:19-25 GasError *)
Inductive GasError : Type :=
| ConversionError (s : string)
| GasCalculationError (s : string).

(** src/ton/src/error.rs:27-37 TransactionParsingError *)
Inductive TransactionParsingError : Type :=
| BocParsing (s : string)
| TpMessage (s : string)
| Gas (s : string)
| Generic (s : string).

(** src/ton/src/error.rs:27-37 TransactionParsingError (Display) *)
Definition show_TransactionParsingError (e : TransactionParsingError) : string :=
  match e with
  | BocParsing s => "BocParsingError: " +:+ s
  | TpMessage s => "MessageParsingError: " +:+ s
  | Gas s => "GasError: " +:+ s
  | Generic s => "GeneralError: " +:+ s
  end.

(** ** Byte strings in cells *)

Section bytes.
Context {L : TonLib} {CL : CellLib}.

(** src/ton/src/boc/cell_to.rs:30-30 BYTES_PER_CELL *)
Definition BYTES_PER_CELL : nat := 96.

(** A method that starts a parser of its own on a cell. *)
Definition on_cell {A E} (c : Cell) (m : M CellParser (result A E)) : M CellParser (result A E) :=
  fun p => (fst (m (parser c)), p).

(** src/ton/src/boc/cell_to.rs:51-61 CellTo::cell_to_buffer (the bytes of one cell) *)
Fixpoint load_bytes (n : nat) : M CellParser string :=
  match n with
  | O => ret ""
  | S n =>
      let! r := load_uint 8 in
      match r with
      | Ok val => let! rest := load_bytes n in ret (String (Ascii.ascii_of_N (val mod 256)) rest)
      | Err _ => ret ""
      end
  end.

Fixpoint buffer_loop (fuel : nat) (cell : Cell) : outcome string :=
  match fuel with
  | O => Panic "out of fuel"
  | S fuel =>
      match (let! bytes := load_bytes BYTES_PER_CELL in
             let! next := next_reference in
             ret (bytes, next)) (parser cell) with
      | (Done (bytes, Ok next), _) =>
          match buffer_loop fuel next with
          | Done rest => Done (bytes +:+ rest)
          | Panic why => Panic why
          end
      | (Done (bytes, Err _), _) => Done bytes
      | (Panic why, _) => Panic why
      end
  end.

(** src/ton/src/boc/cell_to.rs:44-67 CellTo::cell_to_buffer *)
Definition cell_to_buffer {W} (cell : Cell) : M W (result string BocError) :=
  match buffer_loop (S (cell_depth cell)) cell with
  | Done bytes => ret (Ok bytes)
  | Panic why => panic why
  end.

(** src/ton/src/boc/cell_to.rs:39-42 CellTo::cell_to_string *)
Definition cell_to_string {W} (cell : Cell) : M W (result string BocError) :=
  let? bytes := cell_to_buffer cell in
  ret (rmap_err BocParsingError (from_utf8 bytes)).

(** The two slices of [buffer] at [start_index + BYTES_PER_CELL]. *)
Fixpoint split_at (n : nat) (s : string) : string * string :=
  match n, s with
  | S n, String c s => let '(a, b) := split_at n s in (String c a, b)
  | _, _ => (EmptyString, s)
  end.

Fixpoint store_bytes (s : string) : M CellBuilder (result unit BocError) :=
  match s with
  | EmptyString => ret (Ok tt)
  | String c s =>
      let? _u := map_err BocParsingError (store_uint 8 (Ascii.N_of_ascii c)) in
      store_bytes s
  end.

Definition run_builder {A E} (m : M CellBuilder (result A E)) (finish : A -> CellBuilder -> result Cell E) :
  outcome (result Cell E) :=
  match m builder_new with
  | (Done (Ok a), b) => Done (finish a b)
  | (Done (Err e), _) => Done (Err e)
  | (Panic why, _) => Panic why
  end.

(** src/ton/src/boc/buffer_to_cell.rs:9-32 build_cell_chain *)
Fixpoint build_cell_chain (fuel : nat) (buffer : string) : outcome (result Cell BocError) :=
  match fuel with
  | O => Panic "out of fuel"
  | S fuel =>
      let '(bytes, more) := split_at BYTES_PER_CELL buffer in
      run_builder
        (let? _u := store_bytes bytes in
         match more with
         | EmptyString => ret (Ok tt)
         | String _ _ =>
             match build_cell_chain fuel more with
             | Done (Ok next_cell) => map_err BocParsingError (store_reference next_cell)
             | Done (Err e) => ret (Err e)
             | Panic why => panic why
             end
         end)
        (fun _ b => rmap_err BocParsingError (build b))
  end.

(** src/ton/src/boc/buffer_to_cell.rs:34-36 buffer_to_cell *)
Definition buffer_to_cell (buffer : string) : outcome (result Cell BocError) :=
  build_cell_chain (S (String.length buffer)) buffer.
End bytes.

(** ** Properties *)

Lemma to_bits_length n v : length (to_bits n v) = n.
Proof. induction n as [|n IH]; simpl; [done|]. by rewrite IH. Qed.

Lemma of_to_bits n v acc : of_bits acc (to_bits n v) = (acc * 2 ^ N.of_nat n + v mod 2 ^ N.of_nat n)%N.
Proof.
  revert acc. induction n as [|n IH]; intros acc; cbn [to_bits of_bits].
  - change (2 ^ N.of_nat 0)%N with 1%N. rewrite N.mod_1_r. lia.
  - rewrite IH, Nat2N.inj_succ, N.pow_succ_r'. set (k := N.of_nat n).
    assert (Hm : (v mod (2 * 2 ^ k) = v mod 2 ^ k + 2 ^ k * (if N.testbit v k then 1 else 0))%N).
    { rewrite (N.mul_comm 2), N.Div0.mod_mul_r. f_equal.
      rewrite N.testbit_eqb. pose proof (N.mod_lt (v / 2 ^ k) 2 ltac:(done)) as Hb.
      revert Hb. generalize ((v / 2 ^ k) mod 2)%N. intros x Hx.
      destruct (N.eqb_spec x 1) as [->|H]; [done|]. f_equal. lia. }
    rewrite Hm. lia.
Qed.

Lemma of_to_bits_0 n v : (v < 2 ^ N.of_nat n)%N -> of_bits 0 (to_bits n v) = v.
Proof. intros Hv. rewrite of_to_bits, N.mod_small by done. lia. Qed.

Fixpoint byte_bits (s : string) : list bool :=
  match s with
  | EmptyString => []
  | String c s => to_bits 8 (Ascii.N_of_ascii c) ++ byte_bits s
  end.

Lemma byte_bits_length s : length (byte_bits s) = (8 * String.length s)%nat.
Proof. induction s as [|c s IH]; [done|]. cbn [byte_bits String.length]. rewrite length_app, IH, to_bits_length. lia. Qed.

Lemma split_at_spec n s : let '(a, b) := split_at n s in
  s = a +:+ b /\ (String.length a <= n)%nat /\ (b <> "" -> String.length a = n).
Proof.
  revert s. induction n as [|n IH]; intros s; simpl; [by destruct s|]. destruct s as [|c s]; simpl; [done||(split; [done|]; split; [lia|done])|].
  specialize (IH s). destruct (split_at n s) as [a b]. destruct IH as (-> & Hl & Hb). simpl.
  split; [done|]. split; [lia|]. intros H. by rewrite (Hb H).
Qed.

Lemma append_nil s : s +:+ "" = s.
Proof. induction s as [|c s IH]; [done|]. change (String c s +:+ "") with (String c (s +:+ "")). by rewrite IH. Qed.

Section roundtrip.
Context {L : TonLib} {CL : CellLib} {LW : CellLaws}.

Lemma store_bytes_ok s b :
  (length (fst (put b)) + 8 * String.length s <= MAX_CELL_BITS)%nat ->
  exists b', store_bytes s b = (Done (Ok tt), b') /\ put b' = (fst (put b) ++ byte_bits s, snd (put b)).
Proof.
  revert b. induction s as [|c s IH]; intros b Hl; simpl.
  - exists b. rewrite app_nil_r. by destruct (put b).
  - simpl in Hl. assert (Hc : (Ascii.N_of_ascii c < 2 ^ N.of_nat 8)%N) by (destruct c as [[] [] [] [] [] [] [] []]; done).
    destruct (store_uint_ok 8 (Ascii.N_of_ascii c) b Hc ltac:(lia)) as (b1 & E1 & H1).
    destruct (IH b1) as (b2 & E2 & H2).
    { rewrite H1. cbn [fst]. rewrite length_app, to_bits_length. lia. }
    exists b2. rewrite bind_ok_run, map_err_run, E1. split; [exact E2|].
    rewrite H2, H1. cbn [fst snd]. by rewrite <- app_assoc.
Qed.

Lemma load_bytes_ok n s p :
  fst (left p) = byte_bits s -> (String.length s <= n)%nat ->
  exists p', load_bytes n p = (Done s, p') /\ snd (left p') = snd (left p).
Proof.
  revert s p. induction n as [|n IH]; intros s p Hp Hl.
  - destruct s; [|simpl in Hl; lia]. by exists p.
  - cbn [load_bytes]. rewrite bind_run. destruct s as [|c s].
    + destruct (load_uint_short 8 p) as (e & p1 & E & H1); [rewrite Hp; simpl; lia|]. rewrite E. by exists p1.
    + destruct (load_uint_ok 8 p) as (p1 & E & H1).
      { rewrite Hp, byte_bits_length. simpl. lia. }
      rewrite E, Hp. cbn [byte_bits].
      rewrite take_app_length' by (by rewrite to_bits_length).
      destruct (IH s p1) as (p2 & E2 & H2); [|simpl in Hl; lia|].
      { rewrite H1, Hp. cbn [fst byte_bits]. apply drop_app_length'. by rewrite to_bits_length. }
      rewrite bind_run, E2. exists p2. split; [|by rewrite H2, H1]. do 2 f_equal.
      by destruct c as [[] [] [] [] [] [] [] []].
Qed.

Lemma next_reference_cases p : 
  (exists c rest p', snd (left p) = c :: rest /\ next_reference p = (Done (Ok c), p') /\ left p' = (fst (left p), rest)) \/
  (exists e p', snd (left p) = [] /\ next_reference p = (Done (Err e), p') /\ left p' = left p).
Proof.
  destruct (snd (left p)) as [|c rest] eqn:E; [right|left].
  - destruct (next_reference_none p E) as (e & p' & ? & ?). eauto.
  - destruct (next_reference_ok c rest p E) as (p' & ? & ?). eauto 6.
Qed.

(** A chain of cells holds a byte string: the bytes of this cell, then those
    of the cell it refers to. *)
Inductive holds : string -> Cell -> Prop :=
| holds_last s c : (String.length s <= BYTES_PER_CELL)%nat ->
    cell_data c = byte_bits s -> cell_refs c = [] -> holds s c
| holds_more s s' c c' : String.length s = BYTES_PER_CELL ->
    cell_data c = byte_bits s -> cell_refs c = [c'] -> holds s' c' -> holds (s +:+ s') c.

Lemma buffer_loop_holds s c fuel : holds s c -> (cell_depth c < fuel)%nat -> buffer_loop fuel c = Done s.
Proof.
  intros Hh. revert fuel. induction Hh as [s c Hl Hd Hr|s s' c c' Hl Hd Hr Hh IH]; intros [|fuel] Hf; try lia;
    cbn [buffer_loop];
    (destruct (load_bytes_ok BYTES_PER_CELL s (parser c)) as (p1 & E1 & H1);
      [by rewrite parser_left, Hd|lia|]); rewrite parser_left in H1; cbn [snd] in H1;
    rewrite bind_run, E1, bind_run;
    destruct (next_reference_cases p1) as [(x & rest & p' & Hx & E & _)|(e & p' & Hx & E & _)];
    rewrite E; rewrite H1, Hr in Hx; simplify_eq/=.
  - done.
  - rewrite IH; [done|]. assert (cell_depth x < cell_depth c)%nat; [|lia].
    apply cell_depth_refs. rewrite Hr. by left.
Qed.

Lemma cell_to_buffer_holds {W} s c (w : W) : holds s c -> cell_to_buffer c w = (Done (Ok s), w).
Proof. intros Hh. unfold cell_to_buffer. by rewrite (buffer_loop_holds s c) by (done || lia). Qed.

Lemma build_chain_holds fuel s : (String.length s < fuel)%nat ->
  exists c, build_cell_chain fuel s = Done (Ok c) /\ holds s c.
Proof.
  revert s. induction fuel as [|fuel IH]; intros s Hf; [lia|]. cbn [build_cell_chain].
  pose proof (split_at_spec BYTES_PER_CELL s) as Hs. destruct (split_at BYTES_PER_CELL s) as [bytes more].
  destruct Hs as (-> & Hl & Hm). unfold run_builder. rewrite bind_ok_run.
  destruct (store_bytes_ok bytes builder_new) as (b1 & E1 & H1).
  { rewrite builder_new_put. unfold BYTES_PER_CELL, MAX_CELL_BITS in *. simpl. lia. }
  rewrite builder_new_put in H1. cbn [fst snd app] in H1. rewrite E1. destruct more as [|ch more].
  - cbn [ret]. destruct (build_ok b1) as (c & -> & Hd & Hr). exists c. split; [done|].
    rewrite H1 in Hd, Hr. rewrite append_nil. by constructor.
  - specialize (Hm ltac:(done)). destruct (IH (String ch more)) as (c' & -> & Hh).
    { rewrite string_length_app in Hf. unfold BYTES_PER_CELL in *. lia. }
    rewrite map_err_run. destruct (store_reference_ok c' b1) as (b2 & E2 & H2); [rewrite H1; simpl; unfold MAX_CELL_REFS; lia|].
    rewrite E2. cbn [rmap_err]. destruct (build_ok b2) as (c & -> & Hd & Hr). exists c. split; [done|].
    rewrite H2, H1 in Hd, Hr. by apply (holds_more bytes _ c c').
Qed.

(** C31: a byte string of any length kept in cells is read back.  Building
    the chain of cells never fails, and walking it gives the bytes again. *)
Theorem buffer_roundtrip {W} (buffer : string) (w : W) :
  exists c, buffer_to_cell buffer = Done (Ok c) /\ cell_to_buffer c w = (Done (Ok buffer), w).
Proof.
  destruct (build_chain_holds (S (String.length buffer)) buffer ltac:(lia)) as (c & E & Hh).
  exists c. split; [exact E|]. by apply cell_to_buffer_holds.
Qed.
End roundtrip.

(** ** Cells as lists of bits: an instance for concrete runs *)

Module CellDemo.
(** Addresses and hashes of one byte. *)
#[export] Instance ton : TonLib := {|
  TonAddress := Ascii.ascii;
  address_to_string := fun a => String a "";
  from_base64_url := fun s => match s with String c _ => Ok c | _ => Err "empty" end;
  from_hex_str := fun s => match s with String c _ => Ok c | _ => Err "empty" end;
  address_parse := fun s => match s with String c _ => Ok c | _ => Err "empty" end;
  address_to_hex := fun a => String a "";
  NULL := "0"%char;
  TonHash := Ascii.ascii;
  hash_from_hex := fun s => match s with String c _ => Ok c | _ => Err "empty" end;
  hash_from := fun s => match s with String c _ => c | _ => "0"%char end;
  hash_try_from := fun s => match s with String c _ => Ok c | _ => Err "empty" end;
  hash_to_string := fun h => String h "";
  address_new := fun _ h => h;
  hash_part := fun a => String a "";
|}.

#[warnings="-register-all"]
Inductive MCell : Type := mcell (bits : list bool) (refs : list MCell).
Definition data (c : MCell) : list bool := let '(mcell bits _) := c in bits.
Definition refs (c : MCell) : list MCell := let '(mcell _ refs) := c in refs.
Fixpoint depth (c : MCell) : nat := let '(mcell _ refs) := c in S (list_max (map depth refs)).

Abbreviation Bits := (list bool * list MCell)%type.
Definition append (bits : list bool) : M Bits (result unit string) := fun b =>
  if (length (fst b) + length bits <=? MAX_CELL_BITS)%nat then (Done (Ok tt), (fst b ++ bits, snd b))
  else (Done (Err "too many bits"), b).
Definition put_reference (c : MCell) : M Bits (result unit string) := fun b =>
  if (length (snd b) <? MAX_CELL_REFS)%nat then (Done (Ok tt), (fst b, snd b ++ [c])) else (Done (Err "full"), b).
Definition take_bits {A} (n : nat) (f : list bool -> A) : M Bits (result A string) := fun p =>
  if (n <=? length (fst p))%nat then (Done (Ok (f (take n (fst p)))), (drop n (fst p), snd p))
  else (Done (Err "not enough bits"), p).
Definition byte_of (bits : list bool) : Ascii.ascii := Ascii.ascii_of_N (of_bits 0 (take 8 bits)).
Fixpoint bytes_of (n : nat) (bits : list bool) : string :=
  match n with O => "" | S n => String (byte_of bits) (bytes_of n (drop 8 bits)) end.
Definition byte_field (n : nat) (c : Ascii.ascii) : list bool := to_bits 8 (Ascii.N_of_ascii c) ++ repeat false (n - 8).

Definition cells (decode : string -> result MCell string) : CellLib := {|
  Cell := MCell; CellBuilder := Bits; CellParser := Bits;
  builder_new := ([], []);
  store_uint := fun n v => append (to_bits n v);
  store_reference := put_reference;
  store_address := fun a => append (byte_field 267 a);
  store_tonhash := fun h => append (byte_field 256 h);
  store_coins := fun v => append (to_bits 120 v);
  build := fun b => Ok (mcell (fst b) (snd b));
  parser := fun c => (data c, refs c);
  load_uint := fun n => take_bits n (of_bits 0);
  load_bits := fun n => take_bits n (bytes_of (n / 8));
  load_address := take_bits 267 byte_of;
  load_coins := take_bits 120 (of_bits 0);
  load_tonhash := take_bits 256 byte_of;
  load_dict := fun p => (Done (Ok (snd p)), p);
  next_reference := fun p =>
    match snd p with c :: rest => (Done (Ok c), (fst p, rest)) | [] => (Done (Err "no reference"), p) end;
  cell_depth := depth;
  cell_from_boc_hex := decode;
  cell_from_boc_b64 := decode;
  cell_to_boc_hex := fun _ => Ok "boc";
|}.

Lemma append_ok bits b : (length (fst b) + length bits <= MAX_CELL_BITS)%nat ->
  exists b', append bits b = (Done (Ok tt), b') /\ b' = (fst b ++ bits, snd b).
Proof. intros H. unfold append. rewrite (proj2 (Nat.leb_le _ _) H). eauto. Qed.

Lemma take_bits_ok {A} (f : list bool -> A) bits rest p :
  fst p = bits ++ rest ->
  exists p', take_bits (length bits) f p = (Done (Ok (f bits)), p') /\ p' = (rest, snd p).
Proof.
  intros H. unfold take_bits. rewrite H, length_app.
  replace (length bits <=? length bits + length rest)%nat with true by (symmetry; apply Nat.leb_le; lia).
  rewrite take_app_length, drop_app_length. eauto.
Qed.

Lemma byte_field_length n c : (8 <= n)%nat -> length (byte_field n c) = n.
Proof. intros H. unfold byte_field. rewrite length_app, to_bits_length, repeat_length. lia. Qed.

Lemma byte_of_field n c : byte_of (byte_field n c) = c.
Proof. unfold byte_of, byte_field. rewrite take_app_length' by (by rewrite to_bits_length). by destruct c as [[] [] [] [] [] [] [] []]. Qed.

Lemma take_field {A} n (f : list bool -> A) (bits rest : list bool) (p : Bits) a :
  length bits = n -> f bits = a -> fst p = bits ++ rest ->
  exists p', take_bits n f p = (Done (Ok a), p') /\ p' = (rest, snd p).
Proof. intros <- <- H. by apply take_bits_ok. Qed.

Lemma depth_refs (c r : MCell) : r ∈ refs c -> (depth r < depth c)%nat.
Proof.
  destruct c as [bits l]. simpl. intros Hin.
  assert (depth r <= list_max (map depth l))%nat; [|lia].
  induction l as [|c l IH]; [by apply not_elem_of_nil in Hin|]. simpl.
  apply elem_of_cons in Hin as [->|Hin]; [lia|]. specialize (IH Hin). lia.
Qed.

#[local] Arguments byte_field : simpl never.
#[local] Arguments to_bits : simpl never.
#[local] Arguments append : simpl never.
#[local] Arguments put_reference : simpl never.
#[local] Arguments take_bits : simpl never.

#[export] Instance cells_laws decode : @CellLaws ton (cells decode).
Proof.
  refine (Build_CellLaws ton (cells decode) data refs (fun b => b) (fun p => p) (byte_field 267) (byte_field 256)
    (to_bits 120) _ _ _ _ _ _ _ _ _ _ _ _ _ _ _ _ _ _ _); cbn.
  - intros a. by apply byte_field_length; lia.
  - intros a. by apply byte_field_length; lia.
  - intros v _. rewrite to_bits_length. lia.
  - done.
  - intros b. by eexists.
  - intros n v b _ H. apply append_ok. by rewrite to_bits_length.
  - intros c b H. unfold put_reference. rewrite (proj2 (Nat.ltb_lt _ _) H). eauto.
  - intros a b H. apply append_ok. by rewrite byte_field_length by lia.
  - intros h b H. apply append_ok. by rewrite byte_field_length by lia.
  - intros v b _ H. apply append_ok. rewrite to_bits_length. lia.
  - done.
  - intros n p H. unfold take_bits. rewrite (proj2 (Nat.leb_le _ _) H). eauto.
  - intros n p H. unfold take_bits. rewrite (proj2 (Nat.leb_gt _ _) H). eauto.
  - intros a rest p H. eapply take_field; [|apply (byte_of_field 267)|exact H]. by apply byte_field_length; lia.
  - intros v rest p Hv H. eapply take_field; [|apply (of_to_bits_0 120 v Hv)|exact H]. apply to_bits_length.
  - intros h rest p H. eapply take_field; [|apply (byte_of_field 256)|exact H]. by apply byte_field_length; lia.
  - intros c rest p ->. eauto.
  - intros p ->. eauto.
  - apply depth_refs.
Defined.
End CellDemo.

Lemma buffer_roundtrip_witness :
  exists c, buffer_to_cell (CL := CellDemo.cells (fun _ => Err "none")) "Hello" = Done (Ok c) /\
    cell_to_buffer (CL := CellDemo.cells (fun _ => Err "none")) c tt = (Done (Ok "Hello"), tt).
Proof. exact (buffer_roundtrip (LW := CellDemo.cells_laws _) "Hello" tt). Defined.
