(* ===== verification/TonMessages.v ===== *)
(** * The messages of the TON contracts

    [ton/src/boc]: what the relayer writes into a cell and what it reads from
    the logs of the gateway and of the gas service. *)

From S2P Require Import Prelude.
From S2P Require Import Decimal.
From S2P Require Import Text.
From S2P Require Import TonLib.
From S2P Require Import TonCells.

(** ** Constants *)

(** src/ton/src/ton_constants.rs:1-1 OP_APPROVE_MESSAGES *)
Definition OP_APPROVE_MESSAGES : Z := 0x00000028.
(** src/ton/src/ton_constants.rs:2-2 OP_MESSAGE_APPROVED *)
Definition OP_MESSAGE_APPROVED : Z := 0x0000000D.
(** src/ton/src/ton_constants.rs:3-3 OP_NULLIFIED_SUCCESSFULLY *)
Definition OP_NULLIFIED_SUCCESSFULLY : Z := 0x00000005.
(** src/ton/src/ton_constants.rs:6-6 OP_RELAYER_EXECUTE *)
Definition OP_RELAYER_EXECUTE : Z := 0x00000008.
(** src/ton/src/ton_constants.rs:7-7 OP_GATEWAY_EXECUTE *)
Definition OP_GATEWAY_EXECUTE : Z := 0x0000000C.
(** src/ton/src/ton_constants.rs:8-8 OP_CALL_CONTRACT *)
Definition OP_CALL_CONTRACT : Z := 0x00000009.
(** src/ton/src/ton_constants.rs:9-9 OP_PAY_GAS *)
Definition OP_PAY_GAS : Z := 0x00000045.
(** src/ton/src/ton_constants.rs:10-10 OP_PAY_NATIVE_GAS_FOR_CONTRACT_CALL *)
Definition OP_PAY_NATIVE_GAS_FOR_CONTRACT_CALL : Z := 0x0000001F.
(** src/ton/src/ton_constants.rs:11-11 OP_ADD_NATIVE_GAS *)
Definition OP_ADD_NATIVE_GAS : Z := 0x00000036.
(** src/ton/src/ton_constants.rs:12-12 OP_NATIVE_REFUND *)
Definition OP_NATIVE_REFUND : Z := 0x00000046.
(** src/ton/src/ton_constants.rs:14-14 OP_USER_BALANCE_SUBTRACTED *)
Definition OP_USER_BALANCE_SUBTRACTED : Z := 0x00000024.
(** src/ton/src/ton_constants.rs:16-16 EXIT_CODE_INSUFFICIENT_GAS *)
Definition EXIT_CODE_INSUFFICIENT_GAS : Z := 106.
(** src/ton/src/ton_constants.rs:22-22 SEND_MODE_IGNORE_ERRORS *)
Definition SEND_MODE_IGNORE_ERRORS : Z := 2.
(** src/ton/src/ton_constants.rs:26-26 REFUND_DUST *)
Definition REFUND_DUST : N := 10000000.
(** src/ton/src/ton_constants.rs:28-28 WORKCHAIN *)
Definition WORKCHAIN : Z := 0.

(** [format!("{n:08X}")]. *)
Definition upper_digit (d : Z) : Ascii.ascii :=
  Ascii.ascii_of_nat (Z.to_nat (if d <? 10 then 48 + d else 55 + d)).
Fixpoint upper_hex (w : nat) (n : Z) : string :=
  match w with
  | O => ""
  | S w => String (upper_digit (n / 16 ^ Z.of_nat w)) (upper_hex w (n mod 16 ^ Z.of_nat w))
  end.

(** [format!("{s:?}")] on text without special characters. *)
Definition quoted (s : string) : string :=
  let quote := String (Ascii.ascii_of_nat 34) "" in quote +:+ s +:+ quote.

(** [BigUint::from_bytes_be]. *)
Definition from_bytes_be (bytes : string) : N :=
  foldl (fun acc c => 256 * acc + Ascii.N_of_ascii c)%N 0%N (String.list_ascii_of_string bytes).

Section messages.
Context {L : TonLib} {CL : CellLib} {C : Codecs}.

Abbreviation P := (M CellParser).

Definition take_ref : P (result Cell BocError) := map_err BocParsingError next_reference.
Definition take_address : P (result TonAddress BocError) := map_err BocParsingError load_address.
Definition take_coins : P (result N BocError) := map_err BocParsingError load_coins.
Definition take_string : P (result string BocError) := let? c := take_ref in cell_to_string c.
Definition take_buffer : P (result string BocError) := let? c := take_ref in cell_to_buffer c.

(** [load_bits(256)] and [try_into] an array of 32 bytes. *)
Definition take_hash (what : string) : P (result string BocError) :=
  let? bytes := map_err BocParsingError (load_bits 256) in
  ret (if (String.length bytes =? 32)%nat then Ok bytes
       else Err (BocParsingError ("Invalid " +:+ what +:+ " length"))).

(** The first 32 bits, compared as hexadecimal text. *)
Definition check_op_code (op : Z) : P (result unit BocError) :=
  let? op_code := map_err BocParsingError (load_bits 32) in
  ret (if bool_decide (hex_encode op_code = upper_hex 8 op) then Ok tt
       else Err (InvalidOpCode ("Expected " +:+ print_Z op +:+ ", got " +:+ quoted (hex_encode op_code)))).

(** A parser run on the root of a bag of cells. *)
Definition from_boc {A} (cell : result Cell string) (m : P (result A BocError)) : outcome (result A BocError) :=
  match cell with
  | Ok cell => fst (m (parser cell))
  | Err e => Done (Err (BocParsingError e))
  end.

(** ** Approvals *)

(** src/ton/src/boc/approve_message.rs:25-33 ApproveMessage *)
Record ApproveMessage : Type := mkApprove {
  approve_message_id : string;
  approve_source_chain : string;
  approve_source_address : string;
  approve_destination_chain : string;
  approve_destination_address : string;
  approve_payload_hash : N;
}.

(** src/ton/src/boc/approve_message.rs:35-39 ApproveMessages *)
Record ApproveMessages : Type := mkApproves {
  approve_messages : list ApproveMessage;
  proof : Cell;
}.

(** src/ton/src/boc/approve_message.rs:79-118 ApproveMessages::parse_approve_messages *)
Definition parse_approve_messages : P (result ApproveMessage BocError) :=
  let? payload_hash := map_err BocParsingError (load_uint 256) in
  let? message_id := take_string in
  let? source_chain := take_string in
  let? source_address := take_string in
  let? inner_cell := take_ref in
  let? inner := on_cell inner_cell
    (let? destination_address := take_buffer in
     let? destination_chain := take_string in
     ret (Ok (destination_address, destination_chain))) in
  ret (Ok (mkApprove message_id source_chain source_address (snd inner) (fst inner) payload_hash)).

(** [collect] into a [Result]: the first error ends it. *)
Fixpoint collect_messages (cells : list Cell) : P (result (list ApproveMessage) BocError) :=
  match cells with
  | [] => ret (Ok [])
  | c :: cells =>
      let? m := on_cell c parse_approve_messages in
      let? ms := collect_messages cells in
      ret (Ok (m :: ms))
  end.

(** src/ton/src/boc/approve_message.rs:42-77 ApproveMessages::from_boc_hex *)
Definition approve_from_boc_hex (boc : string) : outcome (result ApproveMessages BocError) :=
  from_boc (cell_from_boc_hex boc)
    (let? _o := check_op_code OP_APPROVE_MESSAGES in
     let? proof := take_ref in
     let? messages := take_ref in
     let? data := on_cell messages (map_err BocParsingError load_dict) in
     let? approve_messages := collect_messages data in
     ret (Ok (mkApproves approve_messages proof))).

(** ** Calls *)

(** src/ton/src/boc/call_contract.rs:33-40 CallContractMessage *)
Record CallContractMessage : Type := mkCall {
  call_destination_chain : string;
  call_destination_address : string;
  call_payload : string;
  call_source_address : TonAddress;
  call_payload_hash : string;
}.

(** src/ton/src/boc/call_contract.rs:43-81 CallContractMessage::from_boc_b64 *)
Definition call_from_boc_b64 (boc : string) : outcome (result CallContractMessage BocError) :=
  from_boc (cell_from_boc_b64 boc)
    (let? destination_chain := take_string in
     let? destination_address := take_string in
     let? payload := take_buffer in
     let? source_address := take_address in
     let? payload_hash := take_hash "payload hash" in
     ret (Ok (mkCall destination_chain destination_address (hex_encode payload) source_address payload_hash))).

(** ** Approved and executed messages *)

(** src/ton/src/boc/cc_message.rs:34-43 TonCCMessage *)
Record TonCCMessage : Type := mkCC {
  cc_message_id : string;
  cc_destination_address : string;
  cc_destination_chain : string;
  cc_source_address : string;
  cc_source_chain : string;
  cc_log_event : string;
  cc_payload_hash : string;
}.

(** src/ton/src/boc/cc_message.rs:46-103 TonCCMessage::from_boc_b64 *)
Definition cc_from_boc_b64 (boc : string) : outcome (result TonCCMessage BocError) :=
  from_boc (cell_from_boc_b64 boc)
    (let? message_id := take_string in
     let? source_chain := take_string in
     let? source_address := take_string in
     let? inner_cell := take_ref in
     let? inner := on_cell inner_cell
       (let? payload_hash := take_hash "payload hash" in
        let? destination_address := take_buffer in
        let? hash_part := ret (rmap_err (fun _ => BocParsingError "Invalid hash length")
                            (hash_try_from destination_address)) in
        let? destination_chain := take_string in
        ret (Ok (payload_hash, address_new WORKCHAIN hash_part, destination_chain))) in
     let '(payload_hash, ton_address, destination_chain) := inner in
     ret (Ok (mkCC message_id (address_to_hex ton_address) destination_chain source_address source_chain ""
                payload_hash))).

(** src/ton/src/boc/nullified_message.rs:32-40 NullifiedSuccessfullyMessage *)
Record NullifiedSuccessfullyMessage : Type := mkNullified {
  nullified_message_id : string;
  nullified_source_chain : string;
  nullified_source_address : string;
  nullified_destination_chain : string;
  nullified_destination_address : string;
  nullified_payload : string;
}.

(** src/ton/src/boc/nullified_message.rs:43-96 NullifiedSuccessfullyMessage::from_boc_b64 *)
Definition nullified_from_boc_b64 (boc : string) : outcome (result NullifiedSuccessfullyMessage BocError) :=
  from_boc (cell_from_boc_b64 boc)
    (let? _o := check_op_code OP_NULLIFIED_SUCCESSFULLY in
     let? message_id := take_string in
     let? source_chain := take_string in
     let? source_address := take_string in
     let? inner_cell := take_ref in
     let? inner := on_cell inner_cell
       (let? payload := take_buffer in
        let? destination_address := take_buffer in
        let? destination_chain := take_string in
        ret (Ok (hex_encode payload, destination_address, destination_chain))) in
     let '(payload, destination_address, destination_chain) := inner in
     ret (Ok (mkNullified message_id source_chain source_address destination_chain destination_address payload))).

(** ** Gas *)

(** src/ton/src/boc/native_gas_paid.rs:31-39 NativeGasPaidMessage *)
Record NativeGasPaidMessage : Type := mkNativePaid {
  native_paid_sender : TonAddress;
  native_paid_payload_hash : string;
  native_paid_msg_value : N;
  native_paid_refund_address : TonAddress;
  native_paid_destination_chain : string;
  native_paid_destination_address : string;
}.

(** src/ton/src/boc/native_gas_paid.rs:42-90 NativeGasPaidMessage::from_boc_b64 *)
Definition native_paid_from_boc_b64 (boc : string) : outcome (result NativeGasPaidMessage BocError) :=
  from_boc (cell_from_boc_b64 boc)
    (let? sender := take_address in
     let? payload_hash := take_hash "payload hash" in
     let? msg_value := take_hash "msg_value hash" in
     let? refund_cell := take_ref in
     let? refund_address := on_cell refund_cell take_address in
     let? destination_chain := take_string in
     let? destination_address := take_string in
     ret (Ok (mkNativePaid sender payload_hash (from_bytes_be msg_value) refund_address
                destination_chain destination_address))).

(** src/ton/src/boc/jetton_gas_paid.rs:31-39 JettonGasPaidMessage *)
Record JettonGasPaidMessage : Type := mkJettonPaid {
  jetton_paid_minter : TonAddress;
  jetton_paid_payload_hash : string;
  jetton_paid_amount : N;
  jetton_paid_refund_address : TonAddress;
  jetton_paid_destination_chain : string;
  jetton_paid_destination_address : string;
}.

(** src/ton/src/boc/jetton_gas_paid.rs:42-86 JettonGasPaidMessage::from_boc_b64 *)
Definition jetton_paid_from_boc_b64 (boc : string) : outcome (result JettonGasPaidMessage BocError) :=
  from_boc (cell_from_boc_b64 boc)
    (let? minter := take_address in
     let? amount := take_coins in
     let? payload_hash := take_hash "payload hash" in
     let? refund_cell := take_ref in
     let? refund_address := on_cell refund_cell take_address in
     let? destination_chain := take_string in
     let? destination_address := take_string in
     ret (Ok (mkJettonPaid minter payload_hash amount refund_address destination_chain destination_address))).

(** src/ton/src/boc/native_gas_added.rs:33-38 NativeGasAddedMessage *)
Record NativeGasAddedMessage : Type := mkNativeAdded {
  native_added_tx_hash : TonHash;
  native_added_refund_address : TonAddress;
  native_added_msg_value : N;
}.

(** src/ton/src/boc/native_gas_added.rs:41-69 NativeGasAddedMessage::from_boc_b64 *)
Definition native_added_from_boc_b64 (boc : string) : outcome (result NativeGasAddedMessage BocError) :=
  from_boc (cell_from_boc_b64 boc)
    (let? tx_hash := take_hash "tx_hash hash" in
     let? refund_address := take_address in
     let? msg_value := take_hash "msg_value hash" in
     ret (Ok (mkNativeAdded (hash_from tx_hash) refund_address (from_bytes_be msg_value)))).

(** src/ton/src/boc/jetton_gas_added.rs:30-37 JettonGasAddedMessage *)
Record JettonGasAddedMessage : Type := mkJettonAdded {
  jetton_added_minter : TonAddress;
  jetton_added_sender : TonAddress;
  jetton_added_tx_hash : TonHash;
  jetton_added_amount : N;
  jetton_added_refund_address : TonAddress;
}.

(** src/ton/src/boc/jetton_gas_added.rs:40-79 JettonGasAddedMessage::from_boc_b64 *)
Definition jetton_added_from_boc_b64 (boc : string) : outcome (result JettonGasAddedMessage BocError) :=
  from_boc (cell_from_boc_b64 boc)
    (let? minter := take_address in
     let? sender := take_address in
     let? amount := take_coins in
     let? tx_hash := take_hash "tx_hash hash" in
     let? refund_cell := take_ref in
     let? refund_address := on_cell refund_cell take_address in
     ret (Ok (mkJettonAdded minter sender (hash_from tx_hash) amount refund_address))).

(** src/ton/src/boc/native_gas_refunded.rs:30-35 NativeGasRefundedMessage *)
Record NativeGasRefundedMessage : Type := mkNativeRefunded {
  refunded_log_tx_hash : TonHash;
  refunded_log_address : TonAddress;
  refunded_log_amount : N;
}.

Definition parse_native_refunded : P (result NativeGasRefundedMessage BocError) :=
  let? tx_hash := map_err BocParsingError load_tonhash in
  let? address := take_address in
  let? amount := take_coins in
  ret (Ok (mkNativeRefunded tx_hash address amount)).

(** src/ton/src/boc/native_gas_refunded.rs:38-55 NativeGasRefundedMessage::from_boc_b64 *)
Definition refunded_from_boc_b64 (boc : string) : outcome (result NativeGasRefundedMessage BocError) :=
  from_boc (cell_from_boc_b64 boc) parse_native_refunded.

(** ** What the relayer sends *)

(** src/ton/src/boc/native_refund.rs:32-37 NativeRefundMessage *)
Record NativeRefundMessage : Type := mkNativeRefund {
  refund_tx_hash : TonHash;
  refund_address : TonAddress;
  refund_amount : N;
}.

Abbreviation B := (M CellBuilder).
Definition put_uint (n : nat) (v : N) : B (result unit BocError) := map_err BocEncodingError (store_uint n v).
Definition put_ref (c : Cell) : B (result unit BocError) := map_err BocEncodingError (store_reference c).
Definition put_address (a : TonAddress) : B (result unit BocError) := map_err BocEncodingError (store_address a).

(** [build] at the end of a builder's chain. *)
Definition finish (on_error : string -> BocError) : unit -> CellBuilder -> result Cell BocError :=
  fun _ b => rmap_err on_error (build b).

(** src/ton/src/boc/native_refund.rs:48-63 NativeRefundMessage::to_cell *)
Definition native_refund_to_cell (self : NativeRefundMessage) : outcome (result Cell BocError) :=
  run_builder
    (let? _o := put_uint 32 (Z.to_N OP_NATIVE_REFUND) in
     let? _h := map_err BocEncodingError (store_tonhash (refund_tx_hash self)) in
     let? _a := put_address (refund_address self) in
     let? _c := map_err BocEncodingError (store_coins (refund_amount self)) in
     ret (Ok tt))
    (finish BocEncodingError).

(** [tiny_keccak]'s Keccak-256. *)
Variable keccak256 : string -> string.

(** src/ton/src/boc/relayer_execute_message.rs:41-50 RelayerExecuteMessage *)
Record RelayerExecuteMessage : Type := mkRelayerExecute {
  execute_message_id : string;
  execute_source_chain : string;
  execute_source_address : string;
  execute_destination_chain : string;
  execute_destination_address : TonAddress;
  execute_payload : string;
  relayer_address : TonAddress;
}.

(** src/ton/src/boc/relayer_execute_message.rs:73-79 RelayerExecuteMessage::payload_hash *)
Definition payload_hash (payload : string) : N := from_bytes_be (keccak256 payload).

(** [?] on the result of a function that builds a cell of its own. *)
Definition obind {A B E} (o : outcome (result A E)) (k : A -> outcome (result B E)) : outcome (result B E) :=
  match o with
  | Done (Ok a) => k a
  | Done (Err e) => Done (Err e)
  | Panic why => Panic why
  end.

(** src/ton/src/boc/relayer_execute_message.rs:81-140 RelayerExecuteMessage::to_cell *)
Definition relayer_execute_to_cell (self : RelayerExecuteMessage) : outcome (result Cell BocError) :=
  obind (buffer_to_cell (execute_message_id self)) (fun message_id =>
  obind (buffer_to_cell (execute_source_chain self)) (fun source_chain =>
  obind (buffer_to_cell (execute_source_address self)) (fun source_address =>
  obind (buffer_to_cell (execute_destination_chain self)) (fun destination_chain =>
  obind (buffer_to_cell (hash_part (execute_destination_address self))) (fun destination_address =>
  obind (Done (rmap_err (fun e => BocParsingError ("Invalid hex payload: " +:+ e))
           (hex_decode (execute_payload self)))) (fun payload_bytes =>
  obind (buffer_to_cell payload_bytes) (fun payload =>
  obind (run_builder
    (let? _p := put_ref payload in
     let? _a := put_ref destination_address in
     let? _c := put_ref destination_chain in
     let? _h := put_uint 256 (payload_hash payload_bytes) in
     ret (Ok tt)) (finish BocParsingError)) (fun inner =>
  obind (run_builder
    (let? _m := put_ref message_id in
     let? _c := put_ref source_chain in
     let? _a := put_ref source_address in
     let? _i := put_ref inner in
     ret (Ok tt)) (finish BocEncodingError)) (fun message =>
  run_builder
    (let? _o := put_uint 32 (Z.to_N OP_RELAYER_EXECUTE) in
     let? _m := put_ref message in
     let? _a := put_address (relayer_address self) in
     ret (Ok tt)) (finish BocEncodingError)))))))))).

(** src/ton/src/boc/relayer_execute_wrapped.rs:29-33 RelayerExecuteWrappedMessage *)
Record RelayerExecuteWrappedMessage : Type := mkWrapped {
  wrapped_message_id : string;
  wrapped_source_chain : string;
}.

Definition again {A} (m : P (result A BocError)) : P (result A BocError) :=
  map_err (fun e => BocParsingError (show_BocError e)) m.

(** src/ton/src/boc/relayer_execute_wrapped.rs:36-75 RelayerExecuteWrappedMessage::from_boc_b64 *)
Definition wrapped_from_boc_b64 (boc : string) : outcome (result RelayerExecuteWrappedMessage BocError) :=
  from_boc (cell_from_boc_b64 boc)
    (let? cell := take_ref in
     on_cell cell
       (let? _first := take_ref in
        let? cell := take_ref in
        on_cell cell
          (let? cell := take_ref in
           on_cell cell
             (let? cell := take_ref in
              on_cell cell
                (let? c := take_ref in
                 let? message_id := again (cell_to_string c) in
                 let? c := take_ref in
                 let? source_chain := again (cell_to_string c) in
                 ret (Ok (mkWrapped message_id source_chain))))))).
End messages.

(** ** Properties *)

Lemma from_bytes_be_bound b : (from_bytes_be b < 2 ^ (8 * N.of_nat (String.length b)))%N.
Proof.
  unfold from_bytes_be.
  assert (H : forall acc l, (foldl (fun acc c => 256 * acc + Ascii.N_of_ascii c) acc l <
    (acc + 1) * 2 ^ (8 * N.of_nat (length l)))%N).
  { intros acc l. revert acc. induction l as [|c l IH]; intros acc; cbn [foldl length]; [simpl; lia|].
    specialize (IH (256 * acc + Ascii.N_of_ascii c)%N).
    replace (8 * N.of_nat (S (length l)))%N with (8 + 8 * N.of_nat (length l))%N by lia.
    rewrite N.pow_add_r. assert (Ascii.N_of_ascii c < 256)%N by (destruct c as [[] [] [] [] [] [] [] []]; done).
    change (2 ^ 8)%N with 256%N. nia. }
  specialize (H 0%N (String.list_ascii_of_string b)).
  assert (Hl : length (String.list_ascii_of_string b) = String.length b)
    by (clear; induction b; simpl; congruence).
  rewrite Hl in H. lia.
Qed.

Section properties.
Context {L : TonLib} {CL : CellLib} {LW : CellLaws} {C : Codecs}.

Lemma put_ref_ok c b : (length (snd (put b)) < MAX_CELL_REFS)%nat ->
  exists b', put_ref c b = (Done (Ok tt), b') /\ put b' = (fst (put b), snd (put b) ++ [c]).
Proof.
  intros H. destruct (store_reference_ok c b H) as (b' & E & Hp). exists b'.
  unfold put_ref. by rewrite map_err_run, E.
Qed.

Lemma put_uint_ok n v b : (v < 2 ^ N.of_nat n)%N -> (length (fst (put b)) + n <= MAX_CELL_BITS)%nat ->
  exists b', put_uint n v b = (Done (Ok tt), b') /\ put b' = (fst (put b) ++ to_bits n v, snd (put b)).
Proof.
  intros Hv Hl. destruct (store_uint_ok n v b Hv Hl) as (b' & E & Hp). exists b'.
  unfold put_uint. by rewrite map_err_run, E.
Qed.

Lemma put_address_ok a b : (length (fst (put b)) + 267 <= MAX_CELL_BITS)%nat ->
  exists b', put_address a b = (Done (Ok tt), b') /\ put b' = (fst (put b) ++ address_bits a, snd (put b)).
Proof.
  intros Hl. destruct (store_address_ok a b Hl) as (b' & E & Hp). exists b'.
  unfold put_address. by rewrite map_err_run, E.
Qed.

(** Up to four references after one another. *)
Fixpoint put_refs (cs : list Cell) : M CellBuilder (result unit BocError) :=
  match cs with [] => ret (Ok tt) | c :: cs => let? _u := put_ref c in put_refs cs end.

Lemma put_refs_ok cs b : (length (snd (put b)) + length cs <= MAX_CELL_REFS)%nat ->
  exists b', put_refs cs b = (Done (Ok tt), b') /\ put b' = (fst (put b), snd (put b) ++ cs).
Proof.
  revert b. induction cs as [|c cs IH]; intros b Hl; simpl.
  - exists b. rewrite app_nil_r. by destruct (put b).
  - simpl in Hl. destruct (put_ref_ok c b ltac:(lia)) as (b1 & E1 & H1).
    destruct (IH b1) as (b2 & E2 & H2); [rewrite H1; simpl; rewrite length_app; simpl; lia|].
    exists b2. rewrite bind_ok_run, E1. split; [exact E2|]. rewrite H2, H1. cbn [fst snd]. by rewrite <- app_assoc.
Qed.

Lemma finish_ok {E} (m : M CellBuilder (result unit E)) (f : string -> E) b bits refs :
  m builder_new = (Done (Ok tt), b) -> put b = (bits, refs) ->
  exists c, run_builder m (fun _ b => rmap_err f (build b)) = Done (Ok c) /\ cell_data c = bits /\ cell_refs c = refs.
Proof.
  intros E1 Hp. unfold run_builder. rewrite E1. destruct (build_ok b) as (c & -> & Hd & Hr).
  exists c. by rewrite Hd, Hr, Hp.
Qed.

Lemma take_ref_ok c rest p : snd (left p) = c :: rest ->
  exists p', take_ref p = (Done (Ok c), p') /\ left p' = (fst (left p), rest).
Proof.
  intros H. destruct (next_reference_ok c rest p H) as (p' & E & Hl). exists p'.
  unfold take_ref. by rewrite map_err_run, E.
Qed.

Lemma buffer_to_cell_holds s : exists c, buffer_to_cell s = Done (Ok c) /\ holds s c.
Proof. apply build_chain_holds. lia. Qed.
Variable keccak256 : string -> string.
Hypothesis keccak256_length : forall b, String.length (keccak256 b) = 32%nat.

Lemma payload_hash_bound b : (payload_hash keccak256 b < 2 ^ 256)%N.
Proof. pose proof (from_bytes_be_bound (keccak256 b)) as H. by rewrite keccak256_length in H. Qed.

(** What the gateway receives: the operation code and the relayer's address
    in the outer cell, the message below it with its four references, the
    payload, the destination and the payload's hash in the last one. *)
Record execute_layout (self : RelayerExecuteMessage) (bytes : string) (outer : Cell) : Prop := {
  outer_data : cell_data outer = to_bits 32 (Z.to_N OP_RELAYER_EXECUTE) ++ address_bits (relayer_address self);
  outer_message : exists message inner mid chain source payload dest dest_chain,
    cell_refs outer = [message] /\ cell_refs message = [mid; chain; source; inner] /\
    cell_refs inner = [payload; dest; dest_chain] /\
    cell_data inner = to_bits 256 (payload_hash keccak256 bytes) /\
    holds (execute_message_id self) mid /\ holds (execute_source_chain self) chain /\
    holds (execute_source_address self) source /\ holds bytes payload /\
    holds (hash_part (execute_destination_address self)) dest /\ holds (execute_destination_chain self) dest_chain;
}.

(** The last cell: three references and a hash. *)
Lemma hashed_cell_built payload dest dest_chain (hash : N) : (hash < 2 ^ 256)%N ->
  exists inner, run_builder (let? _p := put_ref payload in let? _a := put_ref dest in
      let? _c := put_ref dest_chain in let? _h := put_uint 256 hash in ret (Ok tt)) (finish BocParsingError) = Done (Ok inner) /\
    cell_data inner = to_bits 256 hash /\ cell_refs inner = [payload; dest; dest_chain].
Proof.
  intros Hhash. destruct (put_refs_ok [payload; dest; dest_chain] builder_new) as (b1 & E1 & H1);
    [rewrite builder_new_put; unfold MAX_CELL_REFS; simpl; lia|].
  rewrite builder_new_put in H1. cbn [fst snd app] in H1.
  destruct (put_uint_ok 256 hash b1 Hhash) as (b2 & E2 & H2); [rewrite H1; unfold MAX_CELL_BITS; simpl; lia|].
  rewrite H1 in H2. cbn [fst snd app] in H2. eapply finish_ok; [|exact H2].
  revert E1. simpl. rewrite !bind_ok_run. repeat (match goal with |- context [put_ref ?c ?b] =>
      destruct (put_ref c b) as [[[[]|]|] ?]; try done; rewrite ?bind_ok_run end). cbn [ret].
  intros [= ->]. by rewrite E2.
Qed.

(** The middle one: four references. *)
Lemma four_refs_built mid chain source inner :
  exists message, run_builder (let? _m := put_ref mid in let? _c := put_ref chain in
      let? _a := put_ref source in let? _i := put_ref inner in ret (Ok tt)) (finish BocEncodingError) = Done (Ok message) /\
    cell_refs message = [mid; chain; source; inner].
Proof.
  destruct (put_refs_ok [mid; chain; source; inner] builder_new) as (b & E & H);
    [rewrite builder_new_put; unfold MAX_CELL_REFS; simpl; lia|].
  rewrite builder_new_put in H. cbn [fst snd app] in H.
  edestruct (finish_ok (put_refs [mid; chain; source; inner]) BocEncodingError b) as (message & Em & _ & Hr); [exact E|exact H|].
  by exists message.
Qed.

(** The first one: the operation, the reference to the others, the relayer. *)
Lemma execute_cell_built (self : RelayerExecuteMessage) message :
  exists outer, run_builder (let? _o := put_uint 32 (Z.to_N OP_RELAYER_EXECUTE) in let? _m := put_ref message in
      let? _a := put_address (relayer_address self) in ret (Ok tt)) (finish BocEncodingError) = Done (Ok outer) /\
    cell_data outer = to_bits 32 (Z.to_N OP_RELAYER_EXECUTE) ++ address_bits (relayer_address self) /\
    cell_refs outer = [message].
Proof.
  destruct (put_uint_ok 32 (Z.to_N OP_RELAYER_EXECUTE) builder_new) as (b4 & E4 & H4);
    [done|rewrite builder_new_put; unfold MAX_CELL_BITS; simpl; lia|].
  rewrite builder_new_put in H4. cbn [fst snd app] in H4.
  destruct (put_ref_ok message b4) as (b5 & E5 & H5); [rewrite H4; unfold MAX_CELL_REFS; simpl; lia|].
  rewrite H4 in H5. cbn [fst snd app] in H5.
  destruct (put_address_ok (relayer_address self) b5) as (b6 & E6 & H6);
    [rewrite H5; cbn [fst]; rewrite to_bits_length; unfold MAX_CELL_BITS; lia|].
  rewrite H5 in H6. cbn [fst snd] in H6. eapply finish_ok; [|exact H6].
  by rewrite bind_ok_run, E4, bind_ok_run, E5, bind_ok_run, E6.
Qed.

Lemma relayer_execute_layout (self : RelayerExecuteMessage) (bytes : string) :
  hex_decode (execute_payload self) = Ok bytes ->
  exists outer, relayer_execute_to_cell keccak256 self = Done (Ok outer) /\ execute_layout self bytes outer.
Proof.
  intros Hhex. unfold relayer_execute_to_cell.
  destruct (buffer_to_cell_holds (execute_message_id self)) as (mid & -> & Hmid).
  destruct (buffer_to_cell_holds (execute_source_chain self)) as (chain & -> & Hchain).
  destruct (buffer_to_cell_holds (execute_source_address self)) as (source & -> & Hsource).
  destruct (buffer_to_cell_holds (execute_destination_chain self)) as (dest_chain & -> & Hdc).
  destruct (buffer_to_cell_holds (hash_part (execute_destination_address self))) as (dest & -> & Hdest).
  cbn [obind]. rewrite Hhex. cbn [rmap_err obind].
  destruct (buffer_to_cell_holds bytes) as (payload & -> & Hpayload). cbn [obind].
  destruct (hashed_cell_built payload dest dest_chain (payload_hash keccak256 bytes) (payload_hash_bound bytes)) as (inner & -> & Hid & Hir).
  cbn [obind]. destruct (four_refs_built mid chain source inner) as (message & -> & Hmr). cbn [obind].
  destruct (execute_cell_built self message) as (outer & -> & Hod & Hor). exists outer. split; [done|]. split; [exact Hod|].
  exists message, inner, mid, chain, source, payload, dest, dest_chain. by rewrite Hor, Hmr, Hir.
Qed.

Lemma take_string_ok s c rest p : snd (left p) = c :: rest -> holds s c -> utf8_valid s = true ->
  exists p', take_string p = (Done (Ok s), p') /\ left p' = (fst (left p), rest).
Proof.
  intros Hr Hh Hu. destruct (take_ref_ok c rest p Hr) as (p' & E & Hl). exists p'.
  unfold take_string. rewrite bind_ok_run, E. unfold cell_to_string.
  rewrite bind_ok_run, (cell_to_buffer_holds s c p' Hh). unfold from_utf8. by rewrite Hu.
Qed.

Lemma on_cell_run {A E} c (m : M CellParser (result A E)) p : on_cell c m p = (fst (m (parser c)), p).
Proof. done. Qed.

(** C30: what is sent to be executed is what is read back from the chain.
    The cell built for a message, wrapped by the high-load wallet as the
    single action of a transfer, parses to the message id and source chain it
    was built from. *)
Theorem wrapped_roundtrip (self : RelayerExecuteMessage) (bytes boc : string) (root transfer actions : Cell)
    (outer : Cell) (first : Cell) (rest rest' : list Cell) :
  hex_decode (execute_payload self) = Ok bytes ->
  relayer_execute_to_cell keccak256 self = Done (Ok outer) ->
  utf8_valid (execute_message_id self) = true -> utf8_valid (execute_source_chain self) = true ->
  cell_from_boc_b64 boc = Ok root ->
  cell_refs root = [actions] -> cell_refs actions = first :: transfer :: rest -> cell_refs transfer = outer :: rest' ->
  wrapped_from_boc_b64 boc = Done (Ok (mkWrapped (execute_message_id self) (execute_source_chain self))).
Proof.
  intros Hhex Hto Hu1 Hu2 Hboc Hroot Hact Htr.
  destruct (relayer_execute_layout self bytes Hhex) as (outer' & E & [_ Hl]). rewrite Hto in E. simplify_eq.
  destruct Hl as (message & inner & mid & chain & source & payload & dest & dest_chain & Ho & Hm & _ & _ & Hmid & Hchain & _).
  unfold wrapped_from_boc_b64, from_boc. rewrite Hboc.
  destruct (take_ref_ok actions [] (parser root)) as (p1 & E1 & _); [by rewrite parser_left|].
  rewrite bind_ok_run, E1, on_cell_run. cbn [fst].
  destruct (take_ref_ok first (transfer :: rest) (parser actions)) as (p2 & E2 & H2); [by rewrite parser_left|].
  destruct (take_ref_ok transfer rest p2) as (p3 & E3 & _); [by rewrite H2|].
  rewrite bind_ok_run, E2, bind_ok_run, E3, on_cell_run. cbn [fst].
  destruct (take_ref_ok outer' rest' (parser transfer)) as (p4 & E4 & _); [by rewrite parser_left|].
  rewrite bind_ok_run, E4, on_cell_run. cbn [fst].
  destruct (take_ref_ok message [] (parser outer')) as (p5 & E5 & _); [by rewrite parser_left|].
  rewrite bind_ok_run, E5, on_cell_run. cbn [fst].
  destruct (take_ref_ok mid [chain; source; inner] (parser message)) as (p6 & E6 & H6); [by rewrite parser_left|].
  destruct (take_ref_ok chain [source; inner] p6) as (p7 & E7 & _); [by rewrite H6|].
  rewrite bind_ok_run, E6, bind_ok_run. unfold again, cell_to_string.
  rewrite map_err_run, bind_ok_run, (cell_to_buffer_holds _ mid p6 Hmid). unfold from_utf8. rewrite Hu1. cbn [rmap_err ret].
  rewrite bind_ok_run, E7, bind_ok_run, map_err_run, bind_ok_run, (cell_to_buffer_holds _ chain p7 Hchain).
  by rewrite Hu2.
Qed.

(** The refund the gas service is asked for.  The cell built for a
    refund holds the operation code and then the three fields, and reading
    them back as the log of a refund gives the same hash, address and
    amount. *)
Theorem refund_roundtrip (self : NativeRefundMessage) :
  (refund_amount self < 2 ^ 120)%N ->
  exists c p1 p2, native_refund_to_cell self = Done (Ok c) /\
    load_uint 32 (parser c) = (Done (Ok (Z.to_N OP_NATIVE_REFUND)), p1) /\
    parse_native_refunded p1 = (Done (Ok (mkNativeRefunded (refund_tx_hash self) (refund_address self) (refund_amount self))), p2).
Proof.
  intros Ha. unfold native_refund_to_cell.
  destruct (put_uint_ok 32 (Z.to_N OP_NATIVE_REFUND) builder_new) as (b1 & E1 & H1);
    [done|rewrite builder_new_put; unfold MAX_CELL_BITS; simpl; lia|].
  rewrite builder_new_put in H1. cbn [fst snd app] in H1.
  destruct (store_tonhash_ok (refund_tx_hash self) b1) as (b2 & E2 & H2);
    [rewrite H1; cbn [fst]; rewrite to_bits_length; unfold MAX_CELL_BITS; lia|].
  rewrite H1 in H2. cbn [fst snd] in H2.
  destruct (put_address_ok (refund_address self) b2) as (b3 & E3 & H3);
    [rewrite H2; cbn [fst]; rewrite length_app, to_bits_length, hash_bits_length; unfold MAX_CELL_BITS; lia|].
  rewrite H2 in H3. cbn [fst snd] in H3.
  destruct (store_coins_ok (refund_amount self) b3 Ha) as (b4 & E4 & H4).
  { rewrite H3. cbn [fst]. rewrite !length_app, to_bits_length, hash_bits_length, address_bits_length. unfold MAX_CELL_BITS. lia. }
  rewrite H3 in H4. cbn [fst snd] in H4.
  edestruct (finish_ok (let? _o := put_uint 32 (Z.to_N OP_NATIVE_REFUND) in
     let? _h := map_err BocEncodingError (store_tonhash (refund_tx_hash self)) in
     let? _a := put_address (refund_address self) in
     let? _c := map_err BocEncodingError (store_coins (refund_amount self)) in ret (Ok tt)) BocEncodingError b4)
    as (c & Ec & Hd & Hr); [|exact H4|].
  { by rewrite bind_ok_run, E1, bind_ok_run, map_err_run, E2; cbn [rmap_err ret];
      rewrite bind_ok_run, E3, bind_ok_run, map_err_run, E4. }
  unfold finish. rewrite Ec. exists c.
  destruct (load_uint_ok 32 (parser c)) as (p1 & El & Hl).
  { rewrite parser_left, Hd. cbn [fst]. rewrite !length_app, to_bits_length. lia. }
  rewrite parser_left, Hd in El, Hl. cbn [fst snd] in El, Hl. rewrite <- !app_assoc in El, Hl.
  rewrite take_app_length' in El by (by rewrite to_bits_length). rewrite drop_app_length' in Hl by (by rewrite to_bits_length).
  destruct (load_tonhash_ok (refund_tx_hash self) _ p1 ltac:(rewrite Hl; reflexivity)) as (p2 & E5 & H5).
  destruct (load_address_ok (refund_address self) _ p2 ltac:(rewrite H5; reflexivity)) as (p3 & E6 & H6).
  destruct (load_coins_ok (refund_amount self) [] p3 Ha) as (p4 & E7 & _).
  { rewrite H6. cbn [fst]. by rewrite app_nil_r. }
  exists p1, p4. split; [done|]. split; [rewrite El, of_to_bits_0; done|].
  unfold parse_native_refunded, take_address, take_coins.
  by rewrite bind_ok_run, map_err_run, E5; cbn [rmap_err ret]; rewrite bind_ok_run, map_err_run, E6; cbn [rmap_err ret];
    rewrite bind_ok_run, map_err_run, E7.
Qed.
End properties.

(** ** Concrete runs *)

Module MessageDemo.
Import CellDemo.
Definition keccak (b : string) : string := "12345678901234567890123456789012".
Definition plain : CellLib := cells (fun _ => Err "none").
Definition message : RelayerExecuteMessage :=
  mkRelayerExecute "0xab-1" "avalanche" "0xd7" "ton" "A"%char "Hello" "R"%char.
Definition outer : MCell :=
  match relayer_execute_to_cell (CL := plain) (C := text_codecs) keccak message with
  | Done (Ok c) => c
  | _ => mcell [] []
  end.
Definition transfer : MCell := mcell [] [outer].
Definition actions : MCell := mcell [] [mcell [] []; transfer].
Definition root : MCell := mcell [] [actions].
Definition refund : @NativeRefundMessage ton := @mkNativeRefund ton "h"%char "A"%char 5%N.
Definition refunded : @NativeGasRefundedMessage ton := @mkNativeRefunded ton "h"%char "A"%char 5%N.
End MessageDemo.
Import CellDemo MessageDemo.

Lemma wrapped_roundtrip_witness :
  wrapped_from_boc_b64 (CL := cells (fun _ => Ok root)) "boc" = Done (Ok (mkWrapped "0xab-1" "avalanche")).
Proof.
  apply (wrapped_roundtrip (LW := cells_laws (fun _ => Ok root)) (C := text_codecs) keccak (fun _ => eq_refl)
    message "Hello" "boc" root transfer actions outer (mcell [] []) [] []); vm_compute; reflexivity.
Defined.

Lemma refund_roundtrip_witness :
  exists c p1 p2, native_refund_to_cell (CL := plain) refund = Done (Ok c) /\
    load_uint (CellLib := plain) 32 (parser (CellLib := plain) c) = (Done (Ok (Z.to_N OP_NATIVE_REFUND)), p1) /\
    parse_native_refunded (CL := plain) p1 = (Done (Ok refunded), p2).
Proof. apply (refund_roundtrip (LW := cells_laws _) refund). reflexivity. Defined.
