(* ===== verification/TonTypes.v ===== *)
(** * Traces of the TON chain

    [ton_types/src/ton_types.rs]: the documents of the TON API. A document
    with its transactions in a map and an order is turned into a list of
    transactions; an operation code is read from a number or a hexadecimal
    text. *)

From S2P Require Import Prelude.
From S2P Require Import Decimal.
From S2P Require Import GmpTypes.
From S2P Require Import Text.
From S2P Require Import TonLib.

Section types.
Context {L : TonLib}.

(** src/ton_types/src/ton_types.rs:82-86 ExtraCurrencies *)
Record ExtraCurrencies : Type := mkExtra { extra_map : list (string * Value) }.

(** src/ton_types/src/ton_types.rs:102-106 StoragePhase *)
Record StoragePhase : Type := mkStorage {
  storage_fees_collected : string;
  storage_status_change : string;
}.

(** src/ton_types/src/ton_types.rs:108-111 CreditPhase *)
Record CreditPhase : Type := mkCredit { credit : string }.

(** src/ton_types/src/ton_types.rs:113-127 ComputePhase *)
Record ComputePhase : Type := mkCompute {
  skipped : bool;
  compute_success : option bool;
  msg_state_used : option bool;
  account_activated : option bool;
  gas_fees : option string;
  gas_used : option string;
  gas_limit : option string;
  compute_mode : option Z;
  exit_code : option Z;
  vm_steps : option Z;
  vm_init_state_hash : option string;
  vm_final_state_hash : option string;
}.

(** src/ton_types/src/ton_types.rs:148-152 MessageSize *)
Record MessageSize : Type := mkSize { cells : string; size_bits : string }.

(** src/ton_types/src/ton_types.rs:129-146 Action *)
Record Action : Type := mkAction {
  action_success : option bool;
  valid : bool;
  no_funds : bool;
  action_status_change : string;
  total_fwd_fees : option string;
  total_action_fees : option string;
  result_code : Z;
  tot_actions : Z;
  spec_actions : Z;
  skipped_actions : Z;
  msgs_created : Z;
  action_list_hash : string;
  tot_msg_size : MessageSize;
}.

(** src/ton_types/src/ton_types.rs:88-100 TransactionDescription *)
Record TransactionDescription : Type := mkDescription {
  tx_type : string;
  aborted : bool;
  destroyed : bool;
  credit_first : bool;
  storage_ph : StoragePhase;
  credit_ph : option CreditPhase;
  compute_ph : option ComputePhase;
  action : option Action;
}.

(** src/ton_types/src/ton_types.rs:154-159 BlockRef *)
Record BlockRef : Type := mkBlockRef { workchain : Z; shard : string; seqno : Z }.

(** src/ton_types/src/ton_types.rs:184-189 MessageContent *)
Record MessageContent : Type := mkContent {
  content_hash : string;
  body : string;
  decoded : option Value;
}.

(** src/ton_types/src/ton_types.rs:161-182 TransactionMessage *)
Record TransactionMessage : Type := mkTxMessage {
  msg_hash : string;
  source : option string;
  destination : option TonAddress;
  value : option string;
  value_extra_currencies : option ExtraCurrencies;
  fwd_fee : option string;
  ihr_fee : option string;
  created_lt : option string;
  msg_created_at : option string;
  opcode : option Z;
  ihr_disabled : option bool;
  bounce : option bool;
  bounced : option bool;
  import_fee : option string;
  message_content : MessageContent;
  init_state : option Value;
}.

(** src/ton_types/src/ton_types.rs:191-200 AccountStateBalance *)
Record AccountStateBalance : Type := mkStateBalance {
  state_hash : string;
  state_balance : option string;
  extra_currencies : option ExtraCurrencies;
  account_status : option string;
  frozen_hash : option string;
  data_hash : option string;
  code_hash : option string;
}.

(** src/ton_types/src/ton_types.rs:55-80 Transaction *)
Record Transaction : Type := mkTransaction {
  account : TonAddress;
  hash : string;
  lt : Z;
  now : Z;
  mc_block_seqno : Z;
  tx_trace_id : string;
  prev_trans_hash : string;
  prev_trans_lt : string;
  orig_status : string;
  end_status : string;
  total_fees : Z;
  total_fees_extra_currencies : ExtraCurrencies;
  description : TransactionDescription;
  block_ref : BlockRef;
  in_msg : option TransactionMessage;
  out_msgs : list TransactionMessage;
  account_state_before : AccountStateBalance;
  account_state_after : AccountStateBalance;
  emulated : bool;
}.

(** src/ton_types/src/ton_types.rs:37-47 Trace *)
Record Trace : Type := mkTrace {
  is_incomplete : bool;
  start_lt : Z;
  end_lt : Z;
  trace_id : string;
  transactions : list Transaction;
}.

(** src/ton_types/src/ton_types.rs:24-35 TraceRest *)
Record TraceRest : Type := mkTraceRest {
  rest_is_incomplete : bool;
  rest_start_lt : Z;
  rest_end_lt : Z;
  rest_trace_id : string;
  rest_transactions : gmap string Transaction;
  transactions_order : list string;
}.

(** src/ton_types/src/ton_types.rs:14-17 TracesResponse *)
Record TracesResponse : Type := mkTraces { traces : list Trace }.
(** src/ton_types/src/ton_types.rs:19-22 TracesResponseRest *)
Record TracesResponseRest : Type := mkTracesRest { rest_traces : list TraceRest }.

(** src/ton_types/src/ton_types.rs:202-210 AccountState *)
Record AccountState : Type := mkAccountState {
  address : TonAddress;
  account_state_hash : string;
  account_balance : string;
  account_state_status : string;
}.

(** src/ton_types/src/ton_types.rs:223-241 TracesResponse::from (one trace) *)
Definition trace_of_rest (trace_rest : TraceRest) : Trace :=
  mkTrace (rest_is_incomplete trace_rest) (rest_start_lt trace_rest) (rest_end_lt trace_rest)
    (rest_trace_id trace_rest)
    (omap (fun key => rest_transactions trace_rest !! key) (transactions_order trace_rest)).

(** src/ton_types/src/ton_types.rs:217-246 TracesResponse::from *)
Definition traces_of_rest (rest : TracesResponseRest) : TracesResponse :=
  mkTraces (map trace_of_rest (rest_traces rest)).
End types.

(** ** Operation codes *)

(** [char::to_digit(16)]. *)
Definition hex_digit (c : Ascii.ascii) : option Z :=
  let n := Z.of_nat (Ascii.nat_of_ascii c) in
  if (48 <=? n) && (n <=? 57) then Some (n - 48)
  else if (97 <=? n) && (n <=? 102) then Some (n - 87)
  else if (65 <=? n) && (n <=? 70) then Some (n - 55)
  else None.

Fixpoint hex_value (acc : Z) (s : string) : option Z :=
  match s with
  | EmptyString => Some acc
  | String c s =>
      match hex_digit c with
      | Some d => let acc := 16 * acc + d in if acc <=? MAX_U32 then hex_value acc s else None
      | None => None
      end
  end.

(** [u32::from_str_radix(_, 16)]: an optional plus sign and at least one
    digit. *)
Definition parse_hex_u32 (s : string) : option Z :=
  match strip_plus s with
  | EmptyString => None
  | digits => hex_value 0 digits
  end.

(** src/ton_types/src/ton_types.rs:248-271 deserialize_hex_u32 *)
Definition deserialize_hex_u32 (val : option Value) : result (option Z) string :=
  match val with
  | Some (VString s) =>
      match parse_hex_u32 (trim_start_matches "0x" s) with
      | Some n => Ok (Some n)
      | None => Err "invalid digit found in string"
      end
  | Some (VNumber n) =>
      match parse_u64 n with
      | Some n => Ok (Some (wrap_u32 n))
      | None => Err "Expected u64 number"
      end
  | None | Some VNull => Ok None
  | Some _ => Err "Expected string or number for opcode"
  end.

(** ** Properties *)

Section properties.
Context {L : TonLib}.

(** The transactions of a trace are those the order names, in that order;
    a name without a transaction is skipped. *)
Lemma trace_of_rest_spec (r : TraceRest) t :
  t ∈ transactions (trace_of_rest r) <->
  exists k, k ∈ transactions_order r /\ rest_transactions r !! k = Some t.
Proof. apply list_elem_of_omap. Qed.

End properties.

(** The [w] hexadecimal digits of a number. *)
Definition hex_char (d : Z) : Ascii.ascii :=
  Ascii.ascii_of_nat (Z.to_nat (if d <? 10 then 48 + d else 87 + d)).
Fixpoint hex_text (w : nat) (n : Z) : string :=
  match w with
  | O => ""
  | S w => String (hex_char (n / 16 ^ Z.of_nat w)) (hex_text w (n mod 16 ^ Z.of_nat w))
  end.

Lemma hex_digit_char d : 0 <= d < 16 -> hex_digit (hex_char d) = Some d.
Proof.
  intros Hd.
  assert (Hc : d = 0 \/ d = 1 \/ d = 2 \/ d = 3 \/ d = 4 \/ d = 5 \/ d = 6 \/ d = 7 \/ d = 8 \/
    d = 9 \/ d = 10 \/ d = 11 \/ d = 12 \/ d = 13 \/ d = 14 \/ d = 15) by lia.
  by repeat destruct Hc as [-> | Hc]; [..|subst d].
Qed.

Lemma hex_char_head d : 0 <= d < 16 -> hex_char d <> "x"%char /\ hex_char d <> "+"%char.
Proof. intros Hd. pose proof (hex_digit_char d Hd) as H. by split; intros E; rewrite E in H. Qed.

Lemma hex_value_text w n acc :
  0 <= acc -> 0 <= n < 16 ^ Z.of_nat w -> 16 ^ Z.of_nat w * acc + n <= MAX_U32 ->
  hex_value acc (hex_text w n) = Some (16 ^ Z.of_nat w * acc + n).
Proof.
  revert n acc. induction w as [|w IH]; intros n acc Ha Hn Hm.
  { simpl. f_equal. simpl in Hn. lia. }
  rewrite Nat2Z.inj_succ, Z.pow_succ_r in * by lia.
  set (p := 16 ^ Z.of_nat w) in *.
  assert (Hp : 0 < p) by (apply Z.pow_pos_nonneg; lia).
  pose proof (Z.div_mod n p ltac:(lia)) as Hdm. pose proof (Z.mod_pos_bound n p Hp) as Hb.
  assert (Hq : 0 <= n / p < 16) by (split; [apply Z.div_pos; lia | apply Z.div_lt_upper_bound; lia]).
  cbn [hex_text hex_value]. fold p. rewrite hex_digit_char by done. cbn zeta.
  assert (He : p * (16 * acc + n / p) + n mod p = 16 * p * acc + n) by lia.
  destruct (Z.leb_spec (16 * acc + n / p) MAX_U32) as [Hle|Hgt];
    [|assert (1 * (16 * acc + n / p) <= p * (16 * acc + n / p)) by (apply Z.mul_le_mono_nonneg_r; lia); lia].
  rewrite IH by (fold p; lia). fold p. by rewrite He.
Qed.

Lemma hex_text_head w n : 0 <= n < 16 ^ Z.of_nat (S w) ->
  exists d r, hex_text (S w) n = String (hex_char d) r /\ 0 <= d < 16.
Proof.
  intros Hn. rewrite Nat2Z.inj_succ, Z.pow_succ_r in Hn by lia. cbn [hex_text].
  assert (Hp : 0 < 16 ^ Z.of_nat w) by (apply Z.pow_pos_nonneg; lia).
  eexists _, _. split; [reflexivity|]. split; [apply Z.div_pos; lia | apply Z.div_lt_upper_bound; lia].
Qed.

Lemma strip_0x_hex w n : 0 <= n < 16 ^ Z.of_nat w -> strip_prefix "0x" (hex_text w n) = None.
Proof.
  intros Hn. destruct w as [|w]; [done|]. cbn [hex_text strip_prefix].
  destruct (decide (_ = _)) as [He|]; [|done].
  rewrite Nat2Z.inj_succ, Z.pow_succ_r in Hn by lia.
  assert (Hp : 0 < 16 ^ Z.of_nat w) by (apply Z.pow_pos_nonneg; lia).
  pose proof (Z.mod_pos_bound n _ Hp) as Hb.
  destruct w as [|w]; [done|]. destruct (hex_text_head w _ Hb) as (d & r & -> & Hd).
  cbn [strip_prefix]. destruct (decide ("x"%char = _)) as [Hx|]; [|done].
  by destruct (hex_char_head d Hd) as [[] _].
Qed.

(** An operation code written as the API writes it, with the prefix and any
    number of digits, is read back; a number is taken modulo 2^32. *)
Lemma opcode_roundtrip w n :
  0 <= n <= MAX_U32 -> n < 16 ^ Z.of_nat (S w) ->
  deserialize_hex_u32 (Some (VString ("0x" +:+ hex_text (S w) n))) = Ok (Some n) /\
  deserialize_hex_u32 (Some (VNumber (print_u64 n))) = Ok (Some n).
Proof.
  intros Hn Hw. split.
  - unfold deserialize_hex_u32. rewrite trim_once by (try done; apply strip_0x_hex; lia).
    unfold parse_hex_u32. destruct (hex_text_head w n ltac:(lia)) as (d & r & He & Hd). rewrite He.
    assert (Hs : strip_plus (String (hex_char d) r) = String (hex_char d) r).
    { unfold strip_plus. destruct (hex_char_head d Hd) as [_ Hp].
      destruct (hex_char d) as [b0 b1 b2 b3 b4 b5 b6 b7].
      by destruct b0, b1, b2, b3, b4, b5, b6, b7. }
    rewrite Hs, <- He, hex_value_text by lia. do 2 f_equal. lia.
  - unfold deserialize_hex_u32. rewrite parse_u64_print by (unfold MAX_U32, MAX_U64 in *; lia).
    unfold wrap_u32. by rewrite wrap_small by (unfold MAX_U32 in *; lia).
Qed.
