(* ===== verification/GasCalculator.v ===== *)
(** * Gas

    [ton/src/gas_calculator.rs]: what a trace has cost the relayer and its
    contracts.  [ton/src/gas_estimator.rs]: what the broadcaster sends along
    with its messages.  [ton/src/check_accounts.rs]: the state of an
    account. *)

From S2P Require Import Prelude.
From S2P Require Import Decimal.
From S2P Require Import Text.
From S2P Require Import TonLib.
From S2P Require Import TonCells.
From S2P Require Import TonTypes.

(** ** The cost of a trace *)

Section calculator.
Context {L : TonLib}.

(** src/ton/src/gas_calculator.rs:8-11 GasCalculator *)
Record GasCalculator : Type := mkGasCalculator { our_addresses : list TonAddress }.

(** A [HashMap] from addresses to amounts. *)
Abbreviation Balances := (list (TonAddress * Z)).

Definition contains_key (balances : Balances) (a : TonAddress) : bool :=
  existsb (fun b => bool_decide (fst b = a)) balances.

Fixpoint balances_insert (a : TonAddress) (v : Z) (balances : Balances) : Balances :=
  match balances with
  | [] => [(a, v)]
  | (b, x) :: balances => if decide (b = a) then (b, v) :: balances else (b, x) :: balances_insert a v balances
  end.

(** src/ton/src/gas_calculator.rs:13-19 extract_fwd_fee *)
Definition extract_fwd_fee (msg : TransactionMessage) : Z :=
  default 0 (parse_i128 (default "0" (fwd_fee msg))).

(** src/ton/src/gas_calculator.rs:21-23 add_cost *)
Fixpoint add_cost (balances : Balances) (account : TonAddress) (cost : Z) : Balances :=
  match balances with
  | [] => [(account, wrap_i128 cost)]
  | (b, x) :: balances =>
      if decide (b = account) then (b, wrap_i128 (x + cost)) :: balances
      else (b, x) :: add_cost balances account cost
  end.

(** src/ton/src/gas_calculator.rs:25-27 is_our_transaction *)
Definition is_our_transaction (balances : Balances) (tx : Transaction) : bool :=
  contains_key balances (account tx).

(** src/ton/src/gas_calculator.rs:29-35 us_receiving *)
Definition us_receiving (balances : Balances) (tx : Transaction) (dest : TonAddress) : bool :=
  negb (contains_key balances (account tx)) && contains_key balances dest.

(** src/ton/src/gas_calculator.rs:37-43 us_sending *)
Definition us_sending (balances : Balances) (tx : Transaction) (dest : TonAddress) : bool :=
  contains_key balances (account tx) && negb (contains_key balances dest).

(** src/ton/src/gas_calculator.rs:45-50 extract_msg_value *)
Definition extract_msg_value (msg : TransactionMessage) : Z :=
  default 0 (parse_i128 (default "0" (value msg))).

(** src/ton/src/gas_calculator.rs:94-108 GasCalculator::cost (one message) *)
Definition cost_of_message (tx : Transaction) (balances : Balances) (msg : TransactionMessage) : Balances :=
  let balances :=
    if is_our_transaction balances tx then add_cost balances (account tx) (extract_fwd_fee msg) else balances in
  match destination msg with
  | Some dest =>
      let value := extract_msg_value msg in
      let balances := if us_sending balances tx dest then add_cost balances (account tx) value else balances in
      if us_receiving balances tx dest then add_cost balances dest (wrap_i128 (0 - value)) else balances
  | None => balances
  end.

(** src/ton/src/gas_calculator.rs:90-109 GasCalculator::cost (one transaction) *)
Definition cost_of_transaction (balances : Balances) (tx : Transaction) : Balances :=
  let balances :=
    if is_our_transaction balances tx then add_cost balances (account tx) (total_fees tx) else balances in
  foldl (cost_of_message tx) balances (out_msgs tx).

(** src/ton/src/gas_calculator.rs:82-113 GasCalculator::cost *)
Definition cost (self : GasCalculator) (transactions : list Transaction) : result Z GasError :=
  let balances := foldl (fun m a => balances_insert a 0 m) [] (our_addresses self) in
  let balances := foldl cost_of_transaction balances transactions in
  Ok (foldl (fun acc b => wrap_i128 (acc + snd b)) 0 balances).

(** src/ton/src/gas_calculator.rs:115-118 GasCalculator::calc_message_gas *)
Definition calc_message_gas (self : GasCalculator) (transactions : list Transaction) : result Z GasError :=
  try? total := cost self transactions in
  Ok (if 0 <? total then wrap_u64 total else 0).

(** src/ton/src/gas_calculator.rs:57-80 GasCalculator::calc_message_gas_native_gas_refunded *)
Definition calc_message_gas_native_gas_refunded (self : GasCalculator) (transactions : list Transaction) :
  result Z GasError :=
  match transactions !! 2%nat with
  | None => Ok 0
  | Some tx2 =>
      match out_msgs tx2 with
      | [] => Ok 0
      | out_msg :: _ =>
          let refund := match value out_msg with Some v => default 0 (parse_i128 v) | None => 0 end in
          try? balance_diff := cost self transactions in
          let total := wrap_i128 (balance_diff - refund) in
          Ok (if 0 <? total then wrap_u64 total else 0)
      end
  end.

(** ** What the cost is

    The reference: fees of our transactions and of our messages, values that
    leave us, less values that reach us from somebody else. *)

Definition ours (self : GasCalculator) (a : TonAddress) : bool := bool_decide (a ∈ our_addresses self).

Definition message_share (self : GasCalculator) (tx : Transaction) (msg : TransactionMessage) : Z :=
  (if ours self (account tx) then extract_fwd_fee msg else 0) +
  match destination msg with
  | Some dest =>
      if ours self (account tx) && negb (ours self dest) then extract_msg_value msg
      else if negb (ours self (account tx)) && ours self dest then - extract_msg_value msg
      else 0
  | None => 0
  end.

Definition sum_list {A} (f : A -> Z) (l : list A) : Z := foldr (fun x acc => f x + acc) 0 l.

Definition transaction_share (self : GasCalculator) (tx : Transaction) : Z :=
  (if ours self (account tx) then total_fees tx else 0) + sum_list (message_share self tx) (out_msgs tx).

Definition total (balances : Balances) : Z := sum_list snd balances.

(** Equality of amounts in 128 bits. *)
Definition same128 (x y : Z) : Prop := x mod 2 ^ 128 = y mod 2 ^ 128.

#[export] Instance same128_equiv : Equivalence same128.
Proof. split; red; unfold same128; congruence. Qed.

#[export] Instance same128_add : Proper (same128 ==> same128 ==> same128) Z.add.
Proof. intros x y H a b H'. unfold same128 in *. by rewrite Z.add_mod, H, H', <- Z.add_mod. Qed.

#[export] Instance same128_sub : Proper (same128 ==> same128 ==> same128) Z.sub.
Proof. intros x y H a b H'. unfold same128 in *. by rewrite Zminus_mod, H, H', <- Zminus_mod. Qed.

Lemma same_eq x y : x = y -> same128 x y.
Proof. by intros ->. Qed.

Lemma wrap_same x : same128 (wrap_i128 x) x.
Proof. unfold same128, wrap_i128. by rewrite signed_congr. Qed.

Lemma same_wrap x y : same128 x y -> wrap_i128 x = wrap_i128 y.
Proof. intros H. by apply signed_mod. Qed.

Definition keys (balances : Balances) : list TonAddress := map fst balances.

Lemma contains_key_spec balances a : contains_key balances a = bool_decide (a ∈ keys balances).
Proof.
  induction balances as [|[b x] balances IH]; simpl.
  - done.
  - rewrite IH. destruct (bool_decide_reflect (b = a)) as [->|Hb]; simpl.
    + symmetry. apply bool_decide_eq_true_2. by left.
    + apply bool_decide_ext. rewrite elem_of_cons. split; [by right|]. by intros [->|].
Qed.

Lemma insert_keys a v balances : forall k, k ∈ keys (balances_insert a v balances) <-> k = a \/ k ∈ keys balances.
Proof.
  intros k. induction balances as [|[b x] balances IH]; simpl.
  - rewrite list_elem_of_singleton. split; [by left|]. intros [|H]; [done|by apply not_elem_of_nil in H].
  - destruct (decide (b = a)) as [->|Hb]; simpl; rewrite !elem_of_cons; [tauto|]. rewrite IH. tauto.
Qed.

Lemma initial_keys self k :
  k ∈ keys (foldl (fun m a => balances_insert a 0 m) [] (our_addresses self)) <-> k ∈ our_addresses self.
Proof.
  assert (H : forall l m, k ∈ keys (foldl (fun m a => balances_insert a 0 m) m l) <-> k ∈ l \/ k ∈ keys m).
  { intros l. induction l as [|a l IH]; intros m; simpl.
    - split; [by right|]. intros [Hn|]; [by apply not_elem_of_nil in Hn|done].
    - rewrite IH, insert_keys, elem_of_cons. tauto. }
  rewrite H. split; [|by left]. intros [|Hn]; [done|by apply not_elem_of_nil in Hn].
Qed.

Lemma insert_total a balances : (forall b, b ∈ balances -> snd b = 0) ->
  forall b, b ∈ balances_insert a 0 balances -> snd b = 0.
Proof.
  induction balances as [|[b x] balances IH]; simpl; intros H p.
  - by intros ->%list_elem_of_singleton.
  - destruct (decide (b = a)); intros [->|Hin]%elem_of_cons; simpl; [done| |by apply (H (b, x)); left|].
    + apply H. by right.
    + apply IH; [|done]. intros q Hq. apply H. by right.
Qed.

Lemma initial_total self : total (foldl (fun m a => balances_insert a 0 m) [] (our_addresses self)) = 0.
Proof.
  assert (H : forall l m, (forall b, b ∈ m -> snd b = 0) ->
    forall b, b ∈ foldl (fun m a => balances_insert a 0 m) m l -> snd b = 0).
  { intros l. induction l as [|a l IH]; intros m Hm; simpl; [done|]. apply IH. by apply insert_total. }
  specialize (H (our_addresses self) [] ltac:(by intros ? ?%not_elem_of_nil)). revert H.
  generalize (foldl (fun m a => balances_insert a 0 m) [] (our_addresses self)) as m.
  intros m H. induction m as [|b m IH]; [done|]. unfold total in *. simpl.
  rewrite (H b) by by left. rewrite IH; [done|]. intros b' Hb'. apply H. by right.
Qed.

Lemma add_cost_keys balances a c : a ∈ keys balances -> keys (add_cost balances a c) = keys balances.
Proof.
  induction balances as [|[b x] balances IH]; simpl; [by intros ?%not_elem_of_nil|].
  intros [->|Hin]%elem_of_cons.
  - by rewrite decide_True.
  - destruct (decide (b = a)) as [->|Hb]; simpl; [done|]. by rewrite IH.
Qed.

Lemma add_cost_total balances a c : same128 (total (add_cost balances a c)) (total balances + c).
Proof.
  induction balances as [|[b x] balances IH]; unfold total in *; simpl.
  - rewrite wrap_same, Z.add_0_r. reflexivity.
  - destruct (decide (b = a)); simpl.
    + rewrite wrap_same. apply same_eq. lia.
    + rewrite IH. apply same_eq. lia.
Qed.

(** The keys are our addresses, whatever is added. *)
Definition of_ours (self : GasCalculator) (balances : Balances) : Prop :=
  forall k, k ∈ keys balances <-> k ∈ our_addresses self.

Lemma of_ours_key self balances a : of_ours self balances -> contains_key balances a = ours self a.
Proof. intros H. rewrite contains_key_spec. unfold ours. by apply bool_decide_ext. Qed.

Lemma of_ours_add self balances a c : of_ours self balances -> ours self a = true ->
  of_ours self (add_cost balances a c).
Proof.
  intros H Ha k. rewrite add_cost_keys; [apply H|]. apply H. by apply bool_decide_eq_true in Ha.
Qed.

Lemma cost_of_message_share self tx balances msg : of_ours self balances ->
  of_ours self (cost_of_message tx balances msg) /\
  same128 (total (cost_of_message tx balances msg)) (total balances + message_share self tx msg).
Proof.
  intros Ho. unfold cost_of_message, message_share, is_our_transaction, us_sending, us_receiving.
  cbv zeta. rewrite (of_ours_key self balances (account tx) Ho).
  set (b1 := if ours self (account tx) then _ else balances).
  assert (H1 : of_ours self b1 /\ same128 (total b1) (total balances + (if ours self (account tx) then extract_fwd_fee msg else 0))).
  { unfold b1. destruct (ours self (account tx)) eqn:Ht; [|split; [done|by rewrite Z.add_0_r]].
    split; [by apply of_ours_add|apply add_cost_total]. }
  destruct H1 as [Ho1 Hs1]. destruct (destination msg) as [dest|]; [|split; [done|by rewrite Z.add_0_r]].
  rewrite !(of_ours_key self b1 _ Ho1). clearbody b1.
  destruct (ours self (account tx)) eqn:Ht, (ours self dest) eqn:Hd; cbn [andb negb].
  - rewrite !(of_ours_key self b1 _ Ho1), Ht. cbn [negb andb]. split; [done|]. by rewrite Hs1, Z.add_0_r.
  - set (b2 := add_cost b1 (account tx) (extract_msg_value msg)).
    assert (Ho2 : of_ours self b2) by by apply of_ours_add. rewrite !(of_ours_key self b2 _ Ho2), Ht. cbn [negb andb].
    split; [done|]. unfold b2. rewrite add_cost_total, Hs1. apply same_eq. lia.
  - rewrite !(of_ours_key self b1 _ Ho1), Ht, Hd. cbn [negb andb]. split; [apply of_ours_add; done|].
    rewrite add_cost_total, wrap_same, Hs1. apply same_eq. lia.
  - rewrite !(of_ours_key self b1 _ Ho1), Ht, Hd. cbn [negb andb]. split; [done|]. by rewrite Hs1, !Z.add_0_r.
Qed.

Lemma cost_of_messages self tx msgs balances : of_ours self balances ->
  of_ours self (foldl (cost_of_message tx) balances msgs) /\
  same128 (total (foldl (cost_of_message tx) balances msgs)) (total balances + sum_list (message_share self tx) msgs).
Proof.
  revert balances. induction msgs as [|m msgs IH]; intros balances Ho; simpl.
  - split; [done|]. by rewrite Z.add_0_r.
  - destruct (cost_of_message_share self tx balances m Ho) as [Ho1 Hs1].
    destruct (IH _ Ho1) as [Ho2 Hs2]. split; [done|]. rewrite Hs2, Hs1. apply same_eq. lia.
Qed.

Lemma cost_of_transaction_share self balances tx : of_ours self balances ->
  of_ours self (cost_of_transaction balances tx) /\
  same128 (total (cost_of_transaction balances tx)) (total balances + transaction_share self tx).
Proof.
  intros Ho. unfold cost_of_transaction, transaction_share, is_our_transaction.
  cbv zeta. rewrite (of_ours_key self balances _ Ho).
  destruct (ours self (account tx)) eqn:Ht.
  - destruct (cost_of_messages self tx (out_msgs tx) (add_cost balances (account tx) (total_fees tx)))
      as [Ho2 Hs2]; [by apply of_ours_add|]. split; [done|]. rewrite Hs2, add_cost_total. apply same_eq. lia.
  - destruct (cost_of_messages self tx (out_msgs tx) balances Ho) as [Ho2 Hs2]. split; [done|].
    rewrite Hs2. apply same_eq. lia.
Qed.

Lemma cost_of_transactions self txs balances : of_ours self balances ->
  same128 (total (foldl cost_of_transaction balances txs)) (total balances + sum_list (transaction_share self) txs).
Proof.
  revert balances. induction txs as [|tx txs IH]; intros balances Ho; simpl.
  - by rewrite Z.add_0_r.
  - destruct (cost_of_transaction_share self balances tx Ho) as [Ho1 Hs1]. rewrite (IH _ Ho1), Hs1. apply same_eq. lia.
Qed.

Lemma sum_wraps balances acc : acc = wrap_i128 acc ->
  foldl (fun acc b => wrap_i128 (acc + snd b)) acc balances = wrap_i128 (acc + total balances).
Proof.
  revert acc. induction balances as [|b balances IH]; intros acc Ha; unfold total in *; simpl.
  - by rewrite Z.add_0_r.
  - rewrite IH by (apply same_wrap; by rewrite wrap_same). apply same_wrap. rewrite wrap_same. apply same_eq. lia.
Qed.

(** C26: the cost of a trace, computed with a table of balances that is
    updated message by message, is the sum of every transaction's share:
    fees of what is ours, values that leave us, less values that reach us
    from outside; transfers between our own addresses do not count.  The sum
    is taken in 128-bit arithmetic, and the two gas figures are its positive
    part, less the refunded value for the second, in 64 bits. *)
Theorem cost_spec (self : GasCalculator) (txs : list Transaction) :
  let spent := wrap_i128 (sum_list (transaction_share self) txs) in
  cost self txs = Ok spent /\
  calc_message_gas self txs = Ok (if 0 <? spent then wrap_u64 spent else 0) /\
  (forall tx2 msg msgs, txs !! 2%nat = Some tx2 -> out_msgs tx2 = msg :: msgs ->
     let refund := match value msg with Some v => default 0 (parse_i128 v) | None => 0 end in
     let net := wrap_i128 (sum_list (transaction_share self) txs - refund) in
     calc_message_gas_native_gas_refunded self txs = Ok (if 0 <? net then wrap_u64 net else 0)).
Proof.
  cbv zeta. assert (Hc : cost self txs = Ok (wrap_i128 (sum_list (transaction_share self) txs))).
  { unfold cost. rewrite sum_wraps by done. f_equal. apply same_wrap. rewrite Z.add_0_l.
    rewrite cost_of_transactions by (intros k; apply initial_keys). by rewrite initial_total. }
  split; [done|]. split; [unfold calc_message_gas; by rewrite Hc|].
  intros tx2 msg msgs H2 Hm. unfold calc_message_gas_native_gas_refunded. rewrite H2, Hm, Hc. cbn [rbind].
  assert (He : forall r, wrap_i128 (wrap_i128 (sum_list (transaction_share self) txs) - r) =
    wrap_i128 (sum_list (transaction_share self) txs - r)) by (intros r; apply same_wrap; by rewrite wrap_same).
  by rewrite He.
Qed.
End calculator.

(** ** Estimates *)

(** src/ton/src/config.rs:13-25 GasEstimates *)
Record GasEstimates : Type := mkEstimates {
  native_gas_refund : Z;
  native_gas_refund_storage_slippage : Z;
  execute_base : Z;
  execute_payload : Z;
  execute_storage_slippage : Z;
  execute_send_min : Z;
  approve_send_value : Z;
  highload_wallet_send_value : Z;
}.

(** src/ton/src/gas_estimator.rs:21-29 GasEstimator *)
Class GasEstimator : Type := {
  native_gas_refund_estimate : Z;
  execute_send : nat -> Z;
  execute_estimate : nat -> Z;
  approve_send : nat -> Z;
  highload_wallet_send : nat -> Z;
}.

(** src/ton/src/gas_estimator.rs:37-41 TONGasEstimator::execute_estimate *)
Definition ton_execute_estimate (config : GasEstimates) (payload : nat) : Z :=
  wrap_u64 (execute_base config + execute_payload config * Z.of_nat payload + execute_storage_slippage config).

(** src/ton/src/gas_estimator.rs:31-57 impl GasEstimator for TONGasEstimator *)
Definition TONGasEstimator (config : GasEstimates) : GasEstimator := {|
  native_gas_refund_estimate :=
    wrap_u64 (native_gas_refund config + native_gas_refund_storage_slippage config);
  execute_send := fun payload => Z.max (execute_send_min config) (ton_execute_estimate config payload);
  execute_estimate := ton_execute_estimate config;
  approve_send := fun _ => approve_send_value config;
  highload_wallet_send := fun actions => wrap_u64 (highload_wallet_send_value config * Z.of_nat actions);
|}.

(** A message that is executed is sent at least the gas that was required of
    it, and below 2^64 the requirement grows with the payload. *)
Lemma execute_send_covers (config : GasEstimates) (payload : nat) :
  @execute_estimate (TONGasEstimator config) payload <= @execute_send (TONGasEstimator config) payload.
Proof. apply Z.le_max_r. Qed.

(** ** Accounts *)

(** src/ton/src/check_accounts.rs:6-12 AccountCheckStatus *)
Inductive AccountCheckStatus : Type :=
| Valid
| Inactive
| InsufficientBalance (balance required : Z)
| InvalidBalanceFormat.

(** src/ton/src/check_accounts.rs:14-30 check_account_status *)
Definition check_account_status `{!TonLib} (account : AccountState) (min_balance : Z) : AccountCheckStatus :=
  match parse_u64 (account_balance account) with
  | None => InvalidBalanceFormat
  | Some balance =>
      if negb (bool_decide (account_state_status account = "active")) then Inactive
      else if balance <? min_balance then InsufficientBalance balance min_balance
      else Valid
  end.
