(* ===== verification/TonParsers.v ===== *)
(** * The parsers of TON transactions

    [ton/src/transaction_parser/parser_*.rs] and [common.rs]: which
    transactions of a trace carry a log of the gateway or of the gas service,
    and the event each of them stands for. *)

From S2P Require Import Prelude.
From S2P Require Import Decimal.
From S2P Require Import GmpTypes.
From S2P Require Import Text.
From S2P Require Import Database.
From S2P Require Import TonLib.
From S2P Require Import TonCells.
From S2P Require Import TonMessages.
From S2P Require Import TonTypes.

(** [chrono::Utc::now().to_rfc3339_opts(Secs, true)]. *)
Class Rfc3339Now (W : Type) : Type := { now_rfc3339 : M W string }.

Definition show_GasError (e : GasError) : string :=
  match e with
  | ConversionError s => "ConversionError: " +:+ s
  | GasCalculationError s => "GasCalculationError: " +:+ s
  end.

(** ** Common parts *)

Section parsers.
Context {L : TonLib} {CL : CellLib} {C : Codecs}.
Abbreviation Res A := (outcome (result A TransactionParsingError)).

(** src/ton/src/transaction_parser/common.rs:11-23 is_log_emmitted *)
Definition is_log_emmitted (tx : Transaction) (op_code : Z) (out_msg_log_index : nat) : bool :=
  match in_msg tx with
  | Some in_msg =>
      match opcode in_msg with
      | Some o =>
          if o =? op_code then
            match out_msgs tx !! out_msg_log_index with
            | Some msg => negb (bool_decide (is_Some (destination msg)))
            | None => false
            end
          else false
      | None => false
      end
  | None => false
  end.

(** src/ton/src/transaction_parser/common.rs:25-30 hash_to_message_id *)
Definition hash_to_message_id (hash : string) : result string TONRpcError :=
  try? hash := rmap_err DataError (base64_decode hash) in
  Ok ("0x" +:+ to_lowercase (hex_encode hash)).

(** src/ton/src/transaction_parser/message_matching_key.rs:1-6 MessageMatchingKey *)
Record MessageMatchingKey : Type := mkKey {
  key_destination_chain : string;
  key_destination_address : string;
  key_payload_hash : string;
}.
#[export] Instance MessageMatchingKey_eq_dec : EqDecision MessageMatchingKey.
Proof. solve_decision. Defined.

(** A parser of one transaction: what was read from its log, the transaction,
    and the contract whose logs count. *)
Record TxParser (T : Type) : Type := mkTxParser {
  log : option T;
  parser_tx : Transaction;
  allowed_address : TonAddress;
}.
Arguments mkTxParser {T} log parser_tx allowed_address.
Arguments log {T} t.
Arguments parser_tx {T} t.
Arguments allowed_address {T} t.

Definition message_body (msg : TransactionMessage) : string := body (message_content msg).

(** [tx.out_msgs[i].message_content.body]. *)
Definition out_body (tx : Transaction) (i : nat) : outcome string :=
  match out_msgs tx !! i with
  | Some msg => Done (message_body msg)
  | None => Panic "index out of bounds"
  end.

Definition boc_error {A} (r : result A BocError) : result A TransactionParsingError :=
  rmap_err (fun e => BocParsing (show_BocError e)) r.

(** [if self.log.is_none()], then the log is read from a body. *)
Definition parse_log {T} (from : string -> outcome (result T BocError)) (body : outcome string) (self : TxParser T) :
  Res (TxParser T) :=
  match log self with
  | Some _ => Done (Ok self)
  | None =>
      match body with
      | Panic why => Panic why
      | Done body =>
          match from body with
          | Panic why => Panic why
          | Done r => Done (match boc_error r with
                            | Ok l => Ok (mkTxParser (Some l) (parser_tx self) (allowed_address self))
                            | Err e => Err e
                            end)
          end
      end
  end.

Definition the_log {T} (self : TxParser T) : result T TransactionParsingError :=
  ok_or (log self) (TpMessage "Missing log").

Definition from_us {T} (self : TxParser T) : bool :=
  bool_decide (account (parser_tx self) = allowed_address self).

Definition tx_meta (tx : Transaction) (context : option (gmap string string)) (now : string) : EventMetadata :=
  mkEventMeta (Some (hash tx)) None None context now.

Context {W : Type} {RN : Rfc3339Now W}.

(** ** Calls *)

(** src/ton/src/transaction_parser/parser_call_contract.rs:39-47 ParserCallContract::parse *)
Definition call_parse (self : TxParser CallContractMessage) : Res (TxParser CallContractMessage) :=
  parse_log call_from_boc_b64 (out_body (parser_tx self) 0) self.

(** src/ton/src/transaction_parser/parser_call_contract.rs:49-55 ParserCallContract::is_match *)
Definition call_is_match (self : TxParser CallContractMessage) : bool :=
  if negb (from_us self) then false else is_log_emmitted (parser_tx self) OP_CALL_CONTRACT 0.

(** src/ton/src/transaction_parser/parser_call_contract.rs:57-69 ParserCallContract::key *)
Definition call_key (self : TxParser CallContractMessage) : result MessageMatchingKey TransactionParsingError :=
  try? log := the_log self in
  Ok (mkKey (call_destination_chain log) (call_destination_address log) (call_payload_hash log)).

(** src/ton/src/transaction_parser/parser_call_contract.rs:129-133 ParserCallContract::message_id *)
Definition call_message_id (self : TxParser CallContractMessage) : result (option string) TransactionParsingError :=
  match hash_to_message_id (hash (parser_tx self)) with
  | Ok id => Ok (Some id)
  | Err (DataError e) => Err (TpMessage ("DataError: " +:+ e))
  end.

(** src/ton/src/transaction_parser/parser_call_contract.rs:71-127 ParserCallContract::event *)
Definition call_event (self : TxParser CallContractMessage) (chain_name : string) :
  M W (result Event TransactionParsingError) :=
  let tx := parser_tx self in
  let? log := ret (the_log self) in
  let? message_id := ret (call_message_id self) in
  match message_id with
  | None => ret (Err (TpMessage "Missing message id"))
  | Some message_id =>
      let source_context :=
        <["source_address" := address_to_hex (call_source_address log)]>
        (<["destination_address" := call_destination_address log]>
        (<["destination_chain" := call_destination_chain log]> ∅)) in
      let? decoded := ret (rmap_err (fun e => BocParsing ("Failed to decode payload: " +:+ e))
                             (hex_decode (call_payload log))) in
      let! now := now_rfc3339 in
      ret (Ok (Call (mkCommonEvent "CALL" (hash tx) (Some (tx_meta tx (Some source_context) now)))
        (mkMessage message_id chain_name (address_to_hex (call_source_address log))
           (call_destination_address log) (base64_encode (call_payload_hash log)))
        (call_destination_chain log) (base64_encode decoded)))
  end.

(** ** Executed messages *)

(** src/ton/src/transaction_parser/parser_message_executed.rs:37-48 ParserMessageExecuted::parse *)
Definition executed_parse (self : TxParser NullifiedSuccessfullyMessage) : Res (TxParser NullifiedSuccessfullyMessage) :=
  match log self, in_msg (parser_tx self) with
  | None, None => Done (Err (TpMessage "Transaction has no in_msg"))
  | _, Some msg => parse_log nullified_from_boc_b64 (Done (message_body msg)) self
  | Some _, None => Done (Ok self)
  end.

(** src/ton/src/transaction_parser/parser_message_executed.rs:50-74 ParserMessageExecuted::is_match *)
Definition executed_is_match (self : TxParser NullifiedSuccessfullyMessage) : bool :=
  if negb (from_us self) then false
  else
    let tx := parser_tx self in
    let first_log := is_log_emmitted tx OP_NULLIFIED_SUCCESSFULLY 0 in
    let second_log := if first_log then false else is_log_emmitted tx OP_NULLIFIED_SUCCESSFULLY 1 in
    let msg_idx := if first_log then 1%nat else 0%nat in
    if negb second_log && negb first_log then false
    else match out_msgs tx !! msg_idx with
         | Some out_msg => bool_decide (opcode out_msg = Some OP_GATEWAY_EXECUTE)
         | None => false
         end.

(** src/ton/src/transaction_parser/parser_message_executed.rs:80-113 ParserMessageExecuted::event *)
Definition executed_event (self : TxParser NullifiedSuccessfullyMessage) : M W (result Event TransactionParsingError) :=
  let tx := parser_tx self in
  let? log := ret (the_log self) in
  let! now := now_rfc3339 in
  ret (Ok (MessageExecuted
    (mkCommonEvent "MESSAGE_EXECUTED" (hash tx) (Some (mkExecutedMeta (tx_meta tx None now) None None None)))
    (nullified_message_id log) (nullified_source_chain log) SUCCESSFUL (mkAmount None "0"))).

(** ** Approved messages *)

(** src/ton/src/transaction_parser/parser_message_approved.rs:35-43 ParserMessageApproved::parse *)
Definition approved_parse (self : TxParser TonCCMessage) : Res (TxParser TonCCMessage) :=
  parse_log cc_from_boc_b64 (out_body (parser_tx self) 0) self.

(** src/ton/src/transaction_parser/parser_message_approved.rs:45-51 ParserMessageApproved::is_match *)
Definition approved_is_match (self : TxParser TonCCMessage) : bool :=
  if negb (from_us self) then false else is_log_emmitted (parser_tx self) OP_MESSAGE_APPROVED 0.

(** src/ton/src/transaction_parser/parser_message_approved.rs:53-65 ParserMessageApproved::key *)
Definition approved_key (self : TxParser TonCCMessage) : result MessageMatchingKey TransactionParsingError :=
  try? log := the_log self in
  Ok (mkKey (cc_destination_chain log) (cc_destination_address log) (cc_payload_hash log)).

(** src/ton/src/transaction_parser/parser_message_approved.rs:67-102 ParserMessageApproved::event *)
Definition approved_event (self : TxParser TonCCMessage) : M W (result Event TransactionParsingError) :=
  let tx := parser_tx self in
  let? log := ret (the_log self) in
  let! now := now_rfc3339 in
  ret (Ok (MessageApproved
    (mkCommonEvent "MESSAGE_APPROVED" (hash tx) (Some (mkApprovedMeta (tx_meta tx None now) None)))
    (mkMessage (cc_message_id log) (cc_source_chain log) (cc_source_address log)
       (cc_destination_address log) (hex_encode (cc_payload_hash log)))
    (mkAmount None "0"))).

(** ** Gas credits *)

Definition credit_event (tx : Transaction) (message_id refund : string) (payment : Amount) :
  M W (result Event TransactionParsingError) :=
  let! now := now_rfc3339 in
  ret (Ok (GasCredit (mkCommonEvent "GAS_CREDIT" (hash tx +:+ "-gas") (Some (tx_meta tx None now)))
    message_id refund payment)).

(** src/ton/src/transaction_parser/parser_native_gas_paid.rs:33-41 ParserNativeGasPaid::parse *)
Definition native_paid_parse (self : TxParser NativeGasPaidMessage) : Res (TxParser NativeGasPaidMessage) :=
  parse_log native_paid_from_boc_b64 (out_body (parser_tx self) 0) self.

(** src/ton/src/transaction_parser/parser_native_gas_paid.rs:43-53 ParserNativeGasPaid::is_match *)
Definition native_paid_is_match (self : TxParser NativeGasPaidMessage) : bool :=
  if negb (from_us self) then false
  else if is_log_emmitted (parser_tx self) OP_PAY_NATIVE_GAS_FOR_CONTRACT_CALL 0 then true
  else is_log_emmitted (parser_tx self) OP_PAY_GAS 0.

(** src/ton/src/transaction_parser/parser_native_gas_paid.rs:55-67 ParserNativeGasPaid::key *)
Definition native_paid_key (self : TxParser NativeGasPaidMessage) : result MessageMatchingKey TransactionParsingError :=
  try? log := the_log self in
  Ok (mkKey (native_paid_destination_chain log) (native_paid_destination_address log) (native_paid_payload_hash log)).

(** src/ton/src/transaction_parser/parser_native_gas_paid.rs:69-103 ParserNativeGasPaid::event *)
Definition native_paid_event (self : TxParser NativeGasPaidMessage) (message_id : option string) :
  M W (result Event TransactionParsingError) :=
  match message_id with
  | None => ret (Err (TpMessage "Missing message_id"))
  | Some message_id =>
      let? log := ret (the_log self) in
      credit_event (parser_tx self) message_id (address_to_hex (native_paid_refund_address log))
        (mkAmount None (print_N (native_paid_msg_value log)))
  end.

(** src/ton/src/transaction_parser/parser_jetton_gas_paid.rs:33-41 ParserJettonGasPaid::parse *)
Definition jetton_paid_parse (self : TxParser JettonGasPaidMessage) : Res (TxParser JettonGasPaidMessage) :=
  parse_log jetton_paid_from_boc_b64 (out_body (parser_tx self) 0) self.

(** A candidate counts only when its log can be read. *)
Definition readable {T} (from : string -> outcome (result T BocError)) (tx : Transaction) : outcome bool :=
  match out_body tx 0 with
  | Panic why => Panic why
  | Done b => match from b with Panic why => Panic why | Done r => Done (is_ok r) end
  end.

(** src/ton/src/transaction_parser/parser_jetton_gas_paid.rs:43-56 ParserJettonGasPaid::is_match *)
Definition jetton_paid_is_match (self : TxParser JettonGasPaidMessage) : outcome bool :=
  if negb (from_us self) then Done false
  else if negb (is_log_emmitted (parser_tx self) OP_USER_BALANCE_SUBTRACTED 0) then Done false
  else readable jetton_paid_from_boc_b64 (parser_tx self).

(** src/ton/src/transaction_parser/parser_jetton_gas_paid.rs:58-70 ParserJettonGasPaid::key *)
Definition jetton_paid_key (self : TxParser JettonGasPaidMessage) : result MessageMatchingKey TransactionParsingError :=
  try? log := the_log self in
  Ok (mkKey (jetton_paid_destination_chain log) (jetton_paid_destination_address log) (jetton_paid_payload_hash log)).

(** src/ton/src/transaction_parser/parser_jetton_gas_paid.rs:72-108 ParserJettonGasPaid::event *)
Definition jetton_paid_event (self : TxParser JettonGasPaidMessage) (message_id : option string) :
  M W (result Event TransactionParsingError) :=
  match message_id with
  | None => ret (Err (TpMessage "Missing message_id"))
  | Some message_id =>
      let? log := ret (the_log self) in
      credit_event (parser_tx self) message_id (address_to_hex (jetton_paid_refund_address log))
        (mkAmount (Some (address_to_hex (jetton_paid_minter log))) (print_N (jetton_paid_amount log)))
  end.

(** src/ton/src/transaction_parser/parser_native_gas_added.rs:33-41 ParserNativeGasAdded::parse *)
Definition native_added_parse (self : TxParser NativeGasAddedMessage) : Res (TxParser NativeGasAddedMessage) :=
  parse_log native_added_from_boc_b64 (out_body (parser_tx self) 0) self.

(** src/ton/src/transaction_parser/parser_native_gas_added.rs:43-49 ParserNativeGasAdded::is_match *)
Definition native_added_is_match (self : TxParser NativeGasAddedMessage) : bool :=
  if negb (from_us self) then false else is_log_emmitted (parser_tx self) OP_ADD_NATIVE_GAS 0.

(** src/ton/src/transaction_parser/parser_native_gas_added.rs:93-100 ParserNativeGasAdded::message_id *)
Definition native_added_message_id (self : TxParser NativeGasAddedMessage) :
  result (option string) TransactionParsingError :=
  try? log := the_log self in
  Ok (Some ("0x" +:+ hash_to_string (native_added_tx_hash log))).

(** src/ton/src/transaction_parser/parser_native_gas_added.rs:55-91 ParserNativeGasAdded::event *)
Definition native_added_event (self : TxParser NativeGasAddedMessage) : M W (result Event TransactionParsingError) :=
  let? log := ret (the_log self) in
  let? message_id := ret (native_added_message_id self) in
  match message_id with
  | None => ret (Err (TpMessage "Missing message id"))
  | Some message_id =>
      credit_event (parser_tx self) message_id (address_to_hex (native_added_refund_address log))
        (mkAmount None (print_N (native_added_msg_value log)))
  end.

(** src/ton/src/transaction_parser/parser_jetton_gas_added.rs:33-41 ParserJettonGasAdded::parse *)
Definition jetton_added_parse (self : TxParser JettonGasAddedMessage) : Res (TxParser JettonGasAddedMessage) :=
  parse_log jetton_added_from_boc_b64 (out_body (parser_tx self) 0) self.

(** src/ton/src/transaction_parser/parser_jetton_gas_added.rs:43-56 ParserJettonGasAdded::is_match *)
Definition jetton_added_is_match (self : TxParser JettonGasAddedMessage) : outcome bool :=
  if negb (from_us self) then Done false
  else if negb (is_log_emmitted (parser_tx self) OP_USER_BALANCE_SUBTRACTED 0) then Done false
  else readable jetton_added_from_boc_b64 (parser_tx self).

(** src/ton/src/transaction_parser/parser_jetton_gas_added.rs:99-107 ParserJettonGasAdded::message_id *)
Definition jetton_added_message_id (self : TxParser JettonGasAddedMessage) :
  result (option string) TransactionParsingError :=
  try? log := the_log self in
  Ok (Some ("0x" +:+ hash_to_string (jetton_added_tx_hash log))).

(** src/ton/src/transaction_parser/parser_jetton_gas_added.rs:62-97 ParserJettonGasAdded::event *)
Definition jetton_added_event (self : TxParser JettonGasAddedMessage) : M W (result Event TransactionParsingError) :=
  let? log := ret (the_log self) in
  let? message_id := ret (jetton_added_message_id self) in
  match message_id with
  | None => ret (Err (TpMessage "Missing message id"))
  | Some message_id =>
      credit_event (parser_tx self) message_id (address_to_hex (jetton_added_refund_address log))
        (mkAmount (Some (address_to_hex (jetton_added_minter log))) (print_N (jetton_added_amount log)))
  end.

(** ** Refunds *)

(** src/ton/src/transaction_parser/parser_native_gas_refunded.rs:33-41 ParserNativeGasRefunded::parse *)
Definition refunded_parse (self : TxParser NativeGasRefundedMessage) : Res (TxParser NativeGasRefundedMessage) :=
  parse_log refunded_from_boc_b64 (out_body (parser_tx self) 1) self.

(** src/ton/src/transaction_parser/parser_native_gas_refunded.rs:43-49 ParserNativeGasRefunded::is_match *)
Definition refunded_is_match (self : TxParser NativeGasRefundedMessage) : bool :=
  if negb (from_us self) then false else is_log_emmitted (parser_tx self) OP_NATIVE_REFUND 1.

(** src/ton/src/transaction_parser/parser_native_gas_refunded.rs:91-98 ParserNativeGasRefunded::message_id *)
Definition refunded_message_id (self : TxParser NativeGasRefundedMessage) : option string :=
  match log self with
  | Some log => Some ("0x" +:+ hash_to_string (refunded_log_tx_hash log))
  | None => None
  end.

(** src/ton/src/transaction_parser/parser_native_gas_refunded.rs:55-89 ParserNativeGasRefunded::event *)
Definition refunded_event (self : TxParser NativeGasRefundedMessage) : M W (result Event TransactionParsingError) :=
  let? log := ret (the_log self) in
  match refunded_message_id self with
  | None => ret (Err (TpMessage "Missing message id"))
  | Some message_id =>
      ret (Ok (GasRefunded (mkCommonEvent "GAS_REFUNDED" (hash (parser_tx self)) None) message_id
        (address_to_hex (refunded_log_address log)) (mkAmount None (print_N (refunded_log_amount log)))
        (mkAmount None "0")))
  end.

(** ** Executions that run out of gas *)

(** src/ton/src/transaction_parser/parser_execute_insufficient_gas.rs:13-18 ParserExecuteInsufficientGas *)
Record ParserExecuteInsufficientGas : Type := mkInsufficient {
  gas_log : option RelayerExecuteWrappedMessage;
  gas_trace : Trace;
  gas_allowed_address : TonAddress;
}.

(** src/ton/src/transaction_parser/parser_execute_insufficient_gas.rs:37-47 ParserExecuteInsufficientGas::parse *)
Definition insufficient_parse (self : ParserExecuteInsufficientGas) : Res ParserExecuteInsufficientGas :=
  match gas_log self with
  | Some _ => Done (Ok self)
  | None =>
      match transactions (gas_trace self) !! 0%nat with
      | None => Panic "index out of bounds"
      | Some tx =>
          match out_body tx 0 with
          | Panic why => Panic why
          | Done b =>
              match wrapped_from_boc_b64 b with
              | Panic why => Panic why
              | Done r => Done (match boc_error r with
                                | Ok l => Ok (mkInsufficient (Some l) (gas_trace self) (gas_allowed_address self))
                                | Err e => Err e
                                end)
              end
          end
      end
  end.

(** The gateway rejected the relayer's message for lack of gas. *)
Definition rejected_by_gateway (self : ParserExecuteInsufficientGas) (txs : list Transaction) : bool :=
  match txs !! 1%nat, txs !! 2%nat with
  | Some tx1, Some tx2 =>
      bool_decide (account tx2 = gas_allowed_address self) &&
      (let opcode := match out_msgs tx1 with
                     | msg :: _ => default 0 (opcode msg)
                     | [] => 0
                     end in
       (length (out_msgs tx1) =? 1)%nat && (opcode =? OP_RELAYER_EXECUTE) &&
       (let code := match compute_ph (description tx2) with
                    | Some ph => default 0 (exit_code ph)
                    | None => 0
                    end in
        wrap_u32 code =? EXIT_CODE_INSUFFICIENT_GAS))
  | _, _ => false
  end.

(** The last of five transactions failed in its action phase. *)
Definition failed_in_action (txs : list Transaction) : bool :=
  match txs !! 3%nat, txs !! 4%nat with
  | Some tx3, Some tx4 =>
      (length txs =? 5)%nat && bool_decide (is_Some (in_msg tx3)) &&
      match in_msg tx4 with
      | Some in_msg4 =>
          bool_decide (opcode in_msg4 = Some OP_NULLIFIED_SUCCESSFULLY) &&
          match action (description tx4) with
          | Some action => result_code action =? 37
          | None => false
          end
      | None => false
      end
  | _, _ => false
  end.

(** src/ton/src/transaction_parser/parser_execute_insufficient_gas.rs:49-86 ParserExecuteInsufficientGas::is_match *)
Definition insufficient_is_match (self : ParserExecuteInsufficientGas) : bool :=
  let txs := transactions (gas_trace self) in
  if rejected_by_gateway self txs then true else failed_in_action txs.

(** src/ton/src/transaction_parser/parser_execute_insufficient_gas.rs:92-111 ParserExecuteInsufficientGas::event *)
Definition insufficient_event (self : ParserExecuteInsufficientGas) : result Event TransactionParsingError :=
  try? log := ok_or (gas_log self) (TpMessage "Missing log") in
  Ok (CannotExecuteMessageV2
    (mkCommonEvent "CANNOT_EXECUTE_MESSAGE/V2"
       ("cannot-execute-task-v2-" +:+ print_Z (end_lt (gas_trace self))) None)
    (wrapped_message_id log) (wrapped_source_chain log) InsufficientGas (trace_id (gas_trace self))).
End parsers.

Arguments mkTxParser {L T} log parser_tx allowed_address.
Arguments log {L T} t.
Arguments parser_tx {L T} t.
Arguments allowed_address {L T} t.
