(* ===== verification/TraceParser.v ===== *)
(** * The trace parser

    [ton/src/transaction_parser/parser.rs]: the transactions of a trace are
    offered to the parsers of [TonParsers], gas payments are paired with the
    calls they pay for, and the events get their costs. *)

From S2P Require Import Prelude.
From S2P Require Import Decimal.
From S2P Require Import GmpTypes.
From S2P Require Import Text.
From S2P Require Import Database.
From S2P Require Import TonLib.
From S2P Require Import TonCells.
From S2P Require Import TonMessages.
From S2P Require Import TonTypes.
From S2P Require Import GasCalculator.
From S2P Require Import TonParsers.

(** src/ton/src/transaction_parser/parser.rs:48-52 TraceParserTrait *)
Class TraceParserTrait `{!TonLib} (W : Type) : Type := {
  parse_trace : Trace -> M W (result (list Event) TransactionParsingError);
}.

(** What [BigUint::from_str] says of a text it cannot read. *)
Definition biguint_error (s : string) : string :=
  match s with
  | EmptyString => "cannot parse integer from empty string"
  | _ => "invalid digit found in string"
  end.
Definition biguint_from_str (s : string) : result N string := ok_or (parse_biguint s) (biguint_error s).

(** src/ton/src/transaction_parser/common.rs:32-57 convert_jetton_to_native *)
Definition convert_jetton_to_native `{!DecimalLib} {W} `{!PriceViewTrait W} (minter : string) (amount : N) :
  M W (result N GasError) :=
  let coin_pair := minter +:+ "/USD" in
  let? coin_to_usd := map_err ConversionError (pv_get_price coin_pair) in
  let? ton_to_usd := map_err ConversionError (pv_get_price "TON/USD") in
  let? amount := ret (rmap_err (fun e => ConversionError ("Invalid amount: " +:+ e)) (dec_from_str (print_N amount))) in
  match dec_mul amount coin_to_usd with
  | Panic why => panic why
  | Done product =>
      match dec_div product ton_to_usd with
      | Panic why => panic why
      | Done result =>
          ret (rmap_err ConversionError (biguint_from_str (dec_to_string (dec_round result))))
      end
  end.

Section parser.
Context {L : TonLib} {CL : CellLib} {C : Codecs} {DL : DecimalLib} {W : Type} {RN : Rfc3339Now W}
  {PV : PriceViewTrait W}.
Abbreviation Res A := (outcome (result A TransactionParsingError)).

(** src/ton/src/transaction_parser/parser.rs:39-46 TraceParser *)
Record TraceParser : Type := mkTraceParser {
  gateway_address : TonAddress;
  gas_service_address : TonAddress;
  gas_calculator : GasCalculator;
  parser_chain_name : string;
}.

(** [Box<dyn Parser>]: the parsers that are kept for their event. *)
Inductive AnyParser : Type :=
| ExecuteInsufficientGas (p : ParserExecuteInsufficientGas)
| ParsedExecuted (p : TxParser NullifiedSuccessfullyMessage)
| ParsedApproved (p : TxParser TonCCMessage)
| ParsedNativePaid (p : TxParser NativeGasPaidMessage)
| ParsedNativeAdded (p : TxParser NativeGasAddedMessage)
| ParsedJettonAdded (p : TxParser JettonGasAddedMessage)
| ParsedJettonPaid (p : TxParser JettonGasPaidMessage)
| ParsedRefunded (p : TxParser NativeGasRefundedMessage).

(** src/ton/src/transaction_parser/parser.rs:27-37 Parser (event) *)
Definition any_event (p : AnyParser) (message_id : option string) : M W (result Event TransactionParsingError) :=
  match p with
  | ExecuteInsufficientGas p => ret (insufficient_event p)
  | ParsedExecuted p => executed_event p
  | ParsedApproved p => approved_event p
  | ParsedNativePaid p => native_paid_event p message_id
  | ParsedNativeAdded p => native_added_event p
  | ParsedJettonAdded p => jetton_added_event p
  | ParsedJettonPaid p => jetton_paid_event p message_id
  | ParsedRefunded p => refunded_event p
  end.

(** [HashMap<MessageMatchingKey, Box<dyn Parser>>]. *)
Abbreviation CreditMap := (list (MessageMatchingKey * AnyParser)).

Fixpoint credit_insert (k : MessageMatchingKey) (p : AnyParser) (m : CreditMap) : CreditMap :=
  match m with
  | [] => [(k, p)]
  | (k', p') :: m => if decide (k' = k) then (k, p) :: m else (k', p') :: credit_insert k p m
  end.

Fixpoint credit_remove (k : MessageMatchingKey) (m : CreditMap) : option AnyParser * CreditMap :=
  match m with
  | [] => (None, [])
  | (k', p') :: m =>
      if decide (k' = k) then (Some p', m)
      else let '(found, m) := credit_remove k m in (found, (k', p') :: m)
  end.

(** What [create_parsers] fills in. *)
Record Parsers : Type := mkParsers {
  parsers : list AnyParser;
  call_contract : list (TxParser CallContractMessage);
  gas_credit_map : CreditMap;
  message_approved_count : Z;
}.

Definition push_parser (p : AnyParser) (st : Parsers) : Parsers :=
  mkParsers (parsers st ++ [p]) (call_contract st) (gas_credit_map st) (message_approved_count st).
Definition push_call (p : TxParser CallContractMessage) (st : Parsers) : Parsers :=
  mkParsers (parsers st) (call_contract st ++ [p]) (gas_credit_map st) (message_approved_count st).
Definition push_approved (p : AnyParser) (st : Parsers) : Parsers :=
  mkParsers (parsers st ++ [p]) (call_contract st) (gas_credit_map st) (wrap_u64 (message_approved_count st + 1)).
Definition insert_credit (k : MessageMatchingKey) (p : AnyParser) (st : Parsers) : Parsers :=
  mkParsers (parsers st) (call_contract st) (credit_insert k p (gas_credit_map st)) (message_approved_count st).

(** One [if parser.is_match() { parser.parse(); ...; continue; }]. *)
Definition offer {T} (p : TxParser T) (is_match : TxParser T -> outcome bool) (parse : TxParser T -> Res (TxParser T))
    (keep : TxParser T -> result Parsers TransactionParsingError) (otherwise : Res Parsers) : Res Parsers :=
  match is_match p with
  | Panic why => Panic why
  | Done true => match parse p with
                 | Panic why => Panic why
                 | Done (Err e) => Done (Err e)
                 | Done (Ok p) => Done (keep p)
                 end
  | Done false => otherwise
  end.

Definition sure {T} (f : TxParser T -> bool) (p : TxParser T) : outcome bool := Done (f p).

(** src/ton/src/transaction_parser/parser.rs:251-326 TraceParser::create_parsers (one transaction) *)
Definition parse_transaction (self : TraceParser) (tx : Transaction) (st : Parsers) : Res Parsers :=
  let gateway {T} : TxParser T := mkTxParser None tx (gateway_address self) in
  let gas_service {T} : TxParser T := mkTxParser None tx (gas_service_address self) in
  offer gateway (sure call_is_match) call_parse (fun p => Ok (push_call p st))
  (offer gateway (sure executed_is_match) executed_parse (fun p => Ok (push_parser (ParsedExecuted p) st))
  (offer gateway (sure approved_is_match) approved_parse (fun p => Ok (push_approved (ParsedApproved p) st))
  (offer gas_service (sure native_paid_is_match) native_paid_parse
     (fun p => try? key := native_paid_key p in Ok (insert_credit key (ParsedNativePaid p) st))
  (offer gas_service (sure native_added_is_match) native_added_parse
     (fun p => Ok (push_parser (ParsedNativeAdded p) st))
  (offer gas_service jetton_added_is_match jetton_added_parse
     (fun p => Ok (push_parser (ParsedJettonAdded p) st))
  (offer gas_service jetton_paid_is_match jetton_paid_parse
     (fun p => try? key := jetton_paid_key p in Ok (insert_credit key (ParsedJettonPaid p) st))
  (offer gas_service (sure refunded_is_match) refunded_parse
     (fun p => Ok (push_parser (ParsedRefunded p) st))
  (Done (Ok st))))))))).

(** src/ton/src/transaction_parser/parser.rs:251-327 TraceParser::create_parsers (the loop) *)
Fixpoint parse_transactions (self : TraceParser) (txs : list Transaction) (st : Parsers) : Res Parsers :=
  match txs with
  | [] => Done (Ok st)
  | tx :: txs => obind (parse_transaction self tx st) (parse_transactions self txs)
  end.

(** src/ton/src/transaction_parser/parser.rs:226-328 TraceParser::create_parsers *)
Definition create_parsers (self : TraceParser) (trace : Trace) : Res Parsers :=
  let st := mkParsers [] [] [] 0 in
  let parser := mkInsufficient None trace (gateway_address self) in
  let st :=
    if insufficient_is_match parser then
      obind (insufficient_parse parser) (fun parser => Done (Ok (push_parser (ExecuteInsufficientGas parser) st)))
    else Done (Ok st) in
  obind st (parse_transactions self (transactions trace)).

(** src/ton/src/transaction_parser/parser.rs:330-342 TraceParser::gas_used *)
Definition trace_gas_used (self : TraceParser) (trace : Trace) : result (Z * Z) TransactionParsingError :=
  try? total_gas_used :=
    rmap_err (fun e => Gas (show_GasError e)) (calc_message_gas (gas_calculator self) (transactions trace)) in
  try? refund_gas_used :=
    rmap_err (fun e => Gas (show_GasError e))
      (calc_message_gas_native_gas_refunded (gas_calculator self) (transactions trace)) in
  Ok (total_gas_used, refund_gas_used).

(** src/ton/src/transaction_parser/parser.rs:106-117 TraceParser::parse_trace (the calls) *)
Fixpoint call_events (chain_name : string) (calls : list (TxParser CallContractMessage)) (credits : CreditMap) :
  M W (result (list Event) TransactionParsingError) :=
  match calls with
  | [] => ret (Ok [])
  | cc :: calls =>
      let? cc_key := ret (call_key cc) in
      let? event := call_event cc chain_name in
      let '(found, credits) := credit_remove cc_key credits in
      match found with
      | Some parser =>
          let? message_id := ret (call_message_id cc) in
          let? message_id := ret (ok_or message_id (TpMessage "Missing message_id")) in
          let? credit := any_event parser (Some message_id) in
          let? events := call_events chain_name calls credits in
          ret (Ok (event :: credit :: events))
      | None =>
          let? events := call_events chain_name calls credits in
          ret (Ok (event :: events))
      end
  end.

(** src/ton/src/transaction_parser/parser.rs:119-122 TraceParser::parse_trace (the other parsers) *)
Fixpoint parser_events (ps : list AnyParser) : M W (result (list Event) TransactionParsingError) :=
  match ps with
  | [] => ret (Ok [])
  | parser :: ps =>
      let? event := any_event parser None in
      let? events := parser_events ps in
      ret (Ok (event :: events))
  end.

(** [u64] division, which panics on zero. *)
Definition div_u64 (a b : Z) : outcome Z :=
  if b =? 0 then Panic "attempt to divide by zero" else Done (a / b).

(** src/ton/src/transaction_parser/parser.rs:126-203 TraceParser::parse_trace (the cost of one event) *)
Definition with_cost (total_gas_used refund_gas_used approved : Z) (event : Event) :
  M W (result Event TransactionParsingError) :=
  match event with
  | GasCredit common message_id refund_address payment =>
      match token_id payment with
      | Some token_id =>
          let? value := ret (rmap_err Generic (biguint_from_str (amount payment))) in
          let? msg_value := map_err (fun e => Generic (show_GasError e)) (convert_jetton_to_native token_id value) in
          ret (Ok (GasCredit common message_id refund_address (mkAmount None (print_N msg_value))))
      | None => ret (Ok (GasCredit common message_id refund_address payment))
      end
  | MessageApproved common message cost =>
      match div_u64 total_gas_used approved with
      | Panic why => panic why
      | Done share => ret (Ok (MessageApproved common message (mkAmount (token_id cost) (print_u64 share))))
      end
  | MessageExecuted common message_id source_chain status cost =>
      ret (Ok (MessageExecuted common message_id source_chain status (mkAmount (token_id cost) (print_u64 total_gas_used))))
  | GasRefunded common message_id recipient_address refunded_amount cost =>
      ret (Ok (GasRefunded common message_id recipient_address refunded_amount
        (mkAmount (token_id cost) (print_u64 refund_gas_used))))
  | other => ret (Ok other)
  end.

(** src/ton/src/transaction_parser/parser.rs:124-205 TraceParser::parse_trace (the costs) *)
Fixpoint with_costs (total_gas_used refund_gas_used approved : Z) (events : list Event) :
  M W (result (list Event) TransactionParsingError) :=
  match events with
  | [] => ret (Ok [])
  | event :: events =>
      let? event := with_cost total_gas_used refund_gas_used approved event in
      let? parsed_events := with_costs total_gas_used refund_gas_used approved events in
      ret (Ok (event :: parsed_events))
  end.

(** A part that cannot be interrupted. *)
Definition now_or_panic {A} (o : outcome A) : M W A :=
  match o with Done a => ret a | Panic why => panic why end.

(** src/ton/src/transaction_parser/parser.rs:59-206 TraceParser::parse_trace *)
Definition ton_parse_trace (self : TraceParser) (trace : Trace) : M W (result (list Event) TransactionParsingError) :=
  let? gas := ret (trace_gas_used self trace) in
  let '(total_gas_used, refund_gas_used) := gas in
  let? st := now_or_panic (create_parsers self trace) in
  let? calls := call_events (parser_chain_name self) (call_contract st) (gas_credit_map st) in
  let? others := parser_events (parsers st) in
  with_costs total_gas_used refund_gas_used (message_approved_count st) (calls ++ others).

(** src/ton/src/transaction_parser/parser.rs:54-207 impl TraceParserTrait for TraceParser *)
Definition TonTraceParser (self : TraceParser) : TraceParserTrait W := {| parse_trace := ton_parse_trace self |}.
End parser.

(** ** What a trace stands for

    The reference: every transaction is claimed by the first parser that
    recognises it.  Calls come first, each followed by the gas payment it is
    paired with; then the message that could not be executed; then the other
    events, in the order of their transactions. *)

(** Type, id and message of an event. *)
Abbreviation Label := (string * string * string)%type.

Section reference.
Context {L : TonLib} {CL : CellLib} {C : Codecs}.

Inductive Claim : Type :=
| ClaimCall | ClaimExecuted | ClaimApproved | ClaimNativePaid | ClaimNativeAdded | ClaimJettonAdded
| ClaimJettonPaid | ClaimRefunded.

Definition gateway_log (self : TraceParser) {T} (tx : Transaction) : TxParser T :=
  mkTxParser None tx (gateway_address self).
Definition gas_service_log (self : TraceParser) {T} (tx : Transaction) : TxParser T :=
  mkTxParser None tx (gas_service_address self).

Definition holds_for (o : outcome bool) : bool := match o with Done b => b | Panic _ => false end.

Definition claim (self : TraceParser) (tx : Transaction) : option Claim :=
  if call_is_match (gateway_log self tx) then Some ClaimCall
  else if executed_is_match (gateway_log self tx) then Some ClaimExecuted
  else if approved_is_match (gateway_log self tx) then Some ClaimApproved
  else if native_paid_is_match (gas_service_log self tx) then Some ClaimNativePaid
  else if native_added_is_match (gas_service_log self tx) then Some ClaimNativeAdded
  else if holds_for (jetton_added_is_match (gas_service_log self tx)) then Some ClaimJettonAdded
  else if holds_for (jetton_paid_is_match (gas_service_log self tx)) then Some ClaimJettonPaid
  else if refunded_is_match (gas_service_log self tx) then Some ClaimRefunded
  else None.

(** The log a transaction was claimed for, when it can be read. *)
Definition read_log {T} (r : outcome (result (TxParser T) TransactionParsingError)) : option T :=
  match r with Done (Ok p) => log p | _ => None end.

Definition label (e : Event) : Label :=
  match e with
  | Call c m _ _ => (event_type c, event_id c, message_id m)
  | GasRefunded c m _ _ _ => (event_type c, event_id c, m)
  | GasCredit c m _ _ => (event_type c, event_id c, m)
  | MessageApproved c m _ => (event_type c, event_id c, message_id m)
  | MessageExecuted c m _ _ _ => (event_type c, event_id c, m)
  | CannotExecuteMessageV2 c m _ _ _ => (event_type c, event_id c, m)
  | ITSInterchainTransfer c m _ _ _ _ _ => (event_type c, event_id c, m)
  end.

(** The type of an event is the one its shape stands for. *)
Definition type_name (e : Event) : string :=
  match e with
  | Call _ _ _ _ => "CALL"
  | GasRefunded _ _ _ _ _ => "GAS_REFUNDED"
  | GasCredit _ _ _ _ => "GAS_CREDIT"
  | MessageApproved _ _ _ => "MESSAGE_APPROVED"
  | MessageExecuted _ _ _ _ _ => "MESSAGE_EXECUTED"
  | CannotExecuteMessageV2 _ _ _ _ _ => "CANNOT_EXECUTE_MESSAGE/V2"
  | ITSInterchainTransfer _ _ _ _ _ _ _ => "ITS/INTERCHAIN_TRANSFER"
  end.
Definition named (e : Event) : Prop := (label e).1.1 = type_name e.

(** The calls of a trace with the keys they are paired by, and the payments. *)
Definition call_view (self : TraceParser) (tx : Transaction) : option (MessageMatchingKey * string) :=
  match claim self tx with
  | Some ClaimCall =>
      (fun log => (mkKey (call_destination_chain log) (call_destination_address log) (call_payload_hash log), hash tx))
      <$> read_log (call_parse (gateway_log self tx))
  | _ => None
  end.

Definition credit_view (self : TraceParser) (tx : Transaction) : option (MessageMatchingKey * string) :=
  match claim self tx with
  | Some ClaimNativePaid =>
      (fun log => (mkKey (native_paid_destination_chain log) (native_paid_destination_address log)
                     (native_paid_payload_hash log), hash tx))
      <$> read_log (native_paid_parse (gas_service_log self tx))
  | Some ClaimJettonPaid =>
      (fun log => (mkKey (jetton_paid_destination_chain log) (jetton_paid_destination_address log)
                     (jetton_paid_payload_hash log), hash tx))
      <$> read_log (jetton_paid_parse (gas_service_log self tx))
  | _ => None
  end.

Definition executed_label (tx : Transaction) (log : NullifiedSuccessfullyMessage) : Label :=
  ("MESSAGE_EXECUTED", hash tx, nullified_message_id log).
Definition approved_label (tx : Transaction) (log : TonCCMessage) : Label :=
  ("MESSAGE_APPROVED", hash tx, cc_message_id log).
Definition added_label (tx : Transaction) (h : TonHash) : Label :=
  ("GAS_CREDIT", hash tx +:+ "-gas", "0x" +:+ hash_to_string h).
Definition refunded_label (tx : Transaction) (log : NativeGasRefundedMessage) : Label :=
  ("GAS_REFUNDED", hash tx, "0x" +:+ hash_to_string (refunded_log_tx_hash log)).

Definition other_view (self : TraceParser) (tx : Transaction) : option Label :=
  match claim self tx with
  | Some ClaimExecuted => executed_label tx <$> read_log (executed_parse (gateway_log self tx))
  | Some ClaimApproved => approved_label tx <$> read_log (approved_parse (gateway_log self tx))
  | Some ClaimNativeAdded =>
      (fun log => added_label tx (native_added_tx_hash log)) <$> read_log (native_added_parse (gas_service_log self tx))
  | Some ClaimJettonAdded =>
      (fun log => added_label tx (jetton_added_tx_hash log)) <$> read_log (jetton_added_parse (gas_service_log self tx))
  | Some ClaimRefunded => refunded_label tx <$> read_log (refunded_parse (gas_service_log self tx))
  | _ => None
  end.

Definition insufficient_view (self : TraceParser) (trace : Trace) : option Label :=
  let parser := mkInsufficient None trace (gateway_address self) in
  if insufficient_is_match parser then
    match insufficient_parse parser with
    | Done (Ok p) =>
        (fun log => ("CANNOT_EXECUTE_MESSAGE/V2", "cannot-execute-task-v2-" +:+ print_Z (end_lt trace),
                     wrapped_message_id log)) <$> gas_log p
    | _ => None
    end
  else None.

(** The last payment with a key. *)
Fixpoint last_with {A} (k : MessageMatchingKey) (l : list (MessageMatchingKey * A)) : option A :=
  match l with
  | [] => None
  | (k', a) :: l => match last_with k l with
                    | Some b => Some b
                    | None => if decide (k' = k) then Some a else None
                    end
  end.

Definition message_id_of (h : string) : string :=
  match hash_to_message_id h with Ok id => id | Err _ => "" end.

(** A call is paired with the last payment that has its key, unless an
    earlier call had the same key. *)
Fixpoint paired (used : list MessageMatchingKey) (calls credits : list (MessageMatchingKey * string)) : list Label :=
  match calls with
  | [] => []
  | (k, h) :: calls =>
      ("CALL", h, message_id_of h) ::
      (if decide (k ∈ used) then []
       else match last_with k credits with
            | Some paid => [("GAS_CREDIT", paid +:+ "-gas", message_id_of h)]
            | None => []
            end) ++ paired (k :: used) calls credits
  end.

Definition option_to_list {A} (o : option A) : list A := match o with Some a => [a] | None => [] end.

Definition trace_labels (self : TraceParser) (trace : Trace) : list Label :=
  paired [] (omap (call_view self) (transactions trace)) (omap (credit_view self) (transactions trace)) ++
  option_to_list (insufficient_view self trace) ++
  omap (other_view self) (transactions trace).
End reference.

(** ** The parsers of a trace are those the reference names *)

Section creation.
Context {L : TonLib} {CL : CellLib} {C : Codecs}.

Lemma offer_inv {T} (p : TxParser T) is_match parse keep otherwise st' :
  offer p is_match parse keep otherwise = Done (Ok st') ->
  (is_match p = Done true /\ exists p', parse p = Done (Ok p') /\ keep p' = Ok st') \/
  (is_match p = Done false /\ otherwise = Done (Ok st')).
Proof.
  unfold offer. destruct (is_match p) as [[]|why]; [left|by right|done].
  split; [done|]. destruct (parse p) as [[p'|e]|why]; [|done..]. exists p'. split; [done|]. congruence.
Qed.

Lemma parse_log_inv {T} (from : string -> outcome (result T BocError)) b (p p' : TxParser T) :
  parse_log from b p = Done (Ok p') ->
  parser_tx p' = parser_tx p /\ exists l, log p' = Some l.
Proof.
  unfold parse_log. destruct (log p) as [l|] eqn:El; [intros [= <-]; eauto|].
  destruct b as [b|why]; [|done]. destruct (from b) as [r|why]; [|done].
  destruct r; simpl; intros [= <-]; simpl; eauto.
Qed.

Lemma executed_parse_inv (p p' : TxParser NullifiedSuccessfullyMessage) :
  executed_parse p = Done (Ok p') -> parser_tx p' = parser_tx p /\ exists l, log p' = Some l.
Proof.
  unfold executed_parse. destruct (log p) as [l|] eqn:El, (in_msg (parser_tx p)); [| |..|done].
  - apply parse_log_inv.
  - intros [= <-]. eauto.
  - apply parse_log_inv.
Qed.

Ltac claimed_by H :=
  let Hm := fresh "Hm" in let p := fresh "p" in let Hp := fresh "Hp" in let Hk := fresh "Hk" in
  apply offer_inv in H as [(Hm & p & Hp & Hk)|(Hm & H)];
  unfold sure in Hm; try injection Hm as Hm; rewrite Hm; cbn [holds_for];
  [try (injection Hk as <-; by eauto)|].

(** One transaction goes to the parser that claims it. *)
Lemma parse_transaction_spec (self : TraceParser) (tx : Transaction) (st st' : Parsers) :
  parse_transaction self tx st = Done (Ok st') ->
  match claim self tx with
  | Some ClaimCall => exists p, call_parse (gateway_log self tx) = Done (Ok p) /\ st' = push_call p st
  | Some ClaimExecuted =>
      exists p, executed_parse (gateway_log self tx) = Done (Ok p) /\ st' = push_parser (ParsedExecuted p) st
  | Some ClaimApproved =>
      exists p, approved_parse (gateway_log self tx) = Done (Ok p) /\ st' = push_approved (ParsedApproved p) st
  | Some ClaimNativePaid =>
      exists p k, native_paid_parse (gas_service_log self tx) = Done (Ok p) /\ native_paid_key p = Ok k /\
        st' = insert_credit k (ParsedNativePaid p) st
  | Some ClaimNativeAdded =>
      exists p, native_added_parse (gas_service_log self tx) = Done (Ok p) /\ st' = push_parser (ParsedNativeAdded p) st
  | Some ClaimJettonAdded =>
      exists p, jetton_added_parse (gas_service_log self tx) = Done (Ok p) /\ st' = push_parser (ParsedJettonAdded p) st
  | Some ClaimJettonPaid =>
      exists p k, jetton_paid_parse (gas_service_log self tx) = Done (Ok p) /\ jetton_paid_key p = Ok k /\
        st' = insert_credit k (ParsedJettonPaid p) st
  | Some ClaimRefunded =>
      exists p, refunded_parse (gas_service_log self tx) = Done (Ok p) /\ st' = push_parser (ParsedRefunded p) st
  | None => st' = st
  end.
Proof.
  unfold parse_transaction, claim, gateway_log, gas_service_log. intros H.
  do 3 claimed_by H.
  claimed_by H; [destruct (native_paid_key p) as [k|e] eqn:Ek; [injection Hk as <-; by eauto|done]|].
  do 2 claimed_by H.
  claimed_by H; [destruct (jetton_paid_key p) as [k|e] eqn:Ek; [injection Hk as <-; by eauto|done]|].
  claimed_by H.
  by injection H as <-.
Qed.

(** ** The payments that wait for their call *)

Lemma last_with_app {A} k (l1 l2 : list (MessageMatchingKey * A)) :
  last_with k (l1 ++ l2) = match last_with k l2 with Some a => Some a | None => last_with k l1 end.
Proof.
  induction l1 as [|[k' a] l1 IH]; simpl; [by destruct (last_with k l2)|]. rewrite IH. by destruct (last_with k l2).
Qed.

Lemma last_with_notin {A} k (l : list (MessageMatchingKey * A)) : k ∉ map fst l -> last_with k l = None.
Proof.
  induction l as [|[k' a] l IH]; simpl; [done|]. rewrite not_elem_of_cons. intros [Hk Hl].
  rewrite (IH Hl). by rewrite decide_False by congruence.
Qed.

Lemma credit_insert_keys k p m k' : k' ∈ map fst (credit_insert k p m) <-> k' = k \/ k' ∈ map fst m.
Proof.
  induction m as [|[k1 p1] m IH]; simpl.
  - rewrite list_elem_of_singleton. split; [by left|]. intros [|H]; [done|by apply not_elem_of_nil in H].
  - destruct (decide (k1 = k)) as [->|Hn]; simpl; rewrite !elem_of_cons; [tauto|]. rewrite IH. tauto.
Qed.

Lemma credit_insert_nodup k p m : NoDup (map fst m) -> NoDup (map fst (credit_insert k p m)).
Proof.
  induction m as [|[k1 p1] m IH]; simpl; [intros _; apply NoDup_singleton|].
  intros [Hk Hm]%NoDup_cons. destruct (decide (k1 = k)) as [->|Hn]; simpl; apply NoDup_cons; [done|].
  split; [|by apply IH]. rewrite credit_insert_keys. by intros [|].
Qed.

Lemma credit_insert_find k p m k' : NoDup (map fst m) ->
  last_with k' (credit_insert k p m) = if decide (k = k') then Some p else last_with k' m.
Proof.
  induction m as [|[k1 p1] m IH]; simpl; [done|]. intros [Hk Hm]%NoDup_cons.
  destruct (decide (k1 = k)) as [->|Hn]; simpl.
  - destruct (decide (k = k')) as [->|Hn']; [by rewrite last_with_notin by done|done].
  - rewrite (IH Hm). destruct (decide (k = k')) as [->|Hn']; [done|done].
Qed.

Lemma credit_remove_spec k m : NoDup (map fst m) ->
  let '(found, m') := credit_remove k m in
  found = last_with k m /\ NoDup (map fst m') /\ (forall k', k' ∈ map fst m' -> k' ∈ map fst m) /\
  forall k', last_with k' m' = if decide (k = k') then None else last_with k' m.
Proof.
  induction m as [|[k1 p1] m IH]; simpl.
  - intros _. split; [done|]. split; [constructor|]. split; [done|]. intros k'. by destruct (decide _).
  - intros [Hk Hm]%NoDup_cons. destruct (decide (k1 = k)) as [->|Hn].
    + rewrite last_with_notin by done. split; [done|]. split; [done|]. split; [intros; by right|].
      intros k'. destruct (decide (k = k')) as [<-|Hn']; [by apply last_with_notin|]. by destruct (last_with k' m).
    + specialize (IH Hm). destruct (credit_remove k m) as [found m']. destruct IH as (-> & Hnd & Hin & Hf).
      split; [by destruct (last_with k m)|]. simpl. split.
      { apply NoDup_cons. split; [|done]. intros H. by apply Hk, Hin. }
      split; [intros k' [->|H]%elem_of_cons; [by left|right; by apply Hin]|].
      intros k'. rewrite Hf. destruct (decide (k = k')) as [<-|Hn']; [by rewrite decide_False by done|done].
Qed.
End creation.

Section views.
Context {L : TonLib} {CL : CellLib} {C : Codecs}.

(** The label of the event a kept parser produces. *)
Definition any_label (p : AnyParser) : Label :=
  match p with
  | ExecuteInsufficientGas p =>
      ("CANNOT_EXECUTE_MESSAGE/V2", "cannot-execute-task-v2-" +:+ print_Z (end_lt (gas_trace p)),
       match gas_log p with Some log => wrapped_message_id log | None => "" end)
  | ParsedExecuted p => match log p with Some log => executed_label (parser_tx p) log | None => ("", "", "") end
  | ParsedApproved p => match log p with Some log => approved_label (parser_tx p) log | None => ("", "", "") end
  | ParsedNativeAdded p =>
      match log p with Some log => added_label (parser_tx p) (native_added_tx_hash log) | None => ("", "", "") end
  | ParsedJettonAdded p =>
      match log p with Some log => added_label (parser_tx p) (jetton_added_tx_hash log) | None => ("", "", "") end
  | ParsedRefunded p => match log p with Some log => refunded_label (parser_tx p) log | None => ("", "", "") end
  | ParsedNativePaid _ | ParsedJettonPaid _ => ("", "", "")
  end.

(** A payment of the transaction with this hash. *)
Definition is_paid (p : AnyParser) (h : string) : Prop :=
  match p with
  | ParsedNativePaid p => hash (parser_tx p) = h
  | ParsedJettonPaid p => hash (parser_tx p) = h
  | _ => False
  end.

Definition is_call (p : TxParser CallContractMessage) (v : MessageMatchingKey * string) : Prop :=
  call_key p = Ok (fst v) /\ hash (parser_tx p) = snd v.

Definition payments (m : list (MessageMatchingKey * AnyParser)) (paid : list (MessageMatchingKey * string)) : Prop :=
  NoDup (map fst m) /\
  forall k, match last_with k m with
            | Some p => exists h, last_with k paid = Some h /\ is_paid p h
            | None => last_with k paid = None
            end.

Definition APPROVED : string := "MESSAGE_APPROVED".
Definition approvals (labels : list Label) : Z :=
  Z.of_nat (length (filter (fun l : Label => l.1.1 = APPROVED) labels)).

Record seen (st : Parsers) (calls paid : list (MessageMatchingKey * string)) (others : list Label) : Prop := {
  seen_calls : Forall2 is_call (call_contract st) calls;
  seen_paid : payments (gas_credit_map st) paid;
  seen_others : map any_label (parsers st) = others;
  seen_approved : message_approved_count st = wrap_u64 (approvals others);
}.

Lemma payments_insert m paid k p h : payments m paid -> is_paid p h ->
  payments (credit_insert k p m) (paid ++ [(k, h)]).
Proof.
  intros [Hn Hf] Hp. split; [by apply credit_insert_nodup|]. intros k'.
  rewrite credit_insert_find by done. rewrite last_with_app. simpl.
  destruct (decide (k = k')) as [->|Hk]; [by exists h|apply Hf].
Qed.

Lemma approvals_app l1 l2 : approvals (l1 ++ l2) = approvals l1 + approvals l2.
Proof. unfold approvals. rewrite list_basics.list.filter_app, length_app. lia. Qed.

Lemma approvals_other l : l.1.1 <> APPROVED -> approvals [l] = 0.
Proof. intros H. unfold approvals. by rewrite filter_cons_False. Qed.

Lemma seen_push st calls paid others p : seen st calls paid others -> (any_label p).1.1 <> APPROVED ->
  seen (push_parser p st) calls paid (others ++ [any_label p]).
Proof.
  intros [Hc Hp Ho Ha] Hl. split; simpl; [done|done|by rewrite map_app, Ho|].
  by rewrite Ha, approvals_app, approvals_other, Z.add_0_r.
Qed.

Lemma seen_push_approved st calls paid others p : seen st calls paid others -> (any_label p).1.1 = APPROVED ->
  seen (push_approved p st) calls paid (others ++ [any_label p]).
Proof.
  intros [Hc Hp Ho Ha] Hl. split; simpl; [done|done|by rewrite map_app, Ho|].
  rewrite Ha, approvals_app. unfold approvals at 3. rewrite filter_cons_True by done.
  unfold wrap_u64, wrap. rewrite Zplus_mod_idemp_l. done.
Qed.

Lemma seen_push_call st calls paid others p v : seen st calls paid others -> is_call p v ->
  seen (push_call p st) (calls ++ [v]) paid others.
Proof. intros [Hc Hp Ho Ha] Hl. split; simpl; try done. apply Forall2_app; [done|by constructor]. Qed.

Lemma seen_insert st calls paid others k p h : seen st calls paid others -> is_paid p h ->
  seen (insert_credit k p st) calls (paid ++ [(k, h)]) others.
Proof. intros [Hc Hp Ho Ha] Hl. split; simpl; try done. by apply payments_insert. Qed.

Ltac parsed H := first [apply parse_log_inv in H as (Htx & l & Hl) | apply executed_parse_inv in H as (Htx & l & Hl)].

(** One transaction adds what the reference says. *)
Lemma parse_transaction_seen (self : TraceParser) tx st st' calls paid others :
  seen st calls paid others -> parse_transaction self tx st = Done (Ok st') ->
  seen st' (calls ++ option_to_list (call_view self tx)) (paid ++ option_to_list (credit_view self tx))
    (others ++ option_to_list (other_view self tx)).
Proof.
  intros Hs H%parse_transaction_spec. unfold call_view, credit_view, other_view.
  destruct (claim self tx) as [[]|].
  all: repeat match goal with H : exists _, _ |- _ => destruct H as [? H] end; destruct_and?; subst.
  all: try match goal with Hp : _ = Done (Ok _) |- _ => rewrite Hp; cbn [read_log]; parsed Hp; rewrite Hl end.
  all: cbn [fmap option_fmap option_map option_to_list]; rewrite ?app_nil_r; cbn [gateway_log gas_service_log parser_tx] in *.
  - apply seen_push_call; [done|]. split; [|by rewrite Htx]. unfold call_key, the_log. by rewrite Hl.
  - replace (executed_label tx l) with (any_label (ParsedExecuted x)) by (simpl; by rewrite Hl, Htx).
    apply seen_push; [done|]. simpl. by rewrite Hl.
  - replace (approved_label tx l) with (any_label (ParsedApproved x)) by (simpl; by rewrite Hl, Htx).
    apply seen_push_approved; [done|]. simpl. by rewrite Hl.
  - match goal with H : native_paid_key _ = _ |- _ => unfold native_paid_key, the_log in H; rewrite Hl in H; injection H as <- end.
    apply seen_insert; [done|]. simpl. by rewrite Htx.
  - replace (added_label tx _) with (any_label (ParsedNativeAdded x)) by (simpl; by rewrite Hl, Htx).
    apply seen_push; [done|]. simpl. by rewrite Hl.
  - replace (added_label tx _) with (any_label (ParsedJettonAdded x)) by (simpl; by rewrite Hl, Htx).
    apply seen_push; [done|]. simpl. by rewrite Hl.
  - match goal with H : jetton_paid_key _ = _ |- _ => unfold jetton_paid_key, the_log in H; rewrite Hl in H; injection H as <- end.
    apply seen_insert; [done|]. simpl. by rewrite Htx.
  - replace (refunded_label tx _) with (any_label (ParsedRefunded x)) by (simpl; by rewrite Hl, Htx).
    apply seen_push; [done|]. simpl. by rewrite Hl.
  - done.
Qed.

Lemma omap_cons_list {A B} (f : A -> option B) x l : omap f (x :: l) = option_to_list (f x) ++ omap f l.
Proof. simpl. by destruct (f x). Qed.

Lemma parse_transactions_seen (self : TraceParser) txs st st' calls paid others :
  seen st calls paid others -> parse_transactions self txs st = Done (Ok st') ->
  seen st' (calls ++ omap (call_view self) txs) (paid ++ omap (credit_view self) txs)
    (others ++ omap (other_view self) txs).
Proof.
  revert st calls paid others. induction txs as [|tx txs IH]; intros st calls paid others Hs; cbn [parse_transactions].
  - intros [= <-]. by rewrite !app_nil_r.
  - destruct (parse_transaction self tx st) as [[st1|e]|why] eqn:E1; [|done..]. cbn [obind]. intros H.
    eapply parse_transaction_seen in E1; [|exact Hs]. specialize (IH _ _ _ _ E1 H).
    rewrite <- !app_assoc in IH. by rewrite !omap_cons_list.
Qed.

Lemma create_parsers_seen (self : TraceParser) trace st :
  create_parsers self trace = Done (Ok st) ->
  seen st (omap (call_view self) (transactions trace)) (omap (credit_view self) (transactions trace))
    (option_to_list (insufficient_view self trace) ++ omap (other_view self) (transactions trace)).
Proof.
  unfold create_parsers, insufficient_view.
  assert (H0 : seen (mkParsers [] [] [] 0) [] [] []).
  { split; simpl; [constructor|split; [constructor|done]|done|done]. }
  destruct (insufficient_is_match _) eqn:Em.
  - destruct (insufficient_parse _) as [[p|e]|why] eqn:Ep; [|done..]. cbn [obind]. intros H.
    assert (Hg : exists l, gas_log p = Some l /\ gas_trace p = trace).
    { revert Ep. unfold insufficient_parse. cbn [gas_log gas_trace].
      destruct (transactions trace !! 0%nat); [|done]. destruct (out_body _ _); [|done].
      destruct (wrapped_from_boc_b64 _) as [[l|e]|]; [|done..]. intros [= <-]. by exists l. }
    destruct Hg as (l & Hl & Ht). rewrite Hl. cbn [fmap option_fmap option_map option_to_list].
    change (omap (call_view self) (transactions trace)) with ([] ++ omap (call_view self) (transactions trace)).
    change (omap (credit_view self) (transactions trace)) with ([] ++ omap (credit_view self) (transactions trace)).
    eapply parse_transactions_seen; [|exact H].
    change (?x :: []) with ([] ++ [x]).
    replace (_, _, wrapped_message_id l) with (any_label (ExecuteInsufficientGas p)) by (simpl; by rewrite Hl, Ht).
    by apply seen_push.
  - cbn [obind option_to_list]. intros H. by apply (parse_transactions_seen self _ _ _ [] [] [] H0 H).
Qed.
End views.

(** ** The events *)

Section events.
Context {L : TonLib} {CL : CellLib} {C : Codecs} {DL : DecimalLib} {W : Type} {RN : Rfc3339Now W}
  {PV : PriceViewTrait W}.

(** [ret r] followed by the rest. *)
Lemma returns_ret_ok {A B E} (P : B -> Prop) (r : result A E) (k : A -> M W (result B E)) :
  (forall a, r = Ok a -> returns P (k a)) -> returns P (bind_ok (ret r) k).
Proof.
  intros H. apply (returns_bind_ok (fun a => r = Ok a)); [by apply returns_pure|done].
Qed.

Ltac event_steps :=
  repeat first
    [ apply returns_ok; simpl
    | apply returns_err
    | apply returns_ret_ok; intros ? ?
    | apply returns_bind; intros ? ].

Lemma credit_event_label tx m refund payment :
  returns (fun e => label e = ("GAS_CREDIT", hash tx +:+ "-gas", m) /\ named e) (credit_event (W := W) tx m refund payment).
Proof. unfold credit_event. by event_steps. Qed.

Lemma the_log_ok {T} (p : TxParser T) l : the_log p = Ok l -> log p = Some l.
Proof. unfold the_log. destruct (log p); simpl; congruence. Qed.

Lemma call_event_label (p : TxParser CallContractMessage) chain :
  returns (fun e => label e = ("CALL", hash (parser_tx p), message_id_of (hash (parser_tx p))) /\ named e) (call_event (W := W) p chain).
Proof.
  unfold call_event. cbv zeta. apply returns_ret_ok; intros l Hl. apply returns_ret_ok; intros id Hid.
  unfold call_message_id, message_id_of in *. destruct (hash_to_message_id _) as [i|[e]]; [|done]. injection Hid as <-.
  by event_steps.
Qed.

Lemma any_event_label (p : AnyParser) :
  returns (fun e => label e = any_label p /\ named e) (any_event (W := W) p None).
Proof.
  destruct p as [p|p|p|p|p|p|p|p]; cbn [any_event any_label].
  - unfold insufficient_event. apply returns_pure. intros e. destruct (gas_log p); [|done]. by intros [= <-].
  - unfold executed_event. apply returns_ret_ok; intros l ->%the_log_ok. by event_steps.
  - unfold approved_event. apply returns_ret_ok; intros l ->%the_log_ok. by event_steps.
  - apply returns_err.
  - unfold native_added_event, native_added_message_id. apply returns_ret_ok; intros l Hl. rewrite Hl.
    apply the_log_ok in Hl as ->. cbn [rbind]. apply returns_ret_ok; intros id [= <-]. apply credit_event_label.
  - unfold jetton_added_event, jetton_added_message_id. apply returns_ret_ok; intros l Hl. rewrite Hl.
    apply the_log_ok in Hl as ->. cbn [rbind]. apply returns_ret_ok; intros id [= <-]. apply credit_event_label.
  - apply returns_err.
  - unfold refunded_event, refunded_message_id. apply returns_ret_ok; intros l ->%the_log_ok. by event_steps.
Qed.

Lemma paid_event_label (p : AnyParser) h m : is_paid p h ->
  returns (fun e => label e = ("GAS_CREDIT", h +:+ "-gas", m) /\ named e) (any_event (W := W) p (Some m)).
Proof.
  destruct p as [p|p|p|p|p|p|p|p]; simpl; try done; intros <-.
  - unfold native_paid_event. apply returns_ret_ok; intros l _. apply credit_event_label.
  - unfold jetton_paid_event. apply returns_ret_ok; intros l _. apply credit_event_label.
Qed.

Lemma parser_events_labels ps :
  returns (fun es => map label es = map any_label ps /\ Forall named es) (parser_events (W := W) ps).
Proof.
  induction ps as [|p ps IH]; simpl; [by apply returns_ok|].
  eapply returns_bind_ok; [apply any_event_label|]. intros e [He Hne].
  eapply returns_bind_ok; [exact IH|]. intros es [Hes Hns]. apply returns_ok. simpl. rewrite He, Hes. by split; [|constructor].
Qed.

(** The payments that are still waiting once some keys are used up. *)
Definition waiting (used : list MessageMatchingKey) (m : list (MessageMatchingKey * AnyParser))
    (paid : list (MessageMatchingKey * string)) : Prop :=
  NoDup (map fst m) /\
  forall k, match last_with k m with
            | Some p => (k ∉ used) /\ exists h, last_with k paid = Some h /\ is_paid p h
            | None => (k ∈ used) \/ last_with k paid = None
            end.

Lemma call_events_labels chain calls views used m paid :
  Forall2 is_call calls views -> waiting used m paid ->
  returns (fun es => map label es = paired used views paid /\ Forall named es) (call_events (W := W) chain calls m).
Proof.
  intros Hc. revert used m. induction Hc as [|cc [k h] calls views [Hk Hh] Hc IH]; intros used m [Hn Hm];
    cbn [call_events paired]; [by apply returns_ok|].
  simpl in Hk, Hh. apply returns_ret_ok; intros k' Hk'. rewrite Hk in Hk'. injection Hk' as ->.
  eapply returns_bind_ok; [apply call_event_label|]. intros e [He Hen]. rewrite Hh in He.
  pose proof (credit_remove_spec k' m Hn) as Hr. destruct (credit_remove k' m) as [found m'].
  destruct Hr as (-> & Hn' & _ & Hf).
  assert (Hw : waiting (k' :: used) m' paid).
  { split; [done|]. intros k1. rewrite Hf. destruct (decide (k' = k1)) as [<-|Hne]; [left; by left|].
    specialize (Hm k1). destruct (last_with k1 m) as [p|].
    - destruct Hm as [Hu Hm]. split; [|done]. rewrite not_elem_of_cons. split; [congruence|done].
    - destruct Hm as [Hu|Hm]; [left; by right|by right]. }
  specialize (Hm k'). destruct (last_with k' m) as [p|].
  - destruct Hm as (Hu & paid_h & Hl & Hp). rewrite decide_False by done. rewrite Hl.
    apply returns_ret_ok; intros mid Hmid. apply returns_ret_ok; intros id Hid.
    assert (Hid' : id = message_id_of h).
    { unfold call_message_id in Hmid. rewrite Hh in Hmid. unfold message_id_of.
      destruct (hash_to_message_id h) as [i|[er]]; [|done]. injection Hmid as <-. by injection Hid as <-. }
    eapply returns_bind_ok; [by apply (paid_event_label p paid_h id)|]. intros ce [Hce Hnce].
    eapply returns_bind_ok; [by apply (IH _ _ Hw)|]. intros es [Hes Hns]. apply returns_ok. simpl.
    rewrite He, Hce, Hes, Hid'. split; [done|]. by do 2 (constructor; [done|]).
  - eapply returns_bind_ok; [by apply (IH _ _ Hw)|]. intros es [Hes Hns]. apply returns_ok. simpl. rewrite He, Hes. split; [|by constructor].
    destruct (decide (k' ∈ used)) as [|Hu]; [done|]. destruct Hm as [Hu'|Hm]; [done|by rewrite Hm].
Qed.

(** What an event is charged. *)
Definition charged (total refund approved : Z) (e : Event) : Prop :=
  match e with
  | GasCredit _ _ _ payment => token_id payment = None
  | MessageApproved _ _ cost => approved <> 0 /\ amount cost = print_u64 (total / approved)
  | MessageExecuted _ _ _ _ cost => amount cost = print_u64 total
  | GasRefunded _ _ _ _ cost => amount cost = print_u64 refund
  | _ => True
  end.

Lemma with_cost_label total refund approved e :
  named e -> returns (fun e' => label e' = label e /\ named e' /\ charged total refund approved e')
    (with_cost (W := W) total refund approved e).
Proof.
  intros He. destruct e; cbn [with_cost]; try by apply returns_ok.
  - destruct (token_id payment) as [t|] eqn:Ht; [|by apply returns_ok].
    apply returns_ret_ok; intros v _. eapply returns_bind_ok; [apply returns_any|]. intros x _. by apply returns_ok.
  - unfold div_u64. destruct (Z.eqb_spec approved 0); [apply returns_panic|]. by apply returns_ok.
Qed.

Lemma with_costs_labels total refund approved es :
  Forall named es ->
  returns (fun es' => map label es' = map label es /\ Forall named es' /\ Forall (charged total refund approved) es')
    (with_costs (W := W) total refund approved es).
Proof.
  induction 1 as [|e es Hn Hns IH]; simpl; [by apply returns_ok|].
  eapply returns_bind_ok; [by apply with_cost_label|]. intros e' (He & Hne & Hc).
  eapply returns_bind_ok; [exact IH|]. intros es' (Hes & Hnes & Hcs). apply returns_ok. simpl. rewrite He, Hes.
  split; [done|]. by split; constructor.
Qed.

Lemma payments_waiting m paid : payments m paid -> waiting [] m paid.
Proof.
  intros [Hn Hm]. split; [done|]. intros k. specialize (Hm k). destruct (last_with k m); [|by right].
  split; [|done]. apply not_elem_of_nil.
Qed.

(** All that comes before the costs: the gas of the trace and of its refund,
    the number of approvals counted, and the events. *)
Definition uncosted (self : TraceParser) (trace : Trace) : M W (result (Z * Z * Z * list Event) TransactionParsingError) :=
  let? gas := ret (trace_gas_used self trace) in
  let? st := now_or_panic (create_parsers self trace) in
  let? calls := call_events (parser_chain_name self) (call_contract st) (gas_credit_map st) in
  let? others := parser_events (parsers st) in
  ret (Ok (fst gas, snd gas, message_approved_count st, calls ++ others)).

Lemma parse_uncosted (self : TraceParser) (trace : Trace) (w : W) :
  ton_parse_trace self trace w =
    (let? u := uncosted self trace in
     let '(total, refund, approved, es) := u in with_costs total refund approved es) w.
Proof.
  unfold ton_parse_trace, uncosted. rewrite !bind_ok_run. cbn [ret].
  destruct (trace_gas_used self trace) as [[total refund]|e]; [|done]. rewrite !bind_ok_run.
  destruct (now_or_panic (create_parsers self trace) w) as [[[st|e]|why] w0]; [|done..]. rewrite !bind_ok_run.
  destruct (call_events _ _ _ w0) as [[[calls|e]|why] w1]; [|done..]. rewrite !bind_ok_run.
  by destruct (parser_events (parsers st) w1) as [[[others|e]|why] w2].
Qed.

Lemma uncosted_run (self : TraceParser) (trace : Trace) (w w' : W) total refund approved es :
  uncosted self trace w = (Done (Ok (total, refund, approved, es)), w') ->
  trace_gas_used self trace = Ok (total, refund) /\
  (exists st, create_parsers self trace = Done (Ok st) /\ approved = message_approved_count st) /\
  map label es = trace_labels self trace /\ Forall named es.
Proof.
  unfold uncosted. rewrite bind_ok_run. cbn [ret].
  destruct (trace_gas_used self trace) as [[total0 refund0]|e] eqn:Eg; [|done].
  rewrite bind_ok_run. destruct (create_parsers self trace) as [[st|e]|why] eqn:Es; [|done..]. cbn [now_or_panic ret fst snd].
  intros H. pose proof (create_parsers_seen self trace st Es) as [Hc Hp Ho Ha].
  apply bind_ok_inv in H as (ces & w1 & Hce & H). apply bind_ok_inv in H as (oes & w2 & Hoe & [= <- <- <- <- _]).
  split; [done|]. split; [by exists st|].
  edestruct call_events_labels as [Hces Hnc]; [exact Hc|by apply payments_waiting|exact Hce|].
  edestruct parser_events_labels as [Hoes Hno]; [exact Hoe|]. split; [|by apply Forall_app].
  unfold trace_labels. by rewrite map_app, Hces, Hoes, Ho.
Qed.

Lemma parse_trace_run (self : TraceParser) (trace : Trace) (w w' : W) events :
  ton_parse_trace self trace w = (Done (Ok events), w') ->
  exists total refund st, trace_gas_used self trace = Ok (total, refund) /\
    create_parsers self trace = Done (Ok st) /\
    map label events = trace_labels self trace /\ Forall named events /\
    Forall (charged total refund (message_approved_count st)) events.
Proof.
  rewrite parse_uncosted. intros H. apply bind_ok_inv in H as ([[[total refund] n] es] & w1 & Hu & H).
  destruct (uncosted_run _ _ _ _ _ _ _ _ Hu) as (Hg & (st & Hs & ->) & Hl & Hn).
  destruct (with_costs_labels _ _ _ _ Hn _ _ _ H) as (Hl2 & Hn2 & Hc).
  exists total, refund, st. by rewrite Hl2.
Qed.

(** C8: which events a trace stands for.  The calls of the gateway come
    first, each under the id of its transaction and followed by the gas payment
    it is paired with; then the message that could not be executed for lack
    of gas; then executions, approvals, added gas and refunds, one per
    transaction, in order.  A payment that no call asks for, a payment
    overwritten by a later one with the same key, and the payment of a second
    call with the same key stand for nothing. *)
Theorem trace_events (self : TraceParser) (trace : Trace) (w w' : W) (events : list Event) :
  ton_parse_trace self trace w = (Done (Ok events), w') ->
  map label events = trace_labels self trace.
Proof. intros H. by apply parse_trace_run in H as (total & refund & st & _ & _ & Hl & _). Qed.

(** ** Costs *)

Definition is_approved (e : Event) : bool := match e with MessageApproved _ _ _ => true | _ => false end.

Lemma approvals_events events : Forall named events ->
  approvals (map label events) = Z.of_nat (length (List.filter is_approved events)).
Proof.
  unfold approvals. induction 1 as [|e events Hn Hns IH]; [done|].
  cbn [map List.filter]. unfold named in Hn. destruct (decide ((label e).1.1 = APPROVED)) as [Ha|Ha].
  - rewrite filter_cons_True by done. rewrite Hn in Ha. destruct e; try done. cbn [is_approved length].
    rewrite !Nat2Z.inj_succ. by f_equal.
  - rewrite filter_cons_False by done. rewrite Hn in Ha. by destruct e.
Qed.

Lemma approvals_paired used calls paid : approvals (paired used calls paid) = 0.
Proof.
  revert used. induction calls as [|[k h] calls IH]; intros used; [done|]. cbn [paired].
  change (?x :: ?l) with ([x] ++ l). rewrite !approvals_app, IH.
  destruct (decide (k ∈ used)); [done|]. by destruct (last_with k paid).
Qed.

Lemma approvals_bound l : 0 <= approvals l <= Z.of_nat (length l).
Proof.
  unfold approvals. split; [lia|]. apply inj_le.
  induction l as [|x l IH]; [done|]. destruct (decide (x.1.1 = APPROVED)).
  - rewrite filter_cons_True by done. simpl. by apply le_n_S.
  - rewrite filter_cons_False by done. simpl. by apply Nat.le_le_succ_r.
Qed.

Lemma omap_length {A B} (f : A -> option B) l : (length (omap f l) <= length l)%nat.
Proof.
  induction l as [|x l IH]; [done|]. rewrite omap_cons_list, length_app.
  destruct (f x); simpl; [by apply le_n_S|by apply Nat.le_le_succ_r].
Qed.

Lemma approvals_insufficient self trace : approvals (option_to_list (insufficient_view self trace)) = 0.
Proof.
  unfold insufficient_view. destruct (insufficient_is_match _); [|done].
  destruct (insufficient_parse _) as [[p|]|]; [|done..]. by destruct (gas_log p).
Qed.

(** The counter is the number of approvals, below 2^64. *)
Lemma approved_count (self : TraceParser) trace st :
  Z.of_nat (length (transactions trace)) <= MAX_U64 -> create_parsers self trace = Done (Ok st) ->
  message_approved_count st = approvals (trace_labels self trace).
Proof.
  intros Hl Hs%create_parsers_seen. rewrite (seen_approved _ _ _ _ Hs). unfold trace_labels.
  rewrite !approvals_app, approvals_paired, approvals_insufficient, !Z.add_0_l.
  apply wrap_small. pose proof (approvals_bound (omap (other_view self) (transactions trace))).
  pose proof (omap_length (other_view self) (transactions trace)). unfold MAX_U64 in Hl. lia.
Qed.

Lemma gas_used_range self trace total refund :
  trace_gas_used self trace = Ok (total, refund) -> 0 <= total <= MAX_U64.
Proof.
  unfold trace_gas_used, calc_message_gas. destruct (cost _ _) as [c|]; [|done]. cbn [rbind rmap_err].
  destruct (calc_message_gas_native_gas_refunded _ _); [|done]. cbn. intros [= <- _].
  destruct (0 <? c); [|unfold MAX_U64; lia]. pose proof (wrap_range 64 c). unfold wrap_u64, MAX_U64. lia.
Qed.

Definition approved_cost (e : Event) : Z :=
  match e with MessageApproved _ _ cost => default 0 (parse_u64 (amount cost)) | _ => 0 end.

Lemma approved_costs total refund n events :
  0 <= total <= MAX_U64 -> 0 <= n -> Forall (charged total refund n) events ->
  sum_list approved_cost events = Z.of_nat (length (List.filter is_approved events)) * (total / n).
Proof.
  intros Ht Hn. induction 1 as [|e events Hc Hcs IH]; [done|]. unfold sum_list in *. cbn [foldr List.filter]. rewrite IH.
  destruct e; cbn [is_approved approved_cost]; try lia. destruct Hc as [H0 ->].
  assert (Hd : 0 <= total / n <= MAX_U64).
  { split; [apply Z.div_pos; lia|]. transitivity total; [|lia]. apply Z.div_le_upper_bound; [lia|].
    rewrite <- (Z.mul_1_l total) at 1. apply Z.mul_le_mono_nonneg_r; lia. }
  rewrite parse_u64_print by done. cbn [default length id from_option]. rewrite Nat2Z.inj_succ. unfold Datatypes.id. lia.
Qed.

(** Gas paid in a jetton: the only event whose cost can fail to be made. *)
Definition jetton_credit (e : Event) : bool :=
  match e with GasCredit _ _ _ payment => bool_decide (is_Some (token_id payment)) | _ => false end.

(** The conversion of the payment of this event panics, in this world. *)
Definition conversion_panics (e : Event) (why : string) (w w' : W) : Prop :=
  match e with
  | GasCredit _ _ _ payment => exists token value, token_id payment = Some token /\
      biguint_from_str (amount payment) = Ok value /\ convert_jetton_to_native token value w = (Panic why, w')
  | _ => False
  end.

(** Charging the events panics in the conversion of a payment, when those
    before it were charged. *)
Definition charging_panics (total refund n : Z) (es : list Event) (why : string) (w w' : W) : Prop :=
  exists pre e post charged_pre w1, es = pre ++ e :: post /\
    with_costs total refund n pre w = (Done (Ok charged_pre), w1) /\ conversion_panics e why w1 w'.

Lemma cost_panics total refund n e w why w' :
  (is_approved e = true -> n <> 0) -> with_cost (W := W) total refund n e w = (Panic why, w') -> conversion_panics e why w w'.
Proof.
  intros Hn. destruct e; simpl; try done.
  - destruct (token_id payment) as [token|] eqn:Ht; [|done]. rewrite bind_ok_run. cbn [ret].
    destruct (biguint_from_str (amount payment)) as [value|e] eqn:Ev; [|done]. cbn [rmap_err]. rewrite bind_ok_run, map_err_run.
    destruct (convert_jetton_to_native token value w) as [[[v|e]|why2] w2] eqn:Ec; [done..|]. intros [= -> ->].
    by exists token, value.
  - unfold div_u64. destruct (Z.eqb_spec n 0); [by destruct (Hn eq_refl)|done].
Qed.

Lemma costs_panic total refund n es w why w' :
  ((exists e, e ∈ es /\ is_approved e = true) -> n <> 0) ->
  with_costs (W := W) total refund n es w = (Panic why, w') -> charging_panics total refund n es why w w'.
Proof.
  revert w. induction es as [|e es IH]; intros w Hn; [done|]. cbn [with_costs]. rewrite bind_ok_run.
  destruct (with_cost total refund n e w) as [[[e'|x]|why2] w1] eqn:E1; [|done|].
  - rewrite bind_ok_run. destruct (with_costs total refund n es w1) as [[[es'|x]|why2] w2] eqn:E2; [done..|]. intros [= -> ->].
    destruct (IH w1) as (pre & e0 & post & cpre & w3 & -> & Hp & Hc); [|exact E2|].
    { intros (e0 & Hin & He). apply Hn. exists e0. split; [by right|done]. }
    exists (e :: pre), e0, post, (e' :: cpre), w3. split; [done|]. split; [|done]. cbn [with_costs].
    by rewrite bind_ok_run, E1, bind_ok_run, Hp.
  - intros [= -> ->]. exists [], e, es, [], w. split; [done|]. split; [done|]. eapply cost_panics; [|exact E1].
    intros He. apply Hn. exists e. split; [by left|done].
Qed.

Lemma costs_succeed total refund n es w :
  ((exists e, e ∈ es /\ is_approved e = true) -> n <> 0) -> Forall (fun e => jetton_credit e = false) es ->
  exists events, with_costs (W := W) total refund n es w = (Done (Ok events), w).
Proof.
  intros Hn Hj. induction Hj as [|e es He Hes IH]; [by exists []|]. cbn [with_costs]. rewrite bind_ok_run.
  assert (H1 : exists e', with_cost (W := W) total refund n e w = (Done (Ok e'), w)).
  { destruct e; simpl in *; try by eexists.
    - destruct (token_id payment); [|by eexists]. discriminate He.
    - unfold div_u64. destruct (Z.eqb_spec n 0) as [H0|]; [|by eexists]. exfalso. apply Hn; [|exact H0]. eexists. split; [by left|done]. }
  destruct H1 as [e' ->]. rewrite bind_ok_run. destruct IH as [events ->]; [|by eexists].
  intros (e0 & Hin & Ha). apply Hn. exists e0. split; [by right|done].
Qed.

(** The divisor is the number of approvals. *)
Lemma uncosted_divisor self trace (w w1 : W) total refund n es :
  Z.of_nat (length (transactions trace)) <= MAX_U64 ->
  uncosted self trace w = (Done (Ok (total, refund, n, es)), w1) -> n = Z.of_nat (length (List.filter is_approved es)).
Proof.
  intros Hlen Hu. destruct (uncosted_run _ _ _ _ _ _ _ _ Hu) as (_ & (st & Hs & ->) & Hl & Hn).
  by rewrite (approved_count self trace st Hlen Hs), <- Hl, approvals_events.
Qed.

Lemma uncosted_approved self trace (w w1 : W) total refund n es :
  Z.of_nat (length (transactions trace)) <= MAX_U64 ->
  uncosted self trace w = (Done (Ok (total, refund, n, es)), w1) -> (exists e, e ∈ es /\ is_approved e = true) -> n <> 0.
Proof.
  intros Hlen Hu (e & Hin & He). rewrite (uncosted_divisor _ _ _ _ _ _ _ _ Hlen Hu).
  assert (Hf : In e (List.filter is_approved es)) by (apply List.filter_In; split; [by apply list_elem_of_In|done]).
  destruct (List.filter is_approved es); [done|]. simpl. lia.
Qed.

(** C24: what the events of a trace are charged, and that it can be.  The gas
    a trace has used is shared by its approvals in equal parts, rounded down,
    so that together they are charged the whole but for less than one unit
    each.  Every execution is charged the whole, every refund the gas of the
    refund.  Gas credits are in the native currency.  The division is never by
    zero: once the events are there ([uncosted]), charging them panics only in
    the conversion of a payment in a jetton, and a trace without one gets all
    its events. *)
Theorem trace_costs (self : TraceParser) (trace : Trace) (w : W) :
  Z.of_nat (length (transactions trace)) <= MAX_U64 ->
  (forall events w', ton_parse_trace self trace w = (Done (Ok events), w') ->
     exists total refund, trace_gas_used self trace = Ok (total, refund) /\
       let approved := Z.of_nat (length (List.filter is_approved events)) in
       (forall e, e ∈ events -> charged total refund approved e) /\
       sum_list approved_cost events <= total /\
       (0 < approved -> total < sum_list approved_cost events + approved)) /\
  (forall why w', ton_parse_trace self trace w = (Panic why, w') ->
     fst (uncosted self trace w) = Panic why \/
     exists total refund approved es w1, uncosted self trace w = (Done (Ok (total, refund, approved, es)), w1) /\
       charging_panics total refund approved es why w1 w') /\
  (forall u w1, uncosted self trace w = (Done (Ok u), w1) -> Forall (fun e => jetton_credit e = false) (snd u) ->
     exists events, ton_parse_trace self trace w = (Done (Ok events), w1)).
Proof.
  intros Hlen. split; [|split].
  - intros events w' (total & refund & st & Hg & Hs & Hl & Hn & Hc)%parse_trace_run.
    exists total, refund. split; [done|]. cbv zeta.
    rewrite (approved_count self trace st Hlen Hs), <- Hl, approvals_events in Hc by done.
    set (n := Z.of_nat (length (List.filter is_approved events))) in *. assert (0 <= n) by lia. apply gas_used_range in Hg.
    rewrite (approved_costs total refund n) by done. fold n.
    split; [by apply Forall_forall|]. destruct (decide (n = 0)) as [->|Hne]; [lia|].
    pose proof (Z.div_mod total n Hne). pose proof (Z.mod_pos_bound total n). lia.
  - intros why w'. rewrite parse_uncosted, bind_ok_run.
    destruct (uncosted self trace w) as [[[[[[total refund] n] es]|e]|why2] w1] eqn:Hu; [|done|by intros [= -> _]; left].
    intros Hp. right. exists total, refund, n, es, w1. split; [done|]. apply costs_panic; [by eapply uncosted_approved|done].
  - intros [[[total refund] n] es] w1 Hu Hj. rewrite parse_uncosted, bind_ok_run, Hu.
    apply costs_succeed; [by eapply uncosted_approved|done].
Qed.

(** ** Where events come from *)

(** The logs that stand for an event of a type. *)
Definition logs_of (type : string) : list (Z * nat) :=
  if decide (type = "CALL") then [(OP_CALL_CONTRACT, 0%nat)]
  else if decide (type = "MESSAGE_EXECUTED") then [(OP_NULLIFIED_SUCCESSFULLY, 0%nat); (OP_NULLIFIED_SUCCESSFULLY, 1%nat)]
  else if decide (type = "MESSAGE_APPROVED") then [(OP_MESSAGE_APPROVED, 0%nat)]
  else if decide (type = "GAS_CREDIT") then
    [(OP_PAY_NATIVE_GAS_FOR_CONTRACT_CALL, 0%nat); (OP_PAY_GAS, 0%nat); (OP_ADD_NATIVE_GAS, 0%nat);
     (OP_USER_BALANCE_SUBTRACTED, 0%nat)]
  else if decide (type = "GAS_REFUNDED") then [(OP_NATIVE_REFUND, 1%nat)]
  else [].

Definition contract_of (self : TraceParser) (type : string) : TonAddress :=
  if decide (type ∈ ["CALL"; "MESSAGE_EXECUTED"; "MESSAGE_APPROVED"]) then gateway_address self
  else gas_service_address self.

Definition emitted (self : TraceParser) (type : string) (tx : Transaction) : Prop :=
  account tx = contract_of self type /\
  exists op i, (op, i) ∈ logs_of type /\ is_log_emmitted tx op i = true.

Definition claim_type (c : Claim) : string :=
  match c with
  | ClaimCall => "CALL"
  | ClaimExecuted => "MESSAGE_EXECUTED"
  | ClaimApproved => "MESSAGE_APPROVED"
  | ClaimRefunded => "GAS_REFUNDED"
  | _ => "GAS_CREDIT"
  end.

Ltac contract Hm :=
  match type of Hm with
  | (if negb ?b then _ else _) = _ =>
      let Ha := fresh "Ha" in destruct b eqn:Ha; [cbn [negb] in Hm; apply bool_decide_eq_true in Ha|done]
  end.

Lemma claim_emitted (self : TraceParser) tx c : claim self tx = Some c -> emitted self (claim_type c) tx.
Proof.
  unfold claim, emitted. intros H.
  repeat match type of H with
  | (if ?b then _ else _) = _ => let Hm := fresh "Hm" in destruct b eqn:Hm;
      [injection H as <-; clear - Hm; cbn [claim_type]|clear Hm]
  end; [..|done].
  - unfold call_is_match in Hm. unfold from_us in Hm. contract Hm. split; [exact Ha|].
    eexists _, _. split; [|exact Hm]. by left.
  - unfold executed_is_match, from_us in Hm. contract Hm. split; [exact Ha|]. cbv zeta in Hm.
    destruct (is_log_emmitted (parser_tx (gateway_log self tx)) OP_NULLIFIED_SUCCESSFULLY 0) eqn:H0.
    + exists OP_NULLIFIED_SUCCESSFULLY, 0%nat. split; [by left|exact H0].
    + destruct (is_log_emmitted _ OP_NULLIFIED_SUCCESSFULLY 1) eqn:H1; [|done].
      exists OP_NULLIFIED_SUCCESSFULLY, 1%nat. split; [by right; left|exact H1].
  - unfold approved_is_match, from_us in Hm. contract Hm. split; [exact Ha|].
    eexists _, _. split; [|exact Hm]. by left.
  - unfold native_paid_is_match, from_us in Hm. contract Hm. split; [exact Ha|].
    destruct (is_log_emmitted (parser_tx (gas_service_log self tx)) OP_PAY_NATIVE_GAS_FOR_CONTRACT_CALL 0) eqn:H0.
    + eexists _, _. split; [|exact H0]. by left.
    + eexists _, _. split; [|exact Hm]. by right; left.
  - unfold native_added_is_match, from_us in Hm. contract Hm. split; [exact Ha|].
    eexists _, _. split; [|exact Hm]. by right; right; left.
  - unfold jetton_added_is_match, from_us in Hm.
    destruct (bool_decide _) eqn:Ha; [|done]. apply bool_decide_eq_true in Ha. cbn [negb] in Hm.
    split; [exact Ha|]. destruct (is_log_emmitted _ _ _) eqn:H0; [|done].
    eexists _, _. split; [|exact H0]. by right; right; right; left.
  - unfold jetton_paid_is_match, from_us in Hm.
    destruct (bool_decide _) eqn:Ha; [|done]. apply bool_decide_eq_true in Ha. cbn [negb] in Hm.
    split; [exact Ha|]. destruct (is_log_emmitted _ _ _) eqn:H0; [|done].
    eexists _, _. split; [|exact H0]. by right; right; right; left.
  - unfold refunded_is_match, from_us in Hm. contract Hm. split; [exact Ha|].
    eexists _, _. split; [|exact Hm]. by left.
Qed.

Lemma in_paired used calls paid l : l ∈ paired used calls paid ->
  (exists k h, (k, h) ∈ calls /\ l.1 = ("CALL", h)) \/
  (exists k h, (k, h) ∈ paid /\ l.1 = ("GAS_CREDIT", h +:+ "-gas")).
Proof.
  assert (Hlast : forall k (p : string), last_with k paid = Some p -> exists k', (k', p) ∈ paid).
  { intros k p. clear. induction paid as [|[k1 p1] paid' IH]; [done|]. simpl.
    destruct (last_with k paid') as [q|].
    - intros [= ->]. destruct (IH eq_refl) as [k' Hk]. exists k'. by right.
    - destruct (decide (k1 = k)); [|done]. intros [= ->]. exists k1. by left. }
  revert used. induction calls as [|[k h] calls IH]; intros used; cbn [paired]; [by intros ?%not_elem_of_nil|].
  intros [->|[Hl|Hl]%elem_of_app]%elem_of_cons.
  - left. exists k, h. split; [by left|done].
  - right. destruct (decide (k ∈ used)); [by apply not_elem_of_nil in Hl|].
    destruct (last_with k paid) as [p|] eqn:Ep; [|by apply not_elem_of_nil in Hl].
    apply list_elem_of_singleton in Hl as ->. destruct (Hlast k p Ep) as [k' Hk]. by exists k', p.
  - destruct (IH _ Hl) as [(k1 & h1 & Hin & He)|H]; [left|by right]. exists k1, h1. split; [by right|done].
Qed.

Lemma call_view_emitted self tx k h : call_view self tx = Some (k, h) -> emitted self "CALL" tx /\ h = hash tx.
Proof.
  unfold call_view. destruct (claim self tx) as [[]|] eqn:Ec; try done. apply claim_emitted in Ec.
  destruct (read_log _); [|done]. by intros [= _ <-].
Qed.

Lemma credit_view_emitted self tx k h :
  credit_view self tx = Some (k, h) -> emitted self "GAS_CREDIT" tx /\ h = hash tx.
Proof.
  unfold credit_view. destruct (claim self tx) as [[]|] eqn:Ec; try done; apply claim_emitted in Ec;
    (destruct (read_log _); [|done]); by intros [= _ <-].
Qed.

Definition id_of_tx (tx : Transaction) (id : string) : Prop := id = hash tx \/ id = hash tx +:+ "-gas".

Lemma other_view_emitted self tx l :
  other_view self tx = Some l -> emitted self l.1.1 tx /\ id_of_tx tx l.1.2.
Proof.
  unfold other_view, id_of_tx. destruct (claim self tx) as [[]|] eqn:Ec; try done; apply claim_emitted in Ec;
    (destruct (read_log _); [|done]); intros [= <-]; split; try exact Ec; simpl; auto.
Qed.

(** C18: no event out of thin air.  Every event, except the report of a
    message that could not be executed, comes from a transaction of the
    gateway (calls, executions, approvals) or of the gas service (payments and
    refunds) that received the operation the event stands for and emitted a
    message to the outside, and is published under the id of that
    transaction. *)
Theorem events_authentic (self : TraceParser) (trace : Trace) (w w' : W) (events : list Event) (e : Event) :
  ton_parse_trace self trace w = (Done (Ok events), w') -> e ∈ events ->
  (type_name e = "CANNOT_EXECUTE_MESSAGE/V2" /\
   insufficient_is_match (mkInsufficient None trace (gateway_address self)) = true) \/
  exists tx, tx ∈ transactions trace /\ emitted self (type_name e) tx /\ id_of_tx tx (label e).1.2.
Proof.
  intros (total & refund & st & _ & _ & Hl & Hn & _)%parse_trace_run He.
  rewrite Forall_forall in Hn. specialize (Hn e He). unfold named in Hn. rewrite <- Hn.
  apply (list_elem_of_fmap_2 label) in He. change (label <$> events) with (map label events) in He. rewrite Hl in He.
  unfold trace_labels in He. rewrite !elem_of_app in He. destruct He as [He|[He|He]].
  - right. apply in_paired in He as [(k & h & Hin & ->)|(k & h & Hin & ->)];
      apply list_elem_of_omap in Hin as (tx & Htx & Hv); exists tx; unfold id_of_tx; simpl.
    + apply call_view_emitted in Hv as [? ->]. auto.
    + apply credit_view_emitted in Hv as [? ->]. auto.
  - left. unfold insufficient_view in He. destruct (insufficient_is_match _) eqn:Em; [|by apply not_elem_of_nil in He].
    split; [|done]. destruct (insufficient_parse _) as [[p|]|]; [|by apply not_elem_of_nil in He..].
    destruct (gas_log p); [|by apply not_elem_of_nil in He].
    by apply list_elem_of_singleton in He as ->.
  - right. apply list_elem_of_omap in He as (tx & Htx & Hv). exists tx. split; [done|]. by apply other_view_emitted.
Qed.

(** ** Messages that could not be executed *)

(** A transaction that sends nothing to the outside. *)
Definition silent (tx : Transaction) : Prop := forall m, m ∈ out_msgs tx -> is_Some (destination m).

Lemma silent_no_log tx op i : silent tx -> is_log_emmitted tx op i = false.
Proof.
  intros Hs. unfold is_log_emmitted. destruct (in_msg tx) as [m|]; [|done]. destruct (opcode m) as [o|]; [|done].
  destruct (o =? op); [|done]. destruct (out_msgs tx !! i) as [msg|] eqn:E; [|done].
  rewrite bool_decide_eq_true_2; [done|]. apply Hs. by eapply list_elem_of_lookup_2.
Qed.

Lemma parse_silent (self : TraceParser) tx st : silent tx -> parse_transaction self tx st = Done (Ok st).
Proof.
  intros Hs. unfold parse_transaction, offer, sure, call_is_match, executed_is_match, approved_is_match,
    native_paid_is_match, native_added_is_match, jetton_added_is_match, jetton_paid_is_match, refunded_is_match.
  cbv zeta. cbn [parser_tx]. rewrite !silent_no_log by done. by destruct (from_us _), (from_us _).
Qed.

Lemma parse_all_silent (self : TraceParser) txs st :
  (forall tx, tx ∈ txs -> silent tx) -> parse_transactions self txs st = Done (Ok st).
Proof.
  intros H. induction txs as [|tx txs IH]; [done|]. cbn [parse_transactions].
  rewrite parse_silent by (apply H; by left). cbn [obind]. apply IH. intros t Ht. apply H. by right.
Qed.

Lemma gas_used_ok (self : TraceParser) trace : exists total refund, trace_gas_used self trace = Ok (total, refund).
Proof.
  unfold trace_gas_used, calc_message_gas, calc_message_gas_native_gas_refunded, cost. cbn [rbind rmap_err].
  destruct (transactions trace !! 2%nat) as [tx|]; [|by eexists _, _].
  destruct (out_msgs tx); by eexists _, _.
Qed.

(** A report anybody can cause.  A trace of five transactions that
    emits no log at all, whoever its accounts belong to, stands for a message
    that could not be executed for lack of gas as soon as its last transaction
    failed in its action phase with code 37 on the operation code of a
    successful execution: the message id and the source chain are what the first
    transaction sent along.  When the first transaction sent nothing, the ingestor
    panics. *)
Theorem insufficient_gas_from_anyone (self : TraceParser) (trace : Trace) (tx0 : Transaction) (w : W) :
  failed_in_action (transactions trace) = true -> transactions trace !! 0%nat = Some tx0 ->
  (forall tx, tx ∈ transactions trace -> silent tx) ->
  (forall body log, out_body tx0 0 = Done body -> wrapped_from_boc_b64 body = Done (Ok log) ->
     ton_parse_trace self trace w =
       (Done (Ok [CannotExecuteMessageV2
          (mkCommonEvent "CANNOT_EXECUTE_MESSAGE/V2" ("cannot-execute-task-v2-" +:+ print_Z (end_lt trace)) None)
          (wrapped_message_id log) (wrapped_source_chain log) InsufficientGas (trace_id trace)]), w)) /\
  (out_msgs tx0 = [] -> ton_parse_trace self trace w = (Panic "index out of bounds", w)).
Proof.
  intros Hf H0 Hsilent. destruct (gas_used_ok self trace) as (total & refund & Hg).
  assert (Hm : insufficient_is_match (mkInsufficient None trace (gateway_address self)) = true).
  { unfold insufficient_is_match. cbn [gas_trace]. by destruct (rejected_by_gateway _ _). }
  split.
  - intros b l Hb Hl. unfold ton_parse_trace, create_parsers. rewrite bind_ok_run. cbn [ret]. rewrite Hg, Hm.
    unfold insufficient_parse. cbn [gas_log gas_trace]. rewrite H0, Hb, Hl. cbn [boc_error rmap_err obind].
    by rewrite parse_all_silent.
  - intros Ho. unfold ton_parse_trace, create_parsers. rewrite bind_ok_run. cbn [ret]. rewrite Hg, Hm.
    unfold insufficient_parse. cbn [gas_log gas_trace]. rewrite H0. unfold out_body. by rewrite Ho.
Qed.
End events.

(** ** Concrete traces *)

Module ParserDemo.
Export CellDemo.
#[export] Instance now {W} : Rfc3339Now W := {| now_rfc3339 := ret "2025-01-01T00:00:00Z" |}.
#[export] Instance decimals : DecimalLib := {|
  Dec := string; dec_one := "1"; dec_to_string := fun s => s; dec_from_str := Ok;
  dec_mul := fun a _ => Done a; dec_div := fun a _ => Done a; dec_round := fun a => a;
|}.
#[export] Instance prices : PriceViewTrait unit := {| pv_get_price := fun _ => ret (Ok "1") |}.
#[export] Instance codecs : Codecs := text_codecs.

Definition content : MessageContent := mkContent "h" "body" None.
Definition message_to (dest : option TonAddress) (op : option Z) (val : option string) : TransactionMessage :=
  mkTxMessage "m" None dest val None None None None None op None None None None content None.
Definition no_state : AccountStateBalance := mkStateBalance "s" None None None None None None.
Definition describe (act : option Action) : TransactionDescription :=
  mkDescription "ord" false false false (mkStorage "0" "unchanged") None None act.
Definition failed (code : Z) : Action :=
  mkAction (Some false) true false "unchanged" None None code 1 0 0 0 "" (mkSize "0" "0").
Definition tx_of (who : TonAddress) (h : string) (op : Z) (out : list TransactionMessage) (act : option Action) : Transaction :=
  mkTransaction who h 1 1 1 "t" "p" "0" "active" "active" 10 (mkExtra []) (describe act) (mkBlockRef 0 "" 0)
    (Some (message_to (Some who) (Some op) None)) out no_state no_state false.
Definition trace_of (txs : list Transaction) : Trace := mkTrace false 1 7 "t" txs.
Definition self : @TraceParser ton := mkTraceParser "G"%char "S"%char (mkGasCalculator ["G"%char]) "ton2".
Definition text_cell (s : string) : MCell := match buffer_to_cell (CL := MessageDemo.plain) s with Done (Ok c) => c | _ => mcell [] [] end.
(** The log of an approved message. *)
Definition approval : MCell :=
  mcell [] [text_cell "id1"; text_cell "avalanche"; text_cell "0xd7"; mcell (to_bits 256 7) [text_cell "A"; text_cell "ton2"]].
Definition reads (c : MCell) : CellLib := cells (fun _ => Ok c).
Definition log : TransactionMessage := message_to None None None.
Definition approving : list Transaction :=
  [tx_of "G"%char "h1" OP_MESSAGE_APPROVED [log] None; tx_of "U"%char "h2" 1 [] None;
   tx_of "G"%char "h3" OP_MESSAGE_APPROVED [log] None].
Definition forged : list Transaction :=
  [tx_of "U"%char "u0" 1 [message_to (Some "V"%char) None None] None;
   tx_of "V"%char "u1" 1 [] None; tx_of "V"%char "u2" 1 [] None; tx_of "V"%char "u3" 1 [] None;
   tx_of "V"%char "u4" OP_NULLIFIED_SUCCESSFULLY [] (Some (failed 37))].
(** Two calls with the same key, and two payments for it. *)
Definition calling : MCell :=
  mcell (byte_field 267 "A" ++ to_bits 256 7) [text_cell "avalanche"; text_cell "0xd7"; text_cell "Hello"].
Definition paying : MCell :=
  mcell (byte_field 267 "A" ++ to_bits 256 7 ++ to_bits 256 100)
    [mcell (byte_field 267 "R") []; text_cell "avalanche"; text_cell "0xd7"].
Definition bodies : CellLib := cells (fun s => if decide (s = "call") then Ok calling else Ok paying).
Definition log_of (b : string) : TransactionMessage :=
  mkTxMessage "m" None None None None None None None None None None None None None (mkContent "h" b None) None.
Definition paid_trace : list Transaction :=
  [tx_of "G"%char "c1" OP_CALL_CONTRACT [log_of "call"] None; tx_of "S"%char "p1" OP_PAY_GAS [log_of "pay"] None;
   tx_of "S"%char "p2" OP_PAY_GAS [log_of "pay"] None; tx_of "G"%char "c2" OP_CALL_CONTRACT [log_of "call"] None].
Definition events_of (cl : CellLib) (txs : list Transaction) : list Event :=
  match ton_parse_trace (CL := cl) self (trace_of txs) tt with (Done (Ok es), _) => es | _ => [] end.
End ParserDemo.
Import ParserDemo.

(** The first payment is lost, and so is the one of the second call. *)
Lemma trace_events_witness :
  map label (events_of bodies paid_trace) =
    [("CALL", "c1", "0xc1"); ("GAS_CREDIT", "p2-gas", "0xc1"); ("CALL", "c2", "0xc2")].
Proof.
  transitivity (trace_labels (CL := bodies) self (trace_of paid_trace)).
  - apply (trace_events (CL := bodies) self (trace_of paid_trace) tt tt). vm_compute. reflexivity.
  - vm_compute. reflexivity.
Defined.

Lemma trace_costs_witness :
  (exists events w', ton_parse_trace (CL := reads approval) self (trace_of approving) tt = (Done (Ok events), w') /\
     map type_name events = ["MESSAGE_APPROVED"; "MESSAGE_APPROVED"]) /\
  exists total refund, trace_gas_used self (trace_of approving) = Ok (total, refund) /\
    let events := events_of (reads approval) approving in
    let approved := Z.of_nat (length (List.filter is_approved events)) in
    (forall e, e ∈ events -> charged total refund approved e) /\
    sum_list approved_cost events <= total /\
    (0 < approved -> total < sum_list approved_cost events + approved).
Proof.
  destruct (trace_costs (CL := reads approval) self (trace_of approving) tt ltac:(discriminate)) as (H1 & _ & H3). split.
  - destruct (uncosted (CL := reads approval) self (trace_of approving) tt) as [[[u|e]|why] []] eqn:Eu;
      [|vm_compute in Eu; discriminate Eu..].
    destruct (H3 u tt eq_refl) as [events He]; [vm_compute in Eu; injection Eu as <-; by repeat constructor|].
    exists events, tt. split; [exact He|]. vm_compute in He. injection He as <-. vm_compute. reflexivity.
  - apply (H1 (events_of (reads approval) approving) tt). vm_compute. reflexivity.
Defined.

Lemma events_authentic_witness :
  let e := nth 1 (events_of bodies paid_trace) (CannotExecuteMessageV2 (mkCommonEvent "" "" None) "" "" InsufficientGas "") in
  (type_name e = "CANNOT_EXECUTE_MESSAGE/V2" /\
   insufficient_is_match (mkInsufficient None (trace_of paid_trace) (gateway_address self)) = true) \/
  exists tx, tx ∈ transactions (trace_of paid_trace) /\ emitted self (type_name e) tx /\ id_of_tx tx (label e).1.2.
Proof.
  apply (events_authentic (CL := bodies) self (trace_of paid_trace) tt tt (events_of bodies paid_trace)).
  - vm_compute. reflexivity.
  - vm_compute. right. left.
Defined.

Lemma insufficient_gas_from_anyone_witness :
  ton_parse_trace (CL := reads MessageDemo.root) self (trace_of forged) tt =
    (Done (Ok [CannotExecuteMessageV2 (mkCommonEvent "CANNOT_EXECUTE_MESSAGE/V2" "cannot-execute-task-v2-7" None)
       "0xab-1" "avalanche" InsufficientGas "t"]), tt).
Proof.
  apply (proj1 (insufficient_gas_from_anyone (CL := reads MessageDemo.root) self (trace_of forged)
    (tx_of "U"%char "u0" 1 [message_to (Some "V"%char) None None] None) tt eq_refl eq_refl
    ltac:(intros tx Htx m Hm; repeat (apply elem_of_cons in Htx as [->|Htx]; [simpl in Hm;
      (try by apply not_elem_of_nil in Hm); apply list_elem_of_singleton in Hm as ->; by eexists|]);
      by apply not_elem_of_nil in Htx)) "body" (mkWrapped "0xab-1" "avalanche")); vm_compute; reflexivity.
Defined.
