(* ===== verification/TonTrace.v ===== *)
(** * The table of traces

    [ton/src/models/ton_trace.rs]: the rows of [ton_traces], the upsert that
    tells whether a trace is new, and the rows that are tried again. *)

From stdpp Require Import sorting.
From S2P Require Import Prelude.
From S2P Require Import Store.
From S2P Require Import Text.
From S2P Require Import TonLib.
From S2P Require Import TonTypes.

(** src/ton/src/models/ton_trace.rs:8-13 EventSummary *)
Record EventSummary : Type := mkSummary {
  summary_event_id : string;
  summary_message_id : option string;
  summary_event_type : string;
}.

(** Postgres' comparison of two stored [JSONB] documents. *)
Class Jsonb `{!TonLib} : Type := { jsonb_eq : list Transaction -> list Transaction -> bool }.
Class JsonbLaws `{!TonLib, !Jsonb} : Prop := { jsonb_refl : forall l, jsonb_eq l l = true }.

Section model.
Context {L : TonLib} {J : Jsonb}.

(** src/ton/src/models/ton_trace.rs:15-26 TONTrace *)
Record TONTrace : Type := mkTONTrace {
  row_trace_id : string;
  row_is_incomplete : bool;
  row_start_lt : Z;
  row_end_lt : Z;
  retries : Z;
  row_transactions : list Transaction;
  row_events : option (list EventSummary);
  created_at : Z;
  updated_at : option Z;
}.

(** src/ton/src/models/ton_trace.rs:28-42 TONTrace::from *)
Definition trace_from (now : Z) (trace : Trace) : TONTrace :=
  mkTONTrace (trace_id trace) (is_incomplete trace) (start_lt trace) (end_lt trace) 5
    (transactions trace) None now None.

Abbreviation Rows := (gmap string TONTrace).
Abbreviation TraceDb := (Store Rows).

(** The column default of the table ([migrations/0011_ton_traces.sql]). *)
Definition DEFAULT_RETRIES : Z := 10.

(** [IS DISTINCT FROM] on the four columns the statement compares. *)
Definition distinct (row tx : TONTrace) : bool :=
  negb (bool_decide (row_is_incomplete row = row_is_incomplete tx)) ||
  negb (row_start_lt row =? row_start_lt tx) || negb (row_end_lt row =? row_end_lt tx) ||
  negb (jsonb_eq (row_transactions row) (row_transactions tx)).

Definition upsert_row (now : Z) (tx : TONTrace) (old : option TONTrace) : option TONTrace :=
  match old with
  | None =>
      Some (mkTONTrace (row_trace_id tx) (row_is_incomplete tx) (row_start_lt tx) (row_end_lt tx)
        DEFAULT_RETRIES (row_transactions tx) None now None)
  | Some row =>
      if distinct row tx then
        Some (mkTONTrace (row_trace_id row) (row_is_incomplete tx) (row_start_lt tx) (row_end_lt tx)
          (retries row) (row_transactions tx) (row_events row) (created_at row) (Some now))
      else None
  end.

(** src/ton/src/models/ton_trace.rs:82-111 PgTONTraceModel::upsert_and_return_if_changed *)
Definition pg_upsert_and_return_if_changed (tx : TONTrace) : M TraceDb (result (option TONTrace) string) :=
  sql (fun now t =>
    match upsert_row now tx (t !! row_trace_id tx) with
    | Some row => (Some row, <[row_trace_id tx := row]> t)
    | None => (None, t)
    end).

(** [ORDER BY updated_at NULLS FIRST]. *)
Definition oldest_first (a b : TONTrace) : Prop :=
  match updated_at a, updated_at b with
  | None, _ => True
  | Some _, None => False
  | Some x, Some y => x <= y
  end.
#[export] Instance oldest_first_dec : RelDecision oldest_first.
Proof. intros a b. unfold oldest_first. destruct (updated_at a), (updated_at b); apply _. Defined.

Definition wants_retry (row : TONTrace) : bool := (0 <? retries row) && row_is_incomplete row.

(** src/ton/src/models/ton_trace.rs:115-126 PgTONTraceModel::fetch_retry *)
Definition pg_fetch_retry (limit : nat) : M TraceDb (result (list TONTrace) string) :=
  sql_query (fun _ t =>
    take limit (merge_sort oldest_first (filter wants_retry (snd <$> map_to_list t)))).

Definition one_less (row : TONTrace) : TONTrace :=
  mkTONTrace (row_trace_id row) (row_is_incomplete row) (row_start_lt row) (row_end_lt row)
    (retries row - 1) (row_transactions row) (row_events row) (created_at row) (updated_at row).

(** src/ton/src/models/ton_trace.rs:128-135 PgTONTraceModel::decrease_retry *)
Definition pg_decrease_retry (tx : TONTrace) : M TraceDb (result unit string) :=
  sql_exec (fun _ => alter one_less (row_trace_id tx)).

Definition with_events (now : Z) (events : list EventSummary) (row : TONTrace) : TONTrace :=
  mkTONTrace (row_trace_id row) (row_is_incomplete row) (row_start_lt row) (row_end_lt row)
    (retries row) (row_transactions row) (Some events) (created_at row) (Some now).

(** src/ton/src/models/ton_trace.rs:139-156 PgTONTraceModel::update_events *)
Definition pg_update_events (id : string) (events : list EventSummary) : M TraceDb (result unit string) :=
  sql_exec (fun now => alter (with_events now events) id).

(** src/ton/src/models/ton_trace.rs:160-163 PgTONTraceModel::upsert *)
Definition pg_upsert_trace (tx : TONTrace) : M TraceDb (result unit string) :=
  let? _row := pg_upsert_and_return_if_changed tx in ret (Ok tt).

(** src/ton/src/models/ton_trace.rs:165-172 PgTONTraceModel::find *)
Definition pg_find_trace (id : string) : M TraceDb (result (option TONTrace) string) :=
  sql_query (fun _ t => t !! id).

(** src/ton/src/models/ton_trace.rs:174-182 PgTONTraceModel::delete *)
Definition pg_delete_trace (tx : TONTrace) : M TraceDb (result unit string) :=
  sql_exec (fun _ => delete (row_trace_id tx)).
End model.

(** ** The operations the services use *)

(** src/ton/src/models/ton_trace.rs:56-62 AtomicUpsert *)
Class AtomicUpsert `{!TonLib} (W : Type) : Type := {
  upsert_and_return_if_changed : TONTrace -> M W (result (option TONTrace) string);
}.
(** src/ton/src/models/ton_trace.rs:64-70 Retriable *)
Class Retriable `{!TonLib} (W : Type) : Type := {
  fetch_retry : nat -> M W (result (list TONTrace) string);
  decrease_retry : TONTrace -> M W (result unit string);
}.
(** src/ton/src/models/ton_trace.rs:72-79 UpdateEvents *)
Class UpdateEvents (W : Type) : Type := {
  update_events : string -> list EventSummary -> M W (result unit string);
}.
