(* ===== verification/Subscriber.v ===== *)
(** * The subscribers

    [relayer_base/src/subscriber.rs]: a poller's new transactions are
    published for the ingestor.  [ton/src/subscriber.rs] polls the traces of
    an account from a cursor on; [ton/src/retry_subscriber.rs] asks again for
    the traces that were incomplete. *)

From stdpp Require Import sorting.
From S2P Require Import Prelude.
From S2P Require Import Store.
From S2P Require Import GmpTypes.
From S2P Require Import Text.
From S2P Require Import Database.
From S2P Require Import Queue.
From S2P Require Import TonLib.
From S2P Require Import TonTypes.
From S2P Require Import TonTrace.

(** ** The chain's transactions and the loop over a poller *)

(** [xrpl_api::Transaction]. *)
Class XrplLib : Type := { XrplTransaction : Type }.

(** src/relayer_base/src/subscriber.rs:52-56 ChainTransaction *)
Inductive ChainTransaction `{!XrplLib, !TonLib} : Type :=
| Xrpl (tx : XrplTransaction)
| TON (trace : Trace).

Abbreviation ACCOUNT_QUEUE := "events".

(** src/relayer_base/src/subscriber.rs:27-46 TransactionPoller *)
Class TransactionPoller `{!XrplLib, !TonLib} (Tx Account Poller W : Type) : Type := {
  make_queue_item : Poller -> Tx -> ChainTransaction;
  transaction_id : Poller -> Tx -> option string;
  account_id : Poller -> Account -> option string;
  poll_account : Poller -> Account -> M W (Poller * result (list Tx) string);
  poll_tx : Poller -> string -> M W (Poller * result Tx string);
}.

Section subscriber.
Context {XL : XrplLib} {L : TonLib} {Tx Account Poller W : Type}
  {TP : TransactionPoller Tx Account Poller W} {TT : Timer W} {QA : QueueApi ChainTransaction W}.

Fixpoint publish_all (poller : Poller) (txs : list Tx) : M W unit :=
  match txs with
  | [] => ret tt
  | tx :: txs =>
      let! _p := queue_publish ACCOUNT_QUEUE (QTransaction (make_queue_item poller tx)) in
      publish_all poller txs
  end.

(** src/relayer_base/src/subscriber.rs:66-97 Subscriber::work *)
Definition subscriber_work (poller : Poller) (account : Account) : M W Poller :=
  let! r := poll_account poller account in
  let! _p := (match snd r with
              | Ok txs => publish_all (fst r) txs
              | Err _ => ret tt
              end) in
  let! _s := sleep 2 in
  ret (fst r).

(** src/relayer_base/src/subscriber.rs:99-107 Subscriber::run (the loop, [rounds] rounds of it) *)
Fixpoint subscriber_run (rounds : nat) (poller : Poller) (account : Account) : M W Poller :=
  match rounds with
  | O => ret poller
  | S rounds =>
      let! poller := subscriber_work poller account in
      subscriber_run rounds poller account
  end.

(** src/relayer_base/src/subscriber.rs:109-134 Subscriber::recover_txs *)
Fixpoint recover_txs (poller : Poller) (txs : list string) : M W Poller :=
  match txs with
  | [] => ret poller
  | tx :: txs =>
      let! r := poll_tx poller tx in
      let! _p := (match snd r with
                  | Ok tx => queue_publish ACCOUNT_QUEUE (QTransaction (make_queue_item (fst r) tx))
                  | Err _ => ret tt
                  end) in
      recover_txs (fst r) txs
  end.
End subscriber.

(** ** The client of the TON API *)

(** src/ton/src/client.rs:44-48 V3MessageResponse *)
Record V3MessageResponse : Type := mkV3 { message_hash : string; message_hash_norm : string }.

(** src/ton/src/client.rs:56-70 RestClient *)
Class RestClient `{!TonLib} (W : Type) : Type := {
  post_v3_message : string -> M W (result V3MessageResponse ClientError);
  get_traces_for_account : option TonAddress -> option (list string) -> option Z ->
    M W (result (list Trace) ClientError);
  get_account_states : list TonAddress -> M W (result (list AccountState) ClientError);
}.

(** [chrono::Utc::now]. *)
Class UtcNow (W : Type) : Type := { utc_now : M W Z }.

(** ** The TON pollers *)

Section ton.
Context {XL : XrplLib} {L : TonLib} {CC : CrossChain} {DL : DecimalLib} {W : Type}
  {DB : Database W} {TM : AtomicUpsert W} {CL : RestClient W} {UN : UtcNow W}.

(** src/ton/src/subscriber.rs:16-23 TONSubscriber *)
Record TONSubscriber : Type := mkTONSubscriber {
  latest_lt : Z;
  context : string;
  chain_name : string;
}.

(** src/ton/src/subscriber.rs:26-53 TONSubscriber::new *)
Definition ton_subscriber_new (context chain_name : string) : M W (result TONSubscriber SubscriberError) :=
  let? latest_lt := map_err SubGenericError (get_latest_height chain_name context) in
  ret (Ok (mkTONSubscriber (default (-1) latest_lt) context chain_name)).

(** src/ton/src/subscriber.rs:55-61 TONSubscriber::store_latest_height *)
Definition ton_store_latest_height (self : TONSubscriber) : M W (result unit SubscriberError) :=
  map_err SubGenericError (store_latest_height (chain_name self) (context self) (latest_lt self)).

(** [Iterator::max]. *)
Definition max_lt (traces : list Trace) : option Z :=
  foldl (fun acc t => Some (match acc with Some m => Z.max m (end_lt t) | None => end_lt t end)) None traces.

(** src/ton/src/subscriber.rs:109-129 TONSubscriber::poll_account (the loop) *)
Fixpoint unseen_loop (traces : list Trace) (unseen : list Trace) : M W (result (list Trace) string) :=
  match traces with
  | [] => ret (Ok unseen)
  | trace :: traces =>
      let! now := utc_now in
      let? row := upsert_and_return_if_changed (trace_from now trace) in
      unseen_loop traces
        (if bool_decide (is_Some row) && negb (is_incomplete trace) then unseen ++ [trace] else unseen)
  end.

(** src/ton/src/subscriber.rs:82-130 TONSubscriber::poll_account *)
Definition ton_poll_account (self : TONSubscriber) (account : TonAddress) :
  M W (TONSubscriber * result (list Trace) string) :=
  let start_lt := if latest_lt self =? -1 then None else Some (latest_lt self) in
  let! traces := get_traces_for_account (Some account) None start_lt in
  match traces with
  | Err e => ret (self, Err (show_ClientError e))
  | Ok traces =>
      let! self := (match max_lt traces with
        | Some m =>
            let self := mkTONSubscriber m (context self) (chain_name self) in
            let! _s := ton_store_latest_height self in
            ret self
        | None => ret self
        end) in
      let! r := unseen_loop traces [] in
      ret (self, r)
  end.

(** src/ton/src/subscriber.rs:64-135 impl TransactionPoller for TONSubscriber *)
#[export] Instance TONPoller : TransactionPoller Trace TonAddress TONSubscriber W := {|
  make_queue_item := fun _ tx => TON tx;
  transaction_id := fun _ tx => Some (trace_id tx);
  account_id := fun _ account => Some (address_to_hex account);
  poll_account := ton_poll_account;
  poll_tx := fun _ _ => panic "not implemented";
|}.
End ton.

Section retry.
Context {XL : XrplLib} {L : TonLib} {W : Type} {TM : AtomicUpsert W} {RT : Retriable W}
  {CL : RestClient W} {UN : UtcNow W} {TT : Timer W}.

(** src/ton/src/retry_subscriber.rs:79-111 RetryTONSubscriber::poll_account (the loop) *)
Fixpoint retry_loop (traces : list Trace) (unseen : list Trace) : M W (result (list Trace) string) :=
  match traces with
  | [] => ret (Ok unseen)
  | trace :: traces =>
      let! now := utc_now in
      let trace_model := trace_from now trace in
      if row_is_incomplete trace_model then
        let? _u := decrease_retry trace_model in
        retry_loop traces unseen
      else
        let? row := upsert_and_return_if_changed trace_model in
        retry_loop traces
          (if bool_decide (is_Some row) && negb (is_incomplete trace) then unseen ++ [trace] else unseen)
  end.

(** src/ton/src/retry_subscriber.rs:50-112 RetryTONSubscriber::poll_account *)
Definition retry_poll_account (account : TonAddress) : M W (result (list Trace) string) :=
  let! _s := sleep 5 in
  let? rows := fetch_retry 100 in
  match rows with
  | [] => ret (Ok [])
  | _ :: _ =>
      let? traces := map_err show_ClientError
        (get_traces_for_account None (Some (map row_trace_id rows)) None) in
      retry_loop traces []
  end.

(** src/ton/src/retry_subscriber.rs:32-117 impl TransactionPoller for RetryTONSubscriber *)
Definition RetryTONPoller : TransactionPoller Trace TonAddress unit W := {|
  make_queue_item := fun _ tx => TON tx;
  transaction_id := fun _ tx => Some (trace_id tx);
  account_id := fun _ account => Some (address_to_hex account);
  poll_account := fun self account => let! r := retry_poll_account account in ret (self, r);
  poll_tx := fun _ _ => panic "not implemented";
|}.
End retry.

(** ** The pollers against the tables *)

(** The world of the statements: the trace table, the cursors, the chain's
    API and what was published. *)
Record SubWorld `{!XrplLib, !TonLib} (X : Type) : Type := mkSub {
  sub_traces : Store (gmap string TONTrace);
  sub_db : Db;
  sub_client : X;
  sub_published : list ChainTransaction;
}.
Arguments mkSub {_ _ X}.
Arguments sub_traces {_ _ X} _.
Arguments sub_db {_ _ X} _.
Arguments sub_client {_ _ X} _.
Arguments sub_published {_ _ X} _.

Section world.
Context {XL : XrplLib} {L : TonLib} {J : Jsonb} {CC : CrossChain} {DL : DecimalLib} {X : Type}
  {CL : RestClient X}.
Abbreviation W := (SubWorld X).

Definition via_traces {A} (m : M (Store (gmap string TONTrace)) A) : M W A := fun w =>
  let '(o, s) := m (sub_traces w) in (o, mkSub s (sub_db w) (sub_client w) (sub_published w)).
Definition via_db {A} (m : M Db A) : M W A := fun w =>
  let '(o, d) := m (sub_db w) in (o, mkSub (sub_traces w) d (sub_client w) (sub_published w)).
Definition via_client {A} (m : M X A) : M W A := fun w =>
  let '(o, x) := m (sub_client w) in (o, mkSub (sub_traces w) (sub_db w) x (sub_published w)).

#[export] Instance sub_upsert : AtomicUpsert W := {|
  upsert_and_return_if_changed := fun tx => via_traces (pg_upsert_and_return_if_changed tx);
|}.
#[export] Instance sub_retriable : Retriable W := {|
  fetch_retry := fun n => via_traces (pg_fetch_retry n);
  decrease_retry := fun tx => via_traces (pg_decrease_retry tx);
|}.
#[export] Instance sub_database : Database W := {|
  store_latest_height := fun c x h => via_db (pg_store_latest_height c x h);
  get_latest_height := fun c x => via_db (pg_get_latest_height c x);
  store_latest_task_id := fun c x i => via_db (pg_store_latest_task_id c x i);
  get_latest_task_id := fun c x => via_db (pg_get_latest_task_id c x);
  db_store_payload := fun c v => via_db (pg_store_payload c v);
  db_get_payload := fun c => via_db (pg_get_payload c);
  db_clear_payload := fun c => via_db (pg_clear_payload c);
  db_get_price := fun p => via_db (pg_get_price p);
  store_price := fun p d => via_db (pg_store_price p d);
|}.
#[export] Instance sub_rest : RestClient W := {|
  post_v3_message := fun b => via_client (post_v3_message b);
  get_traces_for_account := fun a t l => via_client (get_traces_for_account a t l);
  get_account_states := fun l => via_client (get_account_states l);
|}.
#[export] Instance sub_now : UtcNow W := {| utc_now := fun w => (Done (clock (sub_traces w)), w) |}.
#[export] Instance sub_timer : Timer W := {|
  sleep := fun d => modify (fun w => mkSub (advance d (sub_traces w)) (sub_db w) (sub_client w) (sub_published w));
|}.
#[export] Instance sub_queue : QueueApi ChainTransaction W := {|
  queue_publish := fun _ item => modify (fun w => mkSub (sub_traces w) (sub_db w) (sub_client w)
    (sub_published w ++ match item with QTransaction c => [c] | _ => [] end));
  queue_republish := fun _ _ _ => ret (Ok tt);
|}.

Lemma publish_all_run {Tx Account Poller} {TP : TransactionPoller Tx Account Poller W} (p : Poller) (txs : list Tx) (w : W) :
  publish_all p txs w =
    (Done tt, mkSub (sub_traces w) (sub_db w) (sub_client w) (sub_published w ++ map (make_queue_item p) txs)).
Proof.
  revert w. induction txs as [|tx txs IH]; intros w; simpl.
  - rewrite app_nil_r. by destruct w.
  - rewrite bind_run. simpl. rewrite IH. simpl. by rewrite <- app_assoc.
Qed.

(** ** What a poll takes for new *)

(** The row of a trace holds this version of it. *)
Definition stored (rows : gmap string TONTrace) (t : Trace) : Prop :=
  exists row, rows !! trace_id t = Some row /\ distinct row (trace_from 0 t) = false.

Definition take_in (now : Z) (rows : gmap string TONTrace) (t : Trace) : gmap string TONTrace :=
  match upsert_row now (trace_from now t) (rows !! trace_id t) with
  | Some row => <[trace_id t := row]> rows
  | None => rows
  end.

Definition is_new (rows : gmap string TONTrace) (t : Trace) : bool :=
  match rows !! trace_id t with Some row => distinct row (trace_from 0 t) | None => true end.

Lemma distinct_now now t row : distinct row (trace_from now t) = distinct row (trace_from 0 t).
Proof. reflexivity. Qed.

Lemma upsert_row_new now (rows : gmap string TONTrace) t :
  bool_decide (is_Some (upsert_row now (trace_from now t) (rows !! trace_id t))) = is_new rows t.
Proof.
  unfold is_new, upsert_row. destruct (rows !! trace_id t) as [row|]; [|done].
  rewrite distinct_now. by destruct (distinct row (trace_from 0 t)).
Qed.

Lemma is_new_stored rows t : is_new rows t = false <-> stored rows t.
Proof.
  unfold is_new, stored. destruct (rows !! trace_id t) as [row|]; split.
  - eauto.
  - by intros (row' & [= <-] & ?).
  - done.
  - by intros (? & ? & ?).
Qed.

Lemma take_in_other now rows t k : k <> trace_id t -> take_in now rows t !! k = rows !! k.
Proof. intros Hk. unfold take_in. destruct (upsert_row _ _ _); [by rewrite lookup_insert_ne by done|done]. Qed.

Context {JL : JsonbLaws}.

Lemma take_in_row now rows t : exists row, take_in now rows t !! trace_id t = Some row /\
  distinct row (trace_from 0 t) = false /\ row_is_incomplete row = is_incomplete t.
Proof.
  assert (Hd : forall r : TONTrace, row_is_incomplete r = is_incomplete t -> row_start_lt r = start_lt t ->
    row_end_lt r = end_lt t -> row_transactions r = transactions t -> distinct r (trace_from 0 t) = false).
  { intros r H1 H2 H3 H4. unfold distinct. simpl. rewrite H1, H2, H3, H4, jsonb_refl, !Z.eqb_refl.
    by rewrite bool_decide_eq_true_2. }
  unfold take_in, upsert_row. destruct (rows !! trace_id t) as [row|] eqn:E.
  - rewrite distinct_now. destruct (distinct row (trace_from 0 t)) eqn:Hc.
    + rewrite lookup_insert_eq. eexists. split; [done|]. split; [by apply Hd|done].
    + exists row. do 2 (split; [done|]). unfold distinct in Hc. simpl in Hc.
      destruct (bool_decide_reflect (row_is_incomplete row = is_incomplete t)); [done|discriminate Hc].
  - rewrite lookup_insert_eq. eexists. split; [done|]. split; [by apply Hd|done].
Qed.

Lemma take_in_stored now rows t : stored (take_in now rows t) t.
Proof. destruct (take_in_row now rows t) as (row & ? & ? & _). by exists row. Qed.

(** One statement of the loop, when the table answers. *)
Lemma upsert_runs (w : W) t :
  faults (sub_traces w) = [] ->
  upsert_and_return_if_changed (trace_from (clock (sub_traces w)) t) w =
    (Done (Ok (upsert_row (clock (sub_traces w)) (trace_from (clock (sub_traces w)) t)
                 (tables (sub_traces w) !! trace_id t))),
     mkSub (mkStore (take_in (clock (sub_traces w)) (tables (sub_traces w)) t) (clock (sub_traces w)) [])
       (sub_db w) (sub_client w) (sub_published w)).
Proof.
  intros Hf. simpl. unfold via_traces, pg_upsert_and_return_if_changed.
  rewrite sql_no_fault by (unfold next_fault; by rewrite Hf). rewrite Hf. simpl.
  unfold take_in. by destruct (upsert_row _ _ _).
Qed.

Fixpoint fresh (now : Z) (rows : gmap string TONTrace) (ts : list Trace) : list Trace :=
  match ts with
  | [] => []
  | t :: ts => (if is_new rows t && negb (is_incomplete t) then [t] else []) ++ fresh now (take_in now rows t) ts
  end.

Lemma unseen_loop_run ts acc (w : W) :
  faults (sub_traces w) = [] ->
  unseen_loop ts acc w =
    (Done (Ok (acc ++ fresh (clock (sub_traces w)) (tables (sub_traces w)) ts)),
     mkSub (mkStore (foldl (take_in (clock (sub_traces w))) (tables (sub_traces w)) ts) (clock (sub_traces w)) [])
       (sub_db w) (sub_client w) (sub_published w)).
Proof.
  revert acc w. induction ts as [|t ts IH]; intros acc w Hf; cbn [unseen_loop fresh foldl].
  - rewrite app_nil_r. destruct w as [[ta c f] ? ? ?]. simpl in *. by subst.
  - rewrite bind_run. cbn [utc_now sub_now]. rewrite bind_ok_run, upsert_runs by done.
    rewrite upsert_row_new, IH by done. cbn [sub_traces sub_db sub_client sub_published tables clock].
    do 3 f_equal. destruct (is_new _ _ && _); [by rewrite <- app_assoc|done].
Qed.
(** ** A poll of the chain *)

Definition start_of (self : TONSubscriber) : option Z :=
  if latest_lt self =? -1 then None else Some (latest_lt self).
Definition moved (self : TONSubscriber) (ts : list Trace) : TONSubscriber :=
  match max_lt ts with
  | Some m => mkTONSubscriber m (context self) (chain_name self)
  | None => self
  end.

Lemma store_height_run (self : TONSubscriber) (w : W) :
  exists r d, ton_store_latest_height self w =
    (Done r, mkSub (sub_traces w) d (sub_client w) (sub_published w)).
Proof.
  unfold ton_store_latest_height. rewrite map_err_run. simpl. unfold via_db, pg_store_latest_height, sql_exec.
  destruct (sql_cases (fun (_ : Z) (t : DbTables) => (tt, set_subscriber_cursors
    (insert (chain_name self, context self) (latest_lt self)) t)) (sub_db w)) as [[e ->] | ->]; eauto.
Qed.

(** Storing the cursor may fail; the poll goes on with what was fetched. *)
Lemma ton_poll_run self account (w : W) ts x :
  get_traces_for_account (Some account) None (start_of self) (sub_client w) = (Done (Ok ts), x) ->
  exists d, ton_poll_account self account w =
    (let! r := unseen_loop ts [] in ret (moved self ts, r))
      (mkSub (sub_traces w) d x (sub_published w)).
Proof.
  intros Ha. unfold ton_poll_account. cbn zeta.
  change (if latest_lt self =? -1 then None else Some (latest_lt self)) with (start_of self).
  rewrite bind_run. cbn [get_traces_for_account sub_rest]. unfold via_client. rewrite Ha. cbn zeta.
  unfold moved. destruct (max_lt ts) as [m|].
  - destruct (store_height_run (mkTONSubscriber m (context self) (chain_name self))
      (mkSub (sub_traces w) (sub_db w) x (sub_published w))) as (r & d & E).
    rewrite bind_run, bind_run, E. by exists d.
  - rewrite bind_run. by exists (sub_db w).
Qed.

(** The chain's API answers the polls of a subscriber with these batches, or
    with errors. *)
Definition batch_of (r : result (list Trace) ClientError) : list Trace :=
  match r with Ok ts => ts | Err _ => [] end.
Definition answered_traces (rounds : list (result (list Trace) ClientError)) : list Trace := concat (map batch_of rounds).

Fixpoint answers (self : TONSubscriber) (account : TonAddress) (x : X) (rounds : list (result (list Trace) ClientError)) : Prop :=
  match rounds with
  | [] => True
  | r :: rounds =>
      exists x', get_traces_for_account (Some account) None (start_of self) x = (Done r, x') /\
        answers (moved self (batch_of r)) account x' rounds
  end.

(** One round of the subscriber: what the loop over the batch keeps is
    published, if the loop ends well. *)
Lemma ton_work_run self account (w : W) r x :
  get_traces_for_account (Some account) None (start_of self) (sub_client w) = (Done r, x) ->
  exists d, forall kept w1,
    unseen_loop (batch_of r) [] (mkSub (sub_traces w) d x (sub_published w)) = (Done kept, w1) ->
    subscriber_work (TP := TONPoller) self account w =
      (Done (moved self (batch_of r)),
       mkSub (advance 2 (sub_traces w1)) (sub_db w1) (sub_client w1)
         (sub_published w1 ++ map TON (match kept with Ok ts => ts | Err _ => [] end))).
Proof.
  intros Ha. unfold subscriber_work. simpl poll_account. destruct r as [ts|e]; cbn [batch_of].
  - destruct (ton_poll_run self account w ts x Ha) as (d & E). exists d. intros kept w1 E1.
    rewrite bind_run, E, bind_run, E1. cbn [ret snd fst]. destruct kept as [l|e]; rewrite bind_run.
    + by rewrite publish_all_run.
    + cbn [ret map]. by rewrite app_nil_r.
  - exists (sub_db w). intros kept w1 [= <- <-]. unfold ton_poll_account. cbn zeta.
    change (if latest_lt self =? -1 then None else Some (latest_lt self)) with (start_of self).
    rewrite !bind_run. cbn [get_traces_for_account sub_rest]. unfold via_client. rewrite Ha. cbn. by rewrite app_nil_r.
Qed.

(** One round while the table of traces answers. *)
Lemma ton_work_quiet self account (w : W) r x :
  faults (sub_traces w) = [] ->
  get_traces_for_account (Some account) None (start_of self) (sub_client w) = (Done r, x) ->
  exists d, subscriber_work (TP := TONPoller) self account w =
    (Done (moved self (batch_of r)),
     mkSub (mkStore (foldl (take_in (clock (sub_traces w))) (tables (sub_traces w)) (batch_of r))
              (clock (sub_traces w) + 2) []) d x
       (sub_published w ++ map TON (fresh (clock (sub_traces w)) (tables (sub_traces w)) (batch_of r)))).
Proof.
  intros Hf Ha. destruct (ton_work_run self account w r x Ha) as (d & E). exists d.
  exact (E _ _ (unseen_loop_run (batch_of r) [] (mkSub (sub_traces w) d x (sub_published w)) Hf)).
Qed.

(** A complete trace is final: it is answered unchanged from then on. *)
Definition final (ts : list Trace) : Prop :=
  forall pre t mid t' post, ts = pre ++ t :: mid ++ t' :: post ->
    trace_id t = trace_id t' -> is_incomplete t = false -> t' = t.

(** What holds between the traces answered so far, the table and what was
    published. *)
Record published_inv (seen : list Trace) (rows : gmap string TONTrace) (out : list Trace) : Prop := {
  inv_nodup : NoDup out;
  inv_order : out `sublist_of` seen;
  inv_exact : forall t, t ∈ out <-> t ∈ seen /\ is_incomplete t = false;
  inv_stored : forall t, t ∈ seen -> is_incomplete t = false ->
    exists row, rows !! trace_id t = Some row /\ distinct row (trace_from 0 t) = false /\ row_is_incomplete row = false;
  inv_known : forall k row, rows !! k = Some row -> row_is_incomplete row = false ->
    exists t, t ∈ seen /\ trace_id t = k /\ is_incomplete t = false;
}.

Lemma published_none : published_inv [] ∅ [].
Proof.
  split; [constructor|done| |by intros ? ?%not_elem_of_nil|by intros ? ? ?%lookup_empty_Some].
  intros t. split; [by intros ?%not_elem_of_nil|by intros [?%not_elem_of_nil _]].
Qed.

Lemma final_seen seen t ts t0 :
  final (seen ++ t :: ts) -> t0 ∈ seen -> trace_id t0 = trace_id t -> is_incomplete t0 = false -> t = t0.
Proof.
  intros Hfin Hin Hid Hc. apply list_elem_of_split in Hin as (l1 & l2 & ->).
  rewrite <- app_assoc in Hfin. simpl in Hfin. by apply (Hfin l1 t0 l2 t ts).
Qed.

Lemma published_step now seen rows out t ts :
  final (seen ++ t :: ts) -> published_inv seen rows out ->
  published_inv (seen ++ [t]) (take_in now rows t)
    (out ++ if is_new rows t && negb (is_incomplete t) then [t] else []).
Proof.
  intros Hfin [Hnd Hord Hex Hst Hkn].
  assert (Hstored : forall t0, t0 ∈ seen -> is_incomplete t0 = false -> trace_id t0 = trace_id t ->
    is_new rows t = false /\ t = t0).
  { intros t0 Hin Hc Hid. pose proof (final_seen _ _ _ _ Hfin Hin Hid Hc) as ->. split; [|done].
    destruct (Hst t0 Hin Hc) as (row & ? & ? & _). apply is_new_stored. by exists row. }
  assert (Hnew : is_incomplete t = false -> is_new rows t = false -> t ∈ seen).
  { intros Hc Hn. apply is_new_stored in Hn as (row & Hr & Hd).
    assert (Hrc : row_is_incomplete row = false).
    { unfold distinct in Hd. simpl in Hd. rewrite Hc in Hd.
      destruct (bool_decide_reflect (row_is_incomplete row = false)); [done|discriminate Hd]. }
    destruct (Hkn _ _ Hr Hrc) as (t0 & Hin & Hid & Hc0). by destruct (Hstored t0 Hin Hc0 Hid) as [_ ->]. }
  destruct (take_in_row now rows t) as (row & Hrow & Hdist & Hinc). split.
  - destruct (is_new rows t && negb (is_incomplete t)) eqn:Hb; [|by rewrite app_nil_r].
    apply andb_true_iff in Hb as [Hn Hc%negb_true_iff]. apply NoDup_app. split; [done|]. split; [|apply NoDup_singleton].
    intros t0 Ht0 ->%list_elem_of_singleton. apply Hex in Ht0 as [Hin _].
    destruct (Hstored t Hin Hc eq_refl). congruence.
  - apply sublist_app; [done|]. destruct (is_new rows t && _); [done|apply sublist_nil_l].
  - intros t0. rewrite !elem_of_app, list_elem_of_singleton, Hex.
    destruct (is_new rows t) eqn:Hn, (is_incomplete t) eqn:Hc; simpl; rewrite ?list_elem_of_singleton;
      try pose proof (Hnew eq_refl eq_refl) as Hin;
      (split; [intros [[? ?]|Hx]; [by split; [left|]|]|intros [[?| ->] ?]; [by left|]]);
      try (by apply not_elem_of_nil in Hx); subst; auto; try congruence.
  - intros t0 [Hin| ->%list_elem_of_singleton]%elem_of_app Hc0.
    + destruct (decide (trace_id t0 = trace_id t)) as [Hid|Hid].
      * destruct (Hstored t0 Hin Hc0 Hid) as [_ ->]. exists row. by rewrite Hinc.
      * rewrite take_in_other by done. by apply Hst.
    + exists row. by rewrite Hinc.
  - intros k r Hr Hrc. destruct (decide (k = trace_id t)) as [->|Hk].
    + rewrite Hrow in Hr. simplify_eq. exists t. rewrite <- Hinc, Hrc. rewrite elem_of_app, list_elem_of_singleton. auto.
    + rewrite take_in_other in Hr by done. destruct (Hkn _ _ Hr Hrc) as (t0 & ? & ? & ?).
      exists t0. rewrite elem_of_app. auto.
Qed.

Lemma published_batch now seen rows out ts rest :
  final (seen ++ ts ++ rest) -> published_inv seen rows out ->
  published_inv (seen ++ ts) (foldl (take_in now) rows ts) (out ++ fresh now rows ts).
Proof.
  revert seen rows out. induction ts as [|t ts IH]; intros seen rows out Hfin Hinv; cbn [foldl fresh].
  - by rewrite !app_nil_r.
  - specialize (IH (seen ++ [t]) (take_in now rows t)
      (out ++ if is_new rows t && negb (is_incomplete t) then [t] else [])).
    rewrite <- !app_assoc in IH. simpl in IH.
    apply IH; [done|]. by apply (published_step now seen rows out t (ts ++ rest)).
Qed.

Lemma published_rounds rounds seen out self account (w : W) :
  faults (sub_traces w) = [] -> answers self account (sub_client w) rounds ->
  final (seen ++ answered_traces rounds) -> published_inv seen (tables (sub_traces w)) out ->
  sub_published w = map TON out ->
  exists self' w' out', subscriber_run (TP := TONPoller) (length rounds) self account w = (Done self', w') /\
    sub_published w' = map TON out' /\
    published_inv (seen ++ answered_traces rounds) (tables (sub_traces w')) out'.
Proof.
  revert seen out self w. induction rounds as [|r rounds IH]; intros seen out self w Hf Ha Hfin Hinv Hp.
  - exists self, w, out. unfold answered_traces. simpl. by rewrite app_nil_r.
  - destruct Ha as (x & Ha & Hrest). unfold answered_traces in *. cbn [length subscriber_run concat map] in *.
    destruct (ton_work_quiet self account w r x Hf Ha) as (d & E). rewrite bind_run, E, app_assoc.
    eapply (IH (seen ++ batch_of r)); [done| exact Hrest | by rewrite <- app_assoc | | ].
    + by apply (published_batch _ seen _ out (batch_of r) (concat (map batch_of rounds))).
    + by rewrite Hp, <- map_app.
Qed.

(** What holds whatever fails: what was published is complete, is there once
    and in order, and the table knows it. *)
Record published_some (seen : list Trace) (rows : gmap string TONTrace) (out : list Trace) : Prop := {
  some_nodup : NoDup out;
  some_order : out `sublist_of` seen;
  some_complete : forall t, t ∈ out -> is_incomplete t = false;
  some_stored : forall t, t ∈ out -> stored rows t;
}.

Lemma some_fewer seen rows out l : published_some seen rows (out ++ l) -> published_some seen rows out.
Proof.
  assert (Hs : out `sublist_of` out ++ l) by (apply sublist_inserts_r; done).
  intros [Hn Ho Hc Ht]. split.
  - by apply NoDup_app in Hn as [? _].
  - by etrans.
  - intros t Hin. apply Hc, elem_of_app. by left.
  - intros t Hin. apply Ht, elem_of_app. by left.
Qed.

Lemma some_later seen more rows out : published_some seen rows out -> published_some (seen ++ more) rows out.
Proof. intros [Hn Ho Hc Ht]. split; [done|by apply sublist_inserts_r|done|done]. Qed.

Lemma some_step now seen rows out t rest :
  final (seen ++ t :: rest) -> published_some seen rows out ->
  published_some (seen ++ [t]) (take_in now rows t) (out ++ if is_new rows t && negb (is_incomplete t) then [t] else []).
Proof.
  intros Hfin [Hnd Hord Hc Hst].
  assert (Hsame : forall t0, t0 ∈ out -> trace_id t0 = trace_id t -> t = t0 /\ is_new rows t = false).
  { intros t0 Hin Hid. assert (t = t0) as <-.
    { eapply final_seen; [exact Hfin| |exact Hid|by apply Hc]. eapply elem_of_submseteq; [exact Hin|by apply sublist_submseteq]. }
    split; [done|]. by apply is_new_stored, Hst. }
  assert (Hold : forall t0, t0 ∈ out -> stored (take_in now rows t) t0).
  { intros t0 Hin. destruct (decide (trace_id t0 = trace_id t)) as [Hid|Hid].
    - destruct (Hsame t0 Hin Hid) as [<- _]. apply take_in_stored.
    - destruct (Hst t0 Hin) as (row & ? & ?). exists row. by rewrite take_in_other. }
  destruct (is_new rows t && negb (is_incomplete t)) eqn:Hb.
  - apply andb_true_iff in Hb as [Hn Hi%negb_true_iff]. split.
    + apply NoDup_app. split; [done|]. split; [|apply NoDup_singleton]. intros t0 Hin ->%list_elem_of_singleton.
      destruct (Hsame t Hin eq_refl). congruence.
    + by apply sublist_app.
    + intros t0 [?| ->%list_elem_of_singleton]%elem_of_app; auto.
    + intros t0 [?| ->%list_elem_of_singleton]%elem_of_app; [auto|apply take_in_stored].
  - rewrite app_nil_r. split; [done|by apply sublist_inserts_r|done|done].
Qed.

(** The loop over a batch, whatever the table answers. *)
Lemma unseen_loop_some ts rest : forall seen out acc (w : W),
  final (seen ++ ts ++ rest) -> published_some seen (tables (sub_traces w)) (out ++ acc) ->
  exists r s, unseen_loop ts acc w = (Done r, mkSub s (sub_db w) (sub_client w) (sub_published w)) /\
    published_some (seen ++ ts) (tables s) (out ++ match r with Ok l => l | Err _ => [] end).
Proof.
  induction ts as [|t ts IH]; intros seen out acc w Hfin Hi.
  - exists (Ok acc), (sub_traces w). rewrite app_nil_r. by destruct w.
  - cbn [unseen_loop]. rewrite bind_run. cbn [utc_now sub_now]. rewrite bind_ok_run. simpl upsert_and_return_if_changed.
    unfold via_traces, pg_upsert_and_return_if_changed.
    match goal with |- context [sql ?f ?s] => destruct (sql_cases f s) as [[e E]|E]; rewrite E; clear E end.
    + eexists (Err e), _. split; [reflexivity|]. cbn [tables]. rewrite app_nil_r.
      by apply some_later, (some_fewer _ _ _ acc).
    + set (now := clock (sub_traces w)). set (rows := tables (sub_traces w)) in *.
      cbn [row_trace_id trace_from].
      replace (snd match upsert_row now (trace_from now t) (rows !! trace_id t) with
                   | Some row => (Some row, <[trace_id t := row]> rows) | None => (None, rows) end)
        with (take_in now rows t) by (unfold take_in; by destruct (upsert_row _ _ _)).
      replace (fst match upsert_row now (trace_from now t) (rows !! trace_id t) with
                   | Some row => (Some row, <[trace_id t := row]> rows) | None => (None, rows) end)
        with (upsert_row now (trace_from now t) (rows !! trace_id t)) by (by destruct (upsert_row _ _ _)).
      rewrite upsert_row_new.
      replace (if is_new rows t && negb (is_incomplete t) then acc ++ [t] else acc)
        with (acc ++ if is_new rows t && negb (is_incomplete t) then [t] else []) by (destruct (_ && _); by rewrite ?app_nil_r).
      specialize (IH (seen ++ [t]) out (acc ++ if is_new rows t && negb (is_incomplete t) then [t] else [])
        (mkSub (mkStore (take_in now rows t) now (tail (faults (sub_traces w)))) (sub_db w) (sub_client w) (sub_published w))).
      rewrite <- app_assoc in IH. destruct IH as (r & s & E & H).
      * done.
      * cbn [sub_traces tables]. rewrite app_assoc. by apply (some_step now seen rows (out ++ acc) t (ts ++ rest)).
      * exists r, s. rewrite <- app_assoc in H. done.
Qed.

Lemma some_rounds rounds : forall seen out self account (w : W),
  answers self account (sub_client w) rounds ->
  final (seen ++ answered_traces rounds) -> published_some seen (tables (sub_traces w)) out ->
  sub_published w = map TON out ->
  exists self' w' out', subscriber_run (TP := TONPoller) (length rounds) self account w = (Done self', w') /\
    sub_published w' = map TON out' /\
    published_some (seen ++ answered_traces rounds) (tables (sub_traces w')) out'.
Proof.
  induction rounds as [|r rounds IH]; intros seen out self account w Ha Hfin Hi Hp.
  - exists self, w, out. unfold answered_traces. simpl. by rewrite app_nil_r.
  - destruct Ha as (x & Ha & Hrest). unfold answered_traces in *. cbn [length subscriber_run concat map] in *.
    destruct (ton_work_run self account w r x Ha) as (d & E).
    destruct (unseen_loop_some (batch_of r) (concat (map batch_of rounds)) seen out []
      (mkSub (sub_traces w) d x (sub_published w)) Hfin) as (kept & st & E1 & H1); [by rewrite app_nil_r|].
    rewrite bind_run, (E _ _ E1), app_assoc. cbn [sub_traces sub_published sub_client sub_db] in *.
    eapply (IH (seen ++ batch_of r)); [exact Hrest| by rewrite <- app_assoc | exact H1 | ].
    by rewrite Hp, <- map_app.
Qed.

(** Started on empty tables: at most once whatever fails, and exactly once
    while the table of traces answers. *)
Lemma published_by_run (self : TONSubscriber) (account : TonAddress) rounds (w : W) :
  tables (sub_traces w) = ∅ -> sub_published w = [] ->
  answers self account (sub_client w) rounds -> final (answered_traces rounds) ->
  exists self' w' out, subscriber_run (TP := TONPoller) (length rounds) self account w = (Done self', w') /\
    sub_published w' = map TON out /\ NoDup out /\ out `sublist_of` answered_traces rounds /\
    (forall t, t ∈ out -> is_incomplete t = false) /\
    (faults (sub_traces w) = [] -> forall t, t ∈ answered_traces rounds -> is_incomplete t = false -> t ∈ out).
Proof.
  intros Ht Hp Ha Hfin.
  destruct (some_rounds rounds [] [] self account w) as (self' & w' & out & E & Ho & [Hn Hs Hc _]); try done.
  { split; [constructor|done|by intros t ?%not_elem_of_nil..]. }
  exists self', w', out. do 5 (split; [done|]). intros Hf t Hin Hi.
  destruct (published_rounds rounds [] [] self account w) as (self2 & w2 & out2 & E2 & Ho2 & Hi2); try done.
  { rewrite Ht. apply published_none. }
  rewrite E in E2. injection E2 as _ <-. rewrite Ho in Ho2.
  apply (list_fmap_eq_inj TON) in Ho2 as ->; [|by intros ?? [=]]. by apply (inv_exact _ _ _ Hi2).
Qed.

(** C15: no trace is published twice.  Start from an empty table and take any
    number of rounds, with polls that fail among them, and any answers of the
    tables.  The traces that are published are complete ones the chain's API
    answered, each of them once at most, in the order of the answers; and, as
    long as no statement on the table of traces fails, every complete one is
    published.  (What a failing statement loses is
    [poll_error_loses_traces].) *)
Theorem traces_published_once (self : TONSubscriber) (account : TonAddress)
    (rounds : list (result (list Trace) ClientError)) (w : W) :
  tables (sub_traces w) = ∅ -> sub_published w = [] ->
  answers self account (sub_client w) rounds -> final (answered_traces rounds) ->
  exists self' w' out, subscriber_run (TP := TONPoller) (length rounds) self account w = (Done self', w') /\
    sub_published w' = map TON out /\ NoDup out /\ out `sublist_of` answered_traces rounds /\
    (forall t, t ∈ out -> is_incomplete t = false) /\
    (faults (sub_traces w) = [] -> forall t, t ∈ answered_traces rounds -> is_incomplete t = false -> t ∈ out).
Proof. apply published_by_run. Qed.
(** ** A poll that fails half way *)

Lemma unseen_loop_prefix l1 rest acc (w : W) fs :
  faults (sub_traces w) = repeat None (length l1) ++ fs ->
  unseen_loop (l1 ++ rest) acc w =
    unseen_loop rest (acc ++ fresh (clock (sub_traces w)) (tables (sub_traces w)) l1)
      (mkSub (mkStore (foldl (take_in (clock (sub_traces w))) (tables (sub_traces w)) l1) (clock (sub_traces w)) fs)
         (sub_db w) (sub_client w) (sub_published w)).
Proof.
  revert acc w. induction l1 as [|t l1 IH]; intros acc w Hf; cbn [app unseen_loop fresh foldl].
  - rewrite app_nil_r. destruct w as [[ta c f] ? ? ?]. simpl in *. by subst.
  - rewrite bind_run. cbn [utc_now sub_now]. rewrite bind_ok_run. simpl upsert_and_return_if_changed.
    unfold via_traces, pg_upsert_and_return_if_changed.
    rewrite sql_no_fault by (unfold next_fault; by rewrite Hf). rewrite Hf. cbn [length repeat app tail].
    pose proof (upsert_row_new (clock (sub_traces w)) (tables (sub_traces w)) t) as Hn.
    cbn [row_trace_id trace_from].
    replace (snd match upsert_row (clock (sub_traces w)) (trace_from (clock (sub_traces w)) t)
                   (tables (sub_traces w) !! trace_id t) with
                 | Some row => (Some row, <[trace_id t := row]> (tables (sub_traces w)))
                 | None => (None, tables (sub_traces w))
                 end) with (take_in (clock (sub_traces w)) (tables (sub_traces w)) t)
      by (unfold take_in; by destruct (upsert_row _ _ _)).
    replace (fst match upsert_row (clock (sub_traces w)) (trace_from (clock (sub_traces w)) t)
                   (tables (sub_traces w) !! trace_id t) with
                 | Some row => (Some row, <[trace_id t := row]> (tables (sub_traces w)))
                 | None => (None, tables (sub_traces w))
                 end) with (upsert_row (clock (sub_traces w)) (trace_from (clock (sub_traces w)) t)
                   (tables (sub_traces w) !! trace_id t))
      by (by destruct (upsert_row _ _ _)).
    rewrite Hn, IH by done. cbn [sub_traces sub_db sub_client sub_published tables clock].
    f_equal. destruct (is_new _ _ && _); [by rewrite <- app_assoc|done].
Qed.

Lemma stored_other now rows t t' : trace_id t <> trace_id t' -> stored (take_in now rows t') t <-> stored rows t.
Proof. intros Hid. unfold stored. by rewrite take_in_other. Qed.

Lemma take_in_all now rows ts t :
  NoDup (map trace_id ts) -> t ∈ ts -> stored (foldl (take_in now) rows ts) t.
Proof.
  intros Hnd Hin. apply list_elem_of_split in Hin as (l1 & l2 & ->).
  rewrite map_app, map_cons in Hnd. apply NoDup_app in Hnd as (_ & _ & [Hni _]%NoDup_cons).
  rewrite foldl_app. simpl. generalize (foldl (take_in now) rows l1) as rows0.
  intros rows0. pose proof (take_in_stored now rows0 t) as Hs. revert Hs.
  generalize (take_in now rows0 t) as r. induction l2 as [|t' l2 IH]; intros r Hs; [done|]. simpl.
  rewrite map_cons, not_elem_of_cons in Hni. destruct Hni as [Hne Hni]. apply IH; [done|]. by apply stored_other.
Qed.

Lemma fresh_stored now rows ts : (forall t, t ∈ ts -> stored rows t) -> fresh now rows ts = [].
Proof.
  intros Hs. induction ts as [|t ts IH]; [done|]. cbn [fresh].
  assert (Ht : is_new rows t = false) by (apply is_new_stored, Hs; by left). rewrite Ht. simpl.
  pose proof (upsert_row_new now rows t) as Hu. rewrite Ht in Hu. apply bool_decide_eq_false in Hu.
  unfold take_in. destruct (upsert_row _ _ _); [by destruct Hu; eauto|]. apply IH. intros t' Hin. apply Hs. by right.
Qed.

(** A database error in the middle of a poll loses traces.  The traces
    before the failing one are recorded as seen and the cursor has moved past
    the whole answer, but nothing is published; and when the chain answers
    those traces again, they are taken for known and are not published
    either. *)
Theorem poll_error_loses_traces (self : TONSubscriber) (account : TonAddress) (l1 l2 : list Trace)
    (e : string) (fs : list (option string)) (w : W) (x : X) :
  get_traces_for_account (Some account) None (start_of self) (sub_client w) = (Done (Ok (l1 ++ l2)), x) ->
  l2 <> [] -> NoDup (map trace_id l1) ->
  faults (sub_traces w) = repeat None (length l1) ++ Some e :: fs ->
  exists w', subscriber_work (TP := TONPoller) self account w = (Done (moved self (l1 ++ l2)), w') /\
    sub_published w' = sub_published w /\
    (forall t, t ∈ l1 -> stored (tables (sub_traces w')) t) /\
    (forall self2 db2 (x2 x3 : X) c2, get_traces_for_account (Some account) None (start_of self2) x2 = (Done (Ok l1), x3) ->
       sub_published (snd (subscriber_work (TP := TONPoller) self2 account
         (mkSub (mkStore (tables (sub_traces w')) c2 []) db2 x2 (sub_published w')))) = sub_published w).
Proof.
  intros Ha Hl2 Hnd Hf. destruct l2 as [|t l2]; [done|].
  destruct (ton_poll_run self account w _ x Ha) as (d & E).
  unfold subscriber_work at 1. simpl poll_account at 1. rewrite bind_run, E, bind_run.
  rewrite (unseen_loop_prefix l1 (t :: l2) [] _ (Some e :: fs)) by done.
  cbn [unseen_loop sub_traces]. rewrite bind_run. cbn [utc_now sub_now]. rewrite bind_ok_run.
  simpl upsert_and_return_if_changed. unfold via_traces, pg_upsert_and_return_if_changed.
  erewrite sql_fault by reflexivity. cbn [snd fst ret]. eexists. split; [reflexivity|]. split; [done|].
  assert (Hs : forall t0, t0 ∈ l1 ->
    stored (foldl (take_in (clock (sub_traces w))) (tables (sub_traces w)) l1) t0)
    by (intros t0 Hin; by apply take_in_all).
  split; [exact Hs|]. intros self2 db2 x2 x3 c2 Ha2.
  match goal with |- context [subscriber_work self2 account ?w2] =>
    destruct (ton_work_quiet self2 account w2 _ x3 eq_refl Ha2) as (d2 & E2) end.
  rewrite E2. cbn [batch_of sub_published sub_traces tables]. rewrite fresh_stored by exact Hs. by rewrite app_nil_r.
Qed.
(** ** The traces that are tried again *)

Definition retries_of (row : TONTrace) : Z := if wants_retry row then retries row else 0.
Definition retries_left (rows : gmap string TONTrace) : Z :=
  map_fold (fun _ row acc => retries_of row + acc) 0 rows.

Lemma retries_of_nonneg row : 0 <= retries_of row.
Proof. unfold retries_of, wants_retry. destruct (Z.ltb_spec 0 (retries row)), (row_is_incomplete row); simpl; lia. Qed.

Lemma retries_of_wanted row : wants_retry row = true -> 0 < retries_of row.
Proof. unfold retries_of. intros H. rewrite H. unfold wants_retry in H. apply andb_true_iff in H as [H%Z.ltb_lt _]. done. Qed.

Lemma retries_left_add rows k row : rows !! k = None ->
  retries_left (<[k := row]> rows) = retries_of row + retries_left rows.
Proof. intros Hk. unfold retries_left.
  apply (map_fold_insert_L (fun (_ : string) row acc => retries_of row + acc) 0); [intros; lia|done]. Qed.

Lemma retries_left_split rows k row : rows !! k = Some row ->
  retries_left rows = retries_of row + retries_left (delete k rows).
Proof. intros Hk. unfold retries_left.
  apply (map_fold_delete_L (fun (_ : string) row acc => retries_of row + acc) 0); [intros; lia|done]. Qed.

Lemma retries_left_update rows k row row' : rows !! k = Some row ->
  retries_left (<[k := row']> rows) = retries_left rows - retries_of row + retries_of row'.
Proof.
  intros Hk. rewrite (retries_left_split rows k row Hk), <- (insert_delete_eq rows k row').
  rewrite retries_left_add by apply lookup_delete_eq. lia.
Qed.

Lemma retries_left_nonneg rows : 0 <= retries_left rows.
Proof.
  unfold retries_left. apply (map_fold_weak_ind (fun acc _ => 0 <= acc)); [lia|].
  intros k row m acc _ H. pose proof (retries_of_nonneg row). lia.
Qed.

(** Rows are kept under their trace's id. *)
Definition keyed_rows (rows : gmap string TONTrace) : Prop :=
  forall k row, rows !! k = Some row -> row_trace_id row = k.

Definition retry_step (now : Z) (rows : gmap string TONTrace) (t : Trace) : gmap string TONTrace :=
  if is_incomplete t then alter one_less (trace_id t) rows else take_in now rows t.

Lemma retry_step_keyed now rows t : keyed_rows rows -> keyed_rows (retry_step now rows t).
Proof.
  intros Hk k row. unfold retry_step. destruct (is_incomplete t).
  - destruct (decide (k = trace_id t)) as [->|Hne]; [|rewrite lookup_alter_ne by done; apply Hk].
    rewrite lookup_alter_eq. destruct (rows !! trace_id t) as [r|] eqn:E; [|done].
    intros [= <-]. simpl. by apply Hk.
  - destruct (decide (k = trace_id t)) as [->|Hne]; [|rewrite take_in_other by done; apply Hk].
    unfold take_in, upsert_row. destruct (rows !! trace_id t) as [r|] eqn:E.
    + destruct (distinct r _); [|by rewrite E; intros [= <-]; apply Hk].
      rewrite lookup_insert_eq. intros [= <-]. simpl. by apply Hk.
    + rewrite lookup_insert_eq. by intros [= <-].
Qed.

Lemma retry_step_other now rows t k : k <> trace_id t -> retry_step now rows t !! k = rows !! k.
Proof. intros Hk. unfold retry_step. destruct (is_incomplete t); [by rewrite lookup_alter_ne by done|by apply take_in_other]. Qed.

Lemma one_less_retries row : retries_of (one_less row) <= retries_of row /\
  (wants_retry row = true -> retries_of (one_less row) < retries_of row).
Proof.
  unfold retries_of, wants_retry, one_less. simpl.
  destruct (Z.ltb_spec 0 (retries row)), (Z.ltb_spec 0 (retries row - 1)), (row_is_incomplete row); simpl;
    (split; [lia|intros; lia || done]).
Qed.

Lemma take_in_retries now rows t : is_incomplete t = false ->
  retries_left (take_in now rows t) <= retries_left rows /\
  (forall row, rows !! trace_id t = Some row -> wants_retry row = true ->
     retries_left (take_in now rows t) < retries_left rows).
Proof.
  intros Hc. destruct (take_in_row now rows t) as (row' & Hrow' & _ & Hi). rewrite Hc in Hi.
  assert (Hz : forall r : TONTrace, row_is_incomplete r = false -> retries_of r = 0).
  { intros r Hr. unfold retries_of, wants_retry. rewrite Hr. by rewrite andb_false_r. }
  revert Hrow'. unfold take_in, upsert_row. destruct (rows !! trace_id t) as [row|] eqn:E.
  - destruct (distinct row _).
    + intros _. rewrite (retries_left_update _ _ row _ E), (Hz (mkTONTrace _ _ _ _ _ _ _ _ _)) by done.
      pose proof (retries_of_nonneg row). split; [lia|].
      intros ? [= <-] Hw. pose proof (retries_of_wanted row Hw). lia.
    + rewrite E. intros [= <-]. split; [lia|]. intros ? [= <-] Hw. pose proof (retries_of_wanted row Hw).
      rewrite Hz in * by done. lia.
  - intros _. rewrite retries_left_add by done. rewrite Hz by done. split; [lia|done].
Qed.

Lemma retry_step_retries now rows t :
  retries_left (retry_step now rows t) <= retries_left rows /\
  (forall row, rows !! trace_id t = Some row -> wants_retry row = true ->
     retries_left (retry_step now rows t) < retries_left rows).
Proof.
  unfold retry_step. destruct (is_incomplete t) eqn:Hc; [|by apply take_in_retries].
  destruct (rows !! trace_id t) as [row|] eqn:E.
  - replace (alter one_less (trace_id t) rows) with (<[trace_id t := one_less row]> rows)
      by (apply map_eq; intros k; destruct (decide (k = trace_id t)) as [->|?];
          [by rewrite lookup_insert_eq, lookup_alter_eq, E|by rewrite lookup_insert_ne, lookup_alter_ne]).
    rewrite (retries_left_update _ _ row _ E). destruct (one_less_retries row) as [Hle Hlt].
    split; [lia|]. intros ? [= <-] Hw. specialize (Hlt Hw). lia.
  - replace (alter one_less (trace_id t) rows) with rows; [by split|].
    apply map_eq. intros k. destruct (decide (k = trace_id t)) as [->|?];
      [by rewrite lookup_alter_eq, E|by rewrite lookup_alter_ne].
Qed.

Lemma retry_steps_retries now rows ts :
  retries_left (foldl (retry_step now) rows ts) <= retries_left rows /\
  (forall t row, t ∈ ts -> rows !! trace_id t = Some row -> wants_retry row = true ->
     retries_left (foldl (retry_step now) rows ts) < retries_left rows).
Proof.
  revert rows. induction ts as [|t ts IH]; intros rows; cbn [foldl].
  - split; [lia|]. by intros ? ? ?%not_elem_of_nil.
  - destruct (IH (retry_step now rows t)) as [Hle Hlt]. destruct (retry_step_retries now rows t) as [Hle1 Hlt1].
    split; [lia|]. intros t' row Hin Hr Hw. destruct (decide (trace_id t' = trace_id t)) as [Hid|Hid].
    + rewrite Hid in Hr. specialize (Hlt1 row Hr Hw). lia.
    + apply elem_of_cons in Hin as [->|Hin]; [done|].
      assert (retries_left (foldl (retry_step now) (retry_step now rows t) ts) < retries_left (retry_step now rows t)).
      { apply (Hlt t' row Hin); [by rewrite retry_step_other|done]. }
      lia.
Qed.

Fixpoint retry_fresh (now : Z) (rows : gmap string TONTrace) (ts : list Trace) : list Trace :=
  match ts with
  | [] => []
  | t :: ts => (if is_new rows t && negb (is_incomplete t) then [t] else []) ++
               retry_fresh now (retry_step now rows t) ts
  end.

Lemma retry_fresh_complete now rows ts t :
  t ∈ retry_fresh now rows ts -> t ∈ ts /\ is_incomplete t = false.
Proof.
  revert rows. induction ts as [|t' ts IH]; intros rows; cbn [retry_fresh]; [by intros ?%not_elem_of_nil|].
  intros [Hin|Hin]%elem_of_app.
  - destruct (is_new rows t'), (is_incomplete t') eqn:Hc; simpl in Hin; try by apply not_elem_of_nil in Hin.
    apply list_elem_of_singleton in Hin as ->. split; [by left|done].
  - destruct (IH _ Hin). split; [by right|done].
Qed.

Lemma retry_loop_run ts acc (w : W) :
  faults (sub_traces w) = [] ->
  retry_loop ts acc w =
    (Done (Ok (acc ++ retry_fresh (clock (sub_traces w)) (tables (sub_traces w)) ts)),
     mkSub (mkStore (foldl (retry_step (clock (sub_traces w))) (tables (sub_traces w)) ts) (clock (sub_traces w)) [])
       (sub_db w) (sub_client w) (sub_published w)).
Proof.
  revert acc w. induction ts as [|t ts IH]; intros acc w Hf; cbn [retry_loop retry_fresh foldl].
  - rewrite app_nil_r. destruct w as [[ta c f] ? ? ?]. simpl in *. by subst.
  - rewrite bind_run. cbn [utc_now sub_now].
    assert (Hs : retry_step (clock (sub_traces w)) (tables (sub_traces w)) t =
      if is_incomplete t then alter one_less (trace_id t) (tables (sub_traces w))
      else take_in (clock (sub_traces w)) (tables (sub_traces w)) t) by done.
    rewrite Hs. clear Hs. cbv zeta. cbn [row_is_incomplete trace_from]. fold (trace_from (clock (sub_traces w)) t). destruct (is_incomplete t) eqn:Hc; rewrite bind_ok_run.
    + simpl decrease_retry. unfold via_traces, pg_decrease_retry, sql_exec.
      rewrite sql_no_fault by (unfold next_fault; by rewrite Hf). rewrite Hf. cbn [snd fst tail].
      rewrite IH by done. cbn [sub_traces sub_db sub_client sub_published tables clock].
      by rewrite andb_false_r.
    + rewrite upsert_runs by done. rewrite upsert_row_new, IH by done.
      cbn [sub_traces sub_db sub_client sub_published tables clock].
      do 3 f_equal. destruct (is_new _ _ && _); [by rewrite <- app_assoc|done].
Qed.
(** The traces the next retry asks for. *)
Definition asked (rows : gmap string TONTrace) : list TONTrace :=
  take 100 (merge_sort oldest_first (filter wants_retry (snd <$> map_to_list rows))).

Lemma asked_wanted rows row : row ∈ asked rows ->
  wants_retry row = true /\ exists k, rows !! k = Some row.
Proof.
  intros Hin. unfold asked in Hin. apply elem_of_take in Hin as (i & Hi & _).
  apply list_elem_of_lookup_2 in Hi. rewrite merge_sort_Permutation in Hi.
  apply list_elem_of_filter in Hi as [Hw ((k & r) & -> & Hk)%list_elem_of_fmap].
  simpl in *. split; [by destruct (wants_retry r)|]. exists k. by apply elem_of_map_to_list.
Qed.

Lemma asked_nil rows : keyed_rows rows -> retries_left rows = 0 -> asked rows = [].
Proof.
  intros Hk Hz. destruct (asked rows) as [|row l] eqn:E; [done|].
  destruct (asked_wanted rows row) as [Hw (k & Hr)]; [rewrite E; by left|].
  pose proof (retries_of_wanted row Hw). rewrite (retries_left_split rows k row Hr) in Hz.
  pose proof (retries_left_nonneg (delete k rows)). lia.
Qed.

Lemma retry_poll_run account (w : W) :
  faults (sub_traces w) = [] -> asked (tables (sub_traces w)) <> [] ->
  retry_poll_account account w =
    (let? traces := map_err show_ClientError
       (get_traces_for_account None (Some (map row_trace_id (asked (tables (sub_traces w))))) None) in
     retry_loop traces []) (mkSub (advance 5 (sub_traces w)) (sub_db w) (sub_client w) (sub_published w)).
Proof.
  intros Hf Ha. unfold retry_poll_account. rewrite bind_run. simpl sleep. unfold modify. rewrite bind_ok_run.
  simpl fetch_retry. unfold via_traces at 1, pg_fetch_retry, sql_query. cbn [sub_traces].
  rewrite sql_no_fault by (unfold next_fault; simpl; by rewrite Hf). cbn [fst snd tables advance].
  fold (asked (tables (sub_traces w))). destruct (asked (tables (sub_traces w))); [done|].
  simpl. unfold advance. by rewrite Hf.
Qed.

(** Trying again ends.  Every round in which the chain's API answers at
    least one of the traces it was asked for lowers the number of retries
    left, a number that is never negative; a round with none left asks for
    nothing; and what a round publishes is complete. *)
Theorem retry_progress (account : TonAddress) (w : W) (ts : list Trace) (x : X) :
  faults (sub_traces w) = [] -> keyed_rows (tables (sub_traces w)) ->
  get_traces_for_account None (Some (map row_trace_id (asked (tables (sub_traces w))))) None (sub_client w)
    = (Done (Ok ts), x) ->
  exists w', subscriber_work (TP := RetryTONPoller) tt account w = (Done tt, w') /\
    keyed_rows (tables (sub_traces w')) /\ 0 <= retries_left (tables (sub_traces w')) <= retries_left (tables (sub_traces w)) /\
    (forall t, t ∈ ts -> trace_id t ∈ map row_trace_id (asked (tables (sub_traces w))) ->
       retries_left (tables (sub_traces w')) < retries_left (tables (sub_traces w))) /\
    (retries_left (tables (sub_traces w)) = 0 -> tables (sub_traces w') = tables (sub_traces w)) /\
    (exists new, sub_published w' = sub_published w ++ map TON new /\ forall t, t ∈ new -> is_incomplete t = false).
Proof.
  intros Hf Hk Ha. unfold subscriber_work. cbn [poll_account RetryTONPoller]. rewrite bind_run, bind_run.
  destruct (decide (asked (tables (sub_traces w)) = [])) as [Hn|Hn].
  - unfold retry_poll_account. rewrite bind_run. simpl sleep. unfold modify at 1. rewrite bind_ok_run.
    simpl fetch_retry. unfold via_traces at 1, pg_fetch_retry, sql_query. cbn [sub_traces].
    rewrite sql_no_fault by (unfold next_fault; simpl; by rewrite Hf). cbn [fst snd tables advance].
    fold (asked (tables (sub_traces w))). rewrite Hn. simpl. eexists. split; [reflexivity|]. simpl.
    pose proof (retries_left_nonneg (tables (sub_traces w))).
    split; [done|]. split; [lia|]. split; [by intros ? ? ?%not_elem_of_nil|]. split; [done|].
    exists []. rewrite app_nil_r. split; [done|]. by intros ? ?%not_elem_of_nil.
  - rewrite retry_poll_run by done. rewrite bind_ok_run, map_err_run. cbn [get_traces_for_account sub_rest].
    unfold via_client. cbn [sub_client]. rewrite Ha. cbn [rmap_err].
    rewrite retry_loop_run by (simpl; by rewrite Hf). cbn [ret fst snd app]. rewrite bind_run, publish_all_run.
    eexists. split; [reflexivity|]. cbn [sub_traces sub_published tables clock advance].
    set (now := clock (sub_traces w) + 5). set (rows := tables (sub_traces w)) in *.
    destruct (retry_steps_retries now rows ts) as [Hle Hlt].
    assert (Hkey : forall l r, keyed_rows r -> keyed_rows (foldl (retry_step now) r l)).
    { induction l as [|t l IH]; intros r Hr; [done|]. apply IH. by apply retry_step_keyed. }
    split; [by apply Hkey|]. split; [pose proof (retries_left_nonneg (foldl (retry_step now) rows ts)); simpl; lia|].
    split; [|split].
    + intros t Hin (row & Hid & Hrow)%list_elem_of_fmap. destruct (asked_wanted rows row Hrow) as [Hw (k & Hr)].
      apply (Hlt t row); [done| |done]. rewrite Hid. by rewrite (Hk _ _ Hr).
    + intros Hz. by destruct Hn; apply asked_nil.
    + eexists. split; [reflexivity|]. intros t Hin. by apply retry_fresh_complete in Hin as [_ ?].
Qed.

(** A trace the chain's API does not answer is asked for for ever.  When
    none of the (at most hundred) traces asked for is answered, the round
    leaves the table as it was, so the next round asks for the same traces:
    the ones behind them are never reached. *)
Theorem retry_starves (account : TonAddress) (rounds : nat) (w : W) :
  faults (sub_traces w) = [] ->
  (forall x : X, get_traces_for_account None (Some (map row_trace_id (asked (tables (sub_traces w))))) None x
     = (Done (Ok []), x)) ->
  exists w', subscriber_run (TP := RetryTONPoller) rounds tt account w = (Done tt, w') /\
    tables (sub_traces w') = tables (sub_traces w) /\ asked (tables (sub_traces w')) = asked (tables (sub_traces w)) /\
    sub_published w' = sub_published w.
Proof.
  intros Hf Ha. induction rounds as [|rounds IH] in w, Hf, Ha |- *; [by exists w|]. cbn [subscriber_run].
  assert (E : exists c, subscriber_work (TP := RetryTONPoller) tt account w =
    (Done tt, mkSub (mkStore (tables (sub_traces w)) c []) (sub_db w) (sub_client w) (sub_published w))).
  { unfold subscriber_work. cbn [poll_account RetryTONPoller]. rewrite bind_run, bind_run.
    destruct (decide (asked (tables (sub_traces w)) = [])) as [Hn|Hn].
    - unfold retry_poll_account. rewrite bind_run. simpl sleep. unfold modify at 1. rewrite bind_ok_run.
      simpl fetch_retry. unfold via_traces at 1, pg_fetch_retry, sql_query. cbn [sub_traces].
      rewrite sql_no_fault by (unfold next_fault; simpl; by rewrite Hf). cbn [fst snd tables advance].
      fold (asked (tables (sub_traces w))). rewrite Hn. simpl. unfold advance. simpl. rewrite Hf. simpl. by eexists.
    - rewrite retry_poll_run by done. rewrite bind_ok_run, map_err_run. cbn [get_traces_for_account sub_rest].
      unfold via_client. cbn [sub_client]. rewrite Ha. simpl. unfold advance. simpl. rewrite Hf. by eexists. }
  destruct E as (c & E). rewrite bind_run, E.
  destruct (IH (mkSub (mkStore (tables (sub_traces w)) c []) (sub_db w) (sub_client w) (sub_published w)))
    as (w' & E' & Ht & Hq & Hp); [done|exact Ha|]. exists w'. by split.
Qed.
End world.

(** ** Concrete runs *)

Import DbDemo.

Module SubscriberDemo.
#[export] Instance xrpl : XrplLib := {| XrplTransaction := unit |}.
#[export] Instance ton : TonLib := text_ton.
#[export] Instance jsonb : Jsonb := {| jsonb_eq := fun a b => bool_decide (length a = length b) |}.
#[export] Instance jsonb_laws : JsonbLaws.
Proof. split. intros l. by apply bool_decide_eq_true_2. Qed.

(** An API that answers the given batches, one per call, then nothing. *)
#[export] Instance script : RestClient (list (list Trace)) := {|
  post_v3_message := fun _ => ret (Err (CliConnectionFailed "offline"));
  get_traces_for_account := fun _ _ _ x => (Done (Ok (hd [] x)), tl x);
  get_account_states := fun _ => ret (Ok []);
|}.
(** One that may also fail. *)
#[export] Instance flaky : RestClient (list (result (list Trace) ClientError)) := {|
  post_v3_message := fun _ => ret (Err (CliConnectionFailed "offline"));
  get_traces_for_account := fun _ _ _ x => (Done (hd (Ok []) x), tl x);
  get_account_states := fun _ => ret (Ok []);
|}.
(** One that knows no trace. *)
Definition ignorant : RestClient unit := {|
  post_v3_message := fun _ => ret (Err (CliConnectionFailed "offline"));
  get_traces_for_account := fun _ _ _ => ret (Ok []);
  get_account_states := fun _ => ret (Ok []);
|}.

Definition trace (id : string) (incomplete : bool) : Trace := mkTrace incomplete 1 2 id [].
Definition pending_row (id : string) : TONTrace := mkTONTrace id true 1 2 2 [] None 0 None.
Definition world {X} (rows : gmap string TONTrace) (faults : list (option string)) (x : X) : SubWorld X :=
  mkSub (mkStore rows 0 faults) DbDemo.empty x [].
Definition self : TONSubscriber := mkTONSubscriber (-1) "ctx" "ton".
Definition acct : TonAddress := "account".
End SubscriberDemo.
Import SubscriberDemo.

Definition three_polls : list (result (list Trace) ClientError) :=
  [Ok [trace "a" true; trace "b" false]; Err (CliConnectionFailed "timeout"); Ok [trace "b" false; trace "a" false]].

Lemma traces_published_once_witness :
  exists self' w' out, subscriber_run (TP := TONPoller) 3 self acct (world ∅ [] three_polls) = (Done self', w') /\
    sub_published w' = map TON out /\ NoDup out /\
    out `sublist_of` [trace "a" true; trace "b" false; trace "b" false; trace "a" false] /\
    (forall t, t ∈ out -> is_incomplete t = false) /\
    (@nil (option string) = [] -> forall t, t ∈ [trace "a" true; trace "b" false; trace "b" false; trace "a" false] ->
       is_incomplete t = false -> t ∈ out).
Proof.
  apply (traces_published_once self acct three_polls (world ∅ [] three_polls)); try reflexivity.
  - repeat split; eexists; (split; [reflexivity|]); try done. eexists. split; [reflexivity|]. eexists. by split.
  - intros pre t mid t' post E Hid Hc. change (answered_traces three_polls) with
      [trace "a" true; trace "b" false; trace "b" false; trace "a" false] in E.
    destruct pre as [|? [|? [|? [|? [|]]]]]; simplify_eq/=;
      destruct mid as [|? [|? [|? [|]]]]; simplify_eq/=; done.
Defined.

Lemma poll_error_loses_traces_witness :
  exists w', subscriber_work (TP := TONPoller) self acct
      (world ∅ [None; Some "connection reset"] [[trace "a" false; trace "b" false]; [trace "a" false]]) =
      (Done (moved self [trace "a" false; trace "b" false]), w') /\
    sub_published w' = [] /\
    (forall t, t ∈ [trace "a" false] -> stored (tables (sub_traces w')) t) /\
    (forall self2 db2 (x2 x3 : list (list Trace)) c2,
       get_traces_for_account (Some acct) None (start_of self2) x2 = (Done (Ok [trace "a" false]), x3) ->
       sub_published (snd (subscriber_work (TP := TONPoller) self2 acct
         (mkSub (mkStore (tables (sub_traces w')) c2 []) db2 x2 (sub_published w')))) = []).
Proof.
  apply (poll_error_loses_traces self acct [trace "a" false] [trace "b" false] "connection reset" []
    (world ∅ [None; Some "connection reset"] [[trace "a" false; trace "b" false]; [trace "a" false]]) [[trace "a" false]]);
    try done. apply NoDup_singleton.
Defined.

Lemma retry_progress_witness :
  let w := world {[ "a" := pending_row "a" ]} [] [[trace "a" true]] in
  exists w', subscriber_work (TP := RetryTONPoller) tt acct w = (Done tt, w') /\
    keyed_rows (tables (sub_traces w')) /\ 0 <= retries_left (tables (sub_traces w')) <= retries_left (tables (sub_traces w)) /\
    (forall t, t ∈ [trace "a" true] -> trace_id t ∈ map row_trace_id (asked (tables (sub_traces w))) ->
       retries_left (tables (sub_traces w')) < retries_left (tables (sub_traces w))) /\
    (retries_left (tables (sub_traces w)) = 0 -> tables (sub_traces w') = tables (sub_traces w)) /\
    (exists new, sub_published w' = sub_published w ++ map TON new /\ forall t, t ∈ new -> is_incomplete t = false).
Proof.
  apply (retry_progress acct (world {[ "a" := pending_row "a" ]} [] [[trace "a" true]]) [trace "a" true] []);
    [reflexivity| |reflexivity].
  intros k row H. change (({[ "a" := pending_row "a" ]} : gmap string TONTrace) !! k = Some row) in H. apply lookup_singleton_Some in H as [<- <-]. reflexivity.
Defined.

Lemma retry_starves_witness :
  let w := world {[ "a" := pending_row "a" ]} [] tt in
  exists w', subscriber_run (TP := RetryTONPoller (CL := sub_rest (CL := ignorant))) 7 tt acct w = (Done tt, w') /\
    tables (sub_traces w') = tables (sub_traces w) /\
    asked (tables (sub_traces w')) = asked (tables (sub_traces w)) /\
    sub_published w' = sub_published w.
Proof.
  apply (retry_starves (CL := ignorant) acct 7 (world {[ "a" := pending_row "a" ]} [] tt)); [reflexivity|].
  intros []. reflexivity.
Defined.
