(* ===== verification/TonClient.v ===== *)
(** * The client of the TON API

    [ton/src/client.rs]: the three requests of [RestClient] and what becomes
    of their answers, and [ton/src/check_accounts.rs] above it.  The HTTP
    client with its retries is the class [TonHttp]; serde's readers are
    [TonReaders]. *)

From S2P Require Import Prelude.
From S2P Require Import Decimal.
From S2P Require Import GmpTypes.
From S2P Require Import GmpAudit.
From S2P Require Import Database.
From S2P Require Import TonTrace.
From S2P Require Import Text.
From S2P Require Import Utf8.
From S2P Require Import TonLib.
From S2P Require Import TonTypes.
From S2P Require Import GasCalculator.
From S2P Require Import Subscriber.

(** ** [reqwest] and [serde_json] *)

Inductive Verb : Type := Get | Post.

Record TonRequest : Type := mkTonRequest {
  verb : Verb;
  target : string;
  api_key_header : string;
  params : list (string * string);
  json_body : option Value;
}.

(** A response: its status and what reading the body as text or as bytes
    gives. *)
Record TonResponse : Type := mkTonResponse {
  status : Z;
  body_text : result string string;
  body_bytes : result string string;
}.

Class TonHttp (W : Type) : Type := {
  ton_send : TonRequest -> M W (result TonResponse string);
  show_status : Z -> string;
}.

(** src/ton/src/client.rs:50-54 V3ErrorResponse *)
Record V3ErrorResponse : Type := mkV3Error { code : Z; v3_error : string }.

Class TonReaders `{!TonLib} : Type := {
  read_v3_message : string -> result V3MessageResponse string;
  read_v3_error : string -> result V3ErrorResponse string;
  read_traces : string -> result TracesResponseRest string;
  read_account_states : string -> result (list AccountState) string;
}.

(** [StatusCode::is_success]. *)
Definition status_success (s : Z) : bool := (200 <=? s) && (s <? 300).

(** ** The client *)

(** src/ton/src/client.rs:37-42 TONRpcClient *)
Record TONRpcClient : Type := mkTONRpcClient { client_url : string; api_key : string }.

(** The characters that are kept: all but the controls, of which a new line
    and a tab are. *)
Definition readable (c : string) : bool :=
  negb (is_control c) || bool_decide (c = String "010" EmptyString) || bool_decide (c = String "009" EmptyString).

(** src/ton/src/client.rs:123-130 clean_json_string_full *)
Definition clean_json_string_full (input : string) : string :=
  let json_str := from_utf8_lossy input in
  concat_chars (filter (fun c => readable c = true) (chars (remove_all "\u0000" json_str))).

Section client.
Context {L : TonLib} {W : Type} {H : TonHttp W} {R : TonReaders}.

(** src/ton/src/client.rs:102-120 TONRpcClient::handle_non_success_response *)
Definition handle_non_success_response (status : Z) (text : string) : ClientError :=
  if status =? 400 then
    match read_v3_error text with
    | Ok err_body => CliBadRequest (v3_error err_body)
    | Err err => CliBadResponse ("Invalid 400 body: " +:+ err)
    end
  else CliBadResponse ("Unexpected status " +:+ show_status status +:+ ": " +:+ text).

Definition endpoint (self : TONRpcClient) (path : string) : string :=
  trim_end_char "/" (client_url self) +:+ path.

(** src/ton/src/client.rs:134-161 TONRpcClient::post_v3_message *)
Definition client_post_v3_message (self : TONRpcClient) (boc : string) :
  M W (result V3MessageResponse ClientError) :=
  let? response := map_err CliConnectionFailed (ton_send
    (mkTonRequest Post (endpoint self "/api/v3/message") (api_key self) [] (Some (VObject [("boc", VString boc)])))) in
  let? text := ret (rmap_err CliBadResponse (body_text response)) in
  ret (if status_success (status response) then
         rmap_err (fun err => CliBadResponse ("Failed to parse success response: " +:+ err)) (read_v3_message text)
       else Err (handle_non_success_response (status response) text)).

(** src/ton/src/client.rs:171-185 TONRpcClient::get_traces_for_account (the parameters of the query) *)
Definition traces_params (account : option TonAddress) (trace_ids : option (list string)) (start_lt : option Z) :
  list (string * string) :=
  [("limit", "100")] ++
  match account with Some account => [("account", address_to_string account)] | None => [] end ++
  map (fun t => ("trace_id", t)) (default [] trace_ids) ++
  match start_lt with Some lt_min_val => [("start_lt", print_Z (wrap_i64 (lt_min_val + 1)))] | None => [] end.

(** src/ton/src/client.rs:163-219 TONRpcClient::get_traces_for_account *)
Definition client_get_traces_for_account (self : TONRpcClient) (account : option TonAddress)
    (trace_ids : option (list string)) (start_lt : option Z) : M W (result (list Trace) ClientError) :=
  let? response := map_err CliConnectionFailed (ton_send
    (mkTonRequest Get (endpoint self "/api/v3/traces") (api_key self) (traces_params account trace_ids start_lt) None)) in
  let? raw_bytes := ret (rmap_err CliBadResponse (body_bytes response)) in
  let clean_text := clean_json_string_full raw_bytes in
  ret (if status_success (status response) then
         match read_traces clean_text with
         | Ok rest => Ok (traces (traces_of_rest rest))
         | Err err => Err (CliBadResponse ("Failed to parse traces list: " +:+ err))
         end
       else Err (handle_non_success_response (status response) clean_text)).

(** src/ton/src/client.rs:221-257 TONRpcClient::get_account_states *)
Definition client_get_account_states (self : TONRpcClient) (addresses : list TonAddress) :
  M W (result (list AccountState) ClientError) :=
  let query_params := ("include_boc", "false") :: map (fun a => ("address", address_to_string a)) addresses in
  let? response := map_err CliConnectionFailed (ton_send
    (mkTonRequest Get (endpoint self "/api/v3/accountStates") (api_key self) query_params None)) in
  let? text := ret (rmap_err CliBadResponse (body_text response)) in
  ret (if status_success (status response) then
         rmap_err (fun err => CliBadResponse ("Failed to parse account states: " +:+ err)) (read_account_states text)
       else Err (handle_non_success_response (status response) text)).

Definition ton_rest_client (self : TONRpcClient) : RestClient W := {|
  post_v3_message := client_post_v3_message self;
  get_traces_for_account := client_get_traces_for_account self;
  get_account_states := client_get_account_states self;
|}.
End client.

(** ** The account checker *)

Section checker.
Context {L : TonLib} {W : Type} {CL : RestClient W} {TT : Timer W}.

(** src/ton/src/check_accounts.rs:38-79 check_accounts (one round: what is logged of each account) *)
Definition check_round (addresses : list TonAddress) (min_balance : Z) :
  M W (result (list (AccountState * AccountCheckStatus)) ClientError) :=
  let? accounts := get_account_states addresses in
  ret (Ok (map (fun account => (account, check_account_status account min_balance)) accounts)).

(** src/ton/src/check_accounts.rs:32-80 check_accounts ([rounds] more rounds, when it goes on for ever) *)
Fixpoint check_accounts (rounds : nat) (addresses : list TonAddress) (min_balance : Z) (forever : bool) :
  M W (list (result (list (AccountState * AccountCheckStatus)) ClientError)) :=
  let! r := check_round addresses min_balance in
  match rounds with
  | O => ret [r]
  | S rounds =>
      if negb forever then ret [r]
      else let! _s := sleep 45 in
           let! rs := check_accounts rounds addresses min_balance forever in ret (r :: rs)
  end.
End checker.

(** ** Properties *)

Lemma clean_chars input : chars (clean_json_string_full input) =
  filter (fun c => readable c = true) (chars (remove_all "\u0000" (from_utf8_lossy input))).
Proof.
  apply chars_concat, Forall_forall. intros c Hc%list_elem_of_filter.
  eapply Forall_forall; [apply chars_are_chars|]. exact (proj2 Hc).
Qed.

(** What the cleaning of a document gives.  Whatever bytes the API sends,
    the result is well-formed UTF-8 and holds no control character but new
    lines and tabs, and a well-formed document without controls and without
    an escaped null is not changed at all. *)
Theorem clean_text (input : string) :
  Forall (fun c => is_control c = true -> c = String "010" EmptyString \/ c = String "009" EmptyString)
    (chars (clean_json_string_full input)) /\
  from_utf8_lossy (clean_json_string_full input) = clean_json_string_full input /\
  (utf8_valid input = true -> contains "\u0000" input = false ->
   Forall (fun c => is_control c = false) (chars input) -> clean_json_string_full input = input).
Proof.
  split; [|split].
  - rewrite clean_chars. apply Forall_forall. intros c [Hr _]%list_elem_of_filter Hc. unfold readable in Hr.
    rewrite Hc in Hr. simpl in Hr. rewrite orb_true_iff, !bool_decide_eq_true in Hr. done.
  - unfold from_utf8_lossy at 1. rewrite clean_chars. reflexivity.
  - intros Hv Hn Hc. unfold clean_json_string_full. rewrite (lossy_valid _ Hv), (remove_absent _ _ Hn).
    rewrite filter_all; [by apply lossy_valid|]. eapply Forall_impl; [exact Hc|].
    intros c Hc'. unfold readable. by rewrite Hc'.
Qed.

(** The text of an escaped backslash followed by "u0000" loses its second
    backslash: what is left escapes the quote that ends the string, and the
    document does not parse any more. *)
Example clean_breaks_escapes :
  let quote := String "034" EmptyString in
  clean_json_string_full ("{" +:+ quote +:+ "comment" +:+ quote +:+ ":" +:+ quote +:+ "\\u0000" +:+ quote +:+ "}") =
  "{" +:+ quote +:+ "comment" +:+ quote +:+ ":" +:+ quote +:+ "\" +:+ quote +:+ "}".
Proof. vm_compute. reflexivity. Qed.

(** The removal can leave an escaped null behind. *)
Example clean_leaves_null : clean_json_string_full "\u00\u000000" = "\u0000".
Proof. vm_compute. reflexivity. Qed.

Section client_properties.
Context {L : TonLib} {W : Type} {H : TonHttp W} {R : TonReaders}.

(** What an error of the client says about the answer [r] of the API to the
    request; [text] is the body as the call reads it. *)
Definition explains (r : outcome (result TonResponse string)) (body : TonResponse -> result string string)
    (e : ClientError) : Prop :=
  match e with
  | CliConnectionFailed m => r = Done (Err m)
  | CliBadRequest m => exists resp text body_error, r = Done (Ok resp) /\ status resp = 400 /\
      body resp = Ok text /\ read_v3_error text = Ok body_error /\ v3_error body_error = m
  | CliBadResponse _ => exists resp, r = Done (Ok resp)
  end.

Lemma explains_status resp text r body :
  r = Done (Ok resp) -> body resp = Ok text -> explains r body (handle_non_success_response (status resp) text).
Proof.
  intros -> Hb. unfold handle_non_success_response. destruct (Z.eqb_spec (status resp) 400) as [Hs|Hs].
  - destruct (read_v3_error text) as [b|e] eqn:E; simpl; [by exists resp, text, b|by exists resp].
  - by exists resp.
Qed.

Definition clean_body (r : TonResponse) : result string string :=
  match body_bytes r with Ok b => Ok (clean_json_string_full b) | Err e => Err e end.

(** How a call ends, given its request, the way it reads the body and the
    value a document stands for. *)
Definition call_ends {T} (m : M W (result T ClientError)) (req : TonRequest)
    (body : TonResponse -> result string string) (read : string -> result T string) : Prop :=
  forall w r w', m w = (Done r, w') ->
    snd (ton_send req w) = w' /\
    match r with
    | Ok v => exists resp text, fst (ton_send req w) = Done (Ok resp) /\
        200 <= status resp < 300 /\ body resp = Ok text /\ read text = Ok v
    | Err e => explains (fst (ton_send req w)) body e
    end.

Lemma call_ends_ok {T} (req : TonRequest) body (read : string -> result T string) (msg : string) (m : M W (result T ClientError)) :
  (forall w, m w = (let? response := map_err CliConnectionFailed (ton_send req) in
       let? text := ret (rmap_err CliBadResponse (body response)) in
       ret (if status_success (status response) then
              rmap_err (fun err => CliBadResponse (msg +:+ err)) (read text)
            else Err (handle_non_success_response (status response) text))) w) ->
  call_ends m req body read.
Proof.
  intros Hm w r w'. rewrite Hm. clear Hm. rewrite bind_ok_run, map_err_run.
  destruct (ton_send req w) as [[[resp|e]|why] w1]; simpl; [|by intros [= <- <-]|done].
  rewrite bind_ok_run. destruct (body resp) as [text|e] eqn:Hb; simpl; [|intros [= <- <-]; split; [done|by exists resp]].
  unfold status_success. destruct (Z.leb_spec 200 (status resp)), (Z.ltb_spec (status resp) 300); simpl; intros [= <- <-].
  1: destruct (read text) as [v|e] eqn:Er; simpl; (split; [done|]); [by exists resp, text|by exists resp].
  all: split; [done|by apply explains_status].
Qed.

Variable self : TONRpcClient.

Definition message_request (boc : string) : TonRequest :=
  mkTonRequest Post (endpoint self "/api/v3/message") (api_key self) [] (Some (VObject [("boc", VString boc)])).

Definition traces_request account trace_ids start_lt : TonRequest :=
  mkTonRequest Get (endpoint self "/api/v3/traces") (api_key self) (traces_params account trace_ids start_lt) None.

Definition states_request (addresses : list TonAddress) : TonRequest :=
  mkTonRequest Get (endpoint self "/api/v3/accountStates") (api_key self)
    (("include_boc", "false") :: map (fun a => ("address", address_to_string a)) addresses) None.

Definition read_trace_list (text : string) : result (list Trace) string :=
  match read_traces text with Ok rest => Ok (traces (traces_of_rest rest)) | Err e => Err e end.

Lemma traces_call_ends account trace_ids start_lt :
  call_ends (client_get_traces_for_account self account trace_ids start_lt)
    (traces_request account trace_ids start_lt) clean_body read_trace_list.
Proof.
  apply (call_ends_ok _ _ _ "Failed to parse traces list: "). intros w.
  unfold client_get_traces_for_account, traces_request. rewrite !bind_ok_run.
  destruct (map_err _ _ w) as [[[resp|e]|why] w1]; [|done..]. rewrite !bind_ok_run.
  unfold clean_body, read_trace_list. destruct (body_bytes resp) as [b|e]; [|done]. cbn [ret rmap_err].
  by destruct (status_success (status resp)), (read_traces (clean_json_string_full b)).
Qed.

(** The three calls of the client, on every branch.  A call makes one
    request (the HTTP client's own retries aside) and does nothing else; it
    answers a value only if the API answered with a status of 200 to 299 and a
    document that reads as that value; "connection failed" means there was no
    answer, "bad request" that the status was 400 and the text is the API's
    own, and everything else is a "bad response". *)
Theorem client_calls (boc : string) (account : option TonAddress) (ids : option (list string))
    (start_lt : option Z) (addresses : list TonAddress) :
  call_ends (client_post_v3_message self boc) (message_request boc) body_text read_v3_message /\
  call_ends (client_get_traces_for_account self account ids start_lt)
    (traces_request account ids start_lt) clean_body read_trace_list /\
  call_ends (client_get_account_states self addresses) (states_request addresses) body_text read_account_states.
Proof.
  split; [|split].
  - by apply (call_ends_ok _ _ _ "Failed to parse success response: ").
  - apply traces_call_ends.
  - by apply (call_ends_ok _ _ _ "Failed to parse account states: ").
Qed.
End client_properties.

(** ** The poller over this client *)

Section polling.
Context {XL : XrplLib} {L : TonLib} {CC : CrossChain} {DL : DecimalLib} {W : Type}
  {DB : Database W} {TM : AtomicUpsert W} {H : TonHttp W} {R : TonReaders} {UN : UtcNow W}.

(** A poll moves the cursor only on the word of the API.  The request
    asks from the transaction after the cursor on (from the beginning when
    there is none), and the cursor becomes another one only if the answer had
    a status of 200 to 299 and its document, once cleaned, reads as traces of
    which the new cursor is the latest end; after any other answer the poller
    is what it was. *)
Theorem cursor_moves_on_answer (client : TONRpcClient) (self self' : TONSubscriber) (account : TonAddress)
    (w w' : W) (r : result (list Trace) string) :
  ton_poll_account (CL := ton_rest_client client) self account w = (Done (self', r), w') ->
  let start := if latest_lt self =? -1 then None else Some (latest_lt self) in
  self' = self \/
  exists resp bytes rest,
    fst (ton_send (traces_request client (Some account) None start) w) = Done (Ok resp) /\
    200 <= status resp < 300 /\ body_bytes resp = Ok bytes /\
    read_traces (clean_json_string_full bytes) = Ok rest /\
    Some (latest_lt self') = max_lt (traces (traces_of_rest rest)) /\
    context self' = context self /\ chain_name self' = chain_name self.
Proof.
  intros Hp start. revert Hp. unfold ton_poll_account. rewrite bind_run.
  change (get_traces_for_account (RestClient := ton_rest_client client) (Some account) None (if latest_lt self =? -1 then None else Some (latest_lt self)))
    with (client_get_traces_for_account client (Some account) None start).
  destruct (client_get_traces_for_account client (Some account) None start w) as [[[ts|e]|why] w1] eqn:E; [| |done].
  2: { intros [= <- _ _]. by left. }
  destruct (traces_call_ends client (Some account) None start w _ _ E) as (_ & resp & text & Es & Hs & Hb & Hr).
  unfold clean_body in Hb. destruct (body_bytes resp) as [bytes|] eqn:Eb; [|done]. injection Hb as <-.
  unfold read_trace_list in Hr. destruct (read_traces (clean_json_string_full bytes)) as [rest|] eqn:Er; [|done].
  injection Hr as <-. rewrite bind_run. destruct (max_lt (map trace_of_rest (rest_traces rest))) as [m|] eqn:Em.
  - rewrite bind_run. destruct (ton_store_latest_height _ w1) as [[u|why] w2]; [|done].
    cbn [ret]. rewrite bind_run. destruct (unseen_loop _ _ w2) as [[u2|why] w3]; [|done].
    intros [= <- <- <-]. right. exists resp, bytes, rest. done.
  - cbn [ret]. rewrite bind_run. destruct (unseen_loop _ _ w1) as [[u2|why] w3]; [|done].
    intros [= <- <- <-]. by left.
Qed.
End polling.

(** ** Concrete runs *)

Module ClientDemo.
Import SubscriberDemo DbDemo.
(** An API that gives the listed answers, one per request, and then none. *)
#[export] Instance http : TonHttp (list TonResponse) := {|
  ton_send := fun _ w => match w with
    | r :: w => (Done (Ok r), w)
    | [] => (Done (Err "connection refused"), [])
    end;
  show_status := print_Z;
|}.
(** Readers that know a few documents. *)
#[export] Instance readers : TonReaders := {|
  read_v3_message := fun s => Ok (mkV3 s s);
  read_v3_error := fun s => if decide (s = "") then Err "EOF" else Ok (mkV3Error 1 s);
  read_traces := fun s => if decide (s = "[t]") then Ok (mkTracesRest [mkTraceRest false 1 7 "t" ∅ []]) else Err "no traces";
  read_account_states := fun _ => Ok [];
|}.
Definition client : TONRpcClient := mkTONRpcClient "https://ton//" "key".
Definition answer (status : Z) (body : string) : TonResponse := mkTonResponse status (Ok body) (Ok body).
(** The client inside the world of the poller. *)
#[export] Instance sub_http {X} `{!TonHttp X} : TonHttp (SubWorld X) := {|
  ton_send := fun req => via_client (ton_send req);
  show_status := show_status (W := X);
|}.
Definition poll : outcome (TONSubscriber * result (list Trace) string) * SubWorld (list TonResponse) :=
  ton_poll_account (CL := ton_rest_client client) self acct (world ∅ [] [answer 200 "[t]"]).
Definition next_self : TONSubscriber := match fst poll with Done (s, _) => s | Panic _ => self end.
Definition found : result (list Trace) string := match fst poll with Done (_, r) => r | Panic _ => Ok [] end.
End ClientDemo.
Import SubscriberDemo DbDemo ClientDemo.

Lemma cursor_moves_on_answer_witness :
  let w := world ∅ [] [answer 200 "[t]"] in
  latest_lt next_self = 7 /\
  (next_self = self \/
  exists resp bytes rest,
    fst (ton_send (traces_request client (Some acct) None None) w) = Done (Ok resp) /\
    200 <= status resp < 300 /\ body_bytes resp = Ok bytes /\
    read_traces (clean_json_string_full bytes) = Ok rest /\
    Some (latest_lt next_self) = max_lt (traces (traces_of_rest rest)) /\
    context next_self = context self /\ chain_name next_self = chain_name self).
Proof.
  split; [vm_compute; reflexivity|].
  apply (cursor_moves_on_answer client self next_self acct (world ∅ [] [answer 200 "[t]"]) (snd poll) found).
  vm_compute. reflexivity.
Defined.

Lemma clean_text_witness :
  let text := "{ }" in
  utf8_valid text = true /\ contains "\u0000" text = false /\
  Forall (fun c => is_control c = true -> c = String "010" EmptyString \/ c = String "009" EmptyString)
    (chars (clean_json_string_full text)) /\
  from_utf8_lossy (clean_json_string_full text) = clean_json_string_full text /\
  (utf8_valid text = true -> contains "\u0000" text = false ->
   Forall (fun c => is_control c = false) (chars text) -> clean_json_string_full text = text).
Proof. split; [reflexivity|]. split; [reflexivity|]. apply (clean_text "{ }"). Defined.
