(* ===== verification/Ingestor.v ===== *)
(** * The ingestor

    [relayer_base/src/ingestor_worker.rs] and [relayer_base/src/ingestor.rs]:
    tasks and transactions taken from the queues, the events a transaction
    stands for posted to the GMP API.  [ton/src/ingestor.rs] is the chain's
    part for TON. *)

From S2P Require Import Prelude.
From S2P Require Import Store.
From S2P Require Import GmpTypes.
From S2P Require Import Text.
From S2P Require Import GmpApi.
From S2P Require Import GmpAudit.
From S2P Require Import Queue.
From S2P Require Import Logging.
From S2P Require Import Includer.
From S2P Require Import TonLib.
From S2P Require Import TonTypes.
From S2P Require Import TonCells.
From S2P Require Import TonTrace.
From S2P Require Import TraceParser.
From S2P Require Import Subscriber.

(** src/relayer_base/src/ingestor.rs:31-42 IngestorTrait *)
Class IngestorTrait `{!XrplLib, !TonLib} (W : Type) : Type := {
  handle_verify : VerifyTask -> M W (result unit IngestorError);
  handle_transaction : ChainTransaction -> M W (result (list Event) IngestorError);
  handle_wasm_event : ReactToWasmEventTask -> M W (result unit IngestorError);
  handle_construct_proof : ConstructProofTask -> M W (result unit IngestorError);
  handle_retriable_task : RetryTask -> M W (result unit IngestorError);
}.

Section worker.
Context {XL : XrplLib} {L : TonLib} {W : Type} {XM : XrplMessages} {API : GmpApiTrait W}
  {LC : LoggingCtxCache W} {IN : IngestorTrait W} {IC : ItemCodec ChainTransaction}.
(** The span of the delivery, and the order a set of ids is listed in. *)
Variable current_span : Ctx.
Variable list_ids : gset string -> list string.

(** A response that asks for the events to be posted again. *)
Definition refused (r : PostEventResult) : bool :=
  negb (bool_decide (GmpTypes.status r = "ACCEPTED")) && bool_decide (retriable r = Some true).

(** src/relayer_base/src/ingestor_worker.rs:97-109 IngestorWorker::consume_transaction (the loop over the responses) *)
Fixpoint check_responses (response : list PostEventResult) : result unit IngestorError :=
  match response with
  | [] => Ok tt
  | event_response :: response =>
      if negb (bool_decide (GmpTypes.status event_response = "ACCEPTED")) then
        match retriable event_response with
        | Some true => Err (IngRetriableError (default "" (error event_response)))
        | _ => check_responses response
        end
      else check_responses response
  end.

(** src/relayer_base/src/ingestor_worker.rs:66-110 IngestorWorker::consume_transaction *)
Definition consume_transaction (transaction : ChainTransaction) : M W (result unit IngestorError) :=
  let? events := handle_transaction transaction in
  let '(message_ids, event_names) := extract_message_ids_and_event_types_from_events events in
  let! _c := connect_span_to_message_id current_span (list_ids message_ids) in
  match events with
  | [] => ret (Ok tt)
  | _ :: _ =>
      let? response := map_err (fun e => IngPostEventError (show_GmpApiError e)) (post_events events) in
      ret (check_responses response)
  end.

(** src/relayer_base/src/ingestor_worker.rs:112-152 IngestorWorker::consume_task *)
Definition consume_task (task : Task) : M W (result unit IngestorError) :=
  match task with
  | TVerify verify_task => handle_verify verify_task
  | TReactToWasmEvent wasm_task => handle_wasm_event wasm_task
  | TConstructProof proof_task => handle_construct_proof proof_task
  | TReactToRetriablePoll poll_task => handle_retriable_task (RetryPoll poll_task)
  | TReactToExpiredSigningSession session_task => handle_retriable_task (RetrySession session_task)
  | _ => ret (Err IngIrrelevantTask)
  end.

(** src/relayer_base/src/ingestor_worker.rs:54-64 IngestorWorker::consume *)
Definition ingest (item : QueueItem ChainTransaction) : M W (result unit IngestorError) :=
  match item with
  | QTask task => consume_task task
  | QTransaction chain_transaction => consume_transaction chain_transaction
  | _ => ret (Err IngIrrelevantTask)
  end.

(** src/relayer_base/src/ingestor_worker.rs:157-163 IngestorWorker::process_delivery *)
Definition ingestor_process_delivery (data : string) : M W (result unit IngestorError) :=
  let? item := ret (rmap_err (fun e => IngParseError ("Invalid JSON: " +:+ e)) (from_slice data)) in
  ingest item.

Definition ingestor_irrelevant (e : IngestorError) : bool :=
  match e with IngIrrelevantTask => true | _ => false end.

(** src/relayer_base/src/ingestor.rs:45-92 Ingestor::on_delivery *)
Definition ingestor_on_delivery {QA : QueueApi ChainTransaction W} {AM : Amqp W} :
    string -> Delivery -> M W unit :=
  on_delivery (CT := ChainTransaction) ingestor_irrelevant ingestor_process_delivery.

(** ** Properties of the worker *)

Lemma check_responses_ok rs : check_responses rs = Ok tt <-> forall r, r ∈ rs -> refused r = false.
Proof.
  induction rs as [|r rs IH]; simpl.
  - split; [by intros _ ? ?%not_elem_of_nil|done].
  - unfold refused in *. destruct (bool_decide (GmpTypes.status r = "ACCEPTED")) eqn:Hs; simpl.
    + rewrite IH. split; [intros H r' [->|Hin]%elem_of_cons; [by rewrite Hs|by apply H]|].
      intros H r' Hin. apply H. by right.
    + destruct (retriable r) as [[]|] eqn:Hr.
      * split; [done|]. intros H. specialize (H r ltac:(by left)). rewrite Hs, Hr in H. done.
      * rewrite IH. split; [intros H r' [->|Hin]%elem_of_cons; [by rewrite Hs, Hr|by apply H]|].
        intros H r' Hin. apply H. by right.
      * rewrite IH. split; [intros H r' [->|Hin]%elem_of_cons; [by rewrite Hs, Hr|by apply H]|].
        intros H r' Hin. apply H. by right.
Qed.

Lemma check_responses_err rs e : check_responses rs = Err e ->
  exists l1 r l2, rs = l1 ++ r :: l2 /\ (forall r', r' ∈ l1 -> refused r' = false) /\ refused r = true /\
    e = IngRetriableError (default "" (error r)).
Proof.
  induction rs as [|r rs IH]; simpl; [done|].
  assert (Hrec : refused r = false -> check_responses rs = Err e ->
    exists l1 r0 l2, r :: rs = l1 ++ r0 :: l2 /\ (forall r', r' ∈ l1 -> refused r' = false) /\ refused r0 = true /\
      e = IngRetriableError (default "" (error r0))).
  { intros Hr H. destruct (IH H) as (l1 & r0 & l2 & -> & Hl & ? & ?). exists (r :: l1), r0, l2.
    split; [done|]. split; [|done]. intros r' [->|Hin]%elem_of_cons; [done|by apply Hl]. }
  unfold refused at 1 in Hrec. destruct (bool_decide (GmpTypes.status r = "ACCEPTED")) eqn:Hs; simpl in *; [by apply Hrec|].
  destruct (retriable r) as [[]|] eqn:Hr; simpl in *; [|by apply Hrec..].
  intros [= <-]. exists [], r, rs. split; [done|]. split; [by intros ? ?%not_elem_of_nil|].
  unfold refused. by rewrite Hs, Hr.
Qed.

(** When a transaction counts as ingested.  The chain's part has turned
    it into events, and either there are none or they were posted, all of
    them in one request, and no response asks to try again; the first response
    that does makes the whole delivery fail with its message.  An event that
    is refused for good is dropped without an error. *)
Theorem transaction_ingested (tx : ChainTransaction) (w w' : W) (r : result unit IngestorError) :
  consume_transaction tx w = (Done r, w') ->
  (forall e, r = Err e -> (exists w1, handle_transaction tx w = (Done (Err e), w1)) \/
     (exists events w1 w2 w3 c, handle_transaction tx w = (Done (Ok events), w1) /\
        connect_span_to_message_id current_span (list_ids (list_to_set (map event_message_id events))) w1 = (Done c, w2) /\
        ((exists g, post_events events w2 = (Done (Err g), w3) /\ e = IngPostEventError (show_GmpApiError g)) \/
         (exists rs l1 l2 x, post_events events w2 = (Done (Ok rs), w3) /\ rs = l1 ++ x :: l2 /\
            (forall y, y ∈ l1 -> refused y = false) /\ refused x = true /\
            e = IngRetriableError (default "" (error x)))))) /\
  (r = Ok tt -> exists events w1 w2 c, handle_transaction tx w = (Done (Ok events), w1) /\
     connect_span_to_message_id current_span (list_ids (list_to_set (map event_message_id events))) w1 = (Done c, w2) /\
     (events = [] /\ w' = w2 \/
      exists rs, post_events events w2 = (Done (Ok rs), w') /\ forall x, x ∈ rs -> refused x = false)).
Proof.
  unfold consume_transaction. rewrite bind_ok_run.
  destruct (handle_transaction tx w) as [[[events|e0]|why] w1]; [|intros [= <- <-]; split; [|done]; intros ? [= ->]; eauto|done].
  rewrite extract_events_spec, bind_run.
  destruct (connect_span_to_message_id _ _ w1) as [[c|why] w2] eqn:Ec; [|done].
  destruct events as [|ev events].
  - intros [= <- <-]. split; [done|]. intros _. exists [], w1, w2, c. auto.
  - rewrite bind_ok_run, map_err_run. destruct (post_events (ev :: events) w2) as [[[rs|g]|why] w3] eqn:Ep; [| |done].
    + intros [= <- <-]. split.
      * intros e He. right. exists (ev :: events), w1, w2, w3, c. split; [done|]. split; [done|]. right.
        destruct (check_responses_err rs e He) as (l1 & x & l2 & ? & ? & ? & ?). by exists rs, l1, l2, x.
      * intros Hok. exists (ev :: events), w1, w2, c. split; [done|]. split; [done|]. right.
        exists rs. split; [done|]. by apply check_responses_ok.
    + intros [= <- <-]. split; [|done]. intros e [= <-]. right. exists (ev :: events), w1, w2, w3, c.
      split; [done|]. split; [done|]. left. by exists g.
Qed.
End worker.

(** ** The chain's part for TON *)

Section ton.
Context {XL : XrplLib} {L : TonLib} {W : Type} {TP : TraceParserTrait W} {UE : UpdateEvents W}.

Definition summary_of (event : Event) : EventSummary :=
  let model := from_event event in
  mkSummary (em_event_id model) (em_message_id model) (em_event_type model).

Variable debug_transaction : ChainTransaction -> string.

(** src/ton/src/ingestor.rs:47-101 TONIngestor::handle_transaction *)
Definition ton_handle_transaction (trace : ChainTransaction) : M W (result (list Event) IngestorError) :=
  match trace with
  | TON trace =>
      let? events := map_err (fun e => IngGenericError (show_TransactionParsingError e)) (parse_trace trace) in
      let event_summaries := map summary_of events in
      let? _u := (match event_summaries with
                  | [] => ret (Ok tt)
                  | _ :: _ => map_err IngGenericError (update_events (trace_id trace) event_summaries)
                  end) in
      ret (Ok events)
  | _ => ret (Err (IngUnexpectedChainTransactionType (debug_transaction trace)))
  end.

Definition not_implemented : M W (result unit IngestorError) :=
  ret (Err (IngGenericError "Still not implemented")).

(** src/ton/src/ingestor.rs:32-129 impl IngestorTrait for TONIngestor *)
Definition TONIngestor : IngestorTrait W := {|
  handle_verify := fun _ => not_implemented;
  handle_transaction := ton_handle_transaction;
  handle_wasm_event := fun _ => not_implemented;
  handle_construct_proof := fun _ => not_implemented;
  handle_retriable_task := fun _ => not_implemented;
|}.
End ton.

(** ** A concrete run *)

#[local] Existing Instance AuditDemo.messages.
Import SubscriberDemo.

Module IngestorDemo.
#[export] Instance accepting : GmpApiTrait unit := {|
  get_chain := "ton";
  get_tasks_action := fun _ => ret (Ok []);
  post_events := fun es => ret (Ok (map (fun _ => mkPostResult "ACCEPTED" 0 None None) es));
  post_broadcast := fun _ _ => ret (Ok "h");
  get_broadcast_result := fun _ _ => ret (Ok "h");
  post_query := fun _ _ => ret (Ok "q");
  post_payload := fun _ => ret (Ok "p");
  get_payload := fun _ => ret (Ok "p");
  cannot_execute_message := fun _ _ _ _ _ => ret (Ok tt);
  its_interchain_transfer := fun _ => ret (Ok tt);
  map_cannot_execute_message_to_event := fun _ _ _ _ _ => Panic "none";
|}.
Definition credit : Event := GasCredit (mkCommonEvent "GAS_CREDIT" "e1" None) "m1" "r" (mkAmount None "5").
#[export] Instance chain_part : IngestorTrait unit := {|
  handle_verify := fun _ => ret (Ok tt);
  handle_transaction := fun _ => ret (Ok [credit]);
  handle_wasm_event := fun _ => ret (Ok tt);
  handle_construct_proof := fun _ => ret (Ok tt);
  handle_retriable_task := fun _ => ret (Ok tt);
|}.
#[export] Instance no_cache : LoggingCtxCache unit := {| get_or_insert := fun _ _ => ret None |}.
End IngestorDemo.
Import IngestorDemo.

Lemma transaction_ingested_witness :
  exists events w1 w2 c, handle_transaction (TON (SubscriberDemo.trace "a" false)) tt = (Done (Ok events), w1) /\
     connect_span_to_message_id ∅ (elements (list_to_set (C := gset string) (map event_message_id events))) w1 = (Done c, w2) /\
     (events = [] /\ tt = w2 \/
      exists rs, post_events events w2 = (Done (Ok rs), tt) /\ forall x, x ∈ rs -> refused x = false).
Proof.
  apply (transaction_ingested ∅ elements (TON (SubscriberDemo.trace "a" false)) tt tt (Ok tt)); reflexivity.
Defined.
