(* ===== verification/TracePipeline.v ===== *)
(** * From the chain to the GMP API

    The traces the TON subscriber polls, the queue it publishes them on, and
    the ingestor's tasks at the other end that parse them and post their
    events, put together: [subscriber.rs], [ton/src/subscriber.rs],
    [queue.rs], [queue_consumer.rs], [ingestor.rs], [ingestor_worker.rs] and
    [ton/src/ingestor.rs] around the queue of events. *)

From S2P Require Import Prelude.
From S2P Require Import Store.
From S2P Require Import GmpTypes.
From S2P Require Import GmpApi.
From S2P Require Import GmpAudit.
From S2P Require Import Database.
From S2P Require Import Decimal.
From S2P Require Import Logging.
From S2P Require Import Queue.
From S2P Require Import QueueService.
From S2P Require Import Includer.
From S2P Require Import QueueConsumer.
From S2P Require Import Pipeline.
From S2P Require Import TonLib.
From S2P Require Import TonTypes.
From S2P Require Import TonTrace.
From S2P Require Import TraceParser.
From S2P Require Import Subscriber.
From S2P Require Import Ingestor.

(** ** What the result of a task says *)

Section outcomes.
Context {CT W E : Type} {IC : ItemCodec CT} {AM : Amqp W} {TI : Timer W} {P : Propagator}.
Variable name url : string.
Variable num_workers : nat.
Variable irrelevant : E -> bool.
Variable handler : string -> M (Queue CT W) (result unit E).
Abbreviation C := (Consumer CT W E).
Abbreviation step := (work_step name url num_workers irrelevant handler).

Lemma elem_of_list_insert {A} (l : list A) i x y : x ∈ <[i := y]> l -> x = y \/ x ∈ l.
Proof.
  intros [j Hj]%list_elem_of_lookup. apply list_lookup_insert_Some in Hj as [(_ & -> & _)|[_ Hj]]; [by left|].
  right. by eapply list_elem_of_lookup_2.
Qed.

(** What is to be shown of a task with a result. *)
Section invariant.
Variable came_out : Delivery * option (result unit E) -> Prop.
Hypothesis came_none : forall d, came_out (d, None).

Definition outcomes_ok (c : C) : Prop :=
  (forall x, x ∈ tasks c -> came_out x) /\ (forall x, x ∈ ended c -> came_out x).
Definition handler_comes_out (i : nat) (c : C) : Prop :=
  forall d r q, tasks c !! i = Some (d, None) -> handler (data d) (shared c) = (Done r, q) -> came_out (d, Some r).

(** A step but a handler's leaves the results of the tasks there are. *)
Lemma outcomes_same (c c' : C) : outcomes_ok c ->
  (forall x, x ∈ tasks c' -> x ∈ tasks c \/ came_out x) -> (forall x, x ∈ ended c' -> x ∈ tasks c ++ ended c \/ came_out x) ->
  outcomes_ok c'.
Proof.
  intros [Ht He] H1 H2. split; intros x Hx.
  - destruct (H1 x Hx); auto.
  - destruct (H2 x Hx) as [[?|?]%elem_of_app|]; auto.
Qed.

Lemma run_handler_outcomes (c c' : C) i : outcomes_ok c -> handler_comes_out i c -> run_handler handler i c = Some c' -> outcomes_ok c'.
Proof.
  intros Hok Hc. unfold run_handler. destruct (tasks c !! i) as [[d [r|]]|] eqn:Hi; [done| |done].
  destruct (handler (data d) (shared c)) as [[r|why] q] eqn:Eh; intros [= <-]; apply (outcomes_same c); try done; simpl.
  - intros x [->|Hx]%elem_of_list_insert; [right; by eapply Hc|by left].
  - intros x Hx. left. apply elem_of_app. by right.
  - intros x Hx. left. by eapply list_elem_of_delete_inv.
  - intros x [Hx| ->%list_elem_of_singleton]%elem_of_app; [left; apply elem_of_app; by right|right; apply came_none].
Qed.

Lemma settle_outcomes (c c' : C) i : outcomes_ok c -> settle_task name irrelevant i c = Some c' -> outcomes_ok c'.
Proof.
  intros Hok. unfold settle_task. destruct (tasks c !! i) as [[d [r|]]|] eqn:Hi; [|done..].
  destruct (settle _ _ _ _ _) as [o q]. intros [= <-]. apply (outcomes_same c); [done|..]; simpl.
  - intros x Hx. left. by eapply list_elem_of_delete_inv.
  - intros x [Hx| ->%list_elem_of_singleton]%elem_of_app; left; apply elem_of_app; [by right|left].
    by eapply list_elem_of_lookup_2.
Qed.

Lemma step_outcomes (e : event CT) (c c' : C) : outcomes_ok c -> (forall i, e = RunHandler i -> handler_comes_out i c) ->
  step e c = Some c' -> outcomes_ok c'.
Proof.
  intros Hok Hcame Hs. assert (Hsame : forall c1 : C, tasks c1 = tasks c -> ended c1 = ended c -> outcomes_ok c1).
  { intros c1 Ht He. apply (outcomes_same c); [done|rewrite Ht; by left|]. rewrite He. intros x Hx. left. apply elem_of_app. by right. }
  destruct e as [[d|e]| |fuel| | | | |i|i| |m]; simpl in Hs.
  9: by eapply run_handler_outcomes; [|by apply Hcame|].
  9: by eapply settle_outcomes.
  4: { injection Hs as <-. unfold connection_health_check, refresh_connection. destruct (is_connected c); [done|].
       destruct (on_broker _ _) as [[[]|why] q]; by apply Hsame. }
  4: { destruct (loop_at c); try done. unfold on_next in Hs. destruct (arrived c) as [|[d|e] l]; [done|..]; injection Hs as <-; [|by apply Hsame].
       apply (outcomes_same c); [done|..]; simpl.
       - intros x [Hx| ->%list_elem_of_singleton]%elem_of_app; [by left|right; apply came_none].
       - intros x Hx. left. apply elem_of_app. by right. }
  all: unfold on_next in Hs; simplify_eq/=; repeat (case_match; simplify_eq/=); by (apply Hsame; simpl; congruence).
Qed.

End invariant.

(** In this run, the handler of a delivery with this body was run, from this
    state of the queue to that one, and answered this. *)
Definition handled_in (es : list (event CT)) (c0 : C) (body : string) (r : result unit E) (q q' : Queue CT W) : Prop :=
  exists es1 i es2 c1 c2 d, es = es1 ++ RunHandler i :: es2 /\
    work_run name url num_workers irrelevant handler es1 c0 = Some c1 /\
    tasks c1 !! i = Some (d, None) /\ data d = body /\ step (RunHandler i) c1 = Some c2 /\
    shared c1 = q /\ shared c2 = q' /\ handler body q = (Done r, q').

(** Whatever happened, a task that ended with a result ended with one that a
    run of its handler, in the course of what happened, gave for its body. *)
Lemma ended_handled (es : list (event CT)) (q : Queue CT W) (n : nat) (c : C) (d : Delivery) (r : result unit E) :
  work_run name url num_workers irrelevant handler es (consumer_new q n) = Some c -> (d, Some r) ∈ ended c ->
  exists q1 q2, handled_in es (consumer_new q n) (data d) r q1 q2.
Proof.
  set (c0 := consumer_new q n). set (came := fun x : Delivery * option (result unit E) =>
    match x with (d, Some r) => exists q1 q2, handled_in es c0 (data d) r q1 q2 | _ => True end).
  assert (H : forall es2 es1 c1, es = es1 ++ es2 -> work_run name url num_workers irrelevant handler es1 c0 = Some c1 ->
    outcomes_ok came c1 -> work_run name url num_workers irrelevant handler es2 c1 = Some c -> outcomes_ok came c).
  { induction es2 as [|e es2 IH]; intros es1 c1 Hes H1 Hok; simpl; [by intros [= <-]|].
    destruct (step e c1) as [c2|] eqn:Es; [|done]. apply (IH (es1 ++ [e])); [by rewrite <- app_assoc| |].
    - by rewrite work_run_app, H1; simpl; rewrite Es.
    - eapply step_outcomes; [done|exact Hok| |exact Es]. intros i -> d1 r1 q1 Ht Hh.
      exists (shared c1), q1, es1, i, es2, c1, c2, d1. do 5 (split; [done|]). split; [done|]. split; [|done].
      simpl in Es. unfold run_handler in Es. rewrite Ht, Hh in Es. by injection Es as <-. }
  intros Hr Hin. assert (Hok : outcomes_ok came c0) by (split; by intros x ?%not_elem_of_nil).
  exact (proj2 (H es [] c0 eq_refl eq_refl Hok Hr) _ Hin).
Qed.
End outcomes.

(** ** Where a transaction is *)

Section ingesting.
Context {XL : XrplLib} {L : TonLib} {W : Type} {IC : ItemCodec ChainTransaction} {AM : Amqp W} {AL : AmqpLaws W}
  {TI : Timer W} {P : Propagator}.
Abbreviation Q := (Queue ChainTransaction W).
Abbreviation C := (Consumer ChainTransaction W IngestorError).

(** What a handler may not touch of its queue. *)
Definition queue_view (q : Q) :=
  (published (broker q), acked (broker q), nacked (broker q), buffer q, receiver_open q).

Lemma same_view_quiet (q q' : Q) : queue_view q' = queue_view q -> quiet q q'.
Proof. unfold queue_view. intros [= Hp Ha Hn Hb Ho]. split; [by rewrite Hp|done..]. Qed.

(** The ingestor's worker over the queue it is served from, and any chain's
    part of it. *)
Context {XM : XrplMessages} {API : GmpApiTrait Q} {LC : LoggingCtxCache Q} {IN : IngestorTrait Q}.
Hypothesis posts_elsewhere : forall events, preserves queue_view (post_events (W := Q) events).
Hypothesis caches_elsewhere : forall ids ctx, preserves queue_view (get_or_insert (W := Q) ids ctx).
Hypothesis handles_elsewhere : forall tx, preserves queue_view (handle_transaction (W := Q) tx).
Hypothesis tasks_elsewhere : forall task, preserves queue_view (consume_task (W := Q) task).
Variable current_span : Ctx.
Variable list_ids : gset string -> list string.
Definition ingest_body (body : string) : M Q (result unit IngestorError) :=
  ingestor_process_delivery current_span list_ids body.
#[local] Hint Resolve posts_elsewhere caches_elsewhere handles_elsewhere tasks_elsewhere : relayer.

Lemma ingest_elsewhere body : preserves queue_view (ingest_body body).
Proof.
  apply preserves_bind_ok; [auto with relayer|]. intros [t|tx|s]; cbn [ingest]; [auto with relayer| |auto with relayer].
  apply preserves_bind_ok; [auto with relayer|]. intros events.
  destruct (extract_message_ids_and_event_types_from_events events) as [ids names].
  apply preserves_bind; [unfold connect_span_to_message_id, get_or_store_context; auto with relayer|]. intros c.
  destruct events; auto with relayer.
Qed.

(** The handler's run from [q] to [q'] ingested the transaction: the chain's
    part made these events of it and, unless there are none, the last thing
    done was to post them, all of them in one request, and the API answered
    and asked to try none of them again. *)
Definition ingested_by (tx : ChainTransaction) (q q' : Q) : Prop :=
  exists events q1 q2 c, handle_transaction (W := Q) tx q = (Done (Ok events), q1) /\
    connect_span_to_message_id current_span (list_ids (list_to_set (map event_message_id events))) q1 = (Done c, q2) /\
    (events = [] /\ q' = q2 \/
     exists rs, post_events events q2 = (Done (Ok rs), q') /\ forall r, r ∈ rs -> refused r = false).

Lemma body_ingested body tx q q' :
  from_slice body = Ok (QTransaction tx) -> ingest_body body q = (Done (Ok tt), q') -> ingested_by tx q q'.
Proof.
  intros Hb. unfold ingest_body, ingestor_process_delivery. rewrite bind_ok_run, Hb. cbn [rmap_err ret ingest]. intros Hc.
  destruct (transaction_ingested current_span list_ids tx q q' (Ok tt) Hc) as (_ & Hok). by apply Hok.
Qed.

Variable url : string.
Variable num_workers : nat.
Hypothesis ack_clean : forall tag (w : W) e w', basic_ack tag w = (Done (Err e), w') -> acked w' = acked w.
Hypothesis connect_quiet : forall fuel (q : Q),
  quiet q (snd (on_broker (connect ACCOUNT_QUEUE fuel url (Z.of_nat num_workers)) q)).
Variable carries : Z -> nat.

(** In this run a task of the ingestor ingested the transaction. *)
Definition ingested_in (es : list (event ChainTransaction)) (c0 : C) (tx : ChainTransaction) : Prop :=
  exists body q q', handled_in ACCOUNT_QUEUE url num_workers ingestor_irrelevant ingest_body es c0 body (Ok tt) q q' /\
    from_slice body = Ok (QTransaction tx) /\ ingested_by tx q q'.

(** What a subscriber published around any of this is where it was put, or
    was ingested. *)
Lemma published_accounted (q : Q) (n : nat) (es : list (event ChainTransaction)) (c : C) (tx : ChainTransaction) :
  receiver_open q = true -> acked (broker q) = [] -> Others MDrop ∉ es ->
  genuine ACCOUNT_QUEUE url num_workers ingestor_irrelevant ingest_body carries es (consumer_new q n) ->
  work_run ACCOUNT_QUEUE url num_workers ingestor_irrelevant ingest_body es (consumer_new q n) = Some c ->
  Others (MPublish (QTransaction tx)) ∈ es -> readable (QTransaction tx) ->
  QTransaction tx ∈ buffer (shared c) \/ kept ACCOUNT_QUEUE carries c (QTransaction tx) \/
  ingested_in es (consumer_new q n) tx.
Proof.
  intros Ho Hack Hd Hg Hr Hpub Hread.
  destruct (run_accounted ACCOUNT_QUEUE url num_workers ingestor_irrelevant ingest_body
    (fun body q => same_view_quiet _ _ (ingest_elsewhere body q)) ack_clean connect_quiet carries es (consumer_new q n) c)
    as (_ & _ & Hacc); [by apply pipeline_new|done..|].
  destruct (Hacc _ Hread Hpub) as [|[|(d & Hin & Hb)]]; [auto..|]. right; right.
  destruct (ended_handled _ _ _ _ _ es q n c d (Ok tt) Hr Hin) as (q1 & q2 & Hh). exists (data d), q1, q2.
  split; [done|]. split; [done|]. destruct Hh as (es1 & i & es2 & c1 & c2 & d1 & _ & _ & _ & _ & _ & _ & _ & Hh).
  by eapply body_ingested.
Qed.
End ingesting.

(** ** Traces *)

Section traces.
Context {XL : XrplLib} {L : TonLib} {W : Type} {IC : ItemCodec ChainTransaction} {AM : Amqp W} {AL : AmqpLaws W}
  {TI : Timer W} {P : Propagator}.
Abbreviation Q := (Queue ChainTransaction W).
Abbreviation C := (Consumer ChainTransaction W IngestorError).
Context {XM : XrplMessages} {API : GmpApiTrait Q} {LC : LoggingCtxCache Q} {TP : TraceParserTrait Q} {UE : UpdateEvents Q}.
Hypothesis posts_elsewhere : forall events, preserves queue_view (post_events (W := Q) events).
Hypothesis parses_elsewhere : forall t, preserves queue_view (parse_trace (W := Q) t).
Hypothesis updates_elsewhere : forall i l, preserves queue_view (update_events (W := Q) i l).
Hypothesis caches_elsewhere : forall ids ctx, preserves queue_view (get_or_insert (W := Q) ids ctx).
Variable debug_transaction : ChainTransaction -> string.
Variable current_span : Ctx.
Variable list_ids : gset string -> list string.
#[local] Instance handlers : IngestorTrait Q := TONIngestor debug_transaction.
#[local] Hint Resolve posts_elsewhere parses_elsewhere updates_elsewhere caches_elsewhere : relayer.

Lemma transaction_elsewhere tx : preserves queue_view (ton_handle_transaction debug_transaction tx : M Q _).
Proof.
  unfold ton_handle_transaction. destruct tx as [tx|t]; [auto with relayer|].
  apply preserves_bind_ok; [auto with relayer|]. intros events. apply preserves_bind_ok; [|auto with relayer].
  destruct (map summary_of events); auto with relayer.
Qed.

Lemma task_elsewhere task : preserves queue_view (consume_task (W := Q) task).
Proof. unfold consume_task. destruct task; unfold handlers, TONIngestor, not_implemented; cbn; auto with relayer. Qed.

Context {J : Jsonb} {JL : JsonbLaws} {CC : CrossChain} {DL : DecimalLib} {X : Type} {CL : RestClient X}.
Variable url : string.
Variable num_workers : nat.
Hypothesis ack_clean : forall tag (w : W) e w', basic_ack tag w = (Done (Err e), w') -> acked w' = acked w.
Hypothesis connect_quiet : forall fuel (q : Q),
  quiet q (snd (on_broker (connect ACCOUNT_QUEUE fuel url (Z.of_nat num_workers)) q)).
Variable carries : Z -> nat.
Abbreviation ton_ingest := (ingest_body current_span list_ids).
Abbreviation run_events := (work_run ACCOUNT_QUEUE url num_workers ingestor_irrelevant ton_ingest).

(** In this run a task of the ingestor, from [q] to [q'], parsed the trace,
    recorded its events beside it and, unless there are none, posted them, all
    of them in one request, as the last thing it did; the API answered and
    asked to try none of them again. *)
Definition posted_in (es : list (event ChainTransaction)) (c0 : C) (t : Trace) : Prop :=
  exists body q q', handled_in ACCOUNT_QUEUE url num_workers ingestor_irrelevant ton_ingest es c0 body (Ok tt) q q' /\
    exists events q1 q2 q3 c, parse_trace t q = (Done (Ok events), q1) /\
      (if events is [] then q2 = q1 else update_events (trace_id t) (map summary_of events) q1 = (Done (Ok tt), q2)) /\
      connect_span_to_message_id current_span (list_ids (list_to_set (map event_message_id events))) q2 = (Done c, q3) /\
      (events = [] /\ q' = q3 \/
       exists rs, post_events events q3 = (Done (Ok rs), q') /\ forall r, r ∈ rs -> refused r = false).

Lemma ingested_posted es c0 t :
  ingested_in (IN := handlers) current_span list_ids url num_workers es c0 (TON t) -> posted_in es c0 t.
Proof.
  intros (body & q & q' & Hrun & _ & events & q1 & q2 & c & Hh & Hc & Hp). exists body, q, q'. split; [exact Hrun|].
  cbn in Hh. apply bind_ok_inv in Hh as (evs & q3 & Hparse & Hh).
  rewrite map_err_run in Hparse. destruct (parse_trace t q) as [[[x|e]|why] q5]; [|done..]. injection Hparse as -> ->.
  apply bind_ok_inv in Hh as ([] & q6 & Hu & [= -> ->]). exists events, q3, q1, q2, c. split; [done|]. split; [|done].
  destruct events as [|ev events]; [by injection Hu as ->|]. cbn [map] in Hu. rewrite map_err_run in Hu.
  destruct (update_events _ _ q3) as [[[[]|e]|why] q7]; by simplify_eq/=.
Qed.

(** C5: from the chain to the GMP API.  Take any number of rounds of the TON
    subscriber, with whatever batches of traces or errors the chain's API
    answers (a complete trace stays as it is), and, around the queue it
    publishes to, any interleaving of its publications with the buffer's
    processor, the broker's deliveries and redeliveries, broken connections,
    and the handlers and the answers of the ingestor at the other end; the
    broker and the GMP API may refuse any call.  While the table of traces
    answers, every complete trace is published; and until the queue is closed
    every published trace is in one of three places: in the buffer; in a
    message of the queue, its retry queue or its dead-letter queue that was
    not acknowledged; or a task of this very run parsed it and posted its
    events, if it has any, to the GMP API, which took them and asked for none
    of them again. *)
Theorem trace_accounted (self : TONSubscriber) (account : TonAddress)
    (rounds : list (result (list Trace) ClientError)) (w : SubWorld X) :
  tables (sub_traces w) = ∅ -> sub_published w = [] ->
  answers self account (sub_client w) rounds -> final (answered_traces rounds) ->
  exists self' w', subscriber_run (TP := TONPoller) (length rounds) self account w = (Done self', w') /\
    (faults (sub_traces w) = [] -> forall t, t ∈ answered_traces rounds -> is_incomplete t = false -> TON t ∈ sub_published w') /\
    forall (q : Q) (n : nat) (es : list (event ChainTransaction)) (c : C),
      receiver_open q = true -> acked (broker q) = [] -> Others MDrop ∉ es ->
      (forall x, x ∈ sub_published w' -> Others (MPublish (QTransaction x)) ∈ es) ->
      genuine ACCOUNT_QUEUE url num_workers ingestor_irrelevant ton_ingest carries es (consumer_new q n) ->
      run_events es (consumer_new q n) = Some c ->
      forall t, TON t ∈ sub_published w' -> readable (QTransaction (TON t)) ->
        QTransaction (TON t) ∈ buffer (shared c) \/ kept ACCOUNT_QUEUE carries c (QTransaction (TON t)) \/
        posted_in es (consumer_new q n) t.
Proof.
  intros Ht Hp Ha Hfin.
  destruct (published_by_run self account rounds w Ht Hp Ha Hfin) as (self' & w' & out & E & Hout & _ & _ & _ & Hall).
  exists self', w'. split; [exact E|]. split.
  { intros Hf t Hin Hc. rewrite Hout. apply list_elem_of_fmap. exists t. auto. }
  intros q n es c Ho Hack Hd Hpub Hg Hr t Hin Hread.
  destruct (published_accounted (IN := handlers) posts_elsewhere caches_elsewhere transaction_elsewhere task_elsewhere current_span list_ids url num_workers
    ack_clean connect_quiet carries q n es c (TON t) Ho Hack Hd Hg Hr (Hpub _ Hin) Hread) as [|[|H]]; [auto..|].
  right; right. by apply ingested_posted.
Qed.
End traces.

(** ** A concrete run *)

Module TracePipelineDemo.
Export SubscriberDemo.
#[export] Existing Instance QueueDemo.propagator.
#[export] Existing Instance AuditDemo.messages.
(** A complete trace is written as its id. *)
#[export] Instance trace_codec : ItemCodec ChainTransaction := {|
  to_vec := fun i => match i with QTransaction (TON t) => Ok (trace_id t) | _ => Err "not encodable" end;
  from_slice := fun s => Ok (QTransaction (TON (trace s false)));
|}.
Abbreviation DQ := (Queue ChainTransaction MemBroker).
(** An API that takes everything, a parser that finds one event. *)
#[export] Instance demo_api : GmpApiTrait DQ := {|
  get_chain := "ton"; get_tasks_action := fun _ => ret (Ok []);
  post_events := fun es => ret (Ok (map (fun _ => mkPostResult "ACCEPTED" 0 None None) es));
  post_broadcast := fun _ _ => ret (Ok "h"); get_broadcast_result := fun _ _ => ret (Ok "h");
  post_query := fun _ _ => ret (Ok "q"); post_payload := fun _ => ret (Ok "p"); get_payload := fun _ => ret (Ok "p");
  cannot_execute_message := fun _ _ _ _ _ => ret (Ok tt); its_interchain_transfer := fun _ => ret (Ok tt);
  map_cannot_execute_message_to_event := fun _ _ _ _ _ => Panic "none";
|}.
#[export] Instance demo_log : LoggingCtxCache DQ := {| get_or_insert := fun _ _ => ret None |}.
#[export] Instance demo_parser : TraceParserTrait DQ := {| parse_trace := fun _ => ret (Ok [IngestorDemo.credit]) |}.
#[export] Instance demo_events : UpdateEvents DQ := {| update_events := fun _ _ => ret (Ok tt) |}.
Definition demo_span : Ctx := ∅.
Definition no_debug (_ : ChainTransaction) : string := "".
Definition events_of : string -> M DQ (result unit IngestorError) := ingest_body (IN := TONIngestor no_debug) demo_span elements.
Definition item (i : string) : QueueItem ChainTransaction := QTransaction (TON (trace i false)).
Definition events_queue : DQ := mkQueue (QueueDemo.idle []) [] true false.
Definition the_rounds : list (result (list Trace) ClientError) := three_polls.
(** The first trace is ingested, the second still waits in the buffer. *)
Definition day : list (QueueConsumer.event ChainTransaction) :=
  [Others (MPublish (item "b")); Others (MPublish (item "a")); Others MProcess;
   Arrive (Ok (PipelineDemo.parcel 1 "b")); NextMessage; RunHandler 0; SettleDelivery 0].
Abbreviation pass_day := (work_run (IC := trace_codec) ACCOUNT_QUEUE "amqp://" 2 ingestor_irrelevant events_of).
Definition evening : Consumer ChainTransaction MemBroker IngestorError :=
  default (consumer_new events_queue 0) (pass_day day (consumer_new events_queue 0)).

Lemma day_genuine :
  genuine (IC := trace_codec) ACCOUNT_QUEUE "amqp://" 2 ingestor_irrelevant events_of PipelineDemo.carries day (consumer_new events_queue 0).
Proof.
  unfold day. repeat (split; [first [exact I | eexists; split; vm_compute; reflexivity]|];
    intros c Hc; vm_compute in Hc; injection Hc as <-). exact I.
Qed.
End TracePipelineDemo.
Import DbDemo.
Import TracePipelineDemo.

Lemma trace_accounted_witness :
  pass_day day (consumer_new events_queue 0) = Some evening /\
  forall i, i ∈ ["a"; "b"] -> item i ∈ buffer (shared evening) \/
    kept ACCOUNT_QUEUE PipelineDemo.carries evening (item i) \/
    posted_in (API := demo_api) no_debug demo_span elements "amqp://" 2 day (consumer_new events_queue 0) (trace i false).
Proof.
  split; [vm_compute; reflexivity|].
  destruct (trace_accounted (API := demo_api) (TP := demo_parser) (UE := demo_events) (LC := demo_log) (fun _ _ => eq_refl) (fun _ _ => eq_refl) (fun _ _ _ => eq_refl) (fun _ _ _ => eq_refl)
    no_debug demo_span elements "amqp://" 2 ConsumerDemo.demo_ack_clean (PipelineDemo.connect_quiet ACCOUNT_QUEUE "amqp://" (Z.of_nat 2)) PipelineDemo.carries
    SubscriberDemo.self acct the_rounds (world ∅ [] the_rounds)) as (self' & w' & Hrun & Hpub & H).
  - reflexivity.
  - reflexivity.
  - repeat split; eexists; (split; [reflexivity|]); try done. eexists. split; [reflexivity|]. eexists. by split.
  - intros pre t mid t' post E Hid Hc. change (answered_traces the_rounds) with
      [trace "a" true; trace "b" false; trace "b" false; trace "a" false] in E.
    destruct pre as [|? [|? [|? [|? [|]]]]]; simplify_eq/=;
      destruct mid as [|? [|? [|? [|]]]]; simplify_eq/=; done.
  - assert (Hp : sub_published w' = [TON (trace "b" false); TON (trace "a" false)]).
    { apply (f_equal snd) in Hrun. simpl in Hrun. rewrite <- Hrun. vm_compute. reflexivity. }
    intros i Hi. apply (H events_queue 0%nat day evening); [reflexivity|reflexivity| | |apply day_genuine|vm_compute; reflexivity| |by intros b [= <-]].
    + apply (PipelineDemo.no_drop day eq_refl).
    + intros x Hx. rewrite Hp, !elem_of_cons in Hx. destruct Hx as [->|[->|[]%elem_of_nil]]; unfold day; rewrite !elem_of_cons; tauto.
    + apply Hpub; [reflexivity| |reflexivity].
      rewrite !elem_of_cons in Hi. destruct Hi as [->|[->|[]%elem_of_nil]]; cbn; rewrite !elem_of_cons; tauto.
Defined.
