(* ===== verification/TonWallet.v ===== *)
(** * The messages of the high-load wallet

    [ton/src/ton_wallet_high_load_v3.rs]: the external message by which a
    wallet is told to send a list of actions, signed, with its query id and
    the time it was made; and [ton/src/out_action.rs]. *)

From S2P Require Import Prelude.
From S2P Require Import Text.
From S2P Require Import TonLib.
From S2P Require Import WalletManager.
From S2P Require Import TonCells.
From S2P Require Import TonMessages.

(** [tonlib_core::message::InternalMessage]. *)
Record InternalMessage `{!TonLib} : Type := mkInternal {
  int_ihr_disabled : bool;
  int_bounce : bool;
  int_bounced : bool;
  int_src : TonAddress;
  int_dest : TonAddress;
  int_value : N;
  int_ihr_fee : N;
  int_fwd_fee : N;
  int_created_lt : Z;
  int_created_at : Z;
}.

(** The rest of [tonlib_core] and [nacl] that the wallet uses. *)
Class WalletLib `{!TonLib, !CellLib} : Type := {
  OutAction : Type;
  (** [OutAction::SendMsg]: a mode and a message. *)
  send_msg : Z -> Cell -> OutAction;
  (** [OutList::new(actions)?.write(&mut builder)?]. *)
  write_out_list : list OutAction -> M CellBuilder (result unit string);
  (** [TransferMessage::new(common, body).build()]. *)
  transfer_message : InternalMessage -> Cell -> result Cell string;
  store_int : nat -> Z -> M CellBuilder (result unit string);
  store_number : nat -> Z -> M CellBuilder (result unit string);
  store_slice : string -> M CellBuilder (result unit string);
  cell_hash : Cell -> string;
  signature : string -> string -> result string string;
  (** [Message::new(ExtInMsgInfo { dest, .. }, body).to_cell()]. *)
  external_message : TonAddress -> Cell -> result Cell string;
  (** [BagOfCells::from_root(cell).serialize(true)]. *)
  boc_serialize : Cell -> result string string;
}.

(** An [n]-bit signed integer: [store_int] takes what fits and refuses the
    rest. *)
Class WalletLaws `{!TonLib, !CellLib, !CellLaws, !WalletLib} : Prop := {
  store_int_ok : forall n v b, (0 < n)%nat -> 0 <= v < 2 ^ (Z.of_nat n - 1) ->
    (length (fst (put b)) + n <= MAX_CELL_BITS)%nat ->
    exists b', store_int n v b = (Done (Ok tt), b') /\ put b' = (fst (put b) ++ to_bits n (Z.to_N v), snd (put b));
  store_int_err : forall n v b, (0 < n)%nat -> 2 ^ (Z.of_nat n - 1) <= v ->
    exists e b', store_int n v b = (Done (Err e), b');
  store_number_ok : forall n v b, (0 < n)%nat -> 0 <= v < 2 ^ (Z.of_nat n - 1) ->
    (length (fst (put b)) + n <= MAX_CELL_BITS)%nat ->
    exists b', store_number n v b = (Done (Ok tt), b') /\ put b' = (fst (put b) ++ to_bits n (Z.to_N v), snd (put b));
}.

(** src/ton/src/ton_wallet_high_load_v3.rs:59-61 TimeProvider *)
Class TimeProvider (W : Type) : Type := { now_secs : M W Z }.

Section wallet.
Context {L : TonLib} {CL : CellLib} {WL : WalletLib}.

(** src/ton/src/out_action.rs:28-53 out_action *)
Definition out_action (boc_hex : string) (value : N) (destination : TonAddress) : result OutAction string :=
  try? body := cell_from_boc_hex boc_hex in
  let common := mkInternal _ false true false NULL destination value 0 0 0 0 in
  try? tm := transfer_message common body in
  Ok (send_msg SEND_MODE_IGNORE_ERRORS tm).

Definition MAX_ACTIONS : nat := 254.

(** src/ton/src/ton_wallet_high_load_v3.rs:94-114 TonWalletHighLoadV3::internal_transfer_body *)
Definition internal_transfer_body (actions : list OutAction) (query_id : Z) : outcome (result Cell string) :=
  if (MAX_ACTIONS <? length actions)%nat then Panic "Max allowed action count is 254. Use pack_actions instead."
  else
    obind (run_builder (write_out_list actions) (fun _ => build)) (fun actions_cell =>
    run_builder
      (let? _o := store_uint 32 0xae42e5a4 in
       let? _q := store_uint 64 (Z.to_N query_id) in
       store_reference actions_cell)
      (fun _ => build)).

(** src/ton/src/ton_wallet_high_load_v3.rs:116-135 TonWalletHighLoadV3::internal_transfer_message_cell *)
Definition internal_transfer_message_cell (self : TonWalletHighLoadV3) (internal_transfer_body : Cell) (value : N) :
  result Cell string :=
  transfer_message (mkInternal _ false true false NULL (wallet_address self) value 0 0 0 0) internal_transfer_body.

(** src/ton/src/ton_wallet_high_load_v3.rs:137-153 TonWalletHighLoadV3::message_inner *)
Definition message_inner (self : TonWalletHighLoadV3) (message : Cell) (mode query_id created_at timeout : Z) :
  outcome (result Cell string) :=
  run_builder
    (let? _s := store_uint 32 (Z.to_N (subwallet_id self)) in
     let? _m := store_reference message in
     let? _d := store_uint 8 (Z.to_N mode) in
     let? _q := store_int 23 query_id in
     let? _c := store_uint 64 (Z.to_N created_at) in
     store_number 22 timeout)
    (fun _ => build).

(** src/ton/src/ton_wallet_high_load_v3.rs:155-163 TonWalletHighLoadV3::sign_external_body *)
Definition sign_external_body (self : TonWalletHighLoadV3) (external_body : Cell) : outcome (result Cell string) :=
  obind (Done (signature (cell_hash external_body) (secret_key (key_pair self)))) (fun sign =>
  run_builder
    (let? _s := store_slice sign in
     store_reference external_body)
    (fun _ => build)).

(** src/ton/src/ton_wallet_high_load_v3.rs:165-173 TonWalletHighLoadV3::wrap_signed_body *)
Definition wrap_signed_body (self : TonWalletHighLoadV3) (signed_body : Cell) : result Cell string :=
  external_message (wallet_address self) signed_body.

Context {W : Type} {TP : TimeProvider W}.

(** src/ton/src/ton_wallet_high_load_v3.rs:219-222 TonWalletHighLoadV3::created_at *)
Definition created_at (self : TonWalletHighLoadV3) : M W Z :=
  let! now := now_secs in
  ret (wrap_u64 (now - wallet_timeout self / 60)).

Definition encoding_error {A} (what : string) (o : outcome (result A string)) : M W (result A BocError) :=
  match o with
  | Done r => ret (rmap_err (fun e => BocEncodingError ("Failed " +:+ what +:+ ": " +:+ e)) r)
  | Panic why => panic why
  end.

(** src/ton/src/ton_wallet_high_load_v3.rs:175-217 TonWalletHighLoadV3::outgoing_message *)
Definition outgoing_message (self : TonWalletHighLoadV3) (actions : list OutAction) (query_id : Z) (value : N) :
  M W (result Cell BocError) :=
  let? body := encoding_error "constructing internal transfer body" (internal_transfer_body actions query_id) in
  let? internal_transfer := encoding_error "constructing internal transfer message"
    (Done (internal_transfer_message_cell self body value)) in
  let! created_at := created_at self in
  let? message_inner := encoding_error "constructing inner message"
    (message_inner self internal_transfer SEND_MODE_IGNORE_ERRORS query_id created_at (wallet_timeout self)) in
  let? signed_body := encoding_error "signing external body" (sign_external_body self message_inner) in
  encoding_error "wrapping signed body" (Done (wrap_signed_body self signed_body)).
End wallet.

(** ** What is signed *)

Section properties.
Context {L : TonLib} {CL : CellLib} {LW : CellLaws} {WL : WalletLib} {WLW : WalletLaws}.

(** The bits the wallet's contract checks. *)
Definition signed_bits (self : TonWalletHighLoadV3) (mode query_id created_at timeout : Z) : list bool :=
  to_bits 32 (Z.to_N (subwallet_id self)) ++ to_bits 8 (Z.to_N mode) ++ to_bits 23 (Z.to_N query_id) ++
  to_bits 64 (Z.to_N created_at) ++ to_bits 22 (Z.to_N timeout).

(** The first three fields always fit. *)
Lemma message_prefix (self : TonWalletHighLoadV3) (message : Cell) (mode query_id created_at timeout : Z) :
  0 <= subwallet_id self <= MAX_U32 -> 0 <= mode < 256 ->
  exists b, put b = (to_bits 32 (Z.to_N (subwallet_id self)) ++ to_bits 8 (Z.to_N mode), [message]) /\
    message_inner self message mode query_id created_at timeout =
      match (let? _q := store_int 23 query_id in
             let? _c := store_uint 64 (Z.to_N created_at) in
             store_number 22 timeout) b with
      | (Done (Ok _), b) => Done (build b)
      | (Done (Err e), _) => Done (Err e)
      | (Panic why, _) => Panic why
      end.
Proof.
  intros Hs Hm. unfold MAX_U32 in *. unfold message_inner, run_builder.
  destruct (store_uint_ok 32 (Z.to_N (subwallet_id self)) builder_new) as (b1 & E1 & H1);
    [lia|rewrite builder_new_put; unfold MAX_CELL_BITS; simpl; lia|].
  rewrite builder_new_put in H1. cbn [fst snd app] in H1.
  destruct (store_reference_ok message b1) as (b2 & E2 & H2); [rewrite H1; unfold MAX_CELL_REFS; simpl; lia|].
  rewrite H1 in H2. cbn [fst snd app] in H2.
  destruct (store_uint_ok 8 (Z.to_N mode) b2) as (b3 & E3 & H3);
    [lia|rewrite H2; cbn [fst]; rewrite to_bits_length; unfold MAX_CELL_BITS; lia|].
  rewrite H2 in H3. exists b3. split; [done|].
  do 3 (rewrite bind_ok_run; first [rewrite E1|rewrite E2|rewrite E3]). done.
Qed.

Lemma message_inner_refused (self : TonWalletHighLoadV3) (message : Cell) (mode query_id created_at timeout : Z) :
  0 <= subwallet_id self <= MAX_U32 -> 0 <= mode < 256 -> 2 ^ 22 <= query_id ->
  exists e, message_inner self message mode query_id created_at timeout = Done (Err e).
Proof.
  intros Hs Hm Hq. destruct (message_prefix self message mode query_id created_at timeout Hs Hm) as (b & _ & ->).
  destruct (store_int_err 23 query_id b) as (e & b4 & E); [lia|lia|]. exists e. by rewrite bind_ok_run, E.
Qed.

(** Which query ids a wallet can sign.  The id is stored as a signed
    integer of 23 bits.  For an id below 2^22, and a timeout below 2^21, the
    message is made, with the wallet's number, mode, id, time and timeout in
    its 149 bits and the transfer as its only reference.  For an id from 2^22
    on, which is the upper half of the ids the allocator hands out, it is
    refused. *)
Theorem signable_ids (self : TonWalletHighLoadV3) (message : Cell) (mode query_id created_at timeout : Z) :
  0 <= subwallet_id self <= MAX_U32 -> 0 <= mode < 256 -> 0 <= query_id -> 0 <= created_at <= MAX_U64 ->
  0 <= timeout < 2 ^ 21 ->
  (query_id < 2 ^ 22 -> exists c, message_inner self message mode query_id created_at timeout = Done (Ok c) /\
     cell_data c = signed_bits self mode query_id created_at timeout /\ cell_refs c = [message]) /\
  (2 ^ 22 <= query_id -> exists e, message_inner self message mode query_id created_at timeout = Done (Err e)).
Proof.
  intros Hs Hm Hq Hc Ht. split; [|by apply message_inner_refused]. intros Hq'.
  destruct (message_prefix self message mode query_id created_at timeout Hs Hm) as (b3 & H3 & ->).
  unfold MAX_U32, MAX_U64 in *.
  assert (Hl3 : length (fst (put b3)) = 40%nat) by (rewrite H3; cbn [fst]; by rewrite length_app, !to_bits_length).
  rewrite bind_ok_run.
  destruct (store_int_ok 23 query_id b3) as (b4 & -> & H4); [lia|lia|rewrite Hl3; unfold MAX_CELL_BITS; lia|].
  rewrite bind_ok_run.
  assert (Hl4 : length (fst (put b4)) = 63%nat) by (rewrite H4; cbn [fst]; by rewrite length_app, Hl3, to_bits_length).
  destruct (store_uint_ok 64 (Z.to_N created_at) b4) as (b5 & -> & H5); [lia|rewrite Hl4; unfold MAX_CELL_BITS; lia|].
  destruct (store_number_ok 22 timeout b5) as (b6 & -> & H6);
    [lia|lia|rewrite H5; cbn [fst]; rewrite length_app, Hl4, to_bits_length; unfold MAX_CELL_BITS; lia|].
  destruct (build_ok b6) as (c & -> & Hd & Hr). exists c. split; [done|].
  rewrite H6, H5, H4, H3 in Hd, Hr. cbn [fst snd] in Hd, Hr. split; [|done].
  unfold signed_bits. by rewrite Hd, <- !app_assoc.
Qed.
End properties.

(** ** A wallet on lists of bits *)

Module WalletDemo.
Export CellDemo.
Section demo.
Variable decode : string -> result MCell string.
#[local] Instance demo_cells : CellLib := cells decode.

Definition store_signed (n : nat) (v : Z) : M Bits (result unit string) :=
  if (0 <=? v) && (v <? 2 ^ (Z.of_nat n - 1)) then append (to_bits n (Z.to_N v)) else ret (Err "does not fit").

Definition wallet_lib : WalletLib := {|
  OutAction := Z * MCell;
  send_msg := pair;
  write_out_list := fun actions => ret (Ok tt);
  transfer_message := fun info body => Ok (mcell [] [body]);
  store_int := store_signed;
  store_number := store_signed;
  store_slice := fun s => append [true];
  cell_hash := fun _ => "hash";
  signature := fun m k => Ok (m +:+ k);
  external_message := fun dest body => Ok (mcell [] [body]);
  boc_serialize := fun _ => Ok "boc";
|}.

Lemma wallet_laws : @WalletLaws ton demo_cells (cells_laws decode) wallet_lib.
Proof.
  assert (Hok : forall n v (b : Bits), (0 < n)%nat -> 0 <= v < 2 ^ (Z.of_nat n - 1) ->
    (length (fst b) + n <= MAX_CELL_BITS)%nat ->
    exists b', store_signed n v b = (Done (Ok tt), b') /\ b' = (fst b ++ to_bits n (Z.to_N v), snd b)).
  { intros n v b Hn Hv Hb. unfold store_signed.
    replace ((0 <=? v) && (v <? 2 ^ (Z.of_nat n - 1))) with true by (symmetry; apply andb_true_iff; lia).
    apply append_ok. by rewrite to_bits_length. }
  split; [exact Hok| |exact Hok].
  intros n v b Hn Hv. unfold wallet_lib, store_int, store_signed.
  replace (v <? 2 ^ (Z.of_nat n - 1)) with false by (symmetry; apply Z.ltb_ge; done).
  rewrite andb_false_r. by exists "does not fit", b.
Qed.
End demo.
Definition plain_cells : CellLib := cells (fun _ => Ok (mcell [] [])).
Definition plain_wallets : @WalletLib ton plain_cells := wallet_lib (fun _ => Ok (mcell [] [])).
Definition a_wallet : @TonWalletHighLoadV3 ton := @mkWallet ton "A"%char (mkKeyPair "pk" "sk") 7 3600.
End WalletDemo.
Import WalletDemo.

Lemma signable_ids_witness :
  (exists c, message_inner (CL := plain_cells) (WL := plain_wallets) a_wallet (mcell [] []) 2 1024 1700000000 3600 =
     Done (Ok c) /\ cell_data (CellLaws := cells_laws _) c = signed_bits a_wallet 2 1024 1700000000 3600) /\
  exists e, message_inner (CL := plain_cells) (WL := plain_wallets) a_wallet (mcell [] []) 2 4194304 1700000000 3600 =
     Done (Err e).
Proof.
  split.
  - destruct (proj1 (signable_ids (CL := plain_cells) (LW := cells_laws _) (WL := plain_wallets)
      (WLW := wallet_laws _) a_wallet (mcell [] []) 2 1024 1700000000 3600
      ltac:(done) ltac:(done) ltac:(done) ltac:(done) ltac:(done)) ltac:(done)) as (c & H1 & H2 & _).
    by exists c.
  - exact (proj2 (signable_ids (CL := plain_cells) (LW := cells_laws _) (WL := plain_wallets)
      (WLW := wallet_laws _) a_wallet (mcell [] []) 2 4194304 1700000000 3600
      ltac:(done) ltac:(done) ltac:(done) ltac:(done) ltac:(done)) ltac:(done)).
Defined.
