(* ===== verification/TonBroadcaster.v ===== *)
(** * The TON broadcaster

    [ton/src/broadcaster.rs]: approvals, executions and refunds become a
    message of one of the relayer's wallets.  The wallet is locked while its
    query id is taken and the message is sent. *)

From S2P Require Import Prelude.
From S2P Require Import Decimal.
From S2P Require Import GmpTypes.
From S2P Require Import Text.
From S2P Require Import Redis.
From S2P Require Import HighLoadQueryId.
From S2P Require Import TonLib.
From S2P Require Import WalletManager.
From S2P Require Import Includer.
From S2P Require Import TonCells.
From S2P Require Import TonMessages.
From S2P Require Import GasCalculator.
From S2P Require Import TraceParser.
From S2P Require Import Subscriber.
From S2P Require Import TonWallet.

(** [{e:?}] of the errors the broadcaster wraps. *)
Definition debug_query_error (e : HighLoadQueryIdWrapperError) : string :=
  match e with
  | ConstructionError => "ConstructionError"
  | NoNextQueryId => "NoNextQueryId"
  | DatabaseError => "DatabaseError"
  end.
Definition debug_wallet_error (e : WalletManagerError) : string :=
  match e with
  | NoAvailableWallet => "NoAvailableWallet"
  | LockError s => "LockError(" +:+ quoted s +:+ ")"
  end.

Section broadcaster.
Context {L : TonLib} {CL : CellLib} {WL : WalletLib} {C : Codecs} {GE : GasEstimator} {W : Type}
  {LM : LockManager W} {QI : HighLoadQueryIdWrapper W} {RC : RestClient W} {TP : TimeProvider W}.
Variable keccak256 : string -> string.

(** src/ton/src/broadcaster.rs:40-49 TONBroadcaster *)
Record TONBroadcaster : Type := mkTONBroadcaster {
  wallet_pool : Wallets;
  to_gateway : TonAddress;
  to_gas_service : TonAddress;
  own_chain_name : string;
}.

(** src/ton/src/broadcaster.rs:75-110 TONBroadcaster::send_to_chain *)
Definition send_to_chain (wallet : TonWalletHighLoadV3) (actions : list OutAction) :
  M W (result V3MessageResponse BroadcasterError) :=
  let? id := map_err (fun e => BcGenericError ("Query Id acquiring failed: " +:+ debug_query_error e))
    (wrapper_next (address_to_string (wallet_address wallet)) (wallet_timeout wallet)) in
  let? outgoing_message := map_err (fun e => BcGenericError (show_BocError e))
    (outgoing_message wallet actions (query_id id) (Z.to_N (highload_wallet_send (length actions)))) in
  let? tx := ret (rmap_err BcGenericError (boc_serialize outgoing_message)) in
  map_err (fun e => BcRPCCallFailed (show_ClientError e)) (post_v3_message (base64_encode tx)).

Definition boc_failed {A} (o : outcome (result A BocError)) : M W (result A BroadcasterError) :=
  match o with
  | Done r => ret (rmap_err (fun e => BcGenericError (show_BocError e)) r)
  | Panic why => panic why
  end.

Definition acquire_wallet (self : TONBroadcaster) : M W (result TonWalletHighLoadV3 BroadcasterError) :=
  map_err (fun e => BcGenericError ("Wallet acquire failed: " +:+ debug_wallet_error e)) (acquire (wallet_pool self)).

(** What is reported of an attempt to send. *)
Definition report (message_id source_chain : string) (res : result V3MessageResponse BroadcasterError) : BroadcastResult :=
  match res with
  | Ok response => mkBroadcast (message_hash response) (Ok tt) (Some message_id) (Some source_chain)
  | Err err => mkBroadcast "" (Err err) (Some message_id) (Some source_chain)
  end.

(** src/ton/src/broadcaster.rs:163-182 TONBroadcaster::broadcast_prover_message (the work with the wallet, then its release) *)
Definition then_release {A} (wallet : TonWalletHighLoadV3) (m : M W A) : M W A :=
  let! result := m in
  let! _u := release wallet in
  ret result.

(** src/ton/src/broadcaster.rs:124-183 TONBroadcaster::broadcast_prover_message *)
Definition ton_broadcast_prover_message (self : TONBroadcaster) (tx_blob : string) :
  M W (result BroadcastResult BroadcasterError) :=
  let? approve_messages := boc_failed (approve_from_boc_hex tx_blob) in
  let messages := TonMessages.approve_messages approve_messages in
  let? message := ret (ok_or (head messages) (BcGenericError "Missing approved message")) in
  let approve_message_value := Z.to_N (approve_send (length messages)) in
  let? action := ret (rmap_err BcGenericError (out_action tx_blob approve_message_value (to_gateway self))) in
  let? wallet := acquire_wallet self in
  then_release wallet
    (let! res := send_to_chain wallet [action] in
     ret (Ok (report (approve_message_id message) (approve_source_chain message) res))).

(** src/ton/src/broadcaster.rs:191-289 TONBroadcaster::broadcast_execute_message *)
Definition ton_broadcast_execute_message (self : TONBroadcaster) (message : ExecuteTaskFields) :
  M W (result BroadcastResult BroadcasterError) :=
  let msg := execute_message message in
  let? destination_address := ret (rmap_err (fun e => BcGenericError ("TonAddressParseError: " +:+ e))
    (address_parse (destination_address msg))) in
  let? decoded_bytes := ret (rmap_err (fun e => BcGenericError ("Failed decoding payload: " +:+ e))
    (base64_decode (GmpTypes.execute_payload message))) in
  let payload_len := String.length decoded_bytes in
  let hex_payload := hex_encode decoded_bytes in
  let available_gas := default 0 (parse_u64 (amount (available_gas_balance message))) in
  let required_gas := execute_estimate payload_len in
  if available_gas <? required_gas then
    ret (Ok (mkBroadcast "" (Err (BcInsufficientGas "Cannot proceed to execute"))
      (Some (message_id msg)) (Some (source_chain msg))))
  else
    let? wallet := acquire_wallet self in
    then_release wallet
      (let relayer_execute_msg := mkRelayerExecute (message_id msg) (source_chain msg) (source_address msg)
         (own_chain_name self) destination_address hex_payload (wallet_address wallet) in
       let? cell := boc_failed (relayer_execute_to_cell keccak256 relayer_execute_msg) in
       let? boc := ret (rmap_err (fun e => BcGenericError ("Failed to serialize relayer execute message: " +:+ e))
         (cell_to_boc_hex cell)) in
       let? action := ret (rmap_err BcGenericError
         (out_action boc (Z.to_N (execute_send payload_len)) (to_gateway self))) in
       let! res := send_to_chain wallet [action] in
       ret (Ok (report (message_id msg) (source_chain msg) res))).

(** src/ton/src/broadcaster.rs:291-376 TONBroadcaster::broadcast_refund_message *)
Definition ton_broadcast_refund_message (self : TONBroadcaster) (refund_task : RefundTaskFields) :
  M W (result string BroadcasterError) :=
  let balance := remaining_gas_balance refund_task in
  match token_id balance with
  | Some _ => ret (Err (BcGenericError "Refund task with token_id is not supported"))
  | None =>
      let id := message_id (refund_message refund_task) in
      let cleaned_hash := default id (strip_prefix "0x" id) in
      let? tx_hash := ret (rmap_err BcGenericError (hash_from_hex cleaned_hash)) in
      let? address := ret (rmap_err BcGenericError (from_hex_str (refund_recipient_address refund_task))) in
      let? original_amount := ret (rmap_err BcGenericError (biguint_from_str (amount balance))) in
      let gas_estimate := Z.to_N native_gas_refund_estimate in
      if (original_amount <? gas_estimate)%N then
        ret (Err (BcInsufficientGas "Not enough balance to cover gas for refund"))
      else
        let amount := (original_amount - gas_estimate)%N in
        let? cell := boc_failed (native_refund_to_cell (mkNativeRefund tx_hash address amount)) in
        let? boc := ret (rmap_err (fun e => BcGenericError ("Failed to serialize relayer execute message: " +:+ e))
          (cell_to_boc_hex cell)) in
        let? wallet := acquire_wallet self in
        then_release wallet
          (let? action := ret (rmap_err BcGenericError (out_action boc REFUND_DUST (to_gas_service self))) in
           let! res := send_to_chain wallet [action] in
           ret (Ok (match res with Ok response => message_hash response | Err _ => "" end)))
  end.

(** src/ton/src/broadcaster.rs:116-377 impl Broadcaster for TONBroadcaster *)
Definition TonBroadcaster (self : TONBroadcaster) : Broadcaster W := {|
  broadcast_prover_message := ton_broadcast_prover_message self;
  broadcast_refund := fun _ => ret (Ok "");
  broadcast_execute_message := ton_broadcast_execute_message self;
  broadcast_refund_message := ton_broadcast_refund_message self;
|}.
End broadcaster.

(** ** The wallet is given back *)

Section locks.
Context {W : Type} {RD : Redis W}.

(** What a computation does to the locks that does not touch them: time may
    pass, and keys expire. *)
Record locks_alone (w w' : W) : Prop := {
  alone_now : now w <= now w';
  alone_kept : forall k e, expiry w k = Some e -> now w' < e -> expiry w' k = Some e;
  alone_new : forall k, live w' k -> expiry w' k = expiry w k;
  alone_healthy : healthy w -> healthy w';
}.

Definition leaves_locks {A} (m : M W A) : Prop := forall w, locks_alone w (snd (m w)).

(** What a use of the pool leaves.  A lock that was there is still there until
    it expires.  What is there now was there before, or is a lock of the pool
    that was set when the use began and goes within its sixty seconds; and if
    Redis answered every call, it was there before. *)
Record locks_after {L : TonLib} (pool : Wallets) (w w' : W) : Prop := {
  after_kept : forall k e, expiry w k = Some e -> now w' < e -> expiry w' k = Some e;
  after_left : forall k, live w' k -> expiry w' k = expiry w k \/ pool_key pool k /\ expiry w' k = Some (now w + LOCK_TTL);
  after_clean : healthy w -> healthy w' /\ forall k, live w' k -> expiry w' k = expiry w k;
}.

Lemma locks_alone_refl w : locks_alone w w.
Proof. split; [lia|done..]. Qed.

Lemma locks_alone_trans w1 w2 w3 : locks_alone w1 w2 -> locks_alone w2 w3 -> locks_alone w1 w3.
Proof.
  intros [N1 K1 L1 H1] [N2 K2 L2 H2]. split; [lia| | |auto].
  - intros k e He Ht. apply K2; [|done]. apply K1; [done|lia].
  - intros k Hk. rewrite L2 by done. apply L1. destruct Hk as (e & He & Ht). exists e. rewrite L2 in He by (by exists e).
    split; [done|lia].
Qed.

Lemma leaves_ret {A} (a : A) : leaves_locks (ret a).
Proof. intros w. apply locks_alone_refl. Qed.

Lemma leaves_panic {A} why : leaves_locks (@panic W A why).
Proof. intros w. apply locks_alone_refl. Qed.

Lemma leaves_bind {A B} (m : M W A) (k : A -> M W B) :
  leaves_locks m -> (forall a, leaves_locks (k a)) -> leaves_locks (bind m k).
Proof.
  intros Hm Hk w. rewrite bind_run. specialize (Hm w). destruct (m w) as [[a|why] w1]; [|done].
  eapply locks_alone_trans; [exact Hm|apply Hk].
Qed.

Lemma leaves_bind_ok {A B E} (m : M W (result A E)) (k : A -> M W (result B E)) :
  leaves_locks m -> (forall a, leaves_locks (k a)) -> leaves_locks (bind_ok m k).
Proof. intros Hm Hk. apply leaves_bind; [done|]. intros [a|e]; [apply Hk|apply leaves_ret]. Qed.

Lemma leaves_map_err {A E F} (f : E -> F) (m : M W (result A E)) : leaves_locks m -> leaves_locks (map_err f m).
Proof. intros Hm. apply leaves_bind; [done|]. intros. apply leaves_ret. Qed.

Lemma locks_after_refl {L : TonLib} pool w : locks_after pool w w.
Proof. split; [done|by left|done]. Qed.
End locks.

(** The query ids, the chain's API and the clock are no part of Redis. *)
Class LocksElsewhere {W : Type} `{!TonLib, !Redis W, !HighLoadQueryIdWrapper W, !RestClient W, !TimeProvider W} : Prop := {
  next_elsewhere : forall a t, leaves_locks (wrapper_next (W := W) a t);
  post_elsewhere : forall b, leaves_locks (post_v3_message (W := W) b);
  now_elsewhere : leaves_locks (now_secs (W := W));
}.
Arguments LocksElsewhere W {_ _ _ _ _}.

Section released.
Context {L : TonLib} {CL : CellLib} {WL : WalletLib} {C : Codecs} {GE : GasEstimator} {W : Type}
  {RD : Redis W} {RL : RedisLaws W} {QI : HighLoadQueryIdWrapper W} {RC : RestClient W} {TP : TimeProvider W}
  {LE : LocksElsewhere W}.
#[local] Existing Instance RedisLockManager.
Variable keccak256 : string -> string.

Lemma encoding_leaves {A} what (o : outcome (result A string)) : leaves_locks (W := W) (encoding_error what o).
Proof. destruct o; [apply leaves_ret|apply leaves_panic]. Qed.

Lemma boc_failed_leaves {A} (o : outcome (result A BocError)) : leaves_locks (W := W) (boc_failed o).
Proof. destruct o; [apply leaves_ret|apply leaves_panic]. Qed.

Ltac leaves_steps := repeat first
  [ apply leaves_bind_ok | apply leaves_bind | apply leaves_map_err | apply leaves_ret
  | apply encoding_leaves | apply boc_failed_leaves | apply next_elsewhere | apply post_elsewhere | apply now_elsewhere
  | progress intros ].

Lemma send_leaves wallet actions : leaves_locks (W := W) (send_to_chain wallet actions).
Proof. unfold send_to_chain, outgoing_message, created_at. leaves_steps. Qed.

(** The [DEL] of a release, when the wallet's lock was set by this use. *)
Lemma release_after (pool : Wallets) v w1 w2 w3 (w : W) :
  (forall k, live w k -> expiry w1 k = expiry w k) -> ~ live w (wallet_key v) -> now w1 = now w ->
  (forall k, live w1 k -> expiry w1 k = expiry w k \/ pool_key pool k /\ expiry w1 k = Some (now w + LOCK_TTL)) ->
  (healthy w -> healthy w1 /\ forall k, live w1 k -> k <> wallet_key v -> expiry w1 k = expiry w k) ->
  locks_alone w1 w2 -> release v w2 = (Done tt, w3) -> locks_after pool w w3.
Proof.
  intros Hkeep Hfree Hn1 Hleft Hclean [N K Ln H] E.
  pose proof (release_other v w2) as Ho. unfold release in *. cbn [unlock RedisLockManager] in *. unfold redis_unlock in *.
  rewrite bind_run in E. pose proof (del_now (wallet_key v) w2) as Hdn. pose proof (del_healthy (wallet_key v) w2) as Hdh.
  assert (Hw3 : w3 = snd (del (wallet_key v) w2)).
  { fold (wallet_key v) in E. destruct (del (wallet_key v) w2) as [[r|why] w4]; [by injection E as <-|done]. }
  assert (Hsnd : forall k, k <> wallet_key v -> expiry w3 k = expiry w2 k).
  { intros k Hk. rewrite <- (Ho k Hk), bind_run. fold (wallet_key v). rewrite Hw3. by destruct (del (wallet_key v) w2) as [[r|why] w4]. }
  assert (Hlive : forall k e, expiry w3 k = Some e -> now w3 < e -> expiry w2 k = Some e -> live w1 k /\ expiry w1 k = Some e).
  { intros k e _ Ht He. rewrite Hw3, Hdn in Ht. assert (live w2 k) by (by exists e). rewrite Ln in He by done.
    split; [|done]. exists e. split; [done|lia]. }
  assert (Hold : forall k e, expiry w3 k = Some e -> now w3 < e -> expiry w2 k = Some e).
  { intros k e He Ht. destruct (decide (k = wallet_key v)) as [->|Hk]; [|by rewrite <- Hsnd].
    destruct (del_outcome (wallet_key v) w2) as [(b & w4 & E4 & Hx)|(x & w4 & E4 & [Hx|Hx])]; rewrite E4 in Hw3; simpl in Hw3; subst w3; congruence. }
  split.
  - intros k e He Ht. assert (Hl : live w k). { exists e. split; [done|]. rewrite Hw3, Hdn in Ht. lia. }
    assert (Hk : k <> wallet_key v) by (by intros ->). rewrite Hsnd by done. apply K; [by rewrite Hkeep|].
    by rewrite Hw3, Hdn in Ht.
  - intros k (e & He & Ht). destruct (Hlive k e He Ht (Hold k e He Ht)) as [Hl He1]. rewrite He, <- He1. by apply Hleft.
  - intros Hh. destruct (Hclean Hh) as [Hh1 Hc]. destruct (Hdh (H Hh1)) as [[b Hb] Hh3]. split; [by rewrite Hw3|].
    intros k (e & He & Ht). destruct (Hlive k e He Ht (Hold k e He Ht)) as [Hl He1]. rewrite He, <- He1. apply Hc; [done|].
    intros ->. destruct (del_outcome (wallet_key v) w2) as [(b2 & w4 & E4 & Hx)|(x & w4 & E4 & _)]; rewrite E4 in *; simpl in *; congruence.
Qed.

(** A part that runs with a wallet and gives it back. *)
Lemma with_wallet_after {A} (self : TONBroadcaster) (m : TonWalletHighLoadV3 -> M W (result A BroadcasterError)) w r w' :
  keyed (wallet_pool self) -> (forall v, leaves_locks (m v)) ->
  (let? wallet := acquire_wallet self in then_release wallet (m wallet)) w = (Done r, w') -> locks_after (wallet_pool self) w w'.
Proof.
  intros Hk Hm. unfold acquire_wallet. rewrite bind_ok_run, map_err_run.
  destruct (acquire_run (wallet_pool self) w Hk) as (ra & w1 & E & Hn & Hkeep & Hr). rewrite E.
  destruct (acquire_left _ _ _ _ Hk E) as [Hleft Hclean]. destruct ra as [v|e]; cbn [rmap_err].
  - destruct Hr as (_ & Hfree & _). unfold then_release. rewrite bind_run. specialize (Hm v w1).
    destruct (m v w1) as [[x|why] w2]; [|done]. simpl in Hm. rewrite bind_run.
    destruct (release v w2) as [[[]|why] w3] eqn:Er; [|done]. intros [= _ <-].
    eapply release_after; try done. intros Hh. destruct (Hclean Hh) as [? Hc]. split; [done|].
    intros k Hl Hne. apply Hc; [done|]. by intros ? [= <-].
  - intros [= _ <-]. split.
    + intros k x Hx Ht. rewrite Hkeep; [done|]. exists x. split; [done|lia].
    + exact Hleft.
    + intros Hh. destruct (Hclean Hh) as [? Hc]. split; [done|]. intros k Hl. by apply Hc.
Qed.

(** A pure step before. *)
Lemma ret_ok_after {A B E} pool (r : result A E) (k : A -> M W (result B E)) w x w' :
  (forall a, r = Ok a -> k a w = (Done x, w') -> locks_after pool w w') ->
  bind_ok (ret r) k w = (Done x, w') -> locks_after pool w w'.
Proof.
  intros H. rewrite bind_ok_run. cbn [ret]. destruct r as [a|e]; [by apply H|]. intros [= _ <-]. apply locks_after_refl.
Qed.

Lemma boc_ok_after {A B} pool (o : outcome (result A BocError)) (k : A -> M W (result B BroadcasterError)) w x w' :
  (forall a, k a w = (Done x, w') -> locks_after pool w w') ->
  bind_ok (boc_failed o) k w = (Done x, w') -> locks_after pool w w'.
Proof.
  intros H. rewrite bind_ok_run. destruct o as [[a|e]|why]; cbn [boc_failed ret panic rmap_err]; [apply H| |done].
  intros [= _ <-]. apply locks_after_refl.
Qed.

(** C17: no wallet stays locked.  Whatever an operation of the broadcaster
    returns, over the Redis locks and whichever step failed, the locks of
    others are as they were; if every call to Redis was answered, no lock is
    there that was not there when it began; and if some calls failed, what is
    left is locks of the pool that go within sixty seconds of being set. *)
Theorem wallet_released (self : TONBroadcaster) (w w' : W) :
  keyed (wallet_pool self) ->
  (exists blob r, ton_broadcast_prover_message self blob w = (Done r, w')) \/
  (exists msg r, ton_broadcast_execute_message keccak256 self msg w = (Done r, w')) \/
  (exists task r, ton_broadcast_refund_message self task w = (Done r, w')) ->
  (forall k e, expiry w k = Some e -> now w' < e -> expiry w' k = Some e) /\
  (forall k, live w' k -> expiry w' k = expiry w k \/ pool_key (wallet_pool self) k /\ expiry w' k = Some (now w + LOCK_TTL)) /\
  (healthy w -> forall k, live w' k -> expiry w' k = expiry w k).
Proof.
  intros Hk H. enough (Ha : locks_after (wallet_pool self) w w').
  { destruct Ha as [H1 H2 H3]. split; [done|]. split; [done|]. intros Hh. by apply H3. }
  destruct H as [(blob & r & H)|[(msg & r & H)|(task & r & H)]]; revert H.
  - unfold ton_broadcast_prover_message. apply boc_ok_after; intros ms. cbv zeta.
    apply ret_ok_after; intros m _. apply ret_ok_after; intros act _. apply with_wallet_after; [done|].
    intros v. apply leaves_bind; [apply send_leaves|intros; apply leaves_ret].
  - unfold ton_broadcast_execute_message. cbv zeta.
    apply ret_ok_after; intros dest _. apply ret_ok_after; intros bytes _.
    destruct (_ <? _); [intros [= _ <-]; apply locks_after_refl|]. apply with_wallet_after; [done|].
    intros v. leaves_steps.
  - unfold ton_broadcast_refund_message. cbv zeta.
    destruct (token_id _); [intros [= _ <-]; apply locks_after_refl|]. do 3 (apply ret_ok_after; intros ? _).
    destruct (_ <? _)%N; [intros [= _ <-]; apply locks_after_refl|]. apply boc_ok_after; intros cell. apply ret_ok_after; intros boc _.
    apply with_wallet_after; [done|]. intros v. leaves_steps.
Qed.
End released.

(** ** What is sent, and what is reported *)

Section behaviour.
Context {L : TonLib} {CL : CellLib} {LW : CellLaws} {WL : WalletLib} {WLW : WalletLaws} {C : Codecs}
  {GE : GasEstimator} {W : Type}
  {LM : LockManager W} {QI : HighLoadQueryIdWrapper W} {RC : RestClient W} {TP : TimeProvider W}.
Variable keccak256 : string -> string.

(** The upper half of the query ids is lost.  When the id the wallet is
    given has a shift from 4096 on, no message is made of it and nothing is sent:
    the id is used up and the caller gets an error. *)
Theorem upper_ids_never_sent (wallet : TonWalletHighLoadV3) (actions : list OutAction) (q : HighLoadQueryId)
    (w w1 w' : W) (r : result V3MessageResponse BroadcasterError) :
  0 <= subwallet_id wallet <= MAX_U32 ->
  wrapper_next (address_to_string (wallet_address wallet)) (wallet_timeout wallet) w = (Done (Ok q), w1) ->
  4096 <= shift q <= MAX_SHIFT -> 0 <= bitnumber q <= MAX_BITNUMBER ->
  send_to_chain wallet actions w = (Done r, w') ->
  (exists e, r = Err e) /\ (w' = w1 \/ exists t, now_secs w1 = (t, w')).
Proof.
  intros Hs Hn Hh Hb. unfold send_to_chain. rewrite bind_ok_run, map_err_run, Hn. cbn [rmap_err].
  assert (Hq : 2 ^ 22 <= query_id q).
  { unfold MAX_SHIFT, MAX_BITNUMBER in *. rewrite query_id_eq by (unfold valid, MAX_SHIFT, MAX_BITNUMBER; lia). lia. }
  rewrite bind_ok_run, map_err_run. unfold outgoing_message. rewrite bind_ok_run.
  destruct (internal_transfer_body _ _) as [[body|e]|why]; cbn [encoding_error ret panic rmap_err];
    [|intros [= <- <-]; split; [by eexists|by left]|done].
  rewrite bind_ok_run. destruct (internal_transfer_message_cell _ _ _) as [tm|e]; cbn [ret rmap_err];
    [|intros [= <- <-]; split; [by eexists|by left]].
  rewrite bind_run. unfold created_at. rewrite bind_run.
  destruct (now_secs w1) as [[t|why] w2] eqn:Et; [|done]. cbn [ret].
  destruct (message_inner_refused wallet tm SEND_MODE_IGNORE_ERRORS (query_id q)
    (wrap_u64 (t - wallet_timeout wallet / 60)) (wallet_timeout wallet) Hs) as [e He]; [unfold SEND_MODE_IGNORE_ERRORS; lia|exact Hq|].
  rewrite bind_ok_run, He. cbn [encoding_error ret rmap_err]. intros [= <- <-].
  split; [by eexists|]. right. by exists (Done t).
Qed.

Context {XM : GmpApi.XrplMessages} {API : GmpApi.GmpApiTrait W}.

(** An execution nobody has paid for.  When the gas left for a message, read as
    zero if it is not a number, is below the estimate for its payload, no wallet
    is taken and nothing is sent: all that happens is the report to the GMP
    API, with the reason, and the task counts as done if the report is taken. *)
Theorem unfunded_execute (self : TONBroadcaster) (task : ExecuteTask) (dest : TonAddress) (bytes : string) (w : W) :
  let fields := GmpTypes.execute_task task in
  address_parse (destination_address (execute_message fields)) = Ok dest ->
  base64_decode (GmpTypes.execute_payload fields) = Ok bytes ->
  default 0 (parse_u64 (amount (available_gas_balance fields))) < execute_estimate (String.length bytes) ->
  consume_execute (BC := TonBroadcaster keccak256 self) task w =
    map_err (fun e => IncConsumerError (show_GmpApiError e))
      (GmpApi.cannot_execute_message (id (execute_common task)) (message_id (execute_message fields))
         (source_chain (execute_message fields)) "Insufficient gas: Cannot proceed to execute" InsufficientGas) w.
Proof.
  cbv zeta. intros Hd Hb Hg. unfold consume_execute. rewrite bind_run. cbn [TonBroadcaster broadcast_execute_message].
  unfold ton_broadcast_execute_message. cbv zeta. rewrite bind_ok_run, Hd. cbn [ret rmap_err].
  rewrite bind_ok_run, Hb. cbn [ret rmap_err].
  rewrite (proj2 (Z.ltb_lt _ _) Hg). cbn [ret status broadcast_result_has_message result_message_id result_source_chain is_ok andb].
  change (show_BroadcasterError (BcInsufficientGas "Cannot proceed to execute")) with
    "Insufficient gas: Cannot proceed to execute".
  rewrite bind_ok_run, !map_err_run.
  destruct (GmpApi.cannot_execute_message _ _ _ _ _ w) as [[[[]|e]|why] w1]; done.
Qed.

(** What becomes of a refund.  What the recipient is sent is the balance less
    the estimated gas, and never less than nothing.  The outcome of sending
    it is not looked at: once the wallet was acquired and the message made, the
    task counts as done even when the chain refused the message, and the
    refund is lost. *)
Theorem refund_outcome_ignored (self : TONBroadcaster) (task : RefundTask) h addr balance cell boc act v (w w1 w2 w3 : W)
    (res : result V3MessageResponse BroadcasterError) :
  let fields := GmpTypes.refund_task task in
  let gas := Z.to_N native_gas_refund_estimate in
  token_id (remaining_gas_balance fields) = None ->
  hash_from_hex (default (message_id (refund_message fields)) (strip_prefix "0x" (message_id (refund_message fields)))) = Ok h ->
  from_hex_str (refund_recipient_address fields) = Ok addr ->
  biguint_from_str (amount (remaining_gas_balance fields)) = Ok balance ->
  ((balance < gas)%N ->
     ton_broadcast_refund_message self fields w =
       (Done (Err (BcInsufficientGas "Not enough balance to cover gas for refund")), w)) /\
  ((gas <= balance)%N ->
     native_refund_to_cell (mkNativeRefund h addr (balance - gas)) = Done (Ok cell) -> cell_to_boc_hex cell = Ok boc ->
     acquire (wallet_pool self) w = (Done (Ok v), w1) ->
     out_action boc REFUND_DUST (to_gas_service self) = Ok act ->
     send_to_chain v [act] w1 = (Done res, w2) -> release v w2 = (Done tt, w3) ->
     consume_refund (RM := TONRefundManager) (BC := TonBroadcaster keccak256 self) task w = (Done (Ok tt), w3)).
Proof.
  cbv zeta. intros Ht Hh Ha Hb. split.
  - intros Hlt. unfold ton_broadcast_refund_message. rewrite Ht. cbv zeta.
    do 3 (rewrite bind_ok_run; cbn [ret]; first [rewrite Hh|rewrite Ha|rewrite Hb]; cbn [rmap_err]).
    by rewrite (proj2 (N.ltb_lt _ _) Hlt).
  - intros Hge Hc Hboc Hacq Hact Hsend Hrel. unfold consume_refund. cbn [TONRefundManager is_refund_manager_managed negb].
    rewrite bind_run. cbn [TonBroadcaster broadcast_refund_message].
    unfold ton_broadcast_refund_message. rewrite Ht. cbv zeta.
    do 3 (rewrite bind_ok_run; cbn [ret]; first [rewrite Hh|rewrite Ha|rewrite Hb]; cbn [rmap_err]).
    rewrite (proj2 (N.ltb_ge _ _) Hge).
    rewrite bind_ok_run, Hc. cbn [boc_failed ret rmap_err]. rewrite bind_ok_run, Hboc. cbn [ret rmap_err].
    rewrite bind_ok_run. unfold acquire_wallet. rewrite map_err_run, Hacq. cbn [rmap_err].
    unfold then_release. rewrite bind_run, bind_ok_run, Hact. cbn [ret rmap_err]. rewrite bind_run, Hsend. cbn [ret].
    by rewrite bind_run, Hrel.
Qed.
End behaviour.

(** ** A concrete run *)

Module BroadcasterDemo.
Export WalletDemo.
(** The locks, what was posted, and the next query id; the chain is down. *)
Record World : Type := mkWorld { locks : gset string; sent : list string; next_id : HighLoadQueryId }.
#[export] Instance locker : LockManager World := {|
  lock := fun k w =>
    if decide (k ∈ locks w) then (Done false, w) else (Done true, mkWorld ({[k]} ∪ locks w) (sent w) (next_id w));
  unlock := fun k w => (Done tt, mkWorld (locks w ∖ {[k]}) (sent w) (next_id w));
|}.
#[export] Instance ids : HighLoadQueryIdWrapper World := {| wrapper_next := fun _ _ w => (Done (Ok (next_id w)), w) |}.
#[export] Instance client : RestClient World := {|
  post_v3_message := fun boc w => (Done (Err (CliConnectionFailed "offline")), w);
  get_traces_for_account := fun _ _ _ => ret (Ok []);
  get_account_states := fun _ => ret (Ok []);
|}.
#[export] Instance time : TimeProvider World := {| now_secs := ret 1700000000 |}.
(** The same over a Redis server. *)
Record RedisWorld : Type := mkRedisWorld { redis : Server; redis_next_id : HighLoadQueryId }.
Definition via_redis {A} (m : M Server A) : M RedisWorld A := fun w =>
  let '(o, s) := m (redis w) in (o, mkRedisWorld s (redis_next_id w)).
#[export] Instance redis_world : Redis RedisWorld := {|
  set_nx_ex := fun k ttl => via_redis (set_nx_ex k ttl);
  del := fun k => via_redis (del k);
  now := fun w => now (redis w);
  expiry := fun w => expiry (redis w);
  healthy := fun w => healthy (redis w);
|}.
#[export] Instance redis_world_laws : RedisLaws RedisWorld.
Proof.
  assert (Hrun : forall A (m : M Server A) w, via_redis m w = (fst (m (redis w)), mkRedisWorld (snd (m (redis w))) (redis_next_id w)))
    by (intros A m w; unfold via_redis; by destruct (m (redis w))).
  split; intros *; cbn [set_nx_ex del now expiry healthy redis_world]; rewrite ?Hrun; cbn [fst snd redis].
  - apply (set_now (W := Server)).
  - apply (del_now (W := Server)).
  - apply (set_other (W := Server)).
  - apply (del_other (W := Server)).
  - destruct (set_outcome k ttl (redis w)) as [(? & x & -> & ?)|[(? & x & -> & ?)|(e & x & -> & ?)]];
      [left; split; [done|]|right; left; split; [done|]|right; right; exists e]; by eexists.
  - apply (set_healthy (W := Server)).
  - destruct (del_outcome k (redis w)) as [(b & x & -> & ?)|(e & x & -> & ?)]; [left; exists b|right; exists e]; by eexists.
  - apply (del_healthy (W := Server)).
Qed.
#[export] Instance redis_ids : HighLoadQueryIdWrapper RedisWorld := {| wrapper_next := fun _ _ w => (Done (Ok (redis_next_id w)), w) |}.
#[export] Instance redis_client : RestClient RedisWorld := {|
  post_v3_message := fun boc w => (Done (Err (CliConnectionFailed "offline")), w);
  get_traces_for_account := fun _ _ _ => ret (Ok []);
  get_account_states := fun _ => ret (Ok []);
|}.
#[export] Instance redis_time : TimeProvider RedisWorld := {| now_secs := ret 1700000000 |}.
#[export] Instance redis_elsewhere : LocksElsewhere RedisWorld.
Proof. split; intros; intros w; apply locks_alone_refl. Qed.
(** The reply to the first [DEL] is lost. *)
Definition shaky : RedisWorld := mkRedisWorld (mkServer {["wallet_lock_Z" := 30]} 0 [false; true]) (mkQueryId 3 5).
Definition estimates : GasEstimates := mkEstimates 5 1 100 100 1 1 100 10.
#[export] Instance estimator : GasEstimator := TONGasEstimator estimates.
#[export] Instance codecs : Codecs := text_codecs.
#[export] Instance xrpl_messages : GmpApi.XrplMessages := GmpAudit.AuditDemo.messages.
#[export] Instance api : GmpApi.GmpApiTrait World := {|
  GmpApi.get_chain := "ton";
  GmpApi.get_tasks_action := fun _ => ret (Ok []);
  GmpApi.post_events := fun es => ret (Ok []);
  GmpApi.post_broadcast := fun _ _ => ret (Ok "h");
  GmpApi.get_broadcast_result := fun _ _ => ret (Ok "h");
  GmpApi.post_query := fun _ _ => ret (Ok "q");
  GmpApi.post_payload := fun _ => ret (Ok "p");
  GmpApi.get_payload := fun _ => ret (Ok "p");
  GmpApi.cannot_execute_message := fun _ _ _ _ _ => ret (Ok tt);
  GmpApi.its_interchain_transfer := fun _ => ret (Ok tt);
  GmpApi.map_cannot_execute_message_to_event := fun _ _ _ _ _ => Panic "none";
|}.
Definition self : @TONBroadcaster ton := mkTONBroadcaster [("A"%char, a_wallet)] "G"%char "S"%char "ton2".
Definition w0 : World := mkWorld ∅ [] (mkQueryId 3 5).
Definition refund_fields : RefundTaskFields := mkRefundFields (mkMessage "0xab" "ton2" "a" "b" "h") "R" (mkAmount None "100").
Definition refund : RefundTask := mkRefundTask (mkCommonTask "t1" "ton2" "now" "REFUND" None) refund_fields.
Definition refund_cell : MCell :=
  match native_refund_to_cell (CL := plain_cells) (@mkNativeRefund ton "a"%char "R"%char 94) with
  | Done (Ok c) => c
  | _ => mcell [] []
  end.
Definition refund_action : Z * MCell := (2, mcell [] [mcell [] []]).
Definition execute : ExecuteTask :=
  mkExecuteTask (mkCommonTask "t2" "ton2" "now" "EXECUTE" None)
    (mkExecuteFields (mkMessage "0xab" "avalanche" "a" "B" "h") "Hello" (mkAmount None "20")).
End BroadcasterDemo.
Import BroadcasterDemo.

#[local] Abbreviation CLs := plain_cells.
#[local] Abbreviation WLs := plain_wallets.

Lemma wallet_released_witness :
  exists r w', ton_broadcast_refund_message (CL := CLs) (WL := WLs) (LM := RedisLockManager) self refund_fields shaky = (Done r, w') /\
    (forall k e, expiry shaky k = Some e -> now w' < e -> expiry w' k = Some e) /\
    (forall k, live w' k -> expiry w' k = expiry shaky k \/ pool_key (wallet_pool self) k /\ expiry w' k = Some (now shaky + LOCK_TTL)) /\
    (healthy shaky -> forall k, live w' k -> expiry w' k = expiry shaky k).
Proof.
  eexists _, _. split; [vm_compute; reflexivity|].
  apply (wallet_released (CL := CLs) (WL := WLs) (fun s => s) self shaky).
  - split; [apply NoDup_singleton|by repeat constructor].
  - right; right. eexists refund_fields, _. vm_compute; reflexivity.
Defined.

Lemma upper_ids_never_sent_witness :
  let w := mkWorld ∅ [] (mkQueryId 4096 0) in
  exists r, send_to_chain (CL := CLs) (WL := WLs) a_wallet [] w = (Done r, w) /\ exists e, r = Err e.
Proof.
  eexists. split; [vm_compute; reflexivity|].
  refine (proj1 (upper_ids_never_sent (CL := CLs) (WL := WLs) (LW := cells_laws _) (WLW := wallet_laws _) a_wallet []
    (mkQueryId 4096 0) (mkWorld ∅ [] (mkQueryId 4096 0)) (mkWorld ∅ [] (mkQueryId 4096 0)) _ _ _ _ _ _ _));
    try done.
Defined.

Lemma unfunded_execute_witness :
  consume_execute (BC := TonBroadcaster (CL := CLs) (WL := WLs) (fun s => s) self) execute w0 = (Done (Ok tt), w0).
Proof.
  transitivity (map_err (fun e => IncConsumerError (show_GmpApiError e))
    (GmpApi.cannot_execute_message (W := World) "t2" "0xab" "avalanche" "Insufficient gas: Cannot proceed to execute"
       InsufficientGas) w0); [|reflexivity].
  apply (unfunded_execute (CL := CLs) (WL := WLs) (fun s => s) self execute "B"%char "Hello" w0); vm_compute; reflexivity.
Defined.

Lemma refund_outcome_ignored_witness :
  consume_refund (RM := TONRefundManager) (BC := TonBroadcaster (CL := CLs) (WL := WLs) (fun s => s) self) refund w0 =
    (Done (Ok tt), w0).
Proof.
  refine (proj2 (refund_outcome_ignored (CL := CLs) (WL := WLs) (fun s => s) self refund "a"%char "R"%char 100%N
    refund_cell "boc" refund_action a_wallet w0 (mkWorld {["A"]} [] (mkQueryId 3 5)) (mkWorld {["A"]} [] (mkQueryId 3 5)) w0
    (Err (BcRPCCallFailed "Connection failed: offline")) _ _ _ _) _ _ _ _ _ _ _); vm_compute; first [reflexivity|discriminate].
Defined.
