(* ===== verification/TonConcurrent.v ===== *)
(** * Wallets shared by broadcasts at once

    Several TON includers, each with several tasks, broadcast with one pool of
    wallets: the locks of [ton/src/lock_manager.rs] are keys of one Redis
    server, the query ids of [ton/src/high_load_query_id_db_wrapper.rs] are
    rows of one table.  Here the three broadcasts of [TonBroadcaster] run at
    once, statement by statement ([Interleaving]), over the wallet manager and
    the allocator as they are. *)

From S2P Require Import Prelude.
From S2P Require Import Interleaving.
From S2P Require Import Store.
From S2P Require Import Decimal.
From S2P Require Import GmpTypes.
From S2P Require Import Text.
From S2P Require Import Redis.
From S2P Require Import HighLoadQueryId.
From S2P Require Import TonLib.
From S2P Require Import WalletManager.
From S2P Require Import Includer.
From S2P Require Import TonCells.
From S2P Require Import TonMessages.
From S2P Require Import GasCalculator.
From S2P Require Import TraceParser.
From S2P Require Import Subscriber.
From S2P Require Import TonWallet.
From S2P Require Import TonBroadcaster.

(** ** The statements *)

Inductive Statement : Type :=
| SetNx (key : string) (ttl : Z)
| Del (key : string)
| GetId (address : string)
| UpdateId (address : string) (shift bitnumber : Z)
| UpsertId (address : string) (shift bitnumber timeout : Z).

(** An answer of Redis says when the server gave it. *)
Inductive Answer : Type :=
| Failed (why : string)
| Flag (b : bool) (at_time : Z)
| Pair (shift bitnumber : Z)
| Executed.

(** The two servers, and the ids the table was made to hand out so far, in
    order. *)
Record Servers {R : Type} : Type := mkServers {
  locks : R;
  ids : QueryIdStore;
  handed : list (string * HighLoadQueryId);
}.
Arguments Servers : clear implicits.

Section statements.
Context {R : Type} {RD : Redis R}.

(** The answer of a command or a statement. *)
Definition answered {B T} (good : B -> Answer) (r : outcome (result B string) * T) : Answer :=
  match fst r with
  | Done (Ok b) => good b
  | Done (Err e) => Failed e
  | Panic why => Failed why
  end.

(** A statement on the table writes an id when it succeeds. *)
Definition writes_id (address : string) (s b : Z) (a : Answer) : list (string * HighLoadQueryId) :=
  match a with Executed => [(address, mkQueryId s b)] | _ => [] end.

Definition perform (s : Statement) (fault : option string) (d : Servers R) : Answer * Servers R :=
  let table := mkStore (tables (ids d)) (clock (ids d)) [fault] in
  match s with
  | SetNx key ttl =>
      let r := set_nx_ex key ttl (locks d) in
      (answered (fun b => Flag b (Redis.now (locks d))) r, mkServers _ (snd r) (ids d) (handed d))
  | Del key =>
      let r := del key (locks d) in
      (answered (fun b => Flag b (Redis.now (locks d))) r, mkServers _ (snd r) (ids d) (handed d))
  | GetId address =>
      let r := pg_get_query_id address table in
      (answered (fun p => Pair (fst p) (snd p)) r, mkServers _ (locks d) (snd r) (handed d))
  | UpdateId address s b =>
      let r := pg_update_query_id address s b table in
      let a := answered (fun _ => Executed) r in
      (a, mkServers _ (locks d) (snd r) (handed d ++ writes_id address s b a))
  | UpsertId address s b timeout =>
      let r := pg_upsert_query_id address s b timeout table in
      let a := answered (fun _ => Executed) r in
      (a, mkServers _ (locks d) (snd r) (handed d ++ writes_id address s b a))
  end.

Definition executes (s : Statement) (d : Servers R) (a : Answer) (d' : Servers R) : Prop :=
  exists fault, perform s fault d = (a, d').

(** Time passes on both servers. *)
Definition drifts (d d' : Servers R) : Prop :=
  passes (locks d) (locks d') /\ tables (ids d') = tables (ids d) /\ clock (ids d) <= clock (ids d') /\ handed d' = handed d.
End statements.

(** ** The broadcasts over the statements *)

Section world.
Context {L : TonLib} {TL : TonLibLaws} {CL : CellLib} {WL : WalletLib} {C : Codecs} {GE : GasEstimator}.
Context {X : Type} {RC : RestClient X} {TP : TimeProvider X}.
Variable keccak256 : string -> string.
Abbreviation W := (Talk Statement Answer X).

(** The value an answer carries. *)
Definition fails (a : Answer) : option string := match a with Failed e => Some e | _ => None end.
Definition read_done (a : Answer) : option unit := match a with Executed => Some tt | _ => None end.
Definition read_flag (a : Answer) : option bool := match a with Flag b _ => Some b | _ => None end.
Definition read_pair (a : Answer) : option (Z * Z) := match a with Pair s b => Some (s, b) | _ => None end.

(** A broadcast does not look at the server: the three observations of
    [Redis] are for statements about it. *)
#[local] Instance talk_redis : Redis W := {|
  set_nx_ex := fun k ttl => told fails read_flag (SetNx k ttl);
  del := fun k => told fails read_flag (Del k);
  Redis.now := fun _ => 0; expiry := fun _ _ => None; healthy := fun _ => True;
|}.
#[local] Instance talk_locks : LockManager W := RedisLockManager.
#[local] Instance talk_ids : TONWalletQueryId W := {|
  get_query_id := fun a => told fails read_pair (GetId a);
  update_query_id := fun a s b => told fails read_done (UpdateId a s b);
  upsert_query_id := fun a s b t => told fails read_done (UpsertId a s b t);
|}.
#[local] Instance talk_client : RestClient W := {|
  post_v3_message := fun b => on_aside (post_v3_message b);
  get_traces_for_account := fun a h l => on_aside (get_traces_for_account a h l);
  get_account_states := fun l => on_aside (get_account_states l);
|}.
#[local] Instance talk_time : TimeProvider W := {| now_secs := on_aside now_secs |}.

(** What an includer broadcasts, and with which pool. *)
Inductive Job : Type :=
| ProverJob (self : TONBroadcaster) (tx_blob : string)
| ExecuteJob (self : TONBroadcaster) (message : ExecuteTaskFields)
| RefundJob (self : TONBroadcaster) (task : RefundTaskFields).

Definition job_pool (j : Job) : Wallets :=
  match j with ProverJob self _ | ExecuteJob self _ | RefundJob self _ => wallet_pool self end.

Definition broadcast (j : Job) : M W unit :=
  match j with
  | ProverJob self tx_blob => let! _r := ton_broadcast_prover_message self tx_blob in ret tt
  | ExecuteJob self message => let! _r := ton_broadcast_execute_message keccak256 self message in ret tt
  | RefundJob self task => let! _r := ton_broadcast_refund_message self task in ret tt
  end.

(** ** What a broadcast asks for *)

Abbreviation Log := (list (Statement * Answer)).

(** No lock was taken so far. *)
Definition tried (l : Log) : Prop := Forall (fun e => match e with (SetNx _ _, Flag true _) => False | (SetNx _ _, _) => True | _ => False end) l.

(** The lock on a key was just taken, at a time; it was, and was not given
    back. *)
Definition taken (k : string) (t : Z) (l : Log) : Prop := exists l0, tried l0 /\ l = l0 ++ [(SetNx k LOCK_TTL, Flag true t)].
Definition holds (k : string) (t : Z) (l : Log) : Prop :=
  exists l0 l1, tried l0 /\ l = l0 ++ (SetNx k LOCK_TTL, Flag true t) :: l1 /\ Forall (fun e => forall k', fst e <> Del k') l1.

(** An id was just read for an address, under its lock. *)
Definition has_read (address : string) (s b : Z) (l : Log) : Prop :=
  exists t l0, taken (lock_key address) t l0 /\ l = l0 ++ [(GetId address, Pair s b)].

Definition allowed (l : Log) (s : Statement) : Prop :=
  match s with
  | SetNx k ttl => tried l /\ ttl = LOCK_TTL
  | GetId a => exists t, taken (lock_key a) t l
  | UpdateId a s b => exists s0 b0 q, has_read a s0 b0 l /\ choose (s0, b0) = Ok q /\ query_id q <> 0 /\
      s = wrap_i32 (shift q) /\ b = wrap_i32 (bitnumber q)
  | UpsertId a s b _ => exists s0 b0 q, has_read a s0 b0 l /\ choose (s0, b0) = Ok q /\ query_id q = 0 /\
      s = wrap_i32 (shift q) /\ b = wrap_i32 (bitnumber q)
  | Del k => exists t, holds k t l
  end.

Lemma taken_holds k t l : taken k t l -> holds k t l.
Proof. intros (l0 & H & ->). exists l0, []. by repeat split. Qed.

Lemma holds_snoc k t l s a : holds k t l -> (forall k', s <> Del k') -> holds k t (l ++ [(s, a)]).
Proof.
  intros (l0 & l1 & H & -> & Hl) Hs. exists l0, (l1 ++ [(s, a)]). split; [done|]. rewrite <- app_assoc. split; [done|].
  apply Forall_app. split; [done|]. by constructor.
Qed.

Lemma holds_read a s b l : has_read a s b l -> exists t, holds (lock_key a) t l.
Proof. intros (t & l0 & H & ->). exists t. apply holds_snoc; [by apply taken_holds|done]. Qed.


Lemma causal_lock k : causal (lock (W := W) k).
Proof. apply causal_bind; [apply causal_told|]. intros r. apply causal_ret. Qed.

Lemma lock_asks k : obeys allowed tried (lock (W := W) k) (fun b l => if b then exists t, taken (lock_key k) t l else tried l).
Proof.
  eapply obeys_bind; [eapply (obeys_told _ _ _ _ _ (fun r l => match r with Ok true => exists t, taken (lock_key k) t l | _ => tried l end))|].
  - by intros l Hl.
  - intros l a b Hl Hf Hr. destruct a as [|b' t| |]; try done. injection Hr as ->. destruct b; [by exists t, l|].
    apply Forall_app. split; [done|]. by repeat constructor.
  - intros l a e Hl Hf. destruct a; try done. apply Forall_app. split; [done|]. by repeat constructor.
  - intros [[]|e]; apply obeys_ret; auto.
Qed.

Lemma causal_acquire pool : causal (acquire (W := W) pool).
Proof.
  induction pool as [|[a v] pool IH]; cbn [acquire]; [apply causal_ret|].
  apply causal_bind; [apply causal_lock|]. intros []; [apply causal_ret|done].
Qed.

Lemma acquire_asks pool : keyed pool ->
  obeys allowed tried (acquire (W := W) pool)
    (fun r l => forall v, r = Ok v -> exists t, taken (lock_key (address_to_string (wallet_address v))) t l).
Proof.
  intros [_ Hf]. induction pool as [|[a v] pool IH]; cbn [acquire]; [by apply obeys_ret|].
  apply Forall_cons in Hf as [Ha Hf]. cbn in Ha. eapply obeys_bind; [apply lock_asks|]. intros []; [|by apply IH].
  apply obeys_ret. intros l H v' [= <-]. by rewrite Ha.
Qed.

Definition locked (k : string) (l : Log) : Prop := exists t, taken k t l.
Definition held (k : string) (l : Log) : Prop := exists t, holds k t l.

Lemma locked_held k l : locked k l -> held k l.
Proof. intros [t H]. exists t. by apply taken_holds. Qed.

Lemma held_snoc k l s a : held k l -> (forall k', s <> Del k') -> held k (l ++ [(s, a)]).
Proof. intros [t H] Hs. exists t. by apply holds_snoc. Qed.

Lemma causal_next address timeout : causal (db_wrapper_next (W := W) address timeout).
Proof.
  unfold db_wrapper_next. repeat (apply causal_bind_ok; [|intros ?]); try apply causal_ret.
  - apply causal_map_err, causal_told.
  - destruct (_ =? _); apply causal_map_err, causal_told.
Qed.

(** The id is read and written under the lock, and the lock is kept. *)
Lemma next_asks address timeout :
  obeys allowed (locked (lock_key address)) (db_wrapper_next (W := W) address timeout) (fun _ => held (lock_key address)).
Proof.
  unfold db_wrapper_next.
  eapply (obeys_bind _ _ (fun r l => match r with Ok (s, b) => has_read address s b l | Err _ => held (lock_key address) l end)).
  { eapply obeys_bind; [eapply (obeys_told _ _ _ _ _ (fun r l => match r with Ok (s, b) => has_read address s b l | Err _ => held (lock_key address) l end))|].
    - done.
    - intros l a [s b] [t Hl] Hf Hr. destruct a; try done. injection Hr as -> ->. by exists t, l.
    - intros l a e Hl Hf. apply held_snoc; [by apply locked_held|done].
    - intros [[s b]|e]; by apply obeys_ret. }
  intros [[s0 b0]|e]; [|by apply obeys_ret]. apply obeys_pure; [|intros e l _ Hl; by eapply holds_read].
  intros q Hq. eapply (obeys_bind _ _ (fun _ => held (lock_key address))); [|by intros [u|e]; apply obeys_ret].
  assert (Hw : forall s, (forall l, has_read address s0 b0 l -> allowed l s) -> (forall k, s <> Del k) ->
    obeys allowed (has_read address s0 b0) (map_err (fun _ : string => DatabaseError) (told fails read_done s : M W _)) (fun _ => held (lock_key address))).
  { intros s Hs Hd. eapply (obeys_bind _ _ (fun _ => held (lock_key address))); [|intros r; by apply obeys_ret].
    apply obeys_told; [done|..]; intros l a ? Hl; intros; (apply held_snoc; [by eapply holds_read|done]). }
  destruct (Z.eqb_spec (query_id q) 0) as [Hz|Hz]; apply Hw; try done; intros l Hl; by exists s0, b0, q.
Qed.

Lemma mute_encoding {A} what (o : outcome (result A string)) : mute (encoding_error what o : M W _).
Proof. destruct o; [apply mute_ret|apply mute_panic]. Qed.
Lemma mute_boc_failed {A} (o : outcome (result A BocError)) : mute (boc_failed o : M W _).
Proof. destruct o; [apply mute_ret|apply mute_panic]. Qed.

Lemma mute_outgoing wallet actions q n : mute (outgoing_message (W := W) wallet actions q n).
Proof.
  unfold outgoing_message, created_at.
  repeat first [apply mute_bind_ok; [apply mute_encoding|intros ?]|apply mute_encoding].
  apply mute_bind; [apply mute_bind; [apply mute_aside|intros t; apply mute_ret]|intros t].
  repeat first [apply mute_bind_ok; [apply mute_encoding|intros ?]|apply mute_encoding].
Qed.

(** A wallet's address. *)
Definition key_of (v : TonWalletHighLoadV3) : string := lock_key (address_to_string (wallet_address v)).

(** A computation with a wallet: from the lock just taken, keeps it. *)
Definition with_lock {A} (v : TonWalletHighLoadV3) (m : M W A) : Prop :=
  causal m /\ obeys allowed (locked (key_of v)) m (fun _ => held (key_of v)).

Lemma mute_with_lock {A} v (m : M W A) : mute m -> with_lock v m.
Proof. intros [Cm Hm]. split; [done|]. eapply obeys_weaken; [apply (Hm _ (held (key_of v)))|apply locked_held|done]. Qed.

Lemma with_lock_mute {A B} v (m : M W A) (k : A -> M W B) : mute m -> (forall a, with_lock v (k a)) -> with_lock v (bind m k).
Proof. intros Hm Hk. split; [apply causal_bind; [apply Hm|apply Hk]|]. apply obeys_mute; [done|apply Hk]. Qed.

Lemma with_lock_mute_ok {A B E} v (m : M W (result A E)) (k : A -> M W (result B E)) :
  mute m -> (forall a, with_lock v (k a)) -> with_lock v (bind_ok m k).
Proof. intros Hm Hk. apply with_lock_mute; [done|]. intros [a|e]; [done|apply mute_with_lock, mute_ret]. Qed.

Lemma with_lock_then {A B} v (m : M W A) (k : A -> M W B) : with_lock v m -> (forall a, mute (k a)) -> with_lock v (bind m k).
Proof.
  intros [Cm Hm] Hk. split; [apply causal_bind; [done|apply Hk]|]. eapply obeys_bind; [exact Hm|]. intros a. apply Hk.
Qed.

Lemma send_with_lock v actions : with_lock v (send_to_chain (W := W) v actions).
Proof.
  unfold send_to_chain. apply with_lock_then.
  - apply with_lock_then; [|intros r; apply mute_ret]. split; [apply causal_next|apply next_asks].
  - intros [id|e]; [|apply mute_ret]. apply mute_bind_ok; [apply mute_map_err, mute_outgoing|]. intros msg.
    apply mute_bind_ok; [apply mute_ret|]. intros tx. apply mute_map_err, mute_aside.
Qed.

(** What runs with a wallet gives it back. *)
Lemma release_asks v : obeys allowed (held (key_of v)) (release (W := W) v) (fun _ _ => True).
Proof.
  unfold release. eapply obeys_bind; [apply (obeys_told _ _ _ _ _ (fun _ _ => True)); [|done|done]|by intros r; apply obeys_ret].
  intros l Hl. exact Hl.
Qed.

Lemma with_wallet_asks {A} (self : TONBroadcaster) (m : TonWalletHighLoadV3 -> M W (result A BroadcasterError)) :
  keyed (wallet_pool self) -> (forall v, with_lock v (m v)) ->
  causal (let? wallet := acquire_wallet self in then_release wallet (m wallet)) /\
  obeys allowed (fun l => l = []) (let? wallet := acquire_wallet self in then_release wallet (m wallet)) (fun _ _ => True).
Proof.
  intros Hk Hm. split.
  - apply causal_bind_ok; [apply causal_map_err, causal_acquire|]. intros v. apply causal_bind; [apply Hm|]. intros r.
    apply causal_bind; [|intros u; apply causal_ret]. apply causal_bind; [apply causal_told|]. intros u. apply causal_ret.
  - eapply (obeys_bind_ok _ _ (fun v => locked (key_of v))); [|intros v|done].
    + apply obeys_map_err. eapply obeys_weaken; [by apply acquire_asks|by intros l ->; constructor|done].
    + eapply obeys_bind; [apply Hm|]. intros r. eapply obeys_bind; [apply release_asks|]. intros u. by apply obeys_ret.
Qed.

(** A broadcast begins with nothing asked. *)
Definition orderly {A} (m : M W A) : Prop := causal m /\ obeys allowed (fun l => l = []) m (fun _ _ => True).

Lemma mute_orderly {A} (m : M W A) : mute m -> orderly m.
Proof. intros [Cm Hm]. split; [done|]. eapply obeys_weaken; [apply (Hm _ (fun _ => True))|done..]. Qed.

Lemma orderly_mute_ok {A B E} (m : M W (result A E)) (k : A -> M W (result B E)) :
  mute m -> (forall a, orderly (k a)) -> orderly (bind_ok m k).
Proof.
  intros Hm Hk. split; [apply causal_bind_ok; [apply Hm|apply Hk]|]. apply obeys_mute; [done|].
  intros [a|e]; [apply Hk|by apply obeys_ret].
Qed.

Lemma orderly_ignore {A} (m : M W A) : orderly m -> orderly (let! _r := m in ret tt).
Proof.
  intros [Cm Hm]. split; [apply causal_bind; [done|]; intros r; apply causal_ret|].
  eapply obeys_bind; [exact Hm|]. intros r. by apply obeys_ret.
Qed.

Lemma broadcast_orderly j : keyed (job_pool j) -> orderly (broadcast j).
Proof.
  intros Hk. destruct j as [self blob|self msg|self task]; cbn [broadcast job_pool] in *; apply orderly_ignore.
  - unfold ton_broadcast_prover_message. apply orderly_mute_ok; [apply mute_boc_failed|]. intros ms. cbv zeta.
    do 2 (apply orderly_mute_ok; [apply mute_ret|]; intros ?). apply with_wallet_asks; [done|]. intros v.
    apply with_lock_then; [apply send_with_lock|]. intros r. apply mute_ret.
  - unfold ton_broadcast_execute_message. cbv zeta. do 2 (apply orderly_mute_ok; [apply mute_ret|]; intros ?).
    destruct (_ <? _); [apply mute_orderly, mute_ret|]. apply with_wallet_asks; [done|]. intros v.
    apply with_lock_mute_ok; [apply mute_boc_failed|]. intros cell.
    do 2 (apply with_lock_mute_ok; [apply mute_ret|]; intros ?).
    apply with_lock_then; [apply send_with_lock|]. intros r. apply mute_ret.
  - unfold ton_broadcast_refund_message. cbv zeta. destruct (token_id _); [apply mute_orderly, mute_ret|].
    do 3 (apply orderly_mute_ok; [apply mute_ret|]; intros ?). destruct (_ <? _)%N; [apply mute_orderly, mute_ret|].
    apply orderly_mute_ok; [apply mute_boc_failed|]. intros cell. apply orderly_mute_ok; [apply mute_ret|]. intros boc.
    apply with_wallet_asks; [done|]. intros v. apply with_lock_mute_ok; [apply mute_ret|]. intros act.
    apply with_lock_then; [apply send_with_lock|]. intros r. apply mute_ret.
Qed.


(** ** The broadcasts at once *)

Section servers.
Context {R : Type} {RD : Redis R} {RL : RedisLaws R}.

Abbreviation Process := (Running Answer X Job).
Abbreviation Includers := (Interleaving.System Answer X (Servers R) Job).
Definition log_of (p : Process) : Log := spoken broadcast p.
Definition table (d : Servers R) : gmap string QueryIdRow := tables (ids d).

Definition includers_step : Includers -> Includers -> Prop :=
  system_step executes drifts broadcast (fun _ j => keyed (job_pool j)).

(** No broadcast keeps a wallet for the sixty seconds its lock lives. *)
Definition timely_at (g : Includers) : Prop :=
  forall p k t, p ∈ running g -> holds k t (log_of p) -> Redis.now (locks (database g)) < t + LOCK_TTL.
Definition timely_run (g g' : Includers) : Prop := includers_step g g' /\ timely_at g'.

(** What was read of a row still is what the row says. *)
Definition read_ok (now : Z) (o : option QueryIdRow) (s b : Z) : Prop :=
  (exists r, o = Some r /\ s = row_shift r /\ b = row_bitnumber r) \/
  ((s, b) = (-1, -1) /\ forall r, o = Some r -> expires_at r < now).

Record guarded (g : Includers) : Prop := {
  guarded_keyed : forall p, p ∈ running g -> keyed (job_pool (about p));
  guarded_rows : rows_valid (table (database g));
  guarded_lock : forall p k t, p ∈ running g -> holds k t (log_of p) -> expiry (locks (database g)) k = Some (t + LOCK_TTL);
  guarded_alone : forall i j p q k, running g !! i = Some p -> running g !! j = Some q -> i <> j ->
    held k (log_of p) -> ~ held k (log_of q);
  guarded_read : forall p a s b, p ∈ running g -> has_read a s b (log_of p) ->
    read_ok (clock (ids (database g))) (table (database g) !! a) s b;
}.

Lemma ton_log_hears (p : Process) s a : keyed (job_pool (about p)) -> waits_for broadcast p = Some s ->
  log_of (hears p a) = log_of p ++ [(s, a)].
Proof. intros Hk. apply hears_spoken. by apply broadcast_orderly. Qed.

Lemma ton_asked_allowed (p : Process) s : keyed (job_pool (about p)) -> waits_for broadcast p = Some s -> allowed (log_of p) s.
Proof.
  intros Hk Hp. apply (polite_pending allowed (snd (talk broadcast p))); [|exact Hp].
  eapply running_polite. by apply broadcast_orderly.
Qed.

(** *** Logs one statement longer *)

Lemma tried_holds k t l : tried l -> ~ holds k t l.
Proof.
  intros Hl (l0 & l1 & _ & -> & _). apply Forall_app in Hl as [_ Hl]. by apply Forall_cons in Hl as [? _].
Qed.

Lemma holds_last k t l s a : holds k t (l ++ [(s, a)]) ->
  holds k t l /\ (forall k', s <> Del k') \/ tried l /\ s = SetNx k LOCK_TTL /\ a = Flag true t.
Proof.
  intros (l0 & l1 & H0 & E & H1). destruct l1 as [|z l1 _] using rev_ind.
  - apply app_inj_tail in E as [-> [= -> ->]]. by right.
  - rewrite app_comm_cons, app_assoc in E. apply app_inj_tail in E as [-> <-]. apply Forall_app in H1 as [H1 H2].
    left. apply Forall_cons in H2 as [H2 _]. split; [|exact H2]. by exists l0, l1.
Qed.

Lemma held_last k l s a : held k (l ++ [(s, a)]) -> held k l /\ (forall k', s <> Del k') \/ s = SetNx k LOCK_TTL /\ exists t, a = Flag true t.
Proof. intros [t [[H Hs]|(_ & -> & ->)]%holds_last]; [left; split; [by exists t|done]|right; eauto]. Qed.

Lemma read_last a' s' b' l s a : has_read a' s' b' (l ++ [(s, a)]) -> s = GetId a' /\ a = Pair s' b' /\ locked (lock_key a') l.
Proof. intros (t & l0 & H & E). apply app_inj_tail in E as [-> [= -> ->]]. split; [done|]. split; [done|]. by exists t. Qed.

Lemma holds_time k t t' l : holds k t l -> holds k t' l -> t = t'.
Proof.
  intros (l0 & l1 & H0 & -> & H1) (m0 & m1 & G0 & E & G1).
  assert (Hstep : forall x0 y0 (x1 y1 : Log) u v, tried x0 -> tried y0 ->
    x0 ++ (SetNx k LOCK_TTL, Flag true u) :: x1 = y0 ++ (SetNx k LOCK_TTL, Flag true v) :: y1 -> u = v).
  { induction x0 as [|e x0 IH]; intros [|f y0] x1 y1 u v Hx Hy; cbn.
    - by intros [= ->].
    - intros [= <- _]. by apply Forall_cons in Hy as [? _].
    - intros [= -> _]. by apply Forall_cons in Hx as [? _].
    - intros [= -> Ee]. apply Forall_cons in Hx as [_ Hx]. apply Forall_cons in Hy as [_ Hy]. by eapply IH. }
  exact (Hstep _ _ _ _ _ _ H0 G0 E).
Qed.

(** *** What a statement does *)

(** [SET NX]: the other keys stay; the lock is only had when the key was
    free. *)
Lemma set_effect k ttl (d : R) :
  Redis.now (snd (set_nx_ex k ttl d)) = Redis.now d /\
  (forall k', live d k' -> expiry (snd (set_nx_ex k ttl d)) k' = expiry d k') /\
  (fst (set_nx_ex k ttl d) = Done (Ok true) -> ~ live d k /\ expiry (snd (set_nx_ex k ttl d)) k = Some (Redis.now d + ttl)).
Proof.
  split; [apply set_now|]. pose proof (set_other k ttl d) as Ho.
  destruct (set_outcome k ttl d) as [(Hl & w' & E & He)|[(Hl & w' & E & He)|(e & w' & E & He)]]; rewrite E in *; cbn in *.
  - split; [|done]. intros k' _. destruct (decide (k' = k)) as [->|Hne]; auto.
  - split; [|done]. intros k' Hk'. apply Ho. by intros ->.
  - split; [|done]. intros k' Hk'. destruct (decide (k' = k)) as [->|Hne]; [|by apply Ho]. by destruct He as [?|[? _]].
Qed.

(** The statement on the table: it may be refused. *)
Definition table_write (s : Statement) (now : Z) (t : gmap string QueryIdRow) : gmap string QueryIdRow :=
  match s with
  | UpdateId a sh b => alter (fun r => mkRow sh b (expires_at r)) a t
  | UpsertId a sh b timeout => <[a := mkRow sh b (now + timeout)]> t
  | _ => t
  end.

Definition row_pair (now : Z) (t : gmap string QueryIdRow) (a : string) : Z * Z :=
  match t !! a with
  | Some r => if now <=? expires_at r then (row_shift r, row_bitnumber r) else (-1, -1)
  | None => (-1, -1)
  end.

Lemma table_effect s fault (d : Servers R) :
  (forall k t, s <> SetNx k t) -> (forall k, s <> Del k) ->
  let r := perform s fault d in
  locks (snd r) = locks d /\ clock (ids (snd r)) = clock (ids d) /\
  ((exists e, fst r = Failed e /\ table (snd r) = table d /\ handed (snd r) = handed d) \/
   table (snd r) = table_write s (clock (ids d)) (table d) /\
   match s with
   | GetId a => fst r = Pair (fst (row_pair (clock (ids d)) (table d) a)) (snd (row_pair (clock (ids d)) (table d) a)) /\
       handed (snd r) = handed d
   | UpdateId a sh b | UpsertId a sh b _ => fst r = Executed /\ handed (snd r) = handed d ++ [(a, mkQueryId sh b)]
   | _ => True
   end).
Proof.
  intros H1 H2. destruct d as [lk [t c fs] h]. destruct s as [k ttl|k|a|a sh b|a sh b timeout]; [by destruct (H1 k ttl)|by destruct (H2 k)|..];
    destruct fault as [e|]; cbn; rewrite ?app_nil_r; (split; [done|]); (split; [done|]); (left; by exists e) || (right; by repeat split).
Qed.

(** An id read and not out of date is followed by the next one, or by the
    first when the row was out of date. *)
Lemma read_next now o s b q : read_ok now o s b -> (forall r, o = Some r -> valid (row_id r)) -> choose (s, b) = Ok q ->
  valid q /\ wrap_i32 (shift q) = shift q /\ wrap_i32 (bitnumber q) = bitnumber q /\
  (query_id q <> 0 -> exists r, o = Some r /\ rank q = rank (row_id r) + 1) /\
  (query_id q = 0 -> forall r, o = Some r -> expires_at r < now).
Proof.
  intros Hr Hv Hq.
  assert (Hb : forall q, valid q -> wrap_i32 (shift q) = shift q /\ wrap_i32 (bitnumber q) = bitnumber q).
  { intros q' [H1 H2]. split; apply wrap_i32_valid; [done|]. unfold MAX_BITNUMBER, MAX_SHIFT in *. lia. }
  destruct Hr as [(r & -> & -> & ->)|[[= -> ->] Hr]].
  - apply choose_row in Hq as [Hq Hn]; [|by apply Hv]. destruct (Hb q Hq). do 3 (split; [done|]). split; [by exists r|].
    intros Hz. exfalso. apply query_id_zero in Hz; [|done]. subst q. destruct (Hv r eq_refl) as [[? _] [? _]].
    change (rank (mkQueryId 0 0)) with 0 in Hn. unfold rank, MAX_BITNUMBER in Hn. lia.
  - rewrite choose_none in Hq. injection Hq as <-. assert (Hz : valid (mkQueryId 0 0)) by (query_consts; lia).
    do 3 (split; [done|]). split; [intros Hn; by destruct Hn|done].
Qed.

Lemma row_pair_ok now t a : read_ok now (t !! a) (fst (row_pair now t a)) (snd (row_pair now t a)).
Proof.
  unfold row_pair, read_ok. destruct (t !! a) as [r|]; [|by right].
  destruct (Z.leb_spec now (expires_at r)); [left; by exists r|]. right. split; [done|]. by intros r' [= <-].
Qed.

(** ** The invariant is kept *)

Section answer.
Variables (g : Includers) (before : list Process) (p : Process) (after : list Process) (s : Statement) (a : Answer) (d : Servers R).
Hypothesis Hg : guarded g.
Hypothesis Hr : running g = before ++ p :: after.
Hypothesis Hp : waits_for broadcast p = Some s.

Lemma answer_in : p ∈ running g.
Proof. rewrite Hr. apply elem_of_app. right. by left. Qed.
Hint Resolve answer_in : core.

Lemma answer_log : log_of (hears p a) = log_of p ++ [(s, a)].
Proof. apply ton_log_hears; [by apply (guarded_keyed g)|done]. Qed.

Lemma answer_allowed : allowed (log_of p) s.
Proof. apply ton_asked_allowed; [by apply (guarded_keyed g)|done]. Qed.

(** The others hold other locks. *)
Lemma answer_other q : q ∈ before ++ after -> q ∈ running g /\ forall k, held k (log_of p) -> ~ held k (log_of q).
Proof.
  intros (i & Ei)%list_elem_of_lookup. destruct (lookup_without _ _ p _ _ Ei) as (j & Ej & Hj). rewrite <- Hr in Ej.
  split; [by eapply list_elem_of_lookup_2|]. intros k. apply (guarded_alone _ Hg (length before) j); [by rewrite Hr, list_lookup_middle|done|].
  destruct (decide _); lia.
Qed.

Lemma answer_elem q : q ∈ before ++ hears p a :: after -> q = hears p a \/ q ∈ before ++ after.
Proof. intros [H|[->|H]%elem_of_cons]%elem_of_app; [right|by left|right]; apply elem_of_app; auto. Qed.

Lemma answer_lookup i q : (before ++ hears p a :: after) !! i = Some q ->
  i = length before /\ q = hears p a \/ i <> length before /\ running g !! i = Some q /\ q ∈ before ++ after.
Proof.
  intros E. destruct (decide (i = length before)) as [->|Hne].
  - rewrite list_lookup_middle in E by done. left. by injection E as <-.
  - right. split; [done|]. rewrite Hr. destruct (decide (i < length before)%nat).
    + rewrite lookup_app_l in * by done. split; [done|]. apply elem_of_app. left. by eapply list_elem_of_lookup_2.
    + rewrite lookup_app_r in * by lia. destruct (i - length before)%nat eqn:Ei; [lia|]. split; [done|].
      apply elem_of_app. right. by eapply list_elem_of_lookup_2.
Qed.

Lemma answer_guarded :
  rows_valid (table d) ->
  (forall q k t, q ∈ before ++ after -> holds k t (log_of q) -> expiry (locks d) k = Some (t + LOCK_TTL)) ->
  (forall k t, holds k t (log_of p ++ [(s, a)]) -> expiry (locks d) k = Some (t + LOCK_TTL)) ->
  (forall q k, q ∈ before ++ after -> held k (log_of p ++ [(s, a)]) -> ~ held k (log_of q)) ->
  (forall q x sh b, q ∈ before ++ after -> has_read x sh b (log_of q) -> read_ok (clock (ids d)) (table d !! x) sh b) ->
  (forall x sh b, has_read x sh b (log_of p ++ [(s, a)]) -> read_ok (clock (ids d)) (table d !! x) sh b) ->
  guarded (Interleaving.mkSystem d (before ++ hears p a :: after)).
Proof.
  intros H1 H2 H3 H4 H5 H6. split; cbn [running database].
  - intros q [->|Hq]%answer_elem; [exact (guarded_keyed g Hg p answer_in)|]. apply (guarded_keyed g Hg). by apply answer_other.
  - done.
  - intros q k t [->|Hq]%answer_elem; [rewrite answer_log; apply H3|by apply H2].
  - intros i j q1 q2 k Hi Hj Hne. destruct (answer_lookup _ _ Hi) as [[-> ->]|(Hi' & Ei & Hq1)];
      destruct (answer_lookup _ _ Hj) as [[-> ->]|(Hj' & Ej & Hq2)]; rewrite ?answer_log.
    + done.
    + by apply H4.
    + intros Hk Hk'. by eapply (H4 q1).
    + by apply (guarded_alone g Hg i j).
  - intros q x sh b [->|Hq]%answer_elem; [rewrite answer_log; apply H6|by apply H5].
Qed.

(** A command of Redis. *)
Lemma set_guarded k ttl fault : s = SetNx k ttl -> timely_at g -> perform s fault (database g) = (a, d) ->
  guarded (Interleaving.mkSystem d (before ++ hears p a :: after)).
Proof.
  intros Es Ht. rewrite Es. cbn [perform]. intros [= Ea Ed]. pose proof answer_allowed as Hal. rewrite Es in Hal. destruct Hal as [Htr ->].
  destruct (set_effect k LOCK_TTL (locks (database g))) as (_ & Hkeep & Hgot).
  assert (Hlive : forall q k' t, q ∈ running g -> holds k' t (log_of q) -> live (locks (database g)) k').
  { intros q k' t Hq Hh. exists (t + LOCK_TTL). split; [by apply (guarded_lock g Hg q)|by apply (Ht q k')]. }
  assert (Hnew : forall k' t, holds k' t (log_of p ++ [(s, a)]) ->
    k' = k /\ t = Redis.now (locks (database g)) /\ fst (set_nx_ex k LOCK_TTL (locks (database g))) = Done (Ok true)).
  { intros k' t [[H _]|(_ & E & E')]%holds_last; [by apply tried_holds in H|]. rewrite Es in E. injection E as <-. split; [done|].
    rewrite E' in Ea. unfold answered in Ea. destruct (fst (set_nx_ex _ _ _)) as [[b|e]|why]; try done. injection Ea as -> <-. done. }
  apply answer_guarded; rewrite <- ?Ed; unfold table; cbn [locks ids]; try apply Hg.
  - intros q k' t Hq Hh. destruct (answer_other q Hq) as [Hin _]. rewrite Hkeep by (by eapply Hlive). by apply (guarded_lock g Hg q).
  - intros k' t (-> & -> & E)%Hnew. by apply Hgot.
  - intros q k' Hq [t (-> & _ & E)%Hnew] [t' Hh]. destruct (answer_other q Hq) as [Hin _]. apply Hgot in E as [E _].
    apply E. by eapply Hlive.
  - intros q x sh b Hq. apply (guarded_read g Hg). by apply answer_other.
  - intros x sh b (E & _)%read_last. by rewrite Es in E.
Qed.

Lemma del_guarded k fault : s = Del k -> perform s fault (database g) = (a, d) ->
  guarded (Interleaving.mkSystem d (before ++ hears p a :: after)).
Proof.
  intros Es. rewrite Es. cbn [perform]. intros [= Ea Ed]. pose proof answer_allowed as Hal. rewrite Es in Hal.
  assert (Hnone : forall k', ~ held k' (log_of p ++ [(s, a)])).
  { intros k' [[_ H]|[H _]]%held_last; [by destruct (H k)|by rewrite Es in H]. }
  apply answer_guarded; rewrite <- ?Ed; unfold table; cbn [locks ids]; try apply Hg.
  - intros q k' t Hq Hh. destruct (answer_other q Hq) as [Hin Ho]. rewrite del_other; [by apply (guarded_lock g Hg q)|].
    intros ->. apply (Ho k); [exact Hal|by exists t].
  - intros k' t Hh. destruct (Hnone k'). by exists t.
  - intros q k' Hq H. by destruct (Hnone k').
  - intros q x sh b Hq. apply (guarded_read g Hg). by apply answer_other.
  - intros x sh b (E & _)%read_last. by rewrite Es in E.
Qed.

(** The id a broadcast is about to write. *)
Lemma answer_next x sh b : (s = UpdateId x sh b \/ exists timeout, s = UpsertId x sh b timeout) ->
  held (lock_key x) (log_of p) /\ valid (mkQueryId sh b) /\
  ((exists r, s = UpdateId x sh b /\ table (database g) !! x = Some r /\ rank (mkQueryId sh b) = rank (row_id r) + 1) \/
   (exists timeout, s = UpsertId x sh b timeout) /\ forall r, table (database g) !! x = Some r -> expires_at r < clock (ids (database g))).
Proof.
  intros Hs. pose proof answer_allowed as Hal.
  assert (exists s0 b0 q, has_read x s0 b0 (log_of p) /\ choose (s0, b0) = Ok q /\ sh = wrap_i32 (shift q) /\ b = wrap_i32 (bitnumber q) /\
    ((s = UpdateId x sh b /\ query_id q <> 0) \/ ((exists timeout, s = UpsertId x sh b timeout) /\ query_id q = 0))) as (s0 & b0 & q & Hrd & Hc & -> & -> & Hq).
  { destruct Hs as [E|[timeout E]]; rewrite E in Hal; destruct Hal as (s0 & b0 & q & H1 & H2 & H3 & -> & ->); exists s0, b0, q;
      do 4 (split; [done|]); [left|right]; rewrite E; by eauto. }
  destruct (read_next _ _ _ _ _ (guarded_read g Hg p x s0 b0 answer_in Hrd) (fun r Hr => guarded_rows g Hg x r Hr) Hc) as (Hv & Es & Eb & Hn & Hz).
  rewrite Es, Eb in *. replace (mkQueryId (shift q) (bitnumber q)) with q by (by destruct q).
  split; [by eapply holds_read|]. split; [done|]. destruct Hq as [[E Hq]|[E Hq]]; [left|right; by split; [|apply Hz]].
  destruct (Hn Hq) as (r & ? & ?). by exists r.
Qed.

Lemma table_guarded fault : (forall k t, s <> SetNx k t) -> (forall k, s <> Del k) -> perform s fault (database g) = (a, d) ->
  guarded (Interleaving.mkSystem d (before ++ hears p a :: after)).
Proof.
  intros H1 H2 Hx. destruct (table_effect s fault (database g) H1 H2) as (El & Ec & Ht). rewrite Hx in *. cbn [fst snd] in *.
  assert (Hold : forall k t, holds k t (log_of p ++ [(s, a)]) -> holds k t (log_of p)).
  { intros k t [[H _]|(_ & E & _)]%holds_last; [done|by destruct (H1 k LOCK_TTL)]. }
  assert (Hheld : forall k, held k (log_of p ++ [(s, a)]) -> held k (log_of p)) by (intros k [t H]; exists t; auto).
  assert (Hrows : rows_valid (table d) /\ forall x, table d !! x = table (database g) !! x \/ held (lock_key x) (log_of p) /\ forall x', s <> GetId x').
  { destruct Ht as [(e & _ & -> & _)|[-> _]]; [split; [apply Hg|by left]|].
    assert (exists s', s = s') as [s' Es] by eauto. rewrite Es. destruct s' as [k t|k|x|x sh b|x sh b timeout]; cbn [table_write]; try (split; [apply Hg|by left]).
    - destruct (answer_next x sh b) as (Hh & Hv & _); [by left|]. split.
      + intros y r. destruct (decide (y = x)) as [->|Hne]; [|rewrite lookup_alter_ne by done; apply (guarded_rows g Hg)].
        rewrite lookup_alter_eq. destruct (table (database g) !! x); [|done]. by intros [= <-].
      + intros y. destruct (decide (y = x)) as [->|Hne]; [by right|left; by apply lookup_alter_ne].
    - destruct (answer_next x sh b) as (Hh & Hv & _); [right; by exists timeout|]. split.
      + by apply rows_valid_insert; [apply Hg|].
      + intros y. destruct (decide (y = x)) as [->|Hne]; [by right|left; by rewrite lookup_insert_ne by done]. }
  destruct Hrows as [Hv Hsame]. apply answer_guarded; rewrite ?El, ?Ec.
  - done.
  - intros q k t Hq. apply (guarded_lock g Hg q). by apply answer_other.
  - intros k t Hh%Hold. by apply (guarded_lock g Hg p).
  - intros q k Hq Hh%Hheld. by apply answer_other.
  - intros q x sh b Hq Hrd. destruct (answer_other q Hq) as [Hin Ho].
    destruct (Hsame x) as [->|[Hh _]]; [by apply (guarded_read g Hg q)|]. destruct (Ho _ Hh). by eapply holds_read.
  - intros x sh b (E & Ea & _)%read_last. destruct (Hsame x) as [->|[_ Hn]]; [|by destruct (Hn x)].
    rewrite E in Ht. destruct Ht as [(e & E' & _)|(_ & E' & _)]; [by rewrite Ea in E'|]. rewrite Ea in E'. injection E' as -> ->. apply row_pair_ok.
Qed.

Lemma statement_guarded : timely_at g -> executes s (database g) a d -> guarded (Interleaving.mkSystem d (before ++ hears p a :: after)).
Proof.
  intros Ht [fault Hx]. assert (exists s', s = s') as [s' Es] by eauto. destruct s' as [k ttl|k|x|x sh b|x sh b timeout].
  - by apply (set_guarded k ttl fault).
  - by apply (del_guarded k fault).
  - by apply (table_guarded fault); [rewrite Es..|].
  - by apply (table_guarded fault); [rewrite Es..|].
  - by apply (table_guarded fault); [rewrite Es..|].
Qed.
End answer.

Lemma step_guarded (g g' : Includers) : guarded g -> timely_at g -> timely_run g g' -> guarded g'.
Proof.
  intros Hg Ht [[j x Hj|before p after s a d Hr Hp Hx|before p after Hr|d Hd] Ht'].
  - assert (E : log_of (mkRunning j x []) = []) by (apply new_spoken; by apply broadcast_orderly).
    assert (Hnone : forall k t, ~ holds k t []) by (intros k t; apply tried_holds; constructor).
    split; cbn [running database].
    + intros p [Hp|Hp%list_elem_of_singleton]%elem_of_app; [by apply (guarded_keyed g)|by subst p].
    + apply Hg.
    + intros p k t [Hp|Hp%list_elem_of_singleton]%elem_of_app; [by apply (guarded_lock g)|]. subst p. rewrite E. by intros ?%Hnone.
    + intros i i' p q k Hi Hi' Hne. apply lookup_app_Some in Hi as [Hi|[_ Hi]]; apply lookup_app_Some in Hi' as [Hi'|[_ Hi']];
        try (apply list_lookup_singleton_Some in Hi as [_ <-]; rewrite E; by intros [t ?%Hnone]);
        try (apply list_lookup_singleton_Some in Hi' as [_ <-]; rewrite E; by intros _ [t ?%Hnone]).
      by apply (guarded_alone g Hg i i').
    + intros p a sh b [Hp|Hp%list_elem_of_singleton]%elem_of_app; [by apply (guarded_read g)|]. subst p. rewrite E.
      by intros (t & l0 & _ & ?%app_cons_not_nil).
  - by eapply statement_guarded.
  - assert (Hin : forall q, q ∈ before ++ after -> q ∈ running g).
    { intros q. rewrite Hr, !elem_of_app, elem_of_cons. tauto. }
    split; cbn [running database]; try apply Hg.
    + intros q Hq. by apply (guarded_keyed g), Hin.
    + intros q k t Hq. by apply (guarded_lock g), Hin.
    + intros i j q1 q2 k E1 E2 Hne. destruct (lookup_without _ _ p _ _ E1) as (i' & Ei & Hi'). destruct (lookup_without _ _ p _ _ E2) as (j' & Ej & Hj').
      rewrite <- Hr in *. apply (guarded_alone g Hg i' j'); [done|done|]. subst i' j'. repeat destruct decide; lia.
    + intros q x sh b Hq. by apply (guarded_read g), Hin.
  - destruct Hd as ((_ & Hexp) & Et & Hc & _). split; cbn [running database]; unfold table; rewrite ?Et; try apply Hg.
    + intros p k t Hp Hh. pose proof (Hexp k) as He. rewrite (guarded_lock g Hg p k t Hp Hh) in He. apply He. by apply (Ht' p k).
    + intros p x sh b Hp Hh. destruct (guarded_read g Hg p x sh b Hp Hh) as [?|[E Hlt]]; [by left|right]. split; [done|].
      intros r Hr%Hlt. lia.
Qed.

(** ** The ids handed out *)

Definition handed_for (x : string) (d : Servers R) : list HighLoadQueryId :=
  map snd (List.filter (fun e => bool_decide (fst e = x)) (handed d)).

(** The row of a wallet from its epoch, and every id handed out since. *)
Definition epoch (x : string) (r0 : QueryIdRow) (d : Servers R) : Prop :=
  Forall valid (handed_for x d) /\
  map rank (handed_for x d) = seqZ (rank (row_id r0) + 1) (Z.of_nat (length (handed_for x d))) /\
  exists r, table d !! x = Some r /\ expires_at r = expires_at r0 /\
    rank (row_id r) = rank (row_id r0) + Z.of_nat (length (handed_for x d)).

Lemma handed_snoc x y q (h : list (string * HighLoadQueryId)) :
  map snd (List.filter (fun e => bool_decide (fst e = x)) (h ++ [(y, q)])) =
  map snd (List.filter (fun e => bool_decide (fst e = x)) h) ++ (if bool_decide (y = x) then [q] else []).
Proof. rewrite List.filter_app, map_app. cbn. by destruct (bool_decide (y = x)). Qed.

Lemma epoch_same x r0 (d d' : Servers R) : table d' !! x = table d !! x -> handed_for x d' = handed_for x d -> epoch x r0 d -> epoch x r0 d'.
Proof. unfold epoch. by intros -> ->. Qed.

(** One more id, the next one. *)
Lemma epoch_next x r0 sh b (d d' : Servers R) r : valid (mkQueryId sh b) -> table d !! x = Some r ->
  rank (mkQueryId sh b) = rank (row_id r) + 1 -> table d' !! x = Some (mkRow sh b (expires_at r)) ->
  handed_for x d' = handed_for x d ++ [mkQueryId sh b] -> epoch x r0 d -> epoch x r0 d'.
Proof.
  intros Hv Hr Hn Hr' Hh (H1 & H2 & r1 & Er & He & Hk). rewrite Hr in Er. injection Er as <-. split; [|split].
  - rewrite Hh. apply Forall_app. split; [done|]. by constructor.
  - rewrite Hh, map_app, H2, length_app. cbn [map length].
    replace (Z.of_nat (length (handed_for x d) + 1)) with (Z.of_nat (length (handed_for x d)) + 1) by lia.
    rewrite seqZ_app by lia. f_equal. apply (f_equal (fun z => [z])). lia.
  - eexists. split; [exact Hr'|]. split; [done|]. rewrite Hh, length_app. cbn [length]. change (row_id (mkRow sh b (expires_at r))) with (mkQueryId sh b). lia.
Qed.

Lemma statement_epoch (g : Includers) before p after s a d x r0 :
  guarded g -> running g = before ++ p :: after -> waits_for broadcast p = Some s -> executes s (database g) a d ->
  clock (ids (database g)) <= expires_at r0 -> epoch x r0 (database g) ->
  clock (ids d) = clock (ids (database g)) /\ epoch x r0 d.
Proof.
  intros Hg Hr Hp [fault Hx] Hc He.
  assert (Hredis : (exists k t, s = SetNx k t) \/ (exists k, s = Del k) \/ (forall k t, s <> SetNx k t) /\ (forall k, s <> Del k)).
  { destruct s; eauto. }
  destruct Hredis as [(k & t & ->)|[(k & ->)|[H1 H2]]]; [by injection Hx as _ <-..|].
  destruct (table_effect s fault (database g) H1 H2) as (_ & Ec & Ht). rewrite Hx in *. cbn [fst snd] in *. split; [done|].
  destruct Ht as [(e & _ & Et & Eh)|[Et Eh]]; [by apply (epoch_same _ _ (database g)); unfold handed_for; rewrite ?Et, ?Eh|].
  destruct s as [k t|k|y|y sh b|y sh b timeout]; [by destruct (H1 k t)|by destruct (H2 k)|..]; destruct Eh as [_ Eh]; cbn [table_write] in Et.
  - by apply (epoch_same _ _ (database g)); unfold handed_for; rewrite ?Et, ?Eh.
  - destruct (answer_next g before p after _ Hg Hr Hp y sh b) as (_ & Hv & [(r & _ & Hl & Hn)|[[t E] _]]); [by left| |done].
    destruct (decide (y = x)) as [->|Hne].
    + apply (epoch_next x r0 sh b (database g) d r); try done; [by rewrite Et, lookup_alter_eq, Hl|].
      unfold handed_for. rewrite Eh, handed_snoc. by rewrite bool_decide_eq_true_2.
    + apply (epoch_same _ _ (database g)); [by rewrite Et, lookup_alter_ne|done || idtac|done].
      unfold handed_for. rewrite Eh, handed_snoc, bool_decide_eq_false_2 by done. apply app_nil_r.
  - destruct (answer_next g before p after _ Hg Hr Hp y sh b) as (_ & _ & [(r & E & _)|[_ Hl]]); [right; by exists timeout|done|].
    destruct (decide (y = x)) as [->|Hne].
    + destruct He as (_ & _ & r & Er & Hex & _). specialize (Hl r Er). lia.
    + apply (epoch_same _ _ (database g)); [by rewrite Et, lookup_insert_ne|done || idtac|done].
      unfold handed_for. rewrite Eh, handed_snoc, bool_decide_eq_false_2 by done. apply app_nil_r.
Qed.

Lemma step_epoch (g g' : Includers) x r0 : guarded g -> includers_step g g' ->
  clock (ids (database g)) <= clock (ids (database g')) /\
  (clock (ids (database g')) <= expires_at r0 -> epoch x r0 (database g) -> epoch x r0 (database g')).
Proof.
  intros Hg [j y Hj|before p after s a d Hr Hp Hx|before p after Hr|d Hd]; cbn [database].
  - done.
  - assert (Ec : clock (ids d) = clock (ids (database g))).
    { destruct Hx as [fault Hx]. destruct s; cbn in Hx; injection Hx as _ <-; cbn; try done;
        unfold pg_get_query_id, pg_update_query_id, pg_upsert_query_id, sql_query, sql_exec, sql; by destruct fault. }
    rewrite Ec. split; [done|]. intros Hc He. by eapply (statement_epoch g before p after s a d x r0).
  - done.
  - destruct Hd as (_ & Et & Hc & Eh). split; [done|]. intros _ He. apply (epoch_same _ _ (database g)); [by unfold table; rewrite Et|by unfold handed_for; rewrite Eh|done].
Qed.

Lemma ids_differ (l : list HighLoadQueryId) : Forall valid l -> NoDup (map rank l) -> NoDup (map query_id l).
Proof.
  induction 1 as [|q l Hq Hl IH]; [by constructor|]. intros [Hn Hd]%NoDup_cons. constructor; [|by apply IH].
  intros (q' & E & Hin)%list_elem_of_fmap. apply Hn. apply list_elem_of_fmap. exists q'. split; [|done].
  rewrite Forall_forall in Hl. rewrite !query_id_eq in E by auto. unfold rank. destruct Hq as [Hq1 Hq2], (Hl q' Hin) as [Hs1 Hs2].
  unfold MAX_BITNUMBER in *. lia.
Qed.

(** C1: no query id is used twice while a wallet's epoch lasts, whatever runs
    at once.  Any number of includers broadcast approvals, executions and
    refunds with pools that may share wallets; their commands to Redis and
    their statements on the table interleave in any way, any of them may fail
    or be answered by an error after it took effect, any broadcast may end or
    its process die at any point, and time passes.  As long as none keeps its
    wallet for the sixty seconds of its lock, the ids the table was made to
    hand out for a wallet are the ones that follow that of its row, one by
    one: none is skipped, and none is handed out twice. *)
Theorem ids_one_by_one (d0 : Servers R) (g : Includers) (x : string) (r0 : QueryIdRow) :
  rows_valid (tables (ids d0)) -> handed d0 = [] -> tables (ids d0) !! x = Some r0 ->
  rtc timely_run (Interleaving.mkSystem d0 []) g -> clock (ids (database g)) <= expires_at r0 ->
  map rank (handed_for x (database g)) = seqZ (rank (row_id r0) + 1) (Z.of_nat (length (handed_for x (database g)))) /\
  NoDup (map query_id (handed_for x (database g))).
Proof.
  intros Hv Hh Hr Hrun Hc.
  assert (H : guarded g /\ timely_at g /\ (clock (ids (database g)) <= expires_at r0 -> epoch x r0 (database g))).
  { clear Hc. revert g Hrun. apply rtc_ind_r.
    - split; [|split].
      + split; cbn [running database]; try done; try (by intros ? ? ? ?%not_elem_of_nil); try (by intros ? ?%not_elem_of_nil); try (by intros [|?]).
        by intros ? ? ? ? ?%not_elem_of_nil.
      + by intros p k t ?%not_elem_of_nil.
      + intros _. unfold epoch, handed_for, table. cbn [database]. rewrite Hh. cbn. split; [constructor|]. split; [done|].
        exists r0. split; [done|]. split; [done|lia].
    - intros g1 g2 _ Hs (Hg & Ht & He). split; [by eapply step_guarded|]. split; [apply Hs|].
      destruct (step_epoch g1 g2 x r0 Hg (proj1 Hs)) as [Hm Hnext]. intros Hc. apply Hnext; [done|]. apply He. lia. }
  destruct H as (_ & _ & He). destruct (He Hc) as (H1 & H2 & _). split; [done|].
  apply ids_differ; [done|]. rewrite H2. apply NoDup_seqZ.
Qed.
End servers.
End world.

(** ** A concrete run *)

Module TonConcurrentDemo.
Export WalletDemo.
#[export] Instance demo_codecs : Codecs := text_codecs.
#[export] Instance demo_estimator : GasEstimator := TONGasEstimator (mkEstimates 5 1 100 100 1 1 100 10).
#[export] Instance demo_client : RestClient unit := {|
  post_v3_message := fun boc => ret (Err (CliConnectionFailed "offline"));
  get_traces_for_account := fun _ _ _ => ret (Ok []);
  get_account_states := fun _ => ret (Ok []);
|}.
#[export] Instance demo_time : TimeProvider unit := {| now_secs := ret 1700000000 |}.
Definition no_hash (s : string) : string := s.

(** Two wallets, and refunds with them. *)
Definition b_wallet : @TonWalletHighLoadV3 ton := @mkWallet ton "B"%char (mkKeyPair "pk" "sk") 7 3600.
Definition demo_self : @TONBroadcaster ton := mkTONBroadcaster [("A"%char, a_wallet); ("B"%char, b_wallet)] "G"%char "S"%char "ton2".
Definition job : @Job ton :=
  RefundJob demo_self (mkRefundFields (mkMessage "0xab" "ton2" "a" "b" "h") "R" (mkAmount None "100")).
Abbreviation demo_broadcast := (broadcast (CL := plain_cells) (WL := plain_wallets) (X := unit) no_hash).
Abbreviation DemoSystem := (Interleaving.System Answer unit (Servers Server) (@Job ton)).

Definition two_rows : Servers Server :=
  mkServers _ (mkServer ∅ 0 []) (mkStore {["A" := mkRow 3 1021 900; "B" := mkRow 0 7 900]} 100 []) [].

(** Every lock in the logs is younger than a minute. *)
Definition young (g : DemoSystem) : bool :=
  forallb (fun p => forallb (fun e => match e with (_, Flag true t) => server_clock (locks (database g)) <? t + LOCK_TTL | _ => true end)
    (spoken demo_broadcast p)) (running g).

Lemma young_timely g : young g = true -> timely_at (CL := plain_cells) (WL := plain_wallets) no_hash g.
Proof.
  intros Hy p k t Hp (l0 & l1 & _ & E & _). unfold young in Hy. rewrite forallb_forall in Hy.
  specialize (Hy p (proj1 (list_elem_of_In _ _) Hp)). rewrite forallb_forall in Hy.
  unfold log_of in E. rewrite E in Hy. specialize (Hy (SetNx k LOCK_TTL, Flag true t)). apply Z.ltb_lt, Hy.
  apply in_or_app. right. by left.
Qed.

Definition demo_advance : DemoSystem -> nat -> DemoSystem := advance_one demo_broadcast (fun s => perform s None).
Fixpoint all_young (g : DemoSystem) (turns : list nat) : bool :=
  match turns with
  | [] => true
  | i :: turns => young (demo_advance g i) && all_young (demo_advance g i) turns
  end.

Abbreviation demo_run := (rtc (timely_run (CL := plain_cells) (WL := plain_wallets) (X := unit) (R := Server) no_hash)).

Lemma advances_run g turns : all_young g turns = true -> demo_run g (foldl demo_advance g turns).
Proof.
  revert g. induction turns as [|i turns IH]; intros g Hy; [apply rtc_refl|]. cbn [foldl all_young] in *.
  apply andb_true_iff in Hy as [Hy Hr]. etrans; [|by apply IH].
  destruct (advance_one_step executes drifts demo_broadcast (fun _ j => keyed (job_pool j)) (fun s => perform s None) g i) as [E|Hs].
  - intros s d. exists None. by destruct (perform s None d).
  - unfold demo_advance. rewrite E. apply rtc_refl.
  - apply rtc_once. split; [exact Hs|by apply young_timely].
Qed.

(** Three refunds start; two get a wallet each, the third finds none; then a
    fourth takes the first wallet again. *)
Definition started (n : nat) (g : DemoSystem) : DemoSystem :=
  Interleaving.mkSystem (database g) (running g ++ replicate n (mkRunning job tt [])).
Definition three : DemoSystem := started 3 (Interleaving.mkSystem two_rows []).
Definition served : DemoSystem := foldl demo_advance three [0; 1; 2; 2; 1; 2; 0; 2; 0; 2; 0]%nat.
Definition fourth : DemoSystem := foldl demo_advance (started 1 served) [3; 3; 3; 3]%nat.

Lemma job_keyed : keyed (job_pool job).
Proof. split; [|by repeat constructor]. apply (bool_decide_unpack (NoDup ["A"; "B"]%char)). vm_compute. exact I. Qed.

Lemma starts_run g n : young (started n g) = true -> demo_run g (started n g).
Proof.
  unfold started. revert g. induction n as [|n IH]; intros g Hy.
  - rewrite app_nil_r. destruct g. apply rtc_refl.
  - cbn [replicate] in *. set (g1 := Interleaving.mkSystem (database g) (running g ++ [mkRunning job tt []])).
    assert (E : running g ++ mkRunning job tt [] :: replicate n (mkRunning job tt []) = running g1 ++ replicate n (mkRunning job tt [])).
    { unfold g1. cbn [running]. by rewrite <- app_assoc. }
    rewrite E in *. eapply rtc_l; [|apply (IH g1 Hy)]. split; [apply step_start, job_keyed|]. apply young_timely.
    unfold young in *. cbn [running database] in Hy. rewrite forallb_app in Hy. by apply andb_true_iff in Hy as [Hy _].
Qed.

Lemma three_young : young three = true.
Proof. vm_compute. reflexivity. Qed.
Lemma served_young : all_young three [0; 1; 2; 2; 1; 2; 0; 2; 0; 2; 0]%nat = true.
Proof. vm_compute. reflexivity. Qed.
Lemma more_young : young (started 1 served) = true.
Proof. vm_compute. reflexivity. Qed.
Lemma fourth_young : all_young (started 1 served) [3; 3; 3; 3]%nat = true.
Proof. vm_compute. reflexivity. Qed.
Lemma reaches_served : demo_run three served.
Proof. unfold served. apply advances_run, served_young. Qed.
Lemma reaches_fourth : demo_run (started 1 served) fourth.
Proof. unfold fourth. apply advances_run, fourth_young. Qed.
Lemma demo_reaches : demo_run (Interleaving.mkSystem two_rows []) fourth.
Proof.
  transitivity three; [exact (starts_run (Interleaving.mkSystem two_rows []) 3 three_young)|].
  transitivity served; [exact reaches_served|].
  transitivity (started 1 served); [exact (starts_run served 1 more_young)|exact reaches_fourth].
Qed.
End TonConcurrentDemo.
Import TonConcurrentDemo.

Lemma ids_one_by_one_witness :
  map rank (handed_for "A" (database fourth)) = seqZ (rank (mkQueryId 3 1021) + 1) 2 /\
  handed_for "A" (database fourth) = [mkQueryId 3 1022; mkQueryId 4 0] /\
  handed_for "B" (database fourth) = [mkQueryId 0 8] /\
  NoDup (map query_id (handed_for "A" (database fourth))).
Proof.
  destruct (ids_one_by_one (CL := plain_cells) (WL := plain_wallets) no_hash two_rows fourth "A" (mkRow 3 1021 900)) as [H1 H2].
  - apply map_Forall_insert_2; [query_consts; lia|]. apply map_Forall_insert_2; [query_consts; lia|apply map_Forall_empty].
  - reflexivity.
  - reflexivity.
  - exact demo_reaches.
  - vm_compute. discriminate.
  - split; [|split; [vm_compute; reflexivity|split; [vm_compute; reflexivity|exact H2]]].
    rewrite H1. vm_compute. reflexivity.
Defined.
