(* ===== verification/Config.v ===== *)
(** * Configuration

    [relayer_base/src/config.rs] and [xrpl/src/config.rs]: the settings and the
    look-ups of the deployed tokens.  An [f64] is a [spec_float]. *)

From Stdlib Require Import SpecFloat.
From S2P Require Import Prelude.

Abbreviation F64 := spec_float.

(** src/relayer_base/src/config.rs:42-48 AxelarContracts *)
Record AxelarContracts : Type := mkContracts {
  chain_gateway : string;
  chain_multisig_prover : string;
  chain_voting_verifier : string;
  multisig : string;
}.

(** src/relayer_base/src/config.rs:50-55 PriceFeedConfig *)
Record PriceFeedConfig : Type := mkPriceFeed {
  pairs : list string;
  coin_ids : gmap string (gmap string string);
  auth : gmap string string;
}.

(** src/relayer_base/src/config.rs:57-62 TokenConfig *)
Record TokenConfig : Type := mkTokenConfig {
  token_config_id : string;
  symbol : string;
  decimals : Z;
}.

(** src/relayer_base/src/config.rs:64-82 Config *)
Record Config : Type := mkConfig {
  queue_address : string;
  gmp_api_url : string;
  deployed_tokens : list TokenConfig;
  redis_server : string;
  postgres_url : string;
  chain_name : string;
  client_cert_path : string;
  client_key_path : string;
  heartbeats : gmap string string;
  price_feed : PriceFeedConfig;
  refunds_enabled : bool;
  demo_tokens_rate : gmap string F64;
  sentry_dsn : string;
  jaeger_grpc_url : option string;
  axelar_contracts : AxelarContracts;
  config_num_workers : Z;
}.

(** src/relayer_base/src/config.rs:85-89 Config::get_token_config *)
Definition get_token_config (self : Config) (token_id : string) : option TokenConfig :=
  List.find (fun token => bool_decide (token_config_id token = token_id)) (deployed_tokens self).

(** src/relayer_base/src/config.rs:91-94 Config::get_token_symbol *)
Definition get_token_symbol (self : Config) (token_id : string) : option string :=
  symbol <$> get_token_config self token_id.

(** src/relayer_base/src/config.rs:96-100 Config::get_token_by_symbol *)
Definition get_token_by_symbol (self : Config) (s : string) : option TokenConfig :=
  List.find (fun token => bool_decide (symbol token = s)) (deployed_tokens self).

(** src/relayer_base/src/config.rs:102-104 Config::get_token_decimals *)
Definition get_token_decimals (self : Config) (token_id : string) : option Z :=
  decimals <$> get_token_config self token_id.

(** src/xrpl/src/config.rs:4-14 XRPLConfig *)
Record XRPLConfig : Type := mkXrplConfig {
  common_config : Config;
  refund_manager_addresses : string;
  includer_secrets : string;
  xrpl_rpc : string;
  xrpl_faucet_url : string;
  xrpl_multisig : string;
}.

(** A configuration with one token, for concrete runs. *)
Definition demo_config : XRPLConfig :=
  mkXrplConfig
    (mkConfig "amqp" "gmp" [mkTokenConfig "0xtok" "USD" 6; mkTokenConfig "0xxrp" "XRP" 6] "redis" "pg" "xrpl" "" "" ∅
       (mkPriceFeed [] ∅ ∅) true ∅ "" None (mkContracts "gateway" "prover" "verifier" "msig") 1)
    "r" "s" "http" "faucet" "rMulti".

Lemma get_token_config_id self i t : get_token_config self i = Some t -> token_config_id t = i /\ t ∈ deployed_tokens self.
Proof.
  unfold get_token_config. intros [Hin Hb]%find_some. split; [by apply bool_decide_eq_true in Hb|].
  by apply list_elem_of_In.
Qed.
