(* ===== verification/PriceFeed.v ===== *)
(** * The price feed

    [relayer_base/src/price_feed.rs]: quotes of CoinGecko stored for the
    [PriceView] of the other services.  The market's client is the class
    [CoinGecko]. *)

From S2P Require Import Prelude.
From S2P Require Import Store.
From S2P Require Import Text.
From S2P Require Import GmpTypes.
From S2P Require Import Database.
From S2P Require Import Config.

(** [coingecko]: a quote is a structure that serde turns into an object with
    one number per currency, which may be a decimal. *)
Class CoinGeckoLib `{!DecimalLib} : Type := {
  Quote : Type;
  quote_to_value : Quote -> result Value string;
  decimal_of_value : Value -> option Dec;
}.

Class CoinGecko `{!DecimalLib, !CoinGeckoLib} (W : Type) : Type := {
  vs_currencies : M W (result (list string) string);
  price : list string -> list string -> M W (result (gmap string Quote) string);
}.

Section feed.
Context {CC : CrossChain} {DL : DecimalLib} {CG : CoinGeckoLib} {W : Type} {G : CoinGecko W}.

(** src/relayer_base/src/price_feed.rs:18-22 CoinGeckoPriceFeed *)
Record CoinGeckoPriceFeed : Type := mkFeed {
  coin_ids : gmap string string;
  supported_vs_currencies : list string;
}.

(** src/relayer_base/src/price_feed.rs:25-44 CoinGeckoPriceFeed::new *)
Definition feed_new (config : PriceFeedConfig) : M W (result CoinGeckoPriceFeed string) :=
  let? _key := ret (ok_or (auth config !! "coingecko") "coingecko auth not found") in
  let? supported := vs_currencies in
  match Config.coin_ids config !! "coingecko" with
  | Some ids => ret (Ok (mkFeed ids supported))
  | None => panic "coingecko coin ids not found"
  end.

(** src/relayer_base/src/price_feed.rs:46-48 CoinGeckoPriceFeed::get_coin_id *)
Definition get_coin_id (self : CoinGeckoPriceFeed) (symbol : string) : option string := coin_ids self !! symbol.

(** src/relayer_base/src/price_feed.rs:55-76 CoinGeckoPriceFeed::fetch (what is asked for a pair) *)
Definition asked_of (self : CoinGeckoPriceFeed) (pair : string) : option (string * string) :=
  match split_once "/" pair with
  | None => None
  | Some (token_a, token_b) =>
      let vs := to_lowercase token_b in
      if negb (bool_decide (vs ∈ supported_vs_currencies self)) then None
      else match get_coin_id self token_a with
           | Some coin_id => Some (coin_id, vs)
           | None => None
           end
  end.

(** src/relayer_base/src/price_feed.rs:84-96 CoinGeckoPriceFeed::fetch (the quote of a pair) *)
Definition quote_of (self : CoinGeckoPriceFeed) (quotes : gmap string Quote) (pair : string) : option Dec :=
  match split_once "/" pair with
  | None => None
  | Some (token_a, token_b) =>
      match get_coin_id self token_a with
      | None => None
      | Some coin_id =>
          match quotes !! coin_id with
          | None => None
          | Some p =>
              match quote_to_value p with
              | Err _ => None
              | Ok v => match value_get v (to_lowercase token_b) with
                        | Some v => decimal_of_value v
                        | None => None
                        end
              end
          end
      end
  end.

(** src/relayer_base/src/price_feed.rs:54-97 CoinGeckoPriceFeed::fetch *)
Definition fetch (self : CoinGeckoPriceFeed) (pairs : list string) : M W (result (list (option Dec)) string) :=
  let asked := omap (asked_of self) pairs in
  let? quotes := price (map fst asked) (map snd asked) in
  ret (Ok (map (quote_of self quotes) pairs)).
End feed.

Section feeder.
Context {CC : CrossChain} {DL : DecimalLib} {CG : CoinGeckoLib} {W : Type} {G : CoinGecko W}
  {DB : Database W} {TT : Timer W}.

(** src/relayer_base/src/price_feed.rs:100-104 PriceFeeder *)
Record PriceFeeder : Type := mkFeeder { feeds : list CoinGeckoPriceFeed; feeder_pairs : list string }.

(** src/relayer_base/src/price_feed.rs:107-114 PriceFeeder::new *)
Definition feeder_new (config : Config) : M W (result PriceFeeder string) :=
  let? feed := feed_new (Config.price_feed config) in
  ret (Ok (mkFeeder [feed] (pairs (Config.price_feed config)))).

(** src/relayer_base/src/price_feed.rs:117-127 PriceFeeder::store_prices *)
Fixpoint store_prices (pairs : list string) (prices : list (option Dec)) : M W (result unit string) :=
  match pairs, prices with
  | name :: pairs, Some p :: prices =>
      let? _u := store_price name p in
      store_prices pairs prices
  | _ :: pairs, None :: prices => store_prices pairs prices
  | _, _ => ret (Ok tt)
  end.

Fixpoint update_feeds (self : PriceFeeder) (fs : list CoinGeckoPriceFeed) : M W unit :=
  match fs with
  | [] => ret tt
  | feed :: fs =>
      let! _r := (let? prices := fetch feed (feeder_pairs self) in store_prices (feeder_pairs self) prices) in
      update_feeds self fs
  end.

(** src/relayer_base/src/price_feed.rs:128-148 PriceFeeder::run (the loop, [rounds] rounds of it) *)
Fixpoint feeder_run (rounds : nat) (self : PriceFeeder) : M W unit :=
  match rounds with
  | O => ret tt
  | S rounds =>
      let! _u := update_feeds self (feeds self) in
      let! _s := sleep 10 in
      feeder_run rounds self
  end.
End feeder.

(** ** What the feed stores is what the price view serves *)

(** The database, and a market that gives the listed answers, one per
    request. *)
Record FeedWorld `{!DecimalLib, !CoinGeckoLib} : Type := mkFeedWorld {
  feed_db : Db;
  market : list (result (gmap string Quote) string);
}.
Arguments mkFeedWorld {_ _} feed_db market.
Arguments feed_db {_ _} _.
Arguments market {_ _} _.

Section prices.
Context {CC : CrossChain} {DL : DecimalLib} {CG : CoinGeckoLib}.
Abbreviation W := FeedWorld.

Definition feed_via_db {A} (m : M Db A) : M W A := fun w =>
  let '(o, d) := m (feed_db w) in (o, mkFeedWorld d (market w)).

#[export] Instance feed_database : Database W := {|
  store_latest_height := fun c x h => feed_via_db (pg_store_latest_height c x h);
  get_latest_height := fun c x => feed_via_db (pg_get_latest_height c x);
  store_latest_task_id := fun c x i => feed_via_db (pg_store_latest_task_id c x i);
  get_latest_task_id := fun c x => feed_via_db (pg_get_latest_task_id c x);
  db_store_payload := fun c v => feed_via_db (pg_store_payload c v);
  db_get_payload := fun c => feed_via_db (pg_get_payload c);
  db_clear_payload := fun c => feed_via_db (pg_clear_payload c);
  db_get_price := fun p => feed_via_db (pg_get_price p);
  store_price := fun p d => feed_via_db (pg_store_price p d);
|}.

#[export] Instance feed_market : CoinGecko W := {|
  vs_currencies := ret (Ok []);
  price := fun _ _ w => match market w with
    | r :: rest => (Done r, mkFeedWorld (feed_db w) rest)
    | [] => (Done (Err "no answer"), w)
    end;
|}.

#[export] Instance feed_timer : Timer W := {|
  sleep := fun d => modify (fun w => mkFeedWorld (advance d (feed_db w)) (market w));
|}.

Definition stored_prices (w : W) : gmap string string := pair_prices (tables (feed_db w)).

Lemma store_price_cases p d (w : W) :
  (exists e w', store_price p d w = (Done (Err e), w') /\ stored_prices w' = stored_prices w /\
     faults (feed_db w) <> []) \/
  (exists w', store_price p d w = (Done (Ok tt), w') /\
     stored_prices w' = <[p := dec_to_string d]> (stored_prices w) /\
     faults (feed_db w') = tail (faults (feed_db w))).
Proof.
  simpl. unfold feed_via_db, pg_store_price, sql_exec.
  destruct (sql_cases (fun _ t => (tt, set_prices (insert p (dec_to_string d)) t)) (feed_db w)) as [[e E]|E]; rewrite E.
  - left. exists e. eexists. split; [done|]. split; [done|]. intros Hf. unfold sql, next_fault in E.
    rewrite Hf in E. done.
  - right. eexists. by split.
Qed.

(** Storing the quotes: with a database that answers every one is stored;
    otherwise a price is the quote or what it was. *)
Lemma store_prices_run (q : string -> option Dec) (ps : list string) (w : W) :
  exists r w', store_prices ps (map q ps) w = (Done r, w') /\
    (forall p, stored_prices w' !! p = stored_prices w !! p \/
       exists d, p ∈ ps /\ q p = Some d /\ stored_prices w' !! p = Some (dec_to_string d)) /\
    (faults (feed_db w) = [] -> r = Ok tt /\ faults (feed_db w') = [] /\
       forall p d, p ∈ ps -> q p = Some d -> stored_prices w' !! p = Some (dec_to_string d)).
Proof.
  revert w. induction ps as [|p ps IH]; intros w; cbn [map store_prices].
  - exists (Ok tt), w. split; [done|]. split; [by left|]. intros ->. split; [done|]. split; [done|].
    by intros p d ?%not_elem_of_nil.
  - assert (Hmono : forall (w' w1 : W) x, (stored_prices w' !! x = stored_prices w1 !! x \/
        (exists d, x ∈ ps /\ q x = Some d /\ stored_prices w' !! x = Some (dec_to_string d))) ->
      stored_prices w' !! x = stored_prices w1 !! x \/
        (exists d, x ∈ p :: ps /\ q x = Some d /\ stored_prices w' !! x = Some (dec_to_string d))).
    { intros w' w1 x [Hx|(d & Hin & Hx)]; [by left|]. right. exists d. split; [by right|done]. }
    destruct (q p) as [d|] eqn:Hq.
    + rewrite bind_ok_run.
      destruct (store_price_cases p d w) as [(e & w1 & -> & Hs & Hf) | (w1 & -> & Hs & Hf)].
      { exists (Err e), w1. split; [done|]. split; [intros x; left; by rewrite Hs|done]. }
      destruct (IH w1) as (r & w' & -> & Hall & Hok). exists r, w'. split; [done|]. split.
      * intros x. destruct (Hmono _ _ _ (Hall x)) as [Hx|Hx]; [|by right]. rewrite Hx, Hs.
        destruct (decide (x = p)) as [->|Hne]; [|left; by rewrite lookup_insert_ne by done].
        right. exists d. rewrite lookup_insert_eq. split; [by left|done].
      * intros Hnf. rewrite Hnf in Hf. destruct (Hok Hf) as (-> & Hf' & Hall'). split; [done|]. split; [done|].
        intros x dx [->|Hin]%elem_of_cons Hx; [|by apply Hall'].
        destruct (decide (p ∈ ps)) as [Hin|Hin]; [by apply Hall'|].
        destruct (Hall p) as [Hp|(d' & Hin' & _)]; [|done]. rewrite Hp, Hs, lookup_insert_eq. congruence.
    + destruct (IH w) as (r & w' & -> & Hall & Hok). exists r, w'. split; [done|]. split.
      * intros x. by apply Hmono.
      * intros Hnf. destruct (Hok Hnf) as (-> & Hf' & Hall'). split; [done|]. split; [done|].
        intros x dx [->|Hin]%elem_of_cons Hx; [congruence|by apply Hall'].
Qed.

(** What the feed has stored is what the services read.  One round over
    one feed, whatever the market and the database answer: every price that
    changed is the quote of its pair in the market's answer.  If the market
    answered and the database did too, then the price view answers each of the
    feed's pairs that has a quote with exactly that quote. *)
Theorem prices_served (feed : CoinGeckoPriceFeed) (ps : list string) (w : W) (quotes : gmap string Quote)
    (rest : list (result (gmap string Quote) string)) :
  market w = Ok quotes :: rest ->
  exists w', update_feeds (mkFeeder [feed] ps) [feed] w = (Done tt, w') /\
    (forall p, stored_prices w' !! p = stored_prices w !! p \/
       exists d, p ∈ ps /\ quote_of feed quotes p = Some d /\ stored_prices w' !! p = Some (dec_to_string d)) /\
    (faults (feed_db w) = [] -> (forall d, dec_from_str (dec_to_string d) = Ok d) ->
     forall p a b d, p ∈ ps -> quote_of feed quotes p = Some d -> split_once "/" p = Some (a, b) -> a <> b ->
       fst (get_price p w') = Done (Ok d)).
Proof.
  intros Hm. cbn [update_feeds feeder_pairs]. set (w1 := mkFeedWorld (feed_db w) rest).
  assert (Ef : fetch feed ps w = (Done (Ok (map (quote_of feed quotes) ps)), w1)).
  { unfold fetch. rewrite bind_ok_run. simpl. by rewrite Hm. }
  destruct (store_prices_run (quote_of feed quotes) ps w1) as (r & w' & Es & Hall & Hok).
  exists w'. split; [|split].
  - rewrite bind_run, bind_ok_run, Ef, Es. done.
  - exact Hall.
  - intros Hf Hd p a b d Hp Hq Hsp Hab. destruct (Hok Hf) as (_ & Hf' & Hst).
    unfold get_price. rewrite Hsp, decide_False by done. rewrite bind_ok_run, map_err_run. simpl.
    unfold feed_via_db, pg_get_price. rewrite bind_ok_run.
    unfold sql_query. rewrite sql_no_fault by (unfold next_fault; by rewrite Hf'). simpl.
    pose proof (Hst p d Hp Hq) as H. unfold stored_prices in H. rewrite H. simpl. by rewrite Hd.
Qed.
End prices.

Module FeedDemo.
Export DbDemo.
#[export] Instance gecko : CoinGeckoLib := {|
  Quote := string;
  quote_to_value := fun q => Ok (VObject [("usd", VString q)]);
  decimal_of_value := as_str;
|}.
Definition coins : CoinGeckoPriceFeed := mkFeed {["XRP" := "ripple"; "TON" := "the-open-network"]} ["usd"].
Definition quotes : gmap string Quote := {["ripple" := "0.5"]}.
Definition before : FeedWorld := mkFeedWorld DbDemo.empty [Ok quotes].
End FeedDemo.
Import FeedDemo.

Lemma prices_served_witness :
  exists w', update_feeds (mkFeeder [coins] ["XRP/USD"; "TON/USD"]) [coins] before = (Done tt, w') /\
    (forall p, stored_prices w' !! p = stored_prices before !! p \/
       exists d, p ∈ ["XRP/USD"; "TON/USD"] /\ quote_of coins quotes p = Some d /\
         stored_prices w' !! p = Some (dec_to_string d)) /\
    (faults (feed_db before) = [] -> (forall d, dec_from_str (dec_to_string d) = Ok d) ->
     forall p a b d, p ∈ ["XRP/USD"; "TON/USD"] -> quote_of coins quotes p = Some d ->
       split_once "/" p = Some (a, b) -> a <> b -> fst (get_price p w') = Done (Ok d)).
Proof. apply (prices_served coins ["XRP/USD"; "TON/USD"] before quotes []). reflexivity. Defined.
