(* ===== verification/Heartbeat.v ===== *)
(** * Heartbeats

    [setup_heartbeat] of [relayer_base/src/utils.rs]: a service writes a key
    that expires into Redis as long as it runs.  [relayer_base/src/heartbeat.rs]:
    a loop that calls a monitoring address for each key it finds. *)

From S2P Require Import Prelude.
From S2P Require Import Decimal.

(** src/relayer_base/src/utils.rs:29-29 HEARTBEAT_EXPIRATION *)
Definition HEARTBEAT_EXPIRATION : Z := 30.

(** [SET key value EX ttl] and [GET key]; a request to an address, and
    whether its answer was a success. *)
Class KeyValue (W : Type) : Type := {
  set_ex : string -> string -> Z -> M W (result unit string);
  get_key : string -> M W (result (option string) string);
}.

Class Monitoring (W : Type) : Type := { ping : string -> M W (result bool string) }.

Section heartbeats.
Context {W : Type} {KV : KeyValue W} {MO : Monitoring W} {TT : Timer W}.
(** Whether the service's token is cancelled, by the world at that moment. *)
Variable is_cancelled : W -> bool.

(** src/relayer_base/src/utils.rs:224-250 setup_heartbeat (the loop, [rounds] rounds of it at most) *)
Fixpoint setup_heartbeat (rounds : nat) (service : string) : M W unit :=
  match rounds with
  | O => ret tt
  | S rounds =>
      let! w := get_world in
      if is_cancelled w then ret tt
      else
        let! _result := set_ex service "1" HEARTBEAT_EXPIRATION in
        let! _s := sleep 15 in
        setup_heartbeat rounds service
  end.

Definition parse_u8 (s : string) : option Z := parse_unsigned 255 s.

(** src/relayer_base/src/heartbeat.rs:21-48 heartbeats_loop (one key) *)
Definition heartbeat_one (key url : string) : M W unit :=
  let redis_key := "heartbeat:" +:+ key in
  let! res := get_key redis_key in
  let res := match res with Ok v => v | Err _ => None end in
  let value := default 0 (match res with Some v => parse_u8 v | None => None end) in
  if value =? 1 then let! _r := ping url in ret tt else ret tt.

Fixpoint heartbeats_round (keys : list (string * string)) : M W unit :=
  match keys with
  | [] => ret tt
  | (key, url) :: keys => let! _u := heartbeat_one key url in heartbeats_round keys
  end.

(** src/relayer_base/src/heartbeat.rs:7-53 heartbeats_loop (the loop, [rounds] rounds of it) *)
Fixpoint heartbeats_loop (rounds : nat) (keys : list (string * string)) : M W unit :=
  match rounds with
  | O => ret tt
  | S rounds =>
      let! _r := heartbeats_round keys in
      let! _s := sleep 30 in
      heartbeats_loop rounds keys
  end.
End heartbeats.

(** ** The server: keys with a value and an expiry, a clock, the addresses
    called, and for each write to come whether it fails. *)

Record Pulse : Type := mkPulse {
  pulse_keys : gmap string (string * Z);
  pulse_clock : Z;
  pinged : list (string * Z);
  write_faults : list bool;
}.

Definition pulse_get (k : string) (w : Pulse) : option string :=
  match pulse_keys w !! k with
  | Some (v, e) => if pulse_clock w <? e then Some v else None
  | None => None
  end.

#[export] Instance pulse_kv : KeyValue Pulse := {|
  set_ex := fun k v ttl w =>
    match write_faults w with
    | true :: l => (Done (Err "timeout"), mkPulse (pulse_keys w) (pulse_clock w) (pinged w) l)
    | l => (Done (Ok tt), mkPulse (<[k := (v, pulse_clock w + ttl)]> (pulse_keys w)) (pulse_clock w) (pinged w) (tail l))
    end;
  get_key := fun k w => (Done (Ok (pulse_get k w)), w);
|}.
#[export] Instance pulse_monitoring : Monitoring Pulse := {|
  ping := fun url w => (Done (Ok true),
    mkPulse (pulse_keys w) (pulse_clock w) (pinged w ++ [(url, pulse_clock w)]) (write_faults w));
|}.
#[export] Instance pulse_timer : Timer Pulse := {|
  sleep := fun d => modify (fun w => mkPulse (pulse_keys w) (pulse_clock w + d) (pinged w) (write_faults w));
|}.

(** Time passes, or the service runs, or a check is made. *)
Definition wait (d : Z) (w : Pulse) : Pulse :=
  mkPulse (pulse_keys w) (pulse_clock w + d) (pinged w) (write_faults w).

(** ** What a call of the monitoring address says about the service *)

Lemma heartbeat_round_pings (keys : list (string * string)) (w : Pulse) :
  exists w', heartbeats_round keys w = (Done tt, w') /\
    pulse_keys w' = pulse_keys w /\ pulse_clock w' = pulse_clock w /\ write_faults w' = write_faults w /\
    pinged w' = pinged w ++ map (fun ku => (snd ku, pulse_clock w))
      (filter (fun ku => (match pulse_get ("heartbeat:" +:+ fst ku) w with Some v => parse_u8 v | None => None end) = Some 1) keys).
Proof.
  revert w. induction keys as [|[k u] keys IH]; intros w; cbn [heartbeats_round].
  { exists w. rewrite app_nil_r. done. }
  rewrite bind_run. unfold heartbeat_one at 1. cbv beta zeta. rewrite bind_run. cbn [get_key pulse_kv].
  rewrite filter_cons. cbn [fst].
  set (o := match pulse_get ("heartbeat:" +:+ k) w with Some v => parse_u8 v | None => None end).
  destruct (decide (o = Some 1)) as [Ho|Ho].
  - assert ((default 0 o =? 1) = true) as -> by (by rewrite Ho). rewrite bind_run. cbn [ping pulse_monitoring ret].
    destruct (IH (mkPulse (pulse_keys w) (pulse_clock w) (pinged w ++ [(u, pulse_clock w)]) (write_faults w)))
      as (w' & -> & Hk & Hc & Hf & Hp).
    exists w'. split; [done|]. split; [done|]. split; [done|]. split; [done|]. rewrite Hp. simpl.
    by rewrite <- app_assoc.
  - assert ((default 0 o =? 1) = false) as ->.
    { apply Z.eqb_neq. destruct o as [z|]; simpl; [congruence|done]. }
    cbn [ret]. destruct (IH w) as (w' & -> & Hk & Hc & Hf & Hp). by exists w'.
Qed.

(** The last write that went through, after some rounds of a service. *)
Lemma setup_heartbeat_run rounds service (w : Pulse) :
  Forall (fun b => b = false) (write_faults w) ->
  exists w', setup_heartbeat (fun _ => false) (S rounds) service w = (Done tt, w') /\
    pulse_clock w' = pulse_clock w + 15 * Z.of_nat (S rounds) /\
    pulse_keys w' !! service = Some ("1", pulse_clock w' + 15) /\ pinged w' = pinged w.
Proof.
  revert w. induction rounds as [|rounds IH]; intros w Hf.
  - cbn [setup_heartbeat]. rewrite bind_run. unfold get_world. rewrite bind_run. simpl.
    destruct (write_faults w) as [|b l]; [|apply Forall_cons in Hf as [-> Hf]]; simpl;
      eexists; (split; [reflexivity|]); simpl; rewrite lookup_insert_eq; unfold HEARTBEAT_EXPIRATION;
      (split; [lia|]); (split; [do 2 f_equal; lia|done]).
  - remember (S rounds) as n eqn:Hn. cbn [setup_heartbeat]. rewrite bind_run. unfold get_world. rewrite bind_run.
    assert (exists w1, set_ex service "1" HEARTBEAT_EXPIRATION w = (Done (Ok tt), w1) /\
      pulse_clock w1 = pulse_clock w /\ pinged w1 = pinged w /\ Forall (fun b => b = false) (write_faults w1))
      as (w1 & -> & Hc & Hp & Hf1).
    { simpl. destruct (write_faults w) as [|b l]; [|apply Forall_cons in Hf as [-> Hf]]; simpl; by eexists. }
    rewrite bind_run. cbn [sleep pulse_timer modify]. subst n.
    destruct (IH (mkPulse (pulse_keys w1) (pulse_clock w1 + 15) (pinged w1) (write_faults w1)) Hf1)
      as (w' & -> & Hc' & Hk' & Hp').
    exists w'. split; [done|]. simpl in Hc', Hp'. split; [lia|]. split; [done|congruence].
Qed.

(** The monitoring address of a service is called as long as the service
    runs and no longer.  After any number of rounds of a service whose writes
    go through, a check within the next fifteen seconds calls the address; a
    check made fifteen seconds later or more, when no further write has
    happened, does not. *)
Theorem heartbeat_truthful (rounds : nat) (name url : string) (later : Z) (w w1 w2 : Pulse) :
  Forall (fun b => b = false) (write_faults w) -> 0 <= later ->
  setup_heartbeat (fun _ => false) (S rounds) ("heartbeat:" +:+ name) w = (Done tt, w1) ->
  heartbeats_round [(name, url)] (wait later w1) = (Done tt, w2) ->
  pinged w2 = pinged w ++ (if later <? 15 then [(url, pulse_clock w1 + later)] else []).
Proof.
  intros Hf Hl Hs Hr. destruct (setup_heartbeat_run rounds ("heartbeat:" +:+ name) w Hf) as (x & E & Hc & Hk & Hp).
  rewrite Hs in E. injection E as <-.
  destruct (heartbeat_round_pings [(name, url)] (wait later w1)) as (y & E & _ & _ & _ & Hp2).
  rewrite Hr in E. injection E as <-. rewrite Hp2. unfold wait at 1. cbn [pinged]. rewrite Hp. f_equal.
  rewrite filter_cons. cbn [fst]. unfold pulse_get, wait. cbn [pulse_keys pulse_clock]. rewrite Hk.
  destruct (Z.ltb_spec (pulse_clock w1 + later) (pulse_clock w1 + 15)), (Z.ltb_spec later 15); try lia; done.
Qed.

Module PulseDemo.
Definition start : Pulse := mkPulse ∅ 0 [] [].
Definition running : Pulse := snd (setup_heartbeat (fun _ => false) 3 ("heartbeat:" +:+ "includer") start).
Definition checked (later : Z) : Pulse := snd (heartbeats_round [("includer", "https://monitor")] (wait later running)).
End PulseDemo.
Import PulseDemo.

Lemma heartbeat_truthful_witness :
  pinged (checked 14) = [("https://monitor", 59)] /\ pinged (checked 15) = pinged start ++ [].
Proof.
  split.
  - apply (heartbeat_truthful 2 "includer" "https://monitor" 14 start running (checked 14));
      [constructor|lia|vm_compute; reflexivity..].
  - apply (heartbeat_truthful 2 "includer" "https://monitor" 15 start running (checked 15));
      [constructor|lia|vm_compute; reflexivity..].
Defined.
