(* ===== verification/Xrpl.v ===== *)
(** * XRPL: transactions, client and poller

    [xrpl/src/client.rs]: requests with retries and pages.
    [xrpl/src/subscriber.rs]: the poller of an XRPL account.  The memo
    functions of [relayer_base/src/utils.rs].  The types of [xrpl_api] are
    parameters; of a transaction only the fields the code reads are kept. *)

From S2P Require Import Prelude.
From S2P Require Import GmpTypes.
From S2P Require Import Text.
From S2P Require Import Decimal.
From S2P Require Import Database.
From S2P Require Import TonLib.
From S2P Require Import TonTypes.
From S2P Require Import Subscriber.

(** ** Third-party types *)

(** [xrpl_api::Memo] and the common part of an [xrpl_api::Transaction]. *)
Record Memo : Type := mkMemo { memo_type : option string; memo_data : option string }.

Record TransactionCommon : Type := mkCommon {
  tx_account : string;
  tx_sequence : Z;
  tx_hash_field : option string;
  memos : option (list Memo);
  ledger_index : option Z;
  validated : option bool;
  ticket_sequence : option Z;
}.

Inductive TransactionKind : Type := KPayment | KTicketCreate | KSignerListSet | KTrustSet | KOther.

(** [xrpl_api::ResultCategory]. *)
Inductive ResultCategory : Type := Tec | Tef | Tel | Tem | Ter | Tes.
#[export] Instance ResultCategory_eq_dec : EqDecision ResultCategory.
Proof. solve_decision. Defined.

(** [xrpl_http_client::error::Error]. *)
Inductive XrplError : Type :=
| XApi (code : string)
| XOther (s : string).
Definition show_XrplError (e : XrplError) : string :=
  match e with XApi code => "API error: " +:+ code | XOther s => s end.

Class XrplApi `{!XrplLib} : Type := {
  common : XrplTransaction -> TransactionCommon;
  kind : XrplTransaction -> TransactionKind;
  TransactionResult : Type;
  TransactionResult_eq_dec :: EqDecision TransactionResult;
  category : TransactionResult -> ResultCategory;
  tefPAST_SEQ : TransactionResult;
  terQUEUED : TransactionResult;
  tesSUCCESS : TransactionResult;
  debug_result : TransactionResult -> string;
  AccountId : Type;
  account_from_address : string -> result AccountId string;
  to_address : AccountId -> string;
  Marker : Type;
  Ticket : Type;
  LedgerObject : Type;
  as_ticket : LedgerObject -> option Ticket;
}.

(** [xrpl_api::SubmitResponse]. *)
Record SubmitResponse `{!XrplLib, !XrplApi} : Type := mkSubmit {
  engine_result : TransactionResult;
  engine_result_message : string;
  tx_json : XrplTransaction;
}.

(** ** Memos *)

Section memos.
Context {C : Codecs}.

(** src/relayer_base/src/utils.rs:82-102 extract_from_xrpl_memo *)
Definition extract_from_xrpl_memo (memos : option (list Memo)) (type : string) : result string string :=
  try? memos := ok_or memos "No memos" in
  let desired_type_hex := to_lowercase (hex_encode type) in
  match List.find (fun m => bool_decide (default "" (to_lowercase <$> memo_type m) = desired_type_hex)) memos with
  | Some memo => ok_or (memo_data memo) "memo_data is missing"
  | None => Err ("No memo with type: " +:+ type)
  end.

(** src/relayer_base/src/utils.rs:104-111 extract_hex_xrpl_memo *)
Definition extract_hex_xrpl_memo (memos : option (list Memo)) (type : string) : result string string :=
  try? hex_str := extract_from_xrpl_memo memos type in
  try? bytes := hex_decode hex_str in
  from_utf8 bytes.

(** src/relayer_base/src/utils.rs:146-154 extract_and_decode_memo *)
Definition extract_and_decode_memo (memos : option (list Memo)) (type : string) : result string string :=
  try? hex_str := extract_from_xrpl_memo memos type in
  try? bytes := rmap_err (fun _ => "Failed to hex-decode memo " +:+ hex_str) (hex_decode hex_str) in
  rmap_err (fun _ => "Invalid UTF-8 in memo " +:+ hex_str) (from_utf8 bytes).
End memos.

(** ** The client *)

(** The requests of [xrpl_http_client::Client]: submitting a blob, looking a transaction up, a
    page of an account's transactions, an account's objects. *)
Class XrplHttp `{!XrplLib, !XrplApi} (W : Type) : Type := {
  http_submit : string -> M W (result SubmitResponse XrplError);
  http_tx : string -> M W (result XrplTransaction XrplError);
  http_account_tx : string -> string -> string -> option Marker ->
    M W (result (list XrplTransaction * option Marker) XrplError);
  http_account_objects : string -> M W (result (list LedgerObject) XrplError);
}.

(** [tokio::time::sleep], in milliseconds. *)
Class Delay (W : Type) : Type := { delay : Z -> M W unit }.

(** src/xrpl/src/client.rs:18-43 XRPLClientTrait *)
Class XRPLClientTrait `{!XrplLib, !XrplApi} (W : Type) : Type := {
  call_submit : string -> M W (result SubmitResponse XrplError);
  call_tx : string -> M W (result XrplTransaction XrplError);
  get_transaction_by_id : string -> M W (result XrplTransaction string);
  get_transactions_for_account : AccountId -> Z -> M W (result (list XrplTransaction) string);
  get_available_tickets_for_account : AccountId -> M W (result (list Ticket) string);
}.

Section client.
Context {XL : XrplLib} {XA : XrplApi} {W : Type} {H : XrplHttp W} {D : Delay W}.
Variable max_retries : nat.

(** The loop of [call], with the retries that are left. *)
Fixpoint call_loop {A} (budget : nat) (wait : Z) (request : M W (result A XrplError)) : M W (result A XrplError) :=
  let! r := request in
  match r with
  | Ok response => ret (Ok response)
  | Err e =>
      match budget with
      | O => ret (Err e)
      | S budget =>
          let! _s := delay wait in
          call_loop budget (wait * 2) request
      end
  end.

(** src/xrpl/src/client.rs:76-107 XRPLClient::call *)
Definition call {A} (request : M W (result A XrplError)) : M W (result A XrplError) :=
  call_loop max_retries 500 request.

(** src/xrpl/src/client.rs:109-114 XRPLClient::get_transaction_by_id *)
Definition xrpl_get_transaction_by_id (tx_id : string) : M W (result XrplTransaction string) :=
  map_err (fun e => "Error getting txs: " +:+ show_XrplError e) (call (http_tx tx_id)).

(** The loop over the pages. *)
Fixpoint pages (fuel : nat) (account min : string) (marker : option Marker) (all : list XrplTransaction) :
  M W (result (list XrplTransaction) string) :=
  match fuel with
  | O => panic "out of fuel"
  | S fuel =>
      let? page := map_err (fun e => "Error getting txs: " +:+ show_XrplError e)
        (call (http_account_tx account min "-1" marker)) in
      let all := all ++ fst page in
      match snd page with
      | None => ret (Ok all)
      | Some marker => pages fuel account min (Some marker) all
      end
  end.

(** src/xrpl/src/client.rs:116-153 XRPLClient::get_transactions_for_account *)
Definition xrpl_get_transactions_for_account (fuel : nat) (account : AccountId) (ledger_index_min : Z) :
  M W (result (list XrplTransaction) string) :=
  pages fuel (to_address account) (print_u64 ledger_index_min) None [].

(** src/xrpl/src/client.rs:155-185 XRPLClient::get_available_tickets_for_account *)
Definition xrpl_get_available_tickets (account : AccountId) : M W (result (list Ticket) string) :=
  let? objects := map_err (fun e => "Error getting tickets: " +:+ show_XrplError e)
    (call (http_account_objects (to_address account))) in
  ret (Ok (omap as_ticket objects)).

(** src/xrpl/src/client.rs:69-186 impl XRPLClientTrait for XRPLClient *)
Definition XRPLClient (fuel : nat) : XRPLClientTrait W := {|
  call_submit := fun blob => call (http_submit blob);
  call_tx := fun tx_id => call (http_tx tx_id);
  get_transaction_by_id := xrpl_get_transaction_by_id;
  get_transactions_for_account := xrpl_get_transactions_for_account fuel;
  get_available_tickets_for_account := xrpl_get_available_tickets;
|}.

(** A number of failed attempts, each followed by its pause. *)
Inductive failures {A} (request : M W (result A XrplError)) : nat -> Z -> W -> W -> Prop :=
| no_failure wait w : failures request 0 wait w w
| one_failure n wait w w1 w2 w3 e :
    request w = (Done (Err e), w1) -> delay wait w1 = (Done tt, w2) ->
    failures request n (wait * 2) w2 w3 -> failures request (S n) wait w w3.

Lemma call_loop_spec {A} (request : M W (result A XrplError)) budget wait w r w' :
  call_loop budget wait request w = (Done r, w') ->
  exists n w1, (n <= budget)%nat /\ failures request n wait w w1 /\ request w1 = (Done r, w') /\
    (forall e, r = Err e -> n = budget).
Proof.
  revert wait w. induction budget as [|budget IH]; intros wait w; cbn [call_loop]; rewrite bind_run;
    destruct (request w) as [[[a|e]|why] w1] eqn:Er; try done.
  - intros [= <- <-]. exists 0%nat, w. split; [lia|]. split; [constructor|]. done.
  - intros [= <- <-]. exists 0%nat, w. split; [lia|]. split; [constructor|]. done.
  - intros [= <- <-]. exists 0%nat, w. split; [lia|]. split; [constructor|]. split; [done|]. by intros e [=].
  - rewrite bind_run. destruct (delay wait w1) as [[[]|why] w2] eqn:Ed; [|done].
    intros H'. destruct (IH _ _ H') as (n & w3 & Hn & Hf & Hr & He). exists (S n), w3.
    split; [lia|]. split; [by econstructor|]. split; [done|]. intros e' He'. by rewrite (He e' He').
Qed.
End client.

(** ** The poller *)

Section subscriber.
Context {XL : XrplLib} {L : TonLib} {XA : XrplApi} {CC : CrossChain} {DL : DecimalLib} {W : Type} {DB : Database W}
  {CL : XRPLClientTrait W}.

(** src/xrpl/src/subscriber.rs:14-19 XrplSubscriber *)
Record XrplSubscriber : Type := mkXrplSubscriber { latest_ledger : Z; xrpl_context : string }.

(** src/xrpl/src/subscriber.rs:22-41 XrplSubscriber::new *)
Definition xrpl_subscriber_new (context : string) : M W (result XrplSubscriber SubscriberError) :=
  let? latest_ledger := map_err SubGenericError (get_latest_height "xrpl" context) in
  ret (Ok (mkXrplSubscriber (default (-1) latest_ledger) context)).

(** src/xrpl/src/subscriber.rs:44-49 XrplSubscriber::store_latest_ledger *)
Definition store_latest_ledger (self : XrplSubscriber) : M W (result unit string) :=
  map_err (fun e => "Error storing latest ledger: " +:+ e)
    (store_latest_height "xrpl" (xrpl_context self) (latest_ledger self)).

(** [iter().max()]. *)
Fixpoint max_ledger (txs : list XrplTransaction) : option Z :=
  match txs with
  | [] => None
  | tx :: txs =>
      let x := default 0 (ledger_index (common tx)) in
      Some (match max_ledger txs with Some y => Z.max x y | None => x end)
  end.

(** src/xrpl/src/subscriber.rs:69-91 XrplSubscriber::poll_account *)
Definition xrpl_poll_account (self : XrplSubscriber) (account_id : AccountId) :
  M W (XrplSubscriber * result (list XrplTransaction) string) :=
  let! r := get_transactions_for_account account_id (wrap_u32 (latest_ledger self + 1)) in
  match r with
  | Err e => ret (self, Err e)
  | Ok transactions =>
      match max_ledger transactions with
      | Some max_response_ledger =>
          let self := mkXrplSubscriber max_response_ledger (xrpl_context self) in
          let! _s := store_latest_ledger self in
          ret (self, Ok transactions)
      | None => ret (self, Ok transactions)
      end
  end.

(** src/xrpl/src/subscriber.rs:94-101 XrplSubscriber::poll_tx *)
Definition xrpl_poll_tx (self : XrplSubscriber) (tx_hash : string) :
  M W (XrplSubscriber * result XrplTransaction string) :=
  let! res := call_tx tx_hash in
  ret (self, rmap_err (fun e => "Error getting tx: " +:+ show_XrplError e) res).

(** src/xrpl/src/subscriber.rs:52-102 impl TransactionPoller for XrplSubscriber *)
#[export] Instance XrplPoller : TransactionPoller XrplTransaction AccountId XrplSubscriber W := {|
  make_queue_item := fun _ tx => Xrpl tx;
  transaction_id := fun _ tx => tx_hash_field (common tx);
  account_id := fun _ account => Some (to_address account);
  poll_account := xrpl_poll_account;
  poll_tx := xrpl_poll_tx;
|}.

Lemma max_ledger_spec txs m : max_ledger txs = Some m ->
  (forall tx, tx ∈ txs -> default 0 (ledger_index (common tx)) <= m) /\
  (exists tx, tx ∈ txs /\ default 0 (ledger_index (common tx)) = m).
Proof.
  revert m. induction txs as [|tx txs IH]; intros m; simpl; [done|]. destruct (max_ledger txs) as [y|] eqn:Ey.
  - intros [= <-]. destruct (IH y eq_refl) as [Hall (t & Ht & Hy)]. split.
    + intros t' [->|Hin]%elem_of_cons; [lia|]. specialize (Hall t' Hin). lia.
    + destruct (Z.max_spec (default 0 (ledger_index (common tx))) y) as [[_ ->]|[_ ->]].
      * exists t. split; [by right|done].
      * exists tx. split; [by left|done].
  - intros [= <-]. destruct txs as [|t txs]; [|simpl in Ey; by destruct (max_ledger txs)].
    split; [by intros t ->%list_elem_of_singleton|]. exists tx. split; [by left|done].
Qed.
End subscriber.

(** ** Concrete instances *)

Module XrplDemo.
#[export] Instance xrpl : XrplLib := {| XrplTransaction := TransactionKind * TransactionCommon |}.
#[export] Instance xrpl_api : XrplApi.
Proof.
  refine {| common := snd; kind := fst; TransactionResult := string * ResultCategory; category := snd;
    tefPAST_SEQ := ("tefPAST_SEQ", Tef); terQUEUED := ("terQUEUED", Ter); tesSUCCESS := ("tesSUCCESS", Tes);
    debug_result := fst; AccountId := string; account_from_address := Ok; to_address := fun a => a;
    Marker := nat; Ticket := nat; LedgerObject := nat; as_ticket := Some |}.
Defined.
(** A ledger: the transactions it knows, and the answer to what is submitted. *)
Record Ledger : Type := mkLedger { known : list (string * XrplTransaction); answer : SubmitResponse }.
Definition find_tx (h : string) (l : Ledger) : result XrplTransaction XrplError :=
  match List.find (fun p => bool_decide (fst p = h)) (known l) with
  | Some (_, tx) => Ok tx
  | None => Err (XApi "txnNotFound")
  end.
#[export] Instance ledger : XRPLClientTrait Ledger := {|
  call_submit := fun _ l => (Done (Ok (answer l)), l);
  call_tx := fun h l => (Done (find_tx h l), l);
  get_transaction_by_id := fun h l => (Done (rmap_err show_XrplError (find_tx h l)), l);
  get_transactions_for_account := fun _ _ l => (Done (Ok (map snd (known l))), l);
  get_available_tickets_for_account := fun _ l => (Done (Ok []), l);
|}.
Definition tx_with (k : TransactionKind) (h : string) (ms : list Memo) (valid : option bool) : XrplTransaction :=
  (k, mkCommon "rMulti" 7 (Some h) (Some ms) (Some 50) valid None).
Definition empty_ledger : Ledger := mkLedger [] (mkSubmit _ _ ("tesSUCCESS", Tes) "ok" (tx_with KOther "h" [] None)).
End XrplDemo.
