(* ===== verification/XrplPipeline.v ===== *)
(** * From the ledger to the GMP API

    The transactions of the multisig account, which the XRPL subscriber asks
    the ledger for, the queue it publishes them on, and the ingestor's tasks
    at the other end, put together: [subscriber.rs], [xrpl/src/subscriber.rs],
    [queue.rs], [queue_consumer.rs], [ingestor.rs] and [ingestor_worker.rs]
    around the queue of events.  The chain's part of the ingestor is used
    through its trait. *)

From S2P Require Import Prelude.
From S2P Require Import Store.
From S2P Require Import GmpTypes.
From S2P Require Import GmpApi.
From S2P Require Import GmpAudit.
From S2P Require Import Database.
From S2P Require Import Decimal.
From S2P Require Import Logging.
From S2P Require Import Queue.
From S2P Require Import QueueService.
From S2P Require Import Includer.
From S2P Require Import QueueConsumer.
From S2P Require Import Pipeline.
From S2P Require Import TonLib.
From S2P Require Import TonTypes.
From S2P Require Import TonTrace.
From S2P Require Import Subscriber.
From S2P Require Import Ingestor.
From S2P Require Import TracePipeline.
From S2P Require Import Xrpl.

(** ** The subscriber and the ledger *)

Section ledger.
Context {XL : XrplLib} {L : TonLib} {XA : XrplApi} {CC : CrossChain} {DL : DecimalLib} {X : Type} {CL : XRPLClientTrait X}.
Abbreviation W := (SubWorld X).

#[export] Instance sub_xrpl : XRPLClientTrait W := {|
  call_submit := fun blob => via_client (call_submit blob);
  call_tx := fun tx_id => via_client (call_tx tx_id);
  get_transaction_by_id := fun tx_id => via_client (get_transaction_by_id tx_id);
  get_transactions_for_account := fun account min => via_client (get_transactions_for_account account min);
  get_available_tickets_for_account := fun account => via_client (get_available_tickets_for_account account);
|}.

Definition index (tx : XrplTransaction) : Z := default 0 (ledger_index (common tx)).
Definition after (cursor : Z) (h : list XrplTransaction) : list XrplTransaction := filter (fun tx => cursor < index tx) h.
Definition followed (self : XrplSubscriber) (txs : list XrplTransaction) : XrplSubscriber :=
  match max_ledger txs with Some m => mkXrplSubscriber m (xrpl_context self) | None => self end.

(** What the ledger answers to the polls: an error, or the transactions of
    the account's history that are not below the index it was asked for. *)
Fixpoint ledger_answers (self : XrplSubscriber) (account : AccountId) (x : X) (rounds : list (option (list XrplTransaction))) : Prop :=
  match rounds with
  | [] => True
  | Some h :: rounds => exists x',
      get_transactions_for_account account (wrap_u32 (latest_ledger self + 1)) x =
        (Done (Ok (filter (fun tx => wrap_u32 (latest_ledger self + 1) <= index tx) h)), x') /\
      ledger_answers (followed self (after (latest_ledger self) h)) account x' rounds
  | None :: rounds => exists e x',
      get_transactions_for_account account (wrap_u32 (latest_ledger self + 1)) x = (Done (Err e), x') /\
      ledger_answers self account x' rounds
  end.

(** The history only grows, and what is new is in later ledgers. *)
Fixpoint growing (h : list XrplTransaction) (rounds : list (option (list XrplTransaction))) : Prop :=
  match rounds with
  | [] => True
  | Some h' :: rounds =>
      (exists new, h' = h ++ new /\ forall old tx, old ∈ h -> tx ∈ new -> index old < index tx) /\ growing h' rounds
  | None :: rounds => growing h rounds
  end.

Fixpoint last_history (h : list XrplTransaction) (rounds : list (option (list XrplTransaction))) : list XrplTransaction :=
  match rounds with
  | [] => h
  | Some h' :: rounds => last_history h' rounds
  | None :: rounds => last_history h rounds
  end.

Definition on_ledger (tx : XrplTransaction) : Prop := 0 <= index tx < 2 ^ 32 - 1.

Lemma growing_last rounds h : growing h rounds -> forall tx, tx ∈ h -> tx ∈ last_history h rounds.
Proof.
  revert h. induction rounds as [|[h'|] rounds IH]; intros h; simpl; [done| |apply IH].
  intros [(new & -> & _) Hg] tx Hin. apply IH; [done|]. apply elem_of_app. by left.
Qed.

Lemma followed_max self txs : let self' := followed self txs in
  (forall tx, tx ∈ txs -> index tx <= latest_ledger self') /\
  (txs = [] /\ self' = self \/ exists tx, tx ∈ txs /\ latest_ledger self' = index tx).
Proof.
  cbv zeta. unfold followed. destruct (max_ledger txs) as [m|] eqn:Em.
  - destruct (max_ledger_spec txs m Em) as [Hall (tx & Hin & Hm)]. split; [exact Hall|]. right. by exists tx.
  - destruct txs as [|tx txs]; [|simpl in Em; by destruct (max_ledger txs)]. split; [by intros tx ?%not_elem_of_nil|by left].
Qed.

Lemma store_ledger_run (self : XrplSubscriber) (w : W) :
  exists r d, store_latest_ledger self w = (Done r, mkSub (sub_traces w) d (sub_client w) (sub_published w)).
Proof.
  unfold store_latest_ledger. rewrite map_err_run. simpl. unfold via_db, pg_store_latest_height, sql_exec.
  destruct (sql_cases (fun (_ : Z) (t : DbTables) => (tt, set_subscriber_cursors
    (insert ("xrpl", xrpl_context self) (latest_ledger self)) t)) (sub_db w)) as [[e ->] | ->]; eauto.
Qed.

(** One round: what the ledger answered is published. *)
Lemma xrpl_work_run (self : XrplSubscriber) account (w : W) r x :
  get_transactions_for_account account (wrap_u32 (latest_ledger self + 1)) (sub_client w) = (Done r, x) ->
  let txs := match r with Ok txs => txs | Err _ => [] end in
  exists d s, subscriber_work (TP := XrplPoller) self account w =
    (Done (followed self txs), mkSub s d x (sub_published w ++ map Xrpl txs)).
Proof.
  intros Ha. unfold subscriber_work. simpl poll_account. unfold xrpl_poll_account. rewrite bind_run, bind_run.
  cbn [get_transactions_for_account sub_xrpl]. unfold via_client. rewrite Ha. destruct r as [txs|e].
  - unfold followed. destruct (max_ledger txs) as [m|].
    + destruct (store_ledger_run (mkXrplSubscriber m (xrpl_context self)) (mkSub (sub_traces w) (sub_db w) x (sub_published w)))
        as (r & d & E). rewrite bind_run, E. cbn [ret snd fst]. rewrite bind_run, publish_all_run. eauto.
    + cbn [ret snd fst]. rewrite bind_run, publish_all_run. eauto.
  - cbn [ret snd fst map]. rewrite bind_run. cbn. rewrite app_nil_r. eauto.
Qed.

(** The cursor is the last ledger of what was published, or where it began. *)
Record follows (c0 : Z) (h : list XrplTransaction) (self : XrplSubscriber) : Prop := {
  fol_range : -1 <= c0 <= latest_ledger self;
  fol_bound : latest_ledger self < 2 ^ 32 - 1;
  fol_seen : forall tx, tx ∈ h -> index tx <= latest_ledger self;
  fol_at : latest_ledger self = c0 \/ exists tx, tx ∈ h /\ latest_ledger self = index tx;
}.

Lemma asked_after (self : XrplSubscriber) h : -1 <= latest_ledger self < 2 ^ 32 - 1 ->
  filter (fun tx => wrap_u32 (latest_ledger self + 1) <= index tx) h = after (latest_ledger self) h.
Proof.
  intros Hl. unfold after. unfold wrap_u32. rewrite (wrap_small 32 (latest_ledger self + 1)) by lia.
  apply list_filter_iff. intros tx. lia.
Qed.

(** A poll asks for what is new, and for nothing else. *)
Lemma after_new c0 h new self : follows c0 h self -> (forall old tx, old ∈ h -> tx ∈ new -> index old < index tx) ->
  after (latest_ledger self) (h ++ new) = after c0 new.
Proof.
  intros Hf Hnew. unfold after. rewrite list_basics.list.filter_app.
  rewrite (filter_none (fun tx => latest_ledger self < index tx) h) by (apply Forall_forall; intros tx Hin; pose proof (fol_seen _ _ _ Hf tx Hin); lia).
  simpl. destruct (fol_at _ _ _ Hf) as [->|(tx & Hin & Htx)]; [done|].
  rewrite !filter_all; [done| |]; apply Forall_forall.
  - intros tx' Hin'. specialize (Hnew tx tx' Hin Hin'). pose proof (fol_range _ _ _ Hf). lia.
  - intros tx' Hin'. specialize (Hnew tx tx' Hin Hin'). lia.
Qed.

Lemma follows_next c0 h new self : follows c0 h self -> (forall old tx, old ∈ h -> tx ∈ new -> index old < index tx) ->
  (forall tx, tx ∈ h ++ new -> on_ledger tx) ->
  follows c0 (h ++ new) (followed self (after c0 new)).
Proof.
  intros Hf Hnew Hon. destruct (followed_max self (after c0 new)) as [Hmax Hat].
  assert (Hge : latest_ledger self <= latest_ledger (followed self (after c0 new))).
  { destruct Hat as [[_ ->]|(tx & Hin & ->)]; [lia|]. apply list_elem_of_filter in Hin as [Hc Hin].
    destruct (fol_at _ _ _ Hf) as [->|(old & Ho & ->)]; [lia|]. specialize (Hnew old tx Ho Hin). lia. }
  pose proof Hf as [Hr Hb Hs Ha]. split.
  - lia.
  - destruct Hat as [[_ ->]|(tx & Hin & ->)]; [done|]. apply list_elem_of_filter in Hin as [_ Hin].
    apply (Hon tx). apply elem_of_app. by right.
  - intros tx [Hin|Hin]%elem_of_app; [specialize (Hs tx Hin); lia|].
    destruct (decide (c0 < index tx)) as [Hc|]; [|lia]. apply Hmax, list_elem_of_filter. done.
  - destruct Hat as [[_ ->]|(tx & Hin & ->)].
    + destruct Ha as [Ha|(tx & Hin & Htx)]; [by left|right]. exists tx. split; [apply elem_of_app; by left|done].
    + right. apply list_elem_of_filter in Hin as [_ Hin]. exists tx. split; [apply elem_of_app; by right|done].
Qed.

Lemma ledger_rounds account c0 rounds : forall h self (w : W),
  growing h rounds -> ledger_answers self account (sub_client w) rounds ->
  (forall tx, tx ∈ last_history h rounds -> on_ledger tx) -> follows c0 h self ->
  sub_published w = map Xrpl (after c0 h) ->
  exists self' w', subscriber_run (TP := XrplPoller) (length rounds) self account w = (Done self', w') /\
    sub_published w' = map Xrpl (after c0 (last_history h rounds)).
Proof.
  induction rounds as [|r rounds IH]; intros h self w Hg Ha Hon Hf Hp; [by exists self, w|]. simpl length. cbn [subscriber_run].
  destruct r as [h'|].
  - destruct Hg as [(new & -> & Hnew) Hg]. destruct Ha as (x & Ha & Hrest).
    rewrite asked_after in Ha by (destruct Hf; lia). rewrite (after_new c0 h new self Hf Hnew) in Ha, Hrest.
    destruct (xrpl_work_run self account w _ x Ha) as (d & s & E). rewrite bind_run, E. cbn [last_history] in *.
    apply (IH (h ++ new)); [done|exact Hrest|done| |].
    + apply follows_next; [done|done|]. intros tx Hin. apply Hon. by apply growing_last.
    + cbn [sub_published]. rewrite Hp, <- map_app. unfold after. by rewrite list_basics.list.filter_app.
  - destruct Ha as (e & x & Ha & Hrest). destruct (xrpl_work_run self account w _ x Ha) as (d & s & E).
    rewrite bind_run, E. cbn [last_history growing followed max_ledger] in *.
    apply (IH h); [done|exact Hrest|done|done|]. cbn [sub_published map]. by rewrite app_nil_r.
Qed.
End ledger.

(** ** A crash between the poll and its publications *)

Section crash.
Context {XL : XrplLib} {L : TonLib} {XA : XrplApi} {CC : CrossChain} {DL : DecimalLib} {X : Type} {CL : XRPLClientTrait X}.

(** The cursor is stored by the poll.  A process that dies before it has
    published the batch starts again after it: nothing of it is asked for. *)
Lemma crash_loses_batch (self : XrplSubscriber) (account : AccountId) (w : SubWorld X) (txs : list XrplTransaction) (m : Z) (x : X) :
  faults (sub_db w) = [] -> max_ledger txs = Some m ->
  get_transactions_for_account account (wrap_u32 (latest_ledger self + 1)) (sub_client w) = (Done (Ok txs), x) ->
  exists w' w'', xrpl_poll_account self account w = (Done (mkXrplSubscriber m (xrpl_context self), Ok txs), w') /\
    sub_published w' = sub_published w /\
    xrpl_subscriber_new (xrpl_context self) w' = (Done (Ok (mkXrplSubscriber m (xrpl_context self))), w'') /\
    after m txs = [].
Proof.
  intros Hf Hm Ha. unfold xrpl_poll_account. rewrite bind_run. cbn [get_transactions_for_account sub_xrpl]. unfold via_client.
  rewrite Ha, Hm, bind_run. unfold store_latest_ledger. rewrite map_err_run. cbn [store_latest_height sub_database].
  unfold via_db, pg_store_latest_height, sql_exec, sql, next_fault. cbn [sub_db]. rewrite Hf.
  eexists _, _. split; [reflexivity|]. split; [reflexivity|]. split.
  - unfold xrpl_subscriber_new. rewrite bind_ok_run, map_err_run. cbn [get_latest_height sub_database].
    unfold via_db, pg_get_latest_height, sql_query, sql, next_fault. cbn. by rewrite lookup_insert_eq.
  - apply filter_none, Forall_forall. intros tx Hin. destruct (max_ledger_spec txs m Hm) as [Hall _]. specialize (Hall tx Hin). unfold index. lia.
Qed.
End crash.

(** ** Where a transaction is *)

Section pipeline.
Context {XL : XrplLib} {L : TonLib} {XA : XrplApi} {CC : CrossChain} {DL : DecimalLib} {X : Type} {CL : XRPLClientTrait X}.
Context {W : Type} {IC : ItemCodec ChainTransaction} {AM : Amqp W} {AL : AmqpLaws W} {TI : Timer W} {P : Propagator}.
Abbreviation Q := (Queue ChainTransaction W).
Abbreviation C := (Consumer ChainTransaction W IngestorError).
Context {XM : XrplMessages} {API : GmpApiTrait Q} {LC : LoggingCtxCache Q} {IN : IngestorTrait Q}.
Hypothesis posts_elsewhere : forall events, preserves queue_view (post_events (W := Q) events).
Hypothesis caches_elsewhere : forall ids ctx, preserves queue_view (get_or_insert (W := Q) ids ctx).
Hypothesis handles_elsewhere : forall tx, preserves queue_view (handle_transaction (W := Q) tx).
Hypothesis tasks_elsewhere : forall task, preserves queue_view (consume_task (W := Q) task).
Variable current_span : Ctx.
Variable list_ids : gset string -> list string.
Variable url : string.
Variable num_workers : nat.
Hypothesis ack_clean : forall tag (w : W) e w', basic_ack tag w = (Done (Err e), w') -> acked w' = acked w.
Hypothesis connect_quiet : forall fuel (q : Q),
  quiet q (snd (on_broker (connect ACCOUNT_QUEUE fuel url (Z.of_nat num_workers)) q)).
Variable carries : Z -> nat.
Abbreviation xrpl_ingest := (ingest_body current_span list_ids).

(** C6: from the ledger to the GMP API.  Take any number of rounds of the XRPL
    subscriber, with polls that fail in between, of an account whose history
    only grows, by transactions of later ledgers.  The transactions it
    publishes are those of the history after the cursor it began with, all of
    them, once each and in order.  And, around the queue it publishes to, take
    any interleaving of its publications with the buffer's processor, the
    broker's deliveries and redeliveries, broken connections, and the handlers
    and the answers of the ingestor at the other end; the broker and the GMP
    API may refuse any call.  Then each of those transactions is in one of
    three places until the queue is closed: in the buffer; in a message of the
    queue, its retry queue or its dead-letter queue that was not acknowledged;
    or a task of this very run handled it, made its events of it and, unless
    there are none, posted them in one request as the last thing it did, and
    the GMP API took them and asked for none of them again. *)
Theorem transaction_accounted (self : XrplSubscriber) (account : AccountId)
    (rounds : list (option (list XrplTransaction))) (w : SubWorld X) :
  -1 <= latest_ledger self < 2 ^ 32 - 1 -> growing [] rounds -> ledger_answers self account (sub_client w) rounds ->
  (forall tx, tx ∈ last_history [] rounds -> on_ledger tx) -> sub_published w = [] ->
  exists self' w', subscriber_run (TP := XrplPoller) (length rounds) self account w = (Done self', w') /\
    sub_published w' = map Xrpl (after (latest_ledger self) (last_history [] rounds)) /\
    forall (q : Q) (n : nat) (es : list (event ChainTransaction)) (c : C),
      receiver_open q = true -> acked (broker q) = [] -> Others MDrop ∉ es ->
      (forall x, x ∈ sub_published w' -> Others (MPublish (QTransaction x)) ∈ es) ->
      genuine ACCOUNT_QUEUE url num_workers ingestor_irrelevant xrpl_ingest carries es (consumer_new q n) ->
      work_run ACCOUNT_QUEUE url num_workers ingestor_irrelevant xrpl_ingest es (consumer_new q n) = Some c ->
      forall tx, tx ∈ last_history [] rounds -> latest_ledger self < index tx -> readable (QTransaction (Xrpl tx)) ->
        QTransaction (Xrpl tx) ∈ buffer (shared c) \/ kept ACCOUNT_QUEUE carries c (QTransaction (Xrpl tx)) \/
        ingested_in current_span list_ids url num_workers es (consumer_new q n) (Xrpl tx).
Proof.
  intros Hl Hg Ha Hon Hp.
  destruct (ledger_rounds account (latest_ledger self) rounds [] self w Hg Ha Hon) as (self' & w' & E & Hout);
    [split; [lia|lia|by intros tx ?%not_elem_of_nil|by left]|by rewrite Hp|].
  exists self', w'. split; [exact E|]. split; [exact Hout|]. intros q n es c Ho Hack Hd Hpub Hgen Hr tx Hin Hnew Hread.
  apply (published_accounted posts_elsewhere caches_elsewhere handles_elsewhere tasks_elsewhere current_span list_ids url num_workers
    ack_clean connect_quiet carries q n es c (Xrpl tx)); [done..| |done].
  apply Hpub. rewrite Hout. apply list_elem_of_fmap. exists tx. split; [done|]. by apply list_elem_of_filter.
Qed.
End pipeline.

(** ** A concrete run *)

Module XrplPipelineDemo.
Export XrplDemo.
#[export] Existing Instance QueueDemo.propagator.
#[export] Existing Instance AuditDemo.messages.
#[export] Existing Instance SubscriberDemo.ton.
(** A transaction is written as its hash, and is of ledger 50 or 51. *)
Definition payment (hash : string) (ledger : Z) : XrplTransaction :=
  (KPayment, mkCommon "rMulti" 7 (Some hash) None (Some ledger) None None).
#[export] Instance hash_codec : ItemCodec ChainTransaction := {|
  to_vec := fun i => match i with QTransaction (Xrpl tx) => Ok (default "" (tx_hash_field (common tx))) | _ => Err "not encodable" end;
  from_slice := fun s => Ok (QTransaction (Xrpl (payment s (if bool_decide (s = "c") then 51 else 50))));
|}.
(** A ledger that answers the polls with what is left of these histories. *)
Definition Script : Type := list (option (list XrplTransaction)).
#[export] Instance script_client : XRPLClientTrait Script := {|
  call_submit := fun _ => ret (Err (XOther "offline"));
  call_tx := fun _ => ret (Err (XOther "offline"));
  get_transaction_by_id := fun _ => ret (Err "offline");
  get_transactions_for_account := fun _ min x =>
    (Done (match x with Some h :: _ => Ok (filter (fun tx => min <= index tx) h) | _ => Err "timeout" end), tail x);
  get_available_tickets_for_account := fun _ => ret (Ok []);
|}.
Abbreviation DQ := (Queue ChainTransaction MemBroker).
#[export] Instance demo_api : GmpApiTrait DQ := {|
  get_chain := "xrpl"; get_tasks_action := fun _ => ret (Ok []);
  post_events := fun es => ret (Ok (map (fun _ => mkPostResult "ACCEPTED" 0 None None) es));
  post_broadcast := fun _ _ => ret (Ok "h"); get_broadcast_result := fun _ _ => ret (Ok "h");
  post_query := fun _ _ => ret (Ok "q"); post_payload := fun _ => ret (Ok "p"); get_payload := fun _ => ret (Ok "p");
  cannot_execute_message := fun _ _ _ _ _ => ret (Ok tt); its_interchain_transfer := fun _ => ret (Ok tt);
  map_cannot_execute_message_to_event := fun _ _ _ _ _ => Panic "none";
|}.
#[export] Instance demo_log : LoggingCtxCache DQ := {| get_or_insert := fun _ _ => ret None |}.
#[export] Instance demo_chain : IngestorTrait DQ := {|
  handle_verify := fun _ => ret (Ok tt); handle_transaction := fun _ => ret (Ok [IngestorDemo.credit]);
  handle_wasm_event := fun _ => ret (Ok tt); handle_construct_proof := fun _ => ret (Ok tt);
  handle_retriable_task := fun _ => ret (Ok tt);
|}.
Definition demo_span : Ctx := ∅.
Definition events_of : string -> M DQ (result unit IngestorError) := ingest_body demo_span elements.
Definition item (tx : XrplTransaction) : QueueItem ChainTransaction := QTransaction (Xrpl tx).
Definition events_queue : DQ := mkQueue (QueueDemo.idle []) [] true false.
Definition histories : Script :=
  [Some [payment "a" 50; payment "b" 50]; None; Some [payment "a" 50; payment "b" 50; payment "c" 51]].
Definition poller : XrplSubscriber := mkXrplSubscriber (-1) "default".
Definition multisig : AccountId := ("rMulti" : string).
Definition before : SubWorld Script := mkSub (mkStore ∅ 0 []) DbDemo.empty histories [].
(** The first transaction is ingested, the others still wait. *)
Definition day : list (QueueConsumer.event ChainTransaction) :=
  [Others (MPublish (item (payment "a" 50))); Others (MPublish (item (payment "b" 50))); Others MProcess;
   Arrive (Ok (PipelineDemo.parcel 1 "a")); NextMessage; RunHandler 0; SettleDelivery 0;
   Others (MPublish (item (payment "c" 51)))].
Abbreviation pass_day := (work_run (IC := hash_codec) ACCOUNT_QUEUE "amqp://" 2 ingestor_irrelevant events_of).
Definition evening : Consumer ChainTransaction MemBroker IngestorError :=
  default (consumer_new events_queue 0) (pass_day day (consumer_new events_queue 0)).

Lemma demo_tasks task : preserves queue_view (consume_task (W := DQ) task).
Proof. by destruct task. Qed.

Lemma xrpl_day_genuine :
  genuine (IC := hash_codec) ACCOUNT_QUEUE "amqp://" 2 ingestor_irrelevant events_of PipelineDemo.carries day (consumer_new events_queue 0).
Proof.
  unfold day. repeat (split; [first [exact I | eexists; split; vm_compute; reflexivity]|];
    intros c Hc; vm_compute in Hc; injection Hc as <-). exact I.
Qed.
End XrplPipelineDemo.
Import DbDemo.
Import XrplPipelineDemo.

Lemma transaction_accounted_witness :
  pass_day day (consumer_new events_queue 0) = Some evening /\
  forall tx, tx ∈ [payment "a" 50; payment "b" 50; payment "c" 51] -> item tx ∈ buffer (shared evening) \/
    kept ACCOUNT_QUEUE PipelineDemo.carries evening (item tx) \/
    ingested_in (API := demo_api) demo_span elements "amqp://" 2 day (consumer_new events_queue 0) (Xrpl tx).
Proof.
  split; [vm_compute; reflexivity|].
  destruct (transaction_accounted (API := demo_api) (IN := demo_chain) (LC := demo_log) (fun _ _ => eq_refl) (fun _ _ _ => eq_refl) (fun _ _ => eq_refl)
    demo_tasks demo_span elements "amqp://" 2 ConsumerDemo.demo_ack_clean (PipelineDemo.connect_quiet ACCOUNT_QUEUE "amqp://" (Z.of_nat 2))
    PipelineDemo.carries poller multisig histories before) as (self' & w' & _ & Hout & H).
  - done.
  - split; [exists [payment "a" 50; payment "b" 50]; split; [done|by intros old tx ?%not_elem_of_nil]|].
    split; [|done]. exists [payment "c" 51]. split; [done|]. intros old tx Ho ->%list_elem_of_singleton.
    rewrite !elem_of_cons in Ho. by destruct Ho as [->|[->|[]%elem_of_nil]].
  - eexists. split; [reflexivity|]. eexists _, _. split; [reflexivity|]. eexists. split; [reflexivity|done].
  - intros tx Ht. cbn in Ht. rewrite !elem_of_cons in Ht. by destruct Ht as [->|[->|[->|[]%elem_of_nil]]].
  - done.
  - intros tx Ht. apply (H events_queue 0%nat day evening); [reflexivity|reflexivity|apply (PipelineDemo.no_drop day eq_refl)| |apply xrpl_day_genuine|vm_compute; reflexivity|exact Ht| |].
    + replace (map Xrpl (after (latest_ledger poller) (last_history [] histories)))
        with [Xrpl (payment "a" 50); Xrpl (payment "b" 50); Xrpl (payment "c" 51)] in Hout by (vm_compute; reflexivity).
      intros x Hx. rewrite Hout, !elem_of_cons in Hx.
      destruct Hx as [->|[->|[->|[]%elem_of_nil]]]; unfold day; rewrite !elem_of_cons; tauto.
    + rewrite !elem_of_cons in Ht. by destruct Ht as [->|[->|[->|[]%elem_of_nil]]].
    + rewrite !elem_of_cons in Ht. destruct Ht as [->|[->|[->|[]%elem_of_nil]]]; intros b [= <-]; reflexivity.
Defined.
