(* ===== verification/XrplServices.v ===== *)
(** * The services around the XRPL multisig account

    [xrpl/src/ticket_creator.rs] keeps asking the prover for new tickets,
    [xrpl/src/bin/xrpl_ticket_monitor.rs] raises an alarm when few are left,
    and [xrpl/src/funder.rs] tops up the refund wallets of a test network. *)

From S2P Require Import Prelude.
From S2P Require Import Decimal.
From S2P Require Import GmpTypes.
From S2P Require Import Text.
From S2P Require Import Database.
From S2P Require Import TonLib.
From S2P Require Import GmpApi.
From S2P Require Import Subscriber.
From S2P Require Import Config.
From S2P Require Import Xrpl.

(** ** The ticket creator *)

Section creator.
Context {W : Type} {GM : GmpApi.XrplMessages} {API : GmpApiTrait W} {TT : Timer W}.
(** [serde_json::to_value(ExecuteMsg::TicketCreate)]. *)
Variable ticket_create_msg : result Value string.

(** src/xrpl/src/ticket_creator.rs:10-13 XrplTicketCreator *)
Record XrplTicketCreator : Type := mkTicketCreator { creator_config : XRPLConfig }.

(** src/xrpl/src/ticket_creator.rs:23-63 XrplTicketCreator::work *)
Definition creator_work (self : XrplTicketCreator) : M W unit :=
  match ticket_create_msg with
  | Err _ => ret tt
  | Ok msg =>
      let request := BroadcastGeneric msg in
      let! res := post_broadcast (chain_multisig_prover (axelar_contracts (common_config (creator_config self)))) request in
      let sleep_duration := match res with Err _ => 5 | Ok _ => 60 end in
      sleep sleep_duration
  end.

(** src/xrpl/src/ticket_creator.rs:65-70 XrplTicketCreator::run (the loop, [rounds] rounds of it) *)
Fixpoint creator_run (rounds : nat) (self : XrplTicketCreator) : M W unit :=
  match rounds with
  | O => ret tt
  | S rounds => let! _u := creator_work self in creator_run rounds self
  end.
End creator.

(** ** The ticket monitor *)

Section monitor.
Context {XL : XrplLib} {XA : XrplApi} {W : Type} {X : XRPLClientTrait W} {TT : Timer W}.

(** src/xrpl/src/bin/xrpl_ticket_monitor.rs:13-14 THRESHOLD *)
Definition THRESHOLD : Z := 150.

(** src/xrpl/src/bin/xrpl_ticket_monitor.rs:32-59 main (the loop, [rounds] rounds of it; [Err]: the alarm) *)
Fixpoint monitor_tickets (rounds : nat) (account : AccountId) : M W (result unit string) :=
  match rounds with
  | O => ret (Ok tt)
  | S rounds =>
      let! maybe_tickets := get_available_tickets_for_account account in
      match maybe_tickets with
      | Ok tickets =>
          let ticket_count := wrap 8 (Z.of_nat (length tickets)) in
          if ticket_count <? THRESHOLD then ret (Err "Tickets are bellow threshold")
          else let! _s := sleep 5 in monitor_tickets rounds account
      | Err _ => let! _s := sleep 5 in monitor_tickets rounds account
      end
  end.
End monitor.

(** ** The funder *)

(** The faucet, and the look-up of an account's balance in drops. *)
Class Faucet (W : Type) : Type := {
  faucet_post : string -> Value -> M W (result (result Value string) string);
  account_balance : string -> M W (result (option Z) XrplError);
}.

Section funder.
Context {W : Type} {F : Faucet W} {TT : Timer W}.

(** src/xrpl/src/funder.rs:7-7 XRP_TOPUP_AMOUNT *)
Definition XRP_TOPUP_AMOUNT : Z := 100.
(** src/xrpl/src/funder.rs:8-8 BALANCE_THRESHOLD *)
Definition BALANCE_THRESHOLD : Z := 100000000.

(** src/xrpl/src/funder.rs:26-51 XRPLFunder::top_up_account *)
Definition top_up_account (config : XRPLConfig) (address : string) (amount : Z) : M W (result string string) :=
  let req := VObject [("destination", VString address); ("xrpAmount", VString (print_u64 amount))] in
  let! resp := faucet_post (xrpl_faucet_url config) req in
  ret (match resp with
       | Ok body =>
           try? result := body in
           match value_get result "transactionHash" with
           | Some v => ok_or (as_str v) "transactionHash not found"
           | None => Err "transactionHash not found"
           end
       | Err e => Err ("Error topping up account: " +:+ e)
       end).

(** src/xrpl/src/funder.rs:55-85 XRPLFunder::run (one address) *)
Definition fund_one (config : XRPLConfig) (address : string) : M W unit :=
  let! request_result := account_balance address in
  match request_result with
  | Ok (Some drops) =>
      (* [size] is the number of drops as a float, exact below the threshold *)
      if drops <? BALANCE_THRESHOLD then
        let! _r := top_up_account config address XRP_TOPUP_AMOUNT in ret tt
      else ret tt
  | _ => ret tt
  end.

Fixpoint fund_all (config : XRPLConfig) (addresses : list string) : M W unit :=
  match addresses with
  | [] => ret tt
  | address :: addresses => let! _u := fund_one config address in fund_all config addresses
  end.

(** src/xrpl/src/funder.rs:53-88 XRPLFunder::run (the loop, [rounds] rounds of it) *)
Fixpoint funder_run (rounds : nat) (config : XRPLConfig) : M W unit :=
  match rounds with
  | O => ret tt
  | S rounds =>
      let! _u := fund_all config (split "," (refund_manager_addresses config)) in
      let! _s := sleep 30 in
      funder_run rounds config
  end.
End funder.

(** ** Properties *)

Section creator_rate.
Context {W : Type} {GM : GmpApi.XrplMessages} {API : GmpApiTrait W} {TT : Timer W}.
Variable msg : Value.
(** The clock, and the requests that were accepted and refused. *)
Variable time : W -> Z.
Variable accepted refused : W -> Z.
Hypothesis sleep_time : forall d w, exists w', sleep d w = (Done tt, w') /\ time w' = time w + d /\
  accepted w' = accepted w /\ refused w' = refused w.
Hypothesis post_time : forall a r w, exists res w', post_broadcast a r w = (Done res, w') /\ time w <= time w' /\
  accepted w' = accepted w + (if is_ok res then 1 else 0) /\ refused w' = refused w + (if is_ok res then 0 else 1).

(** The creator does not flood the prover: every request of a run is one of
    its rounds, and the run takes a minute per request that was accepted and
    five seconds per one that was not. *)
Theorem creator_rate (rounds : nat) (self : XrplTicketCreator) (w : W) :
  exists w', creator_run (Ok msg) rounds self w = (Done tt, w') /\
    accepted w' + refused w' = accepted w + refused w + Z.of_nat rounds /\
    60 * (accepted w' - accepted w) + 5 * (refused w' - refused w) <= time w' - time w.
Proof.
  revert w. induction rounds as [|rounds IH]; intros w; cbn [creator_run].
  { exists w. split; [done|]. lia. }
  rewrite bind_run. unfold creator_work at 1. rewrite bind_run.
  destruct (post_time (chain_multisig_prover (axelar_contracts (common_config (creator_config self)))) (BroadcastGeneric msg) w)
    as (res & w1 & -> & Ht1 & Ha1 & Hr1).
  destruct (sleep_time (match res with Err _ => 5 | Ok _ => 60 end) w1) as (w2 & -> & Ht2 & Ha2 & Hr2).
  destruct (IH w2) as (w' & -> & Hsum & Htime). exists w'. split; [done|].
  destruct res; simpl in *; lia.
Qed.
End creator_rate.

Section monitor_alarm.
Context {XL : XrplLib} {XA : XrplApi} {W : Type} {X : XRPLClientTrait W} {TT : Timer W}.

(** The alarm of the monitor, when the ledger answers: up to 255 tickets (an
    account owns 250 at most) it is raised exactly if fewer than the threshold
    are left; the count is kept in eight bits, so 256 tickets look like none. *)
Theorem monitor_alarm (account : AccountId) (tickets : list Ticket) (w w1 : W) :
  get_available_tickets_for_account account w = (Done (Ok tickets), w1) -> (length tickets <= 255)%nat ->
  (exists w', monitor_tickets 1 account w = (Done (Err "Tickets are bellow threshold"), w')) <->
  (length tickets < 150)%nat.
Proof.
  intros E Hl. cbn [monitor_tickets]. rewrite bind_run, E. cbv zeta.
  rewrite wrap_small by lia. unfold THRESHOLD.
  destruct (Z.ltb_spec (Z.of_nat (length tickets)) 150); (split; [|lia || by eexists]); [lia|].
  rewrite bind_run. intros [w' H']. by destruct (sleep 5 w1) as [[[]|why] w2].
Qed.
End monitor_alarm.

Section funder_tops_up.
Context {W : Type} {F : Faucet W} {TT : Timer W}.
(** What the ledger says of an address, and the addresses the faucet was
    asked to pay, with the amount. *)
Variable balance : string -> result (option Z) XrplError.
Variable asked : W -> list (string * Z).
Hypothesis balance_law : forall a w, exists w', account_balance a w = (Done (balance a), w') /\ asked w' = asked w.
Hypothesis faucet_law : forall url a n w, exists r w',
  faucet_post url (VObject [("destination", VString a); ("xrpAmount", VString (print_u64 n))]) w = (Done r, w') /\
  asked w' = asked w ++ [(a, n)].

Definition poor (a : string) : bool :=
  match balance a with Ok (Some d) => d <? BALANCE_THRESHOLD | _ => false end.

(** A round of the funder asks for 100 XRP for each configured address that is
    known to hold less than 100 XRP, in order, and for no other, whether or
    not the faucet pays. *)
Theorem funder_tops_up (config : XRPLConfig) (w : W) :
  exists w', fund_all config (split "," (refund_manager_addresses config)) w = (Done tt, w') /\
    asked w' = asked w ++ map (fun a => (a, XRP_TOPUP_AMOUNT))
      (filter (fun a => poor a = true) (split "," (refund_manager_addresses config))).
Proof.
  generalize (split "," (refund_manager_addresses config)) as l. intros l. revert w.
  induction l as [|a l IH]; intros w; cbn [fund_all].
  { exists w. by rewrite app_nil_r. }
  rewrite bind_run. unfold fund_one at 1. rewrite bind_run. rewrite filter_cons.
  destruct (balance_law a w) as (w1 & -> & Ha1).
  assert (Hrest : asked w1 = asked w -> poor a = false ->
    exists w', fund_all config l w1 = (Done tt, w') /\
      asked w' = asked w ++ map (fun a => (a, XRP_TOPUP_AMOUNT)) (filter (fun a => poor a = true) l)).
  { intros Hw _. destruct (IH w1) as (w' & E & Hw'). exists w'. split; [exact E|]. by rewrite Hw', Hw. }
  destruct (decide (poor a = true)) as [Hp|Hp%not_true_is_false]; unfold poor in Hp.
  - destruct (balance a) as [[d|]|e]; [|done..]. rewrite Hp.
    rewrite bind_run. unfold top_up_account. rewrite bind_run.
    destruct (faucet_law (xrpl_faucet_url config) a XRP_TOPUP_AMOUNT w1) as (r & w2 & -> & Ha2). cbn [ret].
    destruct (IH w2) as (w' & E & Hw). exists w'. split; [exact E|]. rewrite Hw, Ha2, Ha1. simpl.
    by rewrite <- app_assoc.
  - assert (Hp' : poor a = false) by exact Hp.
    destruct (balance a) as [[d|]|e]; [rewrite Hp| |]; exact (Hrest Ha1 Hp').
Qed.
End funder_tops_up.
