(* ===== verification/XrplMessages.v ===== *)
(** * The messages of the XRPL gateway and prover

    The types of [xrpl_amplifier_types], [xrpl_gateway] and
    [xrpl_multisig_prover] that the relayer builds and reads, the functions of
    [relayer_base/src/utils.rs] on payments, contexts and prices, and
    [xrpl/src/utils.rs]. *)

From S2P Require Import Prelude.
From S2P Require Import Decimal.
From S2P Require Import GmpTypes.
From S2P Require Import Text.
From S2P Require Import Database.
From S2P Require Import TonLib.
From S2P Require Import Subscriber.
From S2P Require Import Xrpl.
From S2P Require Import Config.

(** ** Third-party types *)

(** A hash is its 32 bytes.  The other types are opaque: what the code does is
    to make them from a text, which may be refused, and to print them. *)
Class XrplAmplifier : Type := {
  XRPLAccountId : Type;
  xrpl_account_from_str : string -> result XRPLAccountId string;
  xrpl_account_to_string : XRPLAccountId -> string;
  XRPLCurrency : Type;
  currency_from_str : string -> result XRPLCurrency string;
  XRPLTokenAmount : Type;
  token_amount_from_str : string -> result XRPLTokenAmount string;
  token_amount_to_string : XRPLTokenAmount -> string;
  NonEmptyString : Type;
  nonempty_from_str : string -> result NonEmptyString string;
  nonempty_to_string : NonEmptyString -> string;
  ChainNameRaw : Type;
  chain_name_from_str : string -> result ChainNameRaw string;
  chain_name_to_string : ChainNameRaw -> string;
  HexBinary : Type;
  hex_binary_from_bytes : string -> result HexBinary string;
  hex_binary_to_string : HexBinary -> string;
  TokenId : Type;
  token_id_to_string : TokenId -> string;
  (** [HexTxHash]: [to_string] and [tx_hash_as_hex_no_prefix]. *)
  tx_hash_to_string : string -> string;
  tx_hash_as_hex_no_prefix : string -> string;
}.

(** [<[u8; 32]>::try_from]. *)
Definition to_32_bytes (bytes : string) : option string :=
  if (String.length bytes =? 32)%nat then Some bytes else None.

Section types.
Context {XM : XrplAmplifier}.

Record XRPLToken : Type := mkToken { issuer : XRPLAccountId; currency : XRPLCurrency }.

Inductive XRPLPaymentAmount : Type :=
| PDrops (drops : Z)
| PIssued (token : XRPLToken) (amount : XRPLTokenAmount).

Record XRPLInterchainTransferMessage : Type := mkInterchainTransfer {
  it_tx_id : string;
  it_source_address : XRPLAccountId;
  it_destination_address : NonEmptyString;
  it_destination_chain : ChainNameRaw;
  it_payload_hash : option string;
  it_transfer_amount : XRPLPaymentAmount;
  it_gas_fee_amount : XRPLPaymentAmount;
}.
Record XRPLCallContractMessage : Type := mkCallContract {
  ccm_tx_id : string;
  ccm_source_address : XRPLAccountId;
  ccm_destination_address : NonEmptyString;
  ccm_destination_chain : ChainNameRaw;
  ccm_payload_hash : string;
  ccm_gas_fee_amount : XRPLPaymentAmount;
}.
Record XRPLAddGasMessage : Type := mkAddGas {
  ag_tx_id : string;
  ag_source_address : XRPLAccountId;
  ag_msg_id : string;
  ag_amount : XRPLPaymentAmount;
}.
Record XRPLAddReservesMessage : Type := mkAddReserves { ar_tx_id : string; ar_amount : Z }.
Record XRPLProverMessage : Type := mkProver { pm_tx_id : string; unsigned_tx_hash : string }.

Inductive XRPLMessage : Type :=
| InterchainTransferMessage (m : XRPLInterchainTransferMessage)
| CallContractMessage (m : XRPLCallContractMessage)
| AddGasMessage (m : XRPLAddGasMessage)
| AddReservesMessage (m : XRPLAddReservesMessage)
| ProverMessage (m : XRPLProverMessage).

(** [XRPLMessage::tx_id]. *)
Definition message_tx_id (m : XRPLMessage) : string :=
  match m with
  | InterchainTransferMessage m => it_tx_id m
  | CallContractMessage m => ccm_tx_id m
  | AddGasMessage m => ag_tx_id m
  | AddReservesMessage m => ar_tx_id m
  | ProverMessage m => pm_tx_id m
  end.

Inductive XRPLMessageType : Type := TInterchainTransfer | TCallContract | TAddGas | TAddReserves | TProver.

Record WithPayload : Type := mkWithPayload { wp_message : XRPLMessage; wp_payload : option HexBinary }.

(** The messages of [router_api] that the gateway answers with. *)
Record RouterMessage : Type := mkRouterMessage {
  rm_message_id : string;
  rm_source_chain : string;
  rm_source_address : string;
  rm_destination_address : string;
  rm_destination_chain : string;
  rm_payload_hash : string;
}.
Record MessageWithPayload : Type := mkMessageWithPayload { mp_message : RouterMessage; mp_payload : HexBinary }.

(** The messages the relayer sends to the contracts, and any other. *)
Inductive GatewayExecuteMsg : Type :=
| VerifyMessages (messages : list XRPLMessage)
| RouteIncomingMessages (messages : list WithPayload)
| ConfirmAddGasMessages (messages : list XRPLAddGasMessage)
| OtherGatewayMsg (debug : string).
Inductive GatewayQueryMsg : Type :=
| XrplTokenId (token : XRPLToken)
| QueryInterchainTransfer (message : XRPLInterchainTransferMessage) (payload : option HexBinary)
| QueryCallContract (message : XRPLCallContractMessage) (payload : HexBinary).
Inductive ProverExecuteMsg `{!CrossChain} : Type :=
| ProofOf (cc_id : CrossChainId) (payload : string)
| ConfirmProverMessage (m : XRPLProverMessage)
| ConfirmAddReservesMessage (m : XRPLAddReservesMessage)
| ProverTicketCreate
| OtherProverMsg (debug : string).

(** [XRPLError]: the one case the code tells apart. *)
Inductive XRPLError : Type := SubtractionUnderflow | OtherXRPLError (s : string).

(** [Sub for XRPLPaymentAmount]. *)
Class PaymentSub : Type := { payment_sub : XRPLPaymentAmount -> XRPLPaymentAmount -> result XRPLPaymentAmount XRPLError }.
Class PaymentSubLaws `{!PaymentSub} : Prop := {
  drops_sub : forall a b, payment_sub (PDrops a) (PDrops b) =
    if b <=? a then Ok (PDrops (a - b)) else Err SubtractionUnderflow;
  drops_sub_drops : forall a x y, payment_sub (PDrops a) x = Ok y -> exists b, x = PDrops b;
}.
End types.

(** [serde_json] on these types. *)
Class XrplSerde `{!XrplAmplifier, !CrossChain} : Type := {
  message_to_str : XRPLMessage -> result string string;
  message_from_str : string -> result XRPLMessage string;
  (** The content of a [WithCrossChainId<XRPLMessage>]. *)
  cc_message_from_str : string -> result XRPLMessage string;
  debug_message : XRPLMessage -> string;
  message_type_from_str : string -> result XRPLMessageType string;
  message_type_to_string : XRPLMessageType -> string;
  gateway_to_value : GatewayExecuteMsg -> result Value string;
  gateway_from_str : string -> result GatewayExecuteMsg string;
  gateway_query_to_value : GatewayQueryMsg -> result Value string;
  prover_to_value : ProverExecuteMsg -> result Value string;
  prover_from_str : string -> result ProverExecuteMsg string;
  debug_gateway : GatewayExecuteMsg -> string;
  debug_prover : ProverExecuteMsg -> string;
  token_id_from_str : string -> result TokenId string;
  (** [InterchainTransfer] and [CallContract]: the message and the token. *)
  interchain_transfer_from_str : string -> result (option MessageWithPayload * TokenId) string;
  call_contract_from_str : string -> result (MessageWithPayload * TokenId) string;
  verify_task_to_str : VerifyTask -> result string string;
  wasm_task_to_str : ReactToWasmEventTask -> result string string;
  status_from_str : string -> result VerificationStatus string;
  string_from_str : string -> result string string;
}.

(** What the code reads of a transaction besides its common part.  The amount
    and the destination are those of a payment. *)
Inductive XrplAmount : Type :=
| ADrops (amount : string)
| AIssued (issuer currency value : string)
| AOther.

Class XrplPayments `{!XrplLib, !XrplApi} : Type := {
  pay_amount : XrplTransaction -> XrplAmount;
  pay_destination : XrplTransaction -> string;
  tx_fee : XrplTransaction -> string;
  tx_date : XrplTransaction -> option Z;
  tx_result : XrplTransaction -> option TransactionResult;
  tx_to_json : XrplTransaction -> result string string;
  result_to_json : TransactionResult -> result string string;
}.

(** The operations of [rust_decimal] on amounts.  [Decimal::from(i128)] panics
    outside of the 96-bit range. *)
Class DecimalOps `{!DecimalLib} : Type := {
  dec_from_scientific : string -> result Dec string;
  dec_from_i128 : Z -> outcome Dec;
  dec_from_f64 : F64 -> option Dec;
  dec_checked_mul : Dec -> Dec -> option Dec;
  dec_trunc : Dec -> Dec;
}.

Definition run_outcome {W A} (o : outcome A) : M W A := fun w => (o, w).

(** ** Payments *)

Section payments.
Context {XL : XrplLib} {XA : XrplApi} {XP : XrplPayments} {XM : XrplAmplifier}.

(** src/relayer_base/src/utils.rs:156-186 parse_payment_amount *)
Definition parse_payment_amount (payment : XrplTransaction) : result XRPLPaymentAmount IngestorError :=
  match pay_amount payment with
  | ADrops amount =>
      try? n := ok_or (parse_u64 amount) (IngGenericError "Failed to parse amount as u64") in
      Ok (PDrops n)
  | AIssued i c value =>
      try? issuer := rmap_err (fun _ => IngGenericError "Failed to parse issuer as XRPLAccountId")
        (xrpl_account_from_str i) in
      try? currency := rmap_err (fun _ => IngGenericError "Failed to parse currency as XRPLCurrency")
        (currency_from_str c) in
      try? amount := rmap_err (fun _ => IngGenericError "Failed to parse amount as XRPLTokenAmount")
        (token_amount_from_str value) in
      Ok (PIssued (mkToken issuer currency) amount)
  | AOther => Err (IngGenericError "Payment amount must be either Drops or Issued")
  end.

(** src/relayer_base/src/utils.rs:121-144 parse_gas_fee_amount *)
Definition parse_gas_fee_amount (payment_amount : XRPLPaymentAmount) (gas_fee_amount : string) :
  result XRPLPaymentAmount IngestorError :=
  match payment_amount with
  | PIssued token _ =>
      try? amount := rmap_err (fun _ => IngGenericError "Failed to parse gas fee amount as XRPLTokenAmount")
        (token_amount_from_str gas_fee_amount) in
      Ok (PIssued (mkToken (issuer token) (currency token)) amount)
  | PDrops _ =>
      try? n := ok_or (parse_u64 gas_fee_amount) (IngGenericError "Failed to parse gas fee amount as u64") in
      Ok (PDrops n)
  end.

Context {CC : CrossChain} {SE : XrplSerde}.

(** src/relayer_base/src/utils.rs:201-222 parse_message_from_context *)
Definition parse_message_from_context (metadata : option TaskMetadata) : result XRPLMessage IngestorError :=
  try? metadata := ok_or metadata (IngGenericError "Verify task missing meta field") in
  try? source_context := ok_or (task_source_context metadata)
    (IngGenericError "Verify task missing source_context field") in
  try? xrpl_message := ok_or (source_context !! "xrpl_message")
    (IngGenericError "Verify task missing xrpl_message in source_context") in
  rmap_err (fun e => IngGenericError ("Failed to parse xrpl_message from " +:+ xrpl_message +:+ ": " +:+ e))
    (message_from_str xrpl_message).

(** src/xrpl/src/utils.rs:3-31 message_id_from_retry_task *)
Definition message_id_from_retry_task (task : RetryTask) : result (option string) string :=
  match task with
  | RetryPoll task =>
      try? message := gateway_from_str (poll_request_payload (poll_task task)) in
      match message with
      | VerifyMessages messages =>
          try? first := ok_or (head messages) "No messages found in VerifyMessages payload" in
          Ok (Some (tx_hash_as_hex_no_prefix (message_tx_id first)))
      | _ => Err ("Unknown payload: " +:+ debug_gateway message)
      end
  | RetrySession task =>
      try? message := prover_from_str (expired_request_payload (expired_task task)) in
      match message with
      | ProofOf cc_id _ => Ok (Some (cc_to_string cc_id))
      | ProverTicketCreate => Ok None
      | _ => Err ("Unknown payload: " +:+ debug_prover message)
      end
  end.

(** src/relayer_base/src/utils.rs:113-119 event_attribute *)
Definition event_attribute (event : WasmEvent) (key : string) : option string :=
  attribute_value <$> List.find (fun e => bool_decide (attribute_key e = key)) (attributes event).

Context {W : Type} {HT : XrplHttp W} {DL : DecimalLib} {DO : DecimalOps} {PV : PriceViewTrait W}.

(** src/relayer_base/src/utils.rs:189-199 xrpl_tx_from_hash *)
Definition xrpl_tx_from_hash (tx_hash : string) : M W (result XrplTransaction IngestorError) :=
  map_err (fun e => IngGenericError ("Failed to get transaction: " +:+ show_XrplError e))
    (http_tx (tx_hash_as_hex_no_prefix tx_hash)).

Variable show_f64 : F64 -> string.

(** src/relayer_base/src/utils.rs:252-296 convert_token_amount_to_drops *)
Definition convert_token_amount_to_drops (config : Config) (amount : Dec) (token_id : string) :
  M W (result string string) :=
  let? token_symbol := ret (ok_or (get_token_symbol config token_id)
    ("Token id " +:+ token_id +:+ " not found in deployed tokens")) in
  let! found := pv_get_price (token_symbol +:+ "/XRP") in
  let? price := ret (match found with
    | Ok p => Ok p
    | Err db_err =>
        match demo_tokens_rate config !! token_id with
        | Some rate => ok_or (dec_from_f64 rate)
            ("Failed to convert demo rate " +:+ show_f64 rate +:+ " for token " +:+ token_id +:+ " into Decimal")
        | None => Err db_err
        end
    end) in
  let! xrp := run_outcome (dec_mul amount price) in
  let! million := run_outcome (dec_from_i128 1000000) in
  let! drops := run_outcome (dec_mul xrp million) in
  ret (Ok (dec_to_string (dec_trunc drops))).
End payments.

(** ** Concrete instances *)

Module XrplMessageDemo.
#[export] Instance amplifier : XrplAmplifier := {|
  XRPLAccountId := string; xrpl_account_from_str := Ok; xrpl_account_to_string := fun s => s;
  XRPLCurrency := string; currency_from_str := Ok;
  XRPLTokenAmount := string; token_amount_from_str := Ok; token_amount_to_string := fun s => s;
  NonEmptyString := string; nonempty_from_str := fun s => if decide (s = "") then Err "empty" else Ok s;
  nonempty_to_string := fun s => s;
  ChainNameRaw := string; chain_name_from_str := Ok; chain_name_to_string := fun s => s;
  HexBinary := string; hex_binary_from_bytes := fun s => if decide (s = "") then Err "empty" else Ok s;
  hex_binary_to_string := fun s => s;
  TokenId := string; token_id_to_string := fun s => s;
  tx_hash_to_string := fun h => "0x" +:+ h; tx_hash_as_hex_no_prefix := fun h => h;
|}.
#[export] Instance drops : PaymentSub := {|
  payment_sub := fun a b =>
    match a, b with
    | PDrops a, PDrops b => if b <=? a then Ok (PDrops (a - b)) else Err SubtractionUnderflow
    | _, _ => Err (OtherXRPLError "different tokens")
    end;
|}.
#[export] Instance drops_laws : PaymentSubLaws.
Proof. split; [done|]. intros a [b|t v] y; [by exists b|done]. Qed.
#[export] Instance pairs_of_text : CrossChain := {|
  CrossChainId := string; cc_new := fun s m => Ok (s +:+ "_" +:+ m); cc_to_string := fun c => c;
|}.
End XrplMessageDemo.
