(* ===== verification/XrplQueuedTx.v ===== *)
(** * Queued XRPL transactions

    [xrpl/src/models/queued_transactions.rs] and
    [xrpl/src/queued_tx_monitor.rs]: a transaction the ledger has queued is
    looked up again, with growing pauses, until it is confirmed, dropped or
    given up. *)

From S2P Require Import Prelude.
From S2P Require Import Store.
From S2P Require Import Subscriber.
From S2P Require Import Xrpl.

(** ** The table *)

(** src/xrpl/src/models/queued_transactions.rs:15-26 QueuedTransactionStatus *)
Inductive QueuedTransactionStatus : Type := Queued | Confirmed | Dropped | Expired.
#[export] Instance QueuedTransactionStatus_eq_dec : EqDecision QueuedTransactionStatus.
Proof. solve_decision. Defined.

(** src/xrpl/src/models/queued_transactions.rs:6-13 QueuedTransaction *)
Record QueuedTransaction : Type := mkQueued {
  queued_tx_hash : string;
  queued_retries : Z;
  queued_account : option string;
  queued_sequence : option Z;
  queued_status : QueuedTransactionStatus;
}.

(** A row: the transaction, and when it was last looked up (the column may be
    NULL; its default is the time of the insertion). *)
Record QueuedRow : Type := mkQueuedRow { row_tx : QueuedTransaction; last_checked : option Z }.

(** src/xrpl/src/models/queued_transactions.rs:28-44 QueuedTransactionsModel *)
Class QueuedTransactionsModel (W : Type) : Type := {
  update_transaction_status : string -> QueuedTransactionStatus -> M W (result unit string);
  get_queued_transactions_ready_for_check : M W (result (list QueuedTransaction) string);
  store_queued_transaction : string -> string -> Z -> M W (result unit string);
  increment_retry : string -> M W (result unit string);
}.

Abbreviation QueuedDb := (Store (gmap string QueuedRow)).

Definition set_status (status : QueuedTransactionStatus) (tx : QueuedTransaction) : QueuedTransaction :=
  mkQueued (queued_tx_hash tx) (queued_retries tx) (queued_account tx) (queued_sequence tx) status.
Definition bump_retries (tx : QueuedTransaction) : QueuedTransaction :=
  mkQueued (queued_tx_hash tx) (queued_retries tx + 1) (queued_account tx) (queued_sequence tx) (queued_status tx).

(** [status = 'queued' AND (last_checked IS NULL OR last_checked < NOW() - 1 second * 2^retries * 10)]. *)
Definition ready (now : Z) (row : QueuedRow) : bool :=
  bool_decide (queued_status (row_tx row) = Queued) &&
  match last_checked row with
  | None => true
  | Some checked => checked <? now - 2 ^ queued_retries (row_tx row) * 10
  end.

(** The transactions that are due, in the order the query returns them. *)
Definition due (now : Z) (t : gmap string QueuedRow) : list QueuedTransaction :=
  map row_tx (List.filter (ready now) (map snd (map_to_list t))).

(** src/xrpl/src/models/queued_transactions.rs:61-71 PgQueuedTransactionsModel::get_queued_transactions_ready_for_check *)
Definition pg_get_ready : M QueuedDb (result (list QueuedTransaction) string) := sql_query due.

(** src/xrpl/src/models/queued_transactions.rs:73-88 PgQueuedTransactionsModel::update_transaction_status *)
Definition pg_update_transaction_status (tx_hash : string) (status : QueuedTransactionStatus) :
  M QueuedDb (result unit string) :=
  sql_exec (fun now t => alter (fun row => mkQueuedRow (set_status status (row_tx row)) (Some now)) tx_hash t).

(** src/xrpl/src/models/queued_transactions.rs:90-105 PgQueuedTransactionsModel::store_queued_transaction *)
Definition pg_store_queued_transaction (tx_hash account : string) (sequence : Z) : M QueuedDb (result unit string) :=
  sql_exec (fun now t =>
    <[tx_hash :=
      match t !! tx_hash with
      | Some row =>
          mkQueuedRow (mkQueued tx_hash (queued_retries (row_tx row)) (Some account) (Some sequence)
            (queued_status (row_tx row))) (last_checked row)
      | None => mkQueuedRow (mkQueued tx_hash 0 (Some account) (Some sequence) Queued) (Some now)
      end]> t).

(** src/xrpl/src/models/queued_transactions.rs:107-117 PgQueuedTransactionsModel::increment_retry *)
Definition pg_increment_retry (tx_hash : string) : M QueuedDb (result unit string) :=
  sql_exec (fun now t => alter (fun row => mkQueuedRow (bump_retries (row_tx row)) (Some now)) tx_hash t).

(** src/xrpl/src/models/queued_transactions.rs:59-118 impl QueuedTransactionsModel for PgQueuedTransactionsModel *)
#[export] Instance PgQueuedTransactionsModel : QueuedTransactionsModel QueuedDb := {|
  update_transaction_status := pg_update_transaction_status;
  get_queued_transactions_ready_for_check := pg_get_ready;
  store_queued_transaction := pg_store_queued_transaction;
  increment_retry := pg_increment_retry;
|}.

(** ** The monitor *)

(** src/xrpl/src/queued_tx_monitor.rs:13-13 MAX_RETRIES *)
Definition MAX_RETRIES : Z := 20.

(** src/xrpl/src/queued_tx_monitor.rs:15-19 TxStatus *)
Inductive TxStatus : Type := TxConfirmed | TxQueued | TxDropped.

(** src/xrpl/src/error.rs:3-13 QueuedTxMonitorError *)
Inductive QueuedTxMonitorError : Type :=
| QDatabaseError (s : string)
| QXRPLClientError (s : string)
| QTransactionStatusCheckFailed (s : string)
| QGenericError (s : string).

Section monitor.
Context {XL : XrplLib} {XA : XrplApi} {W : Type} {CL : XRPLClientTrait W} {QM : QueuedTransactionsModel W}.

(** src/xrpl/src/queued_tx_monitor.rs:109-137 XrplQueuedTxMonitor::check_transaction_status *)
Definition check_transaction_status (tx_hash : string) : M W (result TxStatus QueuedTxMonitorError) :=
  let! r := call_tx tx_hash in
  ret (match r with
       | Ok tx => if bool_decide (validated (common tx) = Some true) then Ok TxConfirmed else Ok TxQueued
       | Err (XApi code) =>
           if bool_decide (code = "txnNotFound") then Ok TxDropped
           else Err (QXRPLClientError (show_XrplError (XApi code)))
       | Err e => Err (QXRPLClientError (show_XrplError e))
       end).

(** src/xrpl/src/queued_tx_monitor.rs:57-104 XrplQueuedTxMonitor::check_queued_transactions (one transaction) *)
Definition check_one (tx : QueuedTransaction) : M W (result unit QueuedTxMonitorError) :=
  if MAX_RETRIES <=? queued_retries tx then
    map_err QDatabaseError (update_transaction_status (queued_tx_hash tx) Expired)
  else
    let! r := check_transaction_status (queued_tx_hash tx) in
    map_err QDatabaseError
      (match r with
       | Ok TxConfirmed => update_transaction_status (queued_tx_hash tx) Confirmed
       | Ok TxQueued => increment_retry (queued_tx_hash tx)
       | Ok TxDropped => update_transaction_status (queued_tx_hash tx) Dropped
       | Err _ => increment_retry (queued_tx_hash tx)
       end).

Fixpoint check_all (txs : list QueuedTransaction) : M W (result unit QueuedTxMonitorError) :=
  match txs with
  | [] => ret (Ok tt)
  | tx :: txs =>
      let? _u := check_one tx in
      check_all txs
  end.

(** src/xrpl/src/queued_tx_monitor.rs:48-107 XrplQueuedTxMonitor::check_queued_transactions *)
Definition check_queued_transactions : M W (result unit QueuedTxMonitorError) :=
  let? queued_txs := map_err QDatabaseError get_queued_transactions_ready_for_check in
  check_all queued_txs.

(** src/xrpl/src/queued_tx_monitor.rs:34-38 XrplQueuedTxMonitor::work *)
Definition monitor_work : M W unit :=
  let! _r := check_queued_transactions in
  ret tt.

Context {TT : Timer W}.

(** src/xrpl/src/queued_tx_monitor.rs:40-46 XrplQueuedTxMonitor::run *)
Fixpoint monitor_run (rounds : nat) : M W unit :=
  match rounds with
  | O => ret tt
  | S rounds =>
      let! _w := monitor_work in
      let! _s := sleep 10 in
      monitor_run rounds
  end.
End monitor.

(** ** Every queued transaction is settled *)

Section settled.
Context {XL : XrplLib} {XA : XrplApi} {X : Type} {CL : XRPLClientTrait X}.

(** The database and the client. *)
Record MonWorld : Type := mkMon { mon_db : QueuedDb; mon_client : X }.

Definition on_db {A} (m : M QueuedDb A) : M MonWorld A := fun w =>
  let '(o, d) := m (mon_db w) in (o, mkMon d (mon_client w)).
Definition on_client {A} (m : M X A) : M MonWorld A := fun w =>
  let '(o, x) := m (mon_client w) in (o, mkMon (mon_db w) x).

#[export] Instance mon_model : QueuedTransactionsModel MonWorld := {|
  update_transaction_status := fun h s => on_db (update_transaction_status h s);
  get_queued_transactions_ready_for_check := on_db get_queued_transactions_ready_for_check;
  store_queued_transaction := fun h a s => on_db (store_queued_transaction h a s);
  increment_retry := fun h => on_db (increment_retry h);
|}.
#[export] Instance mon_xrpl : XRPLClientTrait MonWorld := {|
  call_submit := fun b => on_client (call_submit b);
  call_tx := fun h => on_client (call_tx h);
  get_transaction_by_id := fun h => on_client (get_transaction_by_id h);
  get_transactions_for_account := fun a l => on_client (get_transactions_for_account a l);
  get_available_tickets_for_account := fun a => on_client (get_available_tickets_for_account a);
|}.

Abbreviation Table := (gmap string QueuedRow).
Definition keyed_by_hash (t : Table) : Prop := forall h row, t !! h = Some row -> queued_tx_hash (row_tx row) = h.

(** What the ledger's answer makes of a queued transaction: confirmed when it
    is validated, dropped when the ledger does not know it, and looked up
    again after every other answer and every failure. *)
Definition verdict (answer : result XrplTransaction XrplError) (tx : QueuedTransaction) : QueuedTransaction :=
  match answer with
  | Ok t => if decide (validated (common t) = Some true) then set_status Confirmed tx else bump_retries tx
  | Err (XApi code) => if decide (code = "txnNotFound") then set_status Dropped tx else bump_retries tx
  | Err _ => bump_retries tx
  end.

(** A pass over some transactions: what becomes of each, with the answers the
    ledger gives this client one after the other.  A transaction out of
    retries is not looked up. *)
Inductive pass : list QueuedTransaction -> X -> list QueuedTransaction -> X -> Prop :=
| pass_end x : pass [] x [] x
| pass_expired tx txs x outs x1 : MAX_RETRIES <= queued_retries tx ->
    pass txs x outs x1 -> pass (tx :: txs) x (set_status Expired tx :: outs) x1
| pass_looked tx txs x answer x0 outs x1 : queued_retries tx < MAX_RETRIES ->
    call_tx (queued_tx_hash tx) x = (Done answer, x0) ->
    pass txs x0 outs x1 -> pass (tx :: txs) x (verdict answer tx :: outs) x1.

(** The look-up of one more transaction, whose outcome was not written. *)
Definition unwritten (rest : list QueuedTransaction) (x x' : X) : Prop :=
  x' = x \/ exists tx answer, head rest = Some tx /\ queued_retries tx < MAX_RETRIES /\
    call_tx (queued_tx_hash tx) x = (Done answer, x').

(** How many looks a transaction has left. *)
Definition looks_left (tx : QueuedTransaction) : Z :=
  match queued_status tx with Queued => MAX_RETRIES + 1 - queued_retries tx | _ => 0 end.

Lemma verdict_hash answer tx : queued_tx_hash (verdict answer tx) = queued_tx_hash tx.
Proof. destruct answer as [t|[code|e]]; simpl; repeat case_decide; done. Qed.

Lemma pass_hashes txs x outs x1 : pass txs x outs x1 -> map queued_tx_hash outs = map queued_tx_hash txs.
Proof. induction 1; simpl; rewrite ?verdict_hash; by f_equal. Qed.

(** Every transaction of a pass has fewer looks left than before. *)
Definition progress (tx tx' : QueuedTransaction) : Prop :=
  0 <= looks_left tx' < looks_left tx /\ 0 <= queued_retries tx' <= MAX_RETRIES.

Lemma verdict_progress answer tx : queued_status tx = Queued -> 0 <= queued_retries tx < MAX_RETRIES ->
  progress tx (verdict answer tx).
Proof.
  unfold progress, looks_left, MAX_RETRIES. intros Hs Hr.
  destruct answer as [t|[code|e]]; simpl; repeat case_decide; simpl; rewrite ?Hs; lia.
Qed.

Lemma pass_progress txs x outs x1 : pass txs x outs x1 ->
  (forall tx, tx ∈ txs -> queued_status tx = Queued /\ 0 <= queued_retries tx <= MAX_RETRIES) ->
  Forall2 progress txs outs.
Proof.
  induction 1; intros Hq; constructor;
    try (apply IHpass; intros tx' Hin; apply Hq; by right);
    destruct (Hq tx ltac:(by left)) as [Hs Hr].
  - unfold progress, looks_left, MAX_RETRIES in *. simpl. rewrite Hs. lia.
  - apply verdict_progress; [done|lia].
Qed.

(** The rows after a pass. *)
Definition rewritten (now : Z) (outs : list QueuedTransaction) (t : Table) : Table :=
  foldl (fun t tx => <[queued_tx_hash tx := mkQueuedRow tx (Some now)]> t) t outs.

Lemma rewritten_other now outs t h : h ∉ map queued_tx_hash outs -> rewritten now outs t !! h = t !! h.
Proof.
  revert t. induction outs as [|tx outs IH]; intros t; simpl; [done|]. intros [Hne Hin]%not_elem_of_cons.
  unfold rewritten in IH |- *. simpl. rewrite IH by done. by apply lookup_insert_ne.
Qed.

Lemma rewritten_in now outs t tx : NoDup (map queued_tx_hash outs) -> tx ∈ outs ->
  rewritten now outs t !! queued_tx_hash tx = Some (mkQueuedRow tx (Some now)).
Proof.
  revert t. induction outs as [|tx0 outs IH]; intros t; simpl; [by intros _ ?%not_elem_of_nil|].
  intros [Hh Hn]%NoDup_cons Hin. apply elem_of_cons in Hin as [->|Hin].
  - change (rewritten now outs (<[queued_tx_hash tx0 := mkQueuedRow tx0 (Some now)]> t) !! queued_tx_hash tx0 =
      Some (mkQueuedRow tx0 (Some now))). rewrite rewritten_other by done. by rewrite lookup_insert_eq.
  - by apply IH.
Qed.

(** A statement on the row of a hash, whatever the server does. *)
Lemma write_run (f : QueuedTransaction -> QueuedTransaction) tx (w : MonWorld) row :
  tables (mon_db w) !! queued_tx_hash tx = Some row -> row_tx row = tx -> queued_tx_hash (f tx) = queued_tx_hash tx ->
  let db := mon_db w in
  let m := map_err QDatabaseError (on_db (sql_exec (fun now t =>
    alter (fun row => mkQueuedRow (f (row_tx row)) (Some now)) (queued_tx_hash tx) t))) in
  m w = (Done (Ok tt), mkMon (mkStore (rewritten (clock db) [f tx] (tables db)) (clock db) (tail (faults db))) (mon_client w)) \/
  faults db <> [] /\
  exists e, m w = (Done (Err (QDatabaseError e)), mkMon (mkStore (tables db) (clock db) (tail (faults db))) (mon_client w)).
Proof.
  intros Hl Hr Hh. destruct w as [db x]. cbn [mon_db mon_client] in *. cbv zeta. rewrite map_err_run. unfold on_db.
  cbn [mon_db mon_client]. unfold sql_exec. destruct (next_fault db) as [e|] eqn:En.
  - right. split; [by apply (next_fault_some _ e)|]. exists e. by rewrite (sql_fault _ _ e).
  - left. rewrite (sql_no_fault _ _ En). cbn. do 3 f_equal. unfold rewritten. cbn. rewrite Hh. apply map_eq. intros k.
    destruct (decide (k = queued_tx_hash tx)) as [->|Hk].
    + by rewrite lookup_alter_eq, lookup_insert_eq, Hl; simpl; rewrite Hr.
    + by rewrite lookup_alter_ne, lookup_insert_ne.
Qed.

(** One transaction: its outcome is written, or the server failed. *)
Lemma check_one_run tx (w : MonWorld) r w' row :
  tables (mon_db w) !! queued_tx_hash tx = Some row -> row_tx row = tx ->
  check_one tx w = (Done r, w') ->
  let db := mon_db w in
  (exists out, r = Ok tt /\ pass [tx] (mon_client w) [out] (mon_client w') /\
     mon_db w' = mkStore (rewritten (clock db) [out] (tables db)) (clock db) (tail (faults db))) \/
  faults db <> [] /\ (exists e, r = Err (QDatabaseError e)) /\
    mon_db w' = mkStore (tables db) (clock db) (tail (faults db)) /\ unwritten [tx] (mon_client w) (mon_client w').
Proof.
  intros Hl Hr H. cbv zeta. unfold check_one in H. destruct (Z.leb_spec MAX_RETRIES (queued_retries tx)) as [Hge|Hlt].
  - destruct (write_run (set_status Expired) tx w row Hl Hr eq_refl) as [E|(Hf & e & E)]; cbv zeta in E;
      change (on_db _) with (@update_transaction_status MonWorld mon_model (queued_tx_hash tx) Expired) in E;
      rewrite E in H; injection H as <- <-; cbn [mon_db mon_client].
    + left. eexists. split; [done|]. split; [apply pass_expired; [done|constructor]|]. reflexivity.
    + right. split; [done|]. split; [by eexists|]. split; [done|]. by left.
  - unfold check_transaction_status in H. rewrite bind_run, bind_run in H.
    change (@call_tx XL XA MonWorld mon_xrpl ?h) with (on_client (call_tx h)) in H. unfold on_client in H.
    destruct (call_tx (queued_tx_hash tx) (mon_client w)) as [[answer|why] x'] eqn:Ec; [|done]. cbn [ret] in H.
    assert (Hw : forall f, queued_tx_hash (f tx) = queued_tx_hash tx -> f tx = verdict answer tx ->
      map_err QDatabaseError (on_db (sql_exec (fun now t =>
        alter (fun row => mkQueuedRow (f (row_tx row)) (Some now)) (queued_tx_hash tx) t))) (mkMon (mon_db w) x') = (Done r, w') ->
      (exists out, r = Ok tt /\ pass [tx] (mon_client w) [out] (mon_client w') /\
         mon_db w' = mkStore (rewritten (clock (mon_db w)) [out] (tables (mon_db w))) (clock (mon_db w)) (tail (faults (mon_db w)))) \/
      faults (mon_db w) <> [] /\ (exists e, r = Err (QDatabaseError e)) /\
        mon_db w' = mkStore (tables (mon_db w)) (clock (mon_db w)) (tail (faults (mon_db w))) /\
        unwritten [tx] (mon_client w) (mon_client w')).
    { intros f Hh Hv Hm. destruct (write_run f tx (mkMon (mon_db w) x') row Hl Hr Hh) as [E|(Hf & e & E)];
        cbv zeta in E; cbn [mon_db mon_client] in E; rewrite E in Hm; injection Hm as <- <-; cbn [mon_db mon_client].
      - left. eexists. split; [done|]. split; [|done]. rewrite Hv. eapply pass_looked; [done|exact Ec|constructor].
      - right. split; [done|]. split; [by eexists|]. split; [done|]. right. by exists tx, answer. }
    destruct answer as [t0|[code|e]]; simpl in Hw; cbn [ret] in H.
    + case_bool_decide as Hv; case_decide; try done; [by apply (Hw (set_status Confirmed))|by apply (Hw bump_retries)].
    + case_bool_decide as Hv; case_decide; try done; [by apply (Hw (set_status Dropped))|by apply (Hw bump_retries)].
    + by apply (Hw bump_retries).
Qed.

Lemma pass_app txs1 txs2 x x0 x1 outs1 outs2 :
  pass txs1 x outs1 x0 -> pass txs2 x0 outs2 x1 -> pass (txs1 ++ txs2) x (outs1 ++ outs2) x1.
Proof. induction 1; intros; simpl; [done|by apply pass_expired; auto|eapply pass_looked; eauto]. Qed.

(** The loop: a prefix of the list is passed over, and the rows of exactly
    that prefix are rewritten. *)
Lemma check_all_run txs (w : MonWorld) r w' :
  NoDup (map queued_tx_hash txs) ->
  (forall tx, tx ∈ txs -> exists row, tables (mon_db w) !! queued_tx_hash tx = Some row /\ row_tx row = tx) ->
  check_all txs w = (Done r, w') ->
  exists seen rest outs x1, txs = seen ++ rest /\ pass seen (mon_client w) outs x1 /\
    tables (mon_db w') = rewritten (clock (mon_db w)) outs (tables (mon_db w)) /\
    (r = Ok tt /\ rest = [] /\ mon_client w' = x1 \/
     faults (mon_db w) <> [] /\ (exists e, r = Err (QDatabaseError e)) /\ unwritten rest x1 (mon_client w')).
Proof.
  revert w. induction txs as [|tx txs IH]; intros w Hn Ht H; cbn [check_all] in H.
  { injection H as <- <-. exists [], [], [], (mon_client w). split; [done|]. split; [constructor|]. split; [done|]. by left. }
  apply NoDup_cons in Hn as [Hh Hn]. destruct (Ht tx ltac:(by left)) as (row & Hl & Hr). rewrite bind_ok_run in H.
  destruct (check_one tx w) as [[r1|why] w1] eqn:E1; [|done].
  destruct (check_one_run tx w r1 w1 row Hl Hr E1) as [(out & -> & Hp & Hdb)|(Hf & (e & ->) & Hdb & Hu)].
  - assert (Hout : queued_tx_hash out = queued_tx_hash tx) by (apply pass_hashes in Hp; simpl in Hp; congruence).
    destruct (IH w1 Hn) as (seen & rest & outs & x1 & -> & Hp' & Ht' & Hend); [|exact H|].
    + intros t Hin. destruct (Ht t ltac:(by right)) as (row' & Hl' & Hr'). exists row'. split; [|done]. rewrite Hdb. cbn [tables].
      rewrite rewritten_other; [done|]. simpl. rewrite Hout. intros Heq%list_elem_of_singleton. apply Hh. rewrite <- Heq.
      by apply list_elem_of_fmap_2.
    + exists (tx :: seen), rest, (out :: outs), x1. split; [done|]. split; [exact (pass_app _ _ _ _ _ _ _ Hp Hp')|].
      rewrite Hdb in Ht', Hend. cbn [tables clock faults] in Ht', Hend. split; [done|]. destruct Hend as [?|(Hf & ?)]; [by left|].
      right. split; [|done]. intros E. by rewrite E in Hf.
  - injection H as <- <-. exists [], (tx :: txs), [], (mon_client w). split; [done|]. split; [constructor|].
    rewrite Hdb. split; [done|]. right. split; [done|]. split; [by eexists|].
    destruct Hu as [?|(tx0 & answer & [= <-] & ?)]; [by left|right; by exists tx, answer].
Qed.

(** The rows that are due, each once. *)
Lemma due_rows now (t : Table) : keyed_by_hash t ->
  NoDup (map queued_tx_hash (due now t)) /\
  (forall tx, tx ∈ due now t <-> exists row, t !! queued_tx_hash tx = Some row /\ row_tx row = tx /\ ready now row = true).
Proof.
  intros Hk. unfold due. split.
  - assert (H : forall l, (forall k row, (k, row) ∈ l -> queued_tx_hash (row_tx row) = k) -> NoDup (map fst l) ->
      NoDup (map queued_tx_hash (map row_tx (List.filter (ready now) (map snd l))))).
    { intros l. induction l as [|[k row] l IH]; intros Hkey Hn; [constructor|]. cbn [map List.filter snd].
      apply NoDup_cons in Hn as [Hnk Hn]. specialize (IH (fun k' r' Hin => Hkey k' r' ltac:(by right)) Hn).
      destruct (ready now row); [|exact IH]. cbn [map]. apply NoDup_cons. split; [|exact IH].
      rewrite (Hkey k row ltac:(by left)). intros Hin. apply Hnk.
      apply list_elem_of_In, in_map_iff in Hin as (tx & Htx & Hin). apply in_map_iff in Hin as (row' & Hr' & Hin).
      apply filter_In in Hin as [Hin _]. apply in_map_iff in Hin as ([k' r'] & Hs & Hin). simpl in Hs. subst r' tx.
      apply list_elem_of_In in Hin. pose proof (Hkey _ _ (list_elem_of_further _ (k, row) _ Hin)) as Hk'.
      rewrite <- Htx, Hk'. apply (list_elem_of_fmap_2 fst) in Hin. exact Hin. }
    apply H; [|apply NoDup_fst_map_to_list]. intros k row Hin. apply elem_of_map_to_list in Hin. by apply Hk.
  - intros tx. rewrite list_elem_of_In, in_map_iff. split.
    + intros (row & <- & Hin). apply filter_In in Hin as [Hin Hr]. apply in_map_iff in Hin as ([k r] & Hs & Hin).
      simpl in Hs. subst. apply list_elem_of_In, elem_of_map_to_list in Hin. exists row.
      by rewrite (Hk _ _ Hin).
    + intros (row & Hl & Hr & Hready). exists row. split; [done|]. apply filter_In. split; [|done].
      apply in_map_iff. exists (queued_tx_hash tx, row). split; [done|]. apply list_elem_of_In. by apply elem_of_map_to_list.
Qed.

(** What one pass of the monitor made of the table and of the client. *)
Definition passed (w : MonWorld) (r : result unit QueuedTxMonitorError) (w' : MonWorld)
    (seen rest outs : list QueuedTransaction) (x1 : X) : Prop :=
  let t := tables (mon_db w) in
  let t' := tables (mon_db w') in
  let now := clock (mon_db w) in
  due now t = seen ++ rest /\ pass seen (mon_client w) outs x1 /\
  Forall2 (fun tx out => t' !! queued_tx_hash tx = Some (mkQueuedRow out (Some now)) /\ progress tx out) seen outs /\
  (forall h, h ∉ map queued_tx_hash seen -> t' !! h = t !! h) /\
  (r = Ok tt /\ rest = [] /\ mon_client w' = x1 \/
   faults (mon_db w) <> [] /\ (exists e, r = Err (QDatabaseError e)) /\ unwritten rest x1 (mon_client w')).

(** C25: every queued transaction is settled.  One pass goes over the
    transactions that are due ([seen]), in order; when a statement of the
    database fails it ends there, with the error, and with at most one look-up
    whose outcome was not written.  A transaction with twenty retries is
    expired without a look-up; for any other the ledger is asked once, and the
    row is exactly its verdict on that answer: confirmed when the transaction
    is validated, dropped when the ledger does not know it, and one more retry
    otherwise.  Each has fewer of its at most 21 looks left afterwards; all
    other rows are left alone.  When no statement fails, all due rows are
    passed over. *)
Theorem queued_settled (w w' : MonWorld) (r : result unit QueuedTxMonitorError) :
  let t := tables (mon_db w) in
  keyed_by_hash t ->
  (forall h row, t !! h = Some row -> 0 <= queued_retries (row_tx row) <= MAX_RETRIES) ->
  check_queued_transactions w = (Done r, w') ->
  exists seen rest outs x1, passed w r w' seen rest outs x1.
Proof.
  cbv zeta. intros Hk Hb H. unfold check_queued_transactions in H. rewrite bind_ok_run, map_err_run in H.
  destruct w as [db x]. cbn [mon_db] in *. destruct (due_rows (clock db) (tables db) Hk) as [Hn Hdue].
  change (@get_queued_transactions_ready_for_check MonWorld mon_model) with (on_db (sql_query due)) in H.
  unfold on_db, sql_query in H. cbn [mon_db mon_client] in H. destruct (next_fault db) as [e|] eqn:En.
  - rewrite (sql_fault _ _ e En) in H. injection H as <- <-. exists [], (due (clock db) (tables db)), [], x.
    split; [done|]. split; [constructor|]. split; [constructor|]. split; [done|]. right.
    split; [by apply (next_fault_some _ e)|]. split; [by eexists|]. by left.
  - rewrite (sql_no_fault _ _ En) in H. cbn [fst snd] in H.
    apply check_all_run in H as (seen & rest & outs & x1 & Hs & Hp & Ht & Hend); [|exact Hn|].
    2: { intros tx Htx. apply Hdue in Htx as (row & ? & ? & _). by exists row. }
    cbn [mon_db mon_client tables clock faults] in *. exists seen, rest, outs, x1. unfold passed. cbn [mon_db mon_client].
    rewrite Hs, map_app in Hn. apply NoDup_app in Hn as (Hn & _ & _).
    pose proof (pass_hashes _ _ _ _ Hp) as Hh. split; [done|]. split; [done|]. split; [|split].
    + assert (Hpr : Forall2 progress seen outs).
      { apply (pass_progress _ _ _ _ Hp). intros tx Hin.
        destruct (proj1 (Hdue tx) ltac:(rewrite Hs; apply elem_of_app; by left)) as (row & Hl & <- & Hr).
        apply andb_true_iff in Hr as [Hr _]. apply bool_decide_eq_true in Hr. split; [done|]. by apply (Hb _ _ Hl). }
      apply Forall2_same_length_lookup. split; [by apply (Forall2_length _ _ _ Hpr)|]. intros i tx out Hi Ho.
      split; [|by apply (Forall2_lookup_lr _ _ _ _ _ _ Hpr Hi Ho)]. rewrite Ht.
      assert (queued_tx_hash tx = queued_tx_hash out) as ->.
      { apply (f_equal (fun l => l !! i)) in Hh. change map with (@fmap list _) in Hh. rewrite !list_lookup_fmap, Hi, Ho in Hh. simpl in Hh. congruence. }
      apply rewritten_in; [by rewrite Hh|]. by apply list_elem_of_lookup_2 with i.
    + intros h Hin. rewrite Ht. apply rewritten_other. by rewrite Hh.
    + destruct Hend as [?|(Hf & ?)]; [by left|right]. split; [|done]. intros E. by rewrite E in Hf.
Qed.
End settled.

(** A transaction the ledger has validated, one it does not know, one that is
    not due, one out of retries; the write of its expiry fails. *)
Module QueuedDemo.
Import XrplDemo.
Definition queued (h : string) (retries : Z) : QueuedTransaction := mkQueued h retries (Some "r") (Some 1) Queued.
Definition table : gmap string QueuedRow :=
  <["a" := mkQueuedRow (queued "a" 0) (Some 0)]> (<["b" := mkQueuedRow (queued "b" 3) (Some 0)]>
  (<["c" := mkQueuedRow (queued "c" 4) (Some 0)]> (<["d" := mkQueuedRow (queued "d" 20) None]> ∅))).
Definition world : MonWorld (X := Ledger) :=
  mkMon (mkStore table 100 [None; None; None; Some "connection lost"])
    (mkLedger [("a", tx_with KPayment "a" [] (Some true))] (answer empty_ledger)).
Definition after : result unit QueuedTxMonitorError * MonWorld (X := Ledger) :=
  match check_queued_transactions world with
  | (Done r, w) => (r, w)
  | (Panic _, w) => (Ok tt, w)
  end.
End QueuedDemo.
Import XrplDemo QueuedDemo.

(** "a" is confirmed, "b" dropped, "c" left alone; the expiry of "d" is lost
    with the connection. *)
Lemma queued_settled_witness :
  exists seen rest outs x1, passed (CL := ledger) world (fst after) (snd after) seen rest outs x1.
Proof.
  assert (Hall : forall h row, table !! h = Some row ->
    queued_tx_hash (row_tx row) = h /\ 0 <= queued_retries (row_tx row) <= MAX_RETRIES).
  { intros h r. unfold table. rewrite !lookup_insert_Some, lookup_empty. intros Hr.
    repeat destruct Hr as [[<- <-]|[_ Hr]]; try by vm_compute; done. }
  apply (queued_settled (CL := ledger) world (snd after) (fst after)
    (fun h r Hr => proj1 (Hall h r Hr)) (fun h r Hr => proj2 (Hall h r Hr)) ltac:(vm_compute; reflexivity)).
Defined.

Example demo_after :
  (fst after, map (fun h => queued_status <$> (row_tx <$> tables (mon_db (snd after)) !! h)) ["a"; "b"; "c"; "d"]) =
  (Err (QDatabaseError "connection lost"), [Some Confirmed; Some Dropped; Some Queued; Some Queued]).
Proof. vm_compute. reflexivity. Qed.
