(* ===== verification/XrplBroadcaster.v ===== *)
(** * The XRPL broadcaster and refund manager

    [xrpl/src/broadcaster.rs]: what the ledger's answer to a submitted blob
    means.  [xrpl/src/refund_manager.rs]: a wallet for a refund, the payment
    that makes it, and whether it was made before. *)

From S2P Require Import Prelude.
From S2P Require Import Decimal.
From S2P Require Import GmpTypes.
From S2P Require Import Text.
From S2P Require Import Redis.
From S2P Require Import TonLib.
From S2P Require Import Includer.
From S2P Require Import Subscriber.
From S2P Require Import Database.
From S2P Require Import Config.
From S2P Require Import Xrpl.
From S2P Require Import XrplMessages.
From S2P Require Import XrplQueuedTx.

(** ** The broadcaster *)

Section broadcaster.
Context {XL : XrplLib} {XA : XrplApi} {C : Codecs} {W : Type} {CL : XRPLClientTrait W} {QM : QueuedTransactionsModel W}.

(** src/xrpl/src/broadcaster.rs:33-46 XRPLBroadcaster::handle_queued_tx *)
Definition handle_queued_tx (tx : XrplTransaction) (tx_hash : string) : M W (result unit BroadcasterError) :=
  map_err BcGenericError (store_queued_transaction tx_hash (tx_account (common tx)) (tx_sequence (common tx))).

(** [format!("Transaction failed: {:?}: {}", ..)]. *)
Definition failed_text (what : string) (response : SubmitResponse) : string :=
  what +:+ debug_result (engine_result response) +:+ ": " +:+ engine_result_message response.

(** src/xrpl/src/broadcaster.rs:49-72 log_and_return_error *)
Definition log_and_return_error (tx : XrplTransaction) (response : SubmitResponse)
    (message_id source_chain : option string) : result BroadcastResult BroadcasterError :=
  try? tx_hash := ok_or (tx_hash_field (common tx)) (BcGenericError "Transaction hash not found") in
  Ok (mkBroadcast tx_hash (Err (BcRPCCallFailed (failed_text "Transaction failed: " response))) message_id source_chain).

(** The message a payment is for, from its memos. *)
Definition payment_ids (tx : XrplTransaction) : result (option string * option string) BroadcasterError :=
  match kind tx with
  | KPayment =>
      try? message_id := rmap_err BcGenericError (extract_hex_xrpl_memo (memos (common tx)) "message_id") in
      try? source_chain := rmap_err BcGenericError (extract_hex_xrpl_memo (memos (common tx)) "source_chain") in
      Ok (Some message_id, Some source_chain)
  | _ => Ok (None, None)
  end.

Definition is_ticket_create (tx : XrplTransaction) : bool :=
  match kind tx with KTicketCreate => true | _ => false end.

(** src/xrpl/src/broadcaster.rs:84-175 XRPLBroadcaster::broadcast_prover_message *)
Definition xrpl_broadcast_prover_message (tx_blob : string) : M W (result BroadcastResult BroadcasterError) :=
  let? response := map_err (fun e => BcRPCCallFailed (show_XrplError e)) (call_submit tx_blob) in
  let tx := tx_json response in
  let? ids := ret (payment_ids tx) in
  let '(message_id, source_chain) := ids in
  let? tx_hash := ret (ok_or (tx_hash_field (common tx)) (BcRPCCallFailed "Transaction hash not found")) in
  let success := mkBroadcast tx_hash (Ok tt) message_id source_chain in
  let failure := log_and_return_error tx response message_id source_chain in
  let response_category := category (engine_result response) in
  if bool_decide (response_category = Tec) || bool_decide (response_category = Tes) then ret (Ok success)
  else if bool_decide (response_category = Tef) then
    if is_ticket_create tx && bool_decide (engine_result response = tefPAST_SEQ) then ret (Ok success)
    else
      let! query_response := call_tx tx_hash in
      ret (match query_response with
           | Ok found => if bool_decide (validated (common found) = Some true) then Ok success else failure
           | Err _ => failure
           end)
  else if bool_decide (engine_result response = terQUEUED) then
    let! _r := handle_queued_tx tx tx_hash in
    ret (Ok success)
  else ret failure.

(** src/xrpl/src/broadcaster.rs:178-208 XRPLBroadcaster::broadcast_refund *)
Definition xrpl_broadcast_refund (tx_blob : string) : M W (result string BroadcasterError) :=
  let? response := map_err (fun e => BcRPCCallFailed (show_XrplError e)) (call_submit tx_blob) in
  let tx := tx_json response in
  let? tx_hash := ret (ok_or (tx_hash_field (common tx)) (BcRPCCallFailed "Transaction hash not found")) in
  if bool_decide (engine_result response = tesSUCCESS) then ret (Ok tx_hash)
  else if bool_decide (engine_result response = terQUEUED) then
    let! _r := handle_queued_tx tx tx_hash in
    ret (Ok tx_hash)
  else ret (Err (BcRPCCallFailed (failed_text "Refund transaction failed: " response))).

(** src/xrpl/src/broadcaster.rs:74-233 impl Broadcaster for XRPLBroadcaster *)
Definition XRPLBroadcaster : Broadcaster W := {|
  broadcast_prover_message := xrpl_broadcast_prover_message;
  broadcast_refund := xrpl_broadcast_refund;
  broadcast_execute_message := fun _ => ret (Err (BcIrrelevantTask "XRPL does not send Execute Message"));
  broadcast_refund_message := fun _ => panic "not implemented";
|}.
End broadcaster.

(** ** The refund manager *)

(** Keys, amounts and payments of [libsecp256k1], [xrpl_types] and
    [xrpl_binary_codec]. *)
Class XrplSigning `{!XrplLib, !XrplApi} : Type := {
  SecretKey : Type;
  PublicKey : Type;
  parse_secret : string -> result SecretKey string;
  public_of : SecretKey -> PublicKey;
  hex_encode_upper : string -> string;
  Blob : Type;
  blob_from_hex : string -> result Blob string;
  Drops : Type;
  (** [Amount::drops]. *)
  drops_amount : Z -> result Drops string;
  (** What the client fills in before a transaction is signed: the fee, in
      drops, and the sequence number and last ledger. *)
  Prepared : Type;
  prepared_fee : Prepared -> option Z;
  (** Signing and serializing a payment: from, amount, to, memo type and
      data, what was filled in. *)
  sign_payment : AccountId -> Drops -> AccountId -> Blob -> Blob -> Prepared -> PublicKey -> SecretKey -> result string string;
  serialize_payment : string -> result string string;
}.

(** [prepare_transaction] of the client. *)
Class XrplPrepare `{!XrplLib, !XrplApi, !XrplSigning} (W : Type) : Type := {
  prepare_transaction : AccountId -> M W (result Prepared string);
}.

Definition INCLUDER_LOCK : string := "includer_".

Section refunds.
Context {XL : XrplLib} {XA : XrplApi} {XS : XrplSigning} {XMA : XrplAmplifier} {CC : CrossChain} {SE : XrplSerde} {C : Codecs} {W : Type}
  {CL : XRPLClientTrait W} {RD : Redis W} {PR : XrplPrepare W}.

(** [SliceRandom::shuffle]. *)
Variable shuffle : list (string * string) -> list (string * string).

(** src/xrpl/src/refund_manager.rs:40-105 XRPLRefundManager::build_and_sign_tx *)
Definition build_and_sign_tx (recipient drops refund_id : string) (account : AccountId) (public_key : PublicKey)
    (secret_key : SecretKey) : M W (result (option (string * string * string)) RefundManagerError) :=
  let? pre_fee_amount_drops := ret (ok_or (parse_u64 drops)
    (RefGenericError ("Invalid drops amount '" +:+ drops +:+ "': " +:+ int_error MAX_U64 drops))) in
  let? _pre_fee_amount := ret (rmap_err (fun e => RefGenericError ("Failed to parse amount: " +:+ e))
    (drops_amount pre_fee_amount_drops)) in
  let? recipient_account := ret (rmap_err (fun e => RefGenericError ("Invalid recipient address: " +:+ e))
    (account_from_address recipient)) in
  let? memo_data := ret (rmap_err (fun e => RefGenericError ("Failed to encode refund_id: " +:+ e))
    (blob_from_hex (hex_encode_upper refund_id))) in
  let? memo_type := ret (rmap_err (fun e => RefGenericError ("Failed to encode refund_id: " +:+ e))
    (blob_from_hex (hex_encode_upper "refund_id"))) in
  let? prepared := map_err RefGenericError (prepare_transaction account) in
  let? fee := ret (ok_or (prepared_fee prepared) (RefGenericError "Fee not set")) in
  let actual_refund_amount := wrap_i64 (wrap_i64 pre_fee_amount_drops - wrap_i64 fee) in
  if actual_refund_amount <=? 0 then ret (Ok None)
  else
    let? amount := ret (rmap_err (fun e => RefGenericError ("Failed to parse amount: " +:+ e))
      (drops_amount (wrap_u64 actual_refund_amount))) in
    let? signed := ret (rmap_err (fun e => RefGenericError ("Sign error: " +:+ e))
      (sign_payment account amount recipient_account memo_type memo_data prepared public_key secret_key)) in
    let? tx_bytes := ret (rmap_err (fun e => RefGenericError ("Serialization error: " +:+ e)) (serialize_payment signed)) in
    ret (Ok (Some (hex_encode_upper tx_bytes, print_Z actual_refund_amount, print_u64 fee))).

(** The loop over the shuffled pairs. *)
Fixpoint lock_some (pairs : list (string * string)) :
  M W (result (SecretKey * PublicKey * AccountId) RefundManagerError) :=
  match pairs with
  | [] => ret (Err (RefGenericError "No available wallet in pool"))
  | (secret, address) :: pairs =>
      let? account := ret (rmap_err (fun e => RefGenericError ("Invalid address: " +:+ e)) (account_from_address address)) in
      let? wallet_lock := map_err RefGenericError (set_nx_ex (INCLUDER_LOCK +:+ to_address account) 60) in
      if negb wallet_lock then lock_some pairs
      else
        let? secret_bytes := ret (rmap_err (fun e => RefGenericError ("Hex decode error: " +:+ e)) (hex_decode secret)) in
        let? secret_key := ret (rmap_err (fun e => RefGenericError ("Invalid secret key: " +:+ e)) (parse_secret secret_bytes)) in
        ret (Ok (secret_key, public_of secret_key, account))
  end.

(** src/xrpl/src/refund_manager.rs:116-163 XRPLRefundManager::get_wallet_lock *)
Definition xrpl_get_wallet_lock (config : XRPLConfig) : M W (result (SecretKey * PublicKey * AccountId) RefundManagerError) :=
  let secrets := split ","%char (includer_secrets config) in
  let addresses := split ","%char (refund_manager_addresses config) in
  lock_some (shuffle (combine secrets addresses)).

(** src/xrpl/src/refund_manager.rs:165-177 XRPLRefundManager::release_wallet_lock *)
Definition xrpl_release_wallet_lock (wallet : SecretKey * PublicKey * AccountId) : M W (result unit RefundManagerError) :=
  let? _d := map_err RefGenericError (del (INCLUDER_LOCK +:+ to_address (snd wallet))) in
  ret (Ok tt).

(** A transaction that carries the refund's memo. *)
Definition refunds (refund_id : string) (tx : XrplTransaction) : bool :=
  match extract_and_decode_memo (memos (common tx)) "refund_id" with
  | Ok refund_memo => bool_decide (refund_memo = refund_id)
  | Err _ => false
  end.

(** src/xrpl/src/refund_manager.rs:194-236 XRPLRefundManager::is_refund_processed *)
Definition xrpl_is_refund_processed (task : RefundTask) (refund_id : string) : M W (result bool RefundManagerError) :=
  let? recipient_account := ret (rmap_err (fun e => RefGenericError ("Invalid recipient address: " +:+ e))
    (account_from_address (refund_recipient_address (GmpTypes.refund_task task)))) in
  let? message := ret (rmap_err (fun e => RefGenericError (show_IngestorError e))
    (parse_message_from_context (task_meta (refund_common task)))) in
  let tx_id := tx_hash_to_string (message_tx_id message) in
  let? tx := map_err RefGenericError (get_transaction_by_id (trim_start_matches "0x" tx_id)) in
  let? ledger_index := ret (ok_or (ledger_index (common tx)) (RefGenericError "Ledger index not found")) in
  let? transactions := map_err RefGenericError (get_transactions_for_account recipient_account ledger_index) in
  ret (Ok (existsb (refunds refund_id) transactions)).

(** src/xrpl/src/refund_manager.rs:108-237 impl RefundManager for XRPLRefundManager *)
Definition XRPLRefundManager (config : XRPLConfig) : RefundManager W := {|
  Wallet := SecretKey * PublicKey * AccountId;
  is_refund_manager_managed := true;
  build_refund_tx := fun recipient drops refund_id wallet =>
    build_and_sign_tx recipient drops refund_id (snd wallet) (snd (fst wallet)) (fst (fst wallet));
  is_refund_processed := xrpl_is_refund_processed;
  get_wallet_lock := xrpl_get_wallet_lock config;
  release_wallet_lock := xrpl_release_wallet_lock;
|}.
End refunds.

(** ** What a submission comes to *)

Section outcome.
Context {XL : XrplLib} {XA : XrplApi} {C : Codecs} {W : Type} {CL : XRPLClientTrait W} {QM : QueuedTransactionsModel W}.

(** The answers that count as sent. *)
Definition counts_as_sent (response : SubmitResponse) (h : string) (w1 : W) : Prop :=
  let c := category (engine_result response) in
  c = Tec \/ c = Tes \/
  (c = Tef /\ (is_ticket_create (tx_json response) = true /\ engine_result response = tefPAST_SEQ \/
     exists found w2, call_tx h w1 = (Done (Ok found), w2) /\ validated (common found) = Some true)) \/
  (c <> Tef /\ engine_result response = terQUEUED).

(** C27: what is reported of a proof that was submitted.  It counts as sent
    when the ledger applied it, with or without success; when it was refused as
    past but is a ticket creation that lost a race or is found validated; or
    when it is queued.  In every other case the report carries the ledger's
    answer.  The ids of the message come from the payment's memos. *)
Theorem prover_outcome (tx_blob h : string) (response : SubmitResponse) (m s : option string) (w w1 w' : W)
    (r : result BroadcastResult BroadcasterError) :
  call_submit tx_blob w = (Done (Ok response), w1) ->
  payment_ids (tx_json response) = Ok (m, s) -> tx_hash_field (common (tx_json response)) = Some h ->
  xrpl_broadcast_prover_message tx_blob w = (Done r, w') ->
  exists b, r = Ok b /\ tx_hash b = h /\ result_message_id b = m /\ result_source_chain b = s /\
    (status b = Ok tt <-> counts_as_sent response h w1) /\
    (status b <> Ok tt -> status b = Err (BcRPCCallFailed (failed_text "Transaction failed: " response))).
Proof.
  intros Hs Hi Hh. unfold xrpl_broadcast_prover_message. rewrite bind_ok_run, map_err_run, Hs. cbn [rmap_err].
  rewrite bind_ok_run, Hi. cbn [ret]. rewrite bind_ok_run, Hh. cbn [ok_or ret].
  unfold log_and_return_error. rewrite Hh. cbn [ok_or rbind]. unfold counts_as_sent. cbv zeta.
  set (failure := mkBroadcast h (Err _) m s).
  assert (Hok : forall P : Prop, P -> Ok (mkBroadcast h (Ok tt) m s) = r -> exists b, r = Ok b /\ tx_hash b = h /\
    result_message_id b = m /\ result_source_chain b = s /\ (status b = Ok tt <-> P) /\
    (status b <> Ok tt -> status b = Err (BcRPCCallFailed (failed_text "Transaction failed: " response)))).
  { intros P HP <-. eexists. do 4 (split; [done|]). split; [by split|]. intros Hn. by destruct Hn. }
  assert (Hno : forall P : Prop, ~ P -> Ok failure = r -> exists b, r = Ok b /\ tx_hash b = h /\
    result_message_id b = m /\ result_source_chain b = s /\ (status b = Ok tt <-> P) /\
    (status b <> Ok tt -> status b = Err (BcRPCCallFailed (failed_text "Transaction failed: " response)))).
  { intros P HP <-. eexists. do 4 (split; [done|]). split; [by split|done]. }
  set (c := category (engine_result response)).
  destruct (bool_decide_reflect (c = Tec)) as [Hc|Hc1]; [intros [= <- _]; apply Hok; auto|].
  destruct (bool_decide_reflect (c = Tes)) as [Hc|Hc2]; [intros [= <- _]; apply Hok; auto|]. cbn [orb].
  destruct (bool_decide_reflect (c = Tef)) as [Hc|Hc3].
  - destruct (is_ticket_create (tx_json response) && bool_decide (engine_result response = tefPAST_SEQ)) eqn:Et.
    { apply andb_true_iff in Et as [Et1 Et2]. apply bool_decide_eq_true in Et2. intros [= <- _]. apply Hok; auto 7. }
    rewrite bind_run. destruct (call_tx h w1) as [[q|why] w2] eqn:Eq; [|done]. cbn [ret].
    assert (Hnt : ~ (is_ticket_create (tx_json response) = true /\ engine_result response = tefPAST_SEQ)).
    { intros [H1 H2]. rewrite H1, bool_decide_eq_true_2 in Et; done. }
    destruct q as [found|e].
    + destruct (bool_decide_reflect (validated (common found) = Some true)) as [Hv|Hv]; intros [= <- _].
      * apply Hok; [|done]. right; right; left. split; [done|]. right. by exists found, w2.
      * apply Hno; [|done]. intros [?|[?|[[_ [?|(f & w3 & Hf & Hfv)]]|[? _]]]]; first [done|congruence].
    + intros [= <- _]. apply Hno; [|done]. intros [?|[?|[[_ [?|(f & w3 & Hf & Hfv)]]|[? _]]]]; first [done|congruence].
  - destruct (bool_decide_reflect (engine_result response = terQUEUED)) as [Hq|Hq].
    + rewrite bind_run. destruct (handle_queued_tx _ _ w1) as [[x|why] w2]; [|done]. intros [= <- _]. apply Hok; auto.
    + intros [= <- _]. apply Hno; [|done]. intros [?|[?|[[? _]|[_ ?]]]]; done.
Qed.
End outcome.

(** ** Refunds *)

Section refunding.
Context {XL : XrplLib} {XA : XrplApi} {XS : XrplSigning} {XMA : XrplAmplifier} {CC : CrossChain} {SE : XrplSerde} {C : Codecs} {W : Type}
  {CL : XRPLClientTrait W} {RD : Redis W} {PR : XrplPrepare W}.
Variable shuffle : list (string * string) -> list (string * string).

Definition MAX_DROPS : Z := 10 ^ 17.

(** C28: a refund gives away exactly what was due.  When a payment is built, what
    the recipient gets and the fee make up the amount of the task, the
    recipient gets something, and the reported figures are those of the
    payment; a fee that eats up the amount yields no payment. *)
Theorem refund_conserved (recipient drops refund_id : string) (account : AccountId) (pk : PublicKey) (sk : SecretKey)
    (due fee : Z) (prepared : Prepared) (w w' : W) (r : option (string * string * string)) :
  (forall n a, drops_amount n = Ok a -> n <= MAX_DROPS) ->
  parse_u64 drops = Some due -> 0 <= fee <= MAX_DROPS ->
  prepare_transaction account w = (Done (Ok prepared), w') -> prepared_fee prepared = Some fee ->
  build_and_sign_tx recipient drops refund_id account pk sk w = (Done (Ok r), w') ->
  match r with
  | Some (blob, amount, paid_fee) =>
      exists a t memo_t memo_d signed bytes, 0 < due - fee /\ amount = print_Z (due - fee) /\ paid_fee = print_u64 fee /\
        drops_amount (due - fee) = Ok a /\ account_from_address recipient = Ok t /\
        sign_payment account a t memo_t memo_d prepared pk sk = Ok signed /\ serialize_payment signed = Ok bytes /\
        blob = hex_encode_upper bytes /\ blob_from_hex (hex_encode_upper refund_id) = Ok memo_d
  | None => due <= fee
  end.
Proof.
  intros Hmax Hd Hf Hp Hpf. unfold build_and_sign_tx. rewrite Hd. cbn [ok_or]. rewrite bind_ok_run. cbn [ret].
  rewrite bind_ok_run. destruct (drops_amount due) as [a0|e] eqn:Ea0; cbn [ret rmap_err]; [|done].
  pose proof (Hmax _ _ Ea0) as Hle. pose proof (parse_u64_range _ _ Hd) as Hr.
  rewrite bind_ok_run. destruct (account_from_address recipient) as [t|e]; cbn [ret rmap_err]; [|done].
  rewrite bind_ok_run. destruct (blob_from_hex (hex_encode_upper refund_id)) as [md|e] eqn:Emd; cbn [ret rmap_err]; [|done].
  rewrite bind_ok_run. destruct (blob_from_hex (hex_encode_upper "refund_id")) as [mt|e]; cbn [ret rmap_err]; [|done].
  rewrite bind_ok_run, map_err_run, Hp. cbn [rmap_err]. rewrite bind_ok_run, Hpf. cbn [ok_or ret].
  assert (Hw : wrap_i64 (wrap_i64 due - wrap_i64 fee) = due - fee).
  { unfold MAX_DROPS in *. unfold wrap_i64. rewrite (signed_small 64 due), (signed_small 64 fee) by lia.
    apply signed_small; lia. }
  rewrite Hw. destruct (Z.leb_spec (due - fee) 0) as [Hneg|Hpos]; [intros [= <-]; lia|].
  assert (Hu : wrap_u64 (due - fee) = due - fee) by (apply wrap_small; unfold MAX_DROPS in *; lia). rewrite Hu.
  rewrite bind_ok_run. destruct (drops_amount (due - fee)) as [a|e] eqn:Ea; cbn [ret rmap_err]; [|done].
  rewrite bind_ok_run. destruct (sign_payment _ _ _ _ _ _ _ _) as [sg|e] eqn:Es; cbn [ret rmap_err]; [|done].
  rewrite bind_ok_run. destruct (serialize_payment sg) as [bytes|e] eqn:Eb; cbn [ret rmap_err]; [|done].
  intros [= <-]. exists a, t, mt, md, sg, bytes. done.
Qed.

Context {XM : GmpApi.XrplMessages} {API : GmpApi.GmpApiTrait W} {BC : Broadcaster W}.

(** A refund is not paid twice.  When, among the recipient's transactions
    since the ledger of the payment the task refers to, one carries the
    refund's memo, a task that is delivered again is settled without taking
    a wallet or sending anything; when none does, it is not considered paid. *)
Theorem refund_once (config : XRPLConfig) (task : RefundTask) (recipient : AccountId) (message : XRPLMessage)
    (tx : XrplTransaction) (ledger : Z) (txs : list XrplTransaction) (w w1 w2 : W) :
  let refund_id := id (refund_common task) in
  account_from_address (refund_recipient_address (GmpTypes.refund_task task)) = Ok recipient ->
  parse_message_from_context (task_meta (refund_common task)) = Ok message ->
  get_transaction_by_id (trim_start_matches "0x" (tx_hash_to_string (message_tx_id message))) w = (Done (Ok tx), w1) ->
  ledger_index (common tx) = Some ledger ->
  get_transactions_for_account recipient ledger w1 = (Done (Ok txs), w2) ->
  xrpl_is_refund_processed task refund_id w = (Done (Ok (existsb (refunds refund_id) txs)), w2) /\
  ((exists t, t ∈ txs /\ extract_and_decode_memo (memos (common t)) "refund_id" = Ok refund_id) ->
     consume_refund (RM := XRPLRefundManager shuffle config) task w = (Done (Ok tt), w2)).
Proof.
  cbv zeta. intros Ha Hm Ht Hl Hg.
  assert (Hp : xrpl_is_refund_processed task (id (refund_common task)) w =
    (Done (Ok (existsb (refunds (id (refund_common task))) txs)), w2)).
  { unfold xrpl_is_refund_processed. rewrite bind_ok_run, Ha. cbn [ret rmap_err]. rewrite bind_ok_run, Hm.
    cbn [ret rmap_err]. rewrite bind_ok_run, map_err_run, Ht. cbn [rmap_err]. rewrite bind_ok_run, Hl. cbn [ok_or ret].
    by rewrite bind_ok_run, map_err_run, Hg. }
  split; [done|]. intros (t & Hin & Hmemo). unfold consume_refund. cbn [is_refund_manager_managed XRPLRefundManager negb].
  rewrite bind_ok_run, map_err_run. cbn [is_refund_processed XRPLRefundManager]. rewrite Hp. cbn [rmap_err].
  assert (He : existsb (refunds (id (refund_common task))) txs = true).
  { apply existsb_exists. exists t. split; [by apply list_elem_of_In|]. unfold refunds. rewrite Hmemo.
    by apply bool_decide_eq_true_2. }
  by rewrite He.
Qed.

Context {RL : RedisLaws W}.

(** Which wallet a refund takes.  A wallet that is handed out was free
    and is locked for sixty seconds.  When the secret of a free wallet cannot
    be read, the call fails after the lock was taken and leaves it behind. *)
Theorem refund_wallet_lock (secret address : string) (rest : list (string * string)) (account : AccountId) (w w1 : W) :
  account_from_address address = Ok account ->
  set_nx_ex (INCLUDER_LOCK +:+ to_address account) 60 w = (Done (Ok true), w1) ->
  ~ live w (INCLUDER_LOCK +:+ to_address account) /\
  expiry w1 (INCLUDER_LOCK +:+ to_address account) = Some (now w + 60) /\
  (forall bytes sk, hex_decode secret = Ok bytes -> parse_secret bytes = Ok sk ->
     lock_some ((secret, address) :: rest) w = (Done (Ok (sk, public_of sk, account)), w1)) /\
  (forall e, hex_decode secret = Err e ->
     lock_some ((secret, address) :: rest) w = (Done (Err (RefGenericError ("Hex decode error: " +:+ e))), w1)).
Proof.
  intros Ha Hs.
  assert (Hl : ~ live w (INCLUDER_LOCK +:+ to_address account) /\
    expiry w1 (INCLUDER_LOCK +:+ to_address account) = Some (now w + 60)).
  { destruct (set_outcome (INCLUDER_LOCK +:+ to_address account) 60 w) as [(? & w2 & E & _)|[(? & w2 & E & ?)|(e & w2 & E & _)]];
      rewrite Hs in E; simplify_eq. done. }
  destruct Hl as [Hfree Hexp]. split; [done|]. split; [done|].
  split; [intros bytes sk Hb Hsk|intros e He]; cbn [lock_some]; rewrite bind_ok_run, Ha; cbn [ret rmap_err];
    rewrite bind_ok_run, map_err_run, Hs; cbn [rmap_err negb]; rewrite bind_ok_run.
  - rewrite Hb. cbn [ret rmap_err]. by rewrite bind_ok_run, Hsk.
  - by rewrite He.
Qed.
End refunding.

(** ** Concrete runs *)

Module RefundDemo.
Export XrplDemo XrplMessageDemo.
#[export] Instance codecs : Codecs := text_codecs.
#[export] Instance no_queue {W} : QueuedTransactionsModel W := {|
  update_transaction_status := fun _ _ => ret (Ok tt);
  get_queued_transactions_ready_for_check := ret (Ok []);
  store_queued_transaction := fun _ _ _ => ret (Ok tt);
  increment_retry := fun _ => ret (Ok tt);
|}.
#[export] Instance signing : XrplSigning := {|
  SecretKey := string; PublicKey := string; parse_secret := Ok; public_of := fun s => s;
  hex_encode_upper := fun s => s; Blob := string; blob_from_hex := Ok; Drops := Z;
  drops_amount := fun n => if n <=? MAX_DROPS then Ok n else Err "too much";
  Prepared := Z; prepared_fee := Some;
  sign_payment := fun _ _ _ _ data _ _ _ => Ok data; serialize_payment := Ok;
|}.
#[export] Instance texts : XrplSerde := {|
  message_to_str := fun m => Ok (message_tx_id m); message_from_str := fun s => Ok (AddReservesMessage (mkAddReserves s 0));
  cc_message_from_str := fun s => Err s; debug_message := message_tx_id;
  message_type_from_str := Err; message_type_to_string := fun _ => "AddReserves";
  gateway_to_value := fun _ => Ok VNull; gateway_from_str := Err; gateway_query_to_value := fun _ => Ok VNull;
  prover_to_value := fun _ => Ok VNull; prover_from_str := Err; debug_gateway := fun _ => ""; debug_prover := fun _ => "";
  token_id_from_str := Ok; interchain_transfer_from_str := Err; call_contract_from_str := Err;
  verify_task_to_str := fun _ => Ok ""; wasm_task_to_str := fun _ => Ok ""; status_from_str := Err; string_from_str := Ok;
|}.
#[export] Instance fee {W} : XrplPrepare W := {| prepare_transaction := fun _ => ret (Ok 12) |}.
#[export] Instance no_redis : Redis Ledger := {|
  set_nx_ex := fun _ _ => ret (Ok true); del := fun _ => ret (Ok true);
  now := fun _ => 0; expiry := fun _ _ => None; healthy := fun _ => True;
|}.
#[export] Instance api {W} : @GmpApi.GmpApiTrait GmpAudit.AuditDemo.messages W.
Proof.
  refine {|
    GmpApi.get_chain := "xrpl"; GmpApi.get_tasks_action := fun _ => ret (Ok []); GmpApi.post_events := fun _ => ret (Ok []);
    GmpApi.post_broadcast := fun _ _ => ret (Ok "h"); GmpApi.get_broadcast_result := fun _ _ => ret (Ok "h");
    GmpApi.post_query := fun _ _ => ret (Ok "q"); GmpApi.post_payload := fun _ => ret (Ok "p");
    GmpApi.get_payload := fun _ => ret (Ok "p"); GmpApi.cannot_execute_message := fun _ _ _ _ _ => ret (Ok tt);
    GmpApi.its_interchain_transfer := fun _ => ret (Ok tt);
    GmpApi.map_cannot_execute_message_to_event := fun _ _ _ _ _ => Panic "none" |}.
Defined.
(** A proof that was refused as past, but is on the ledger. *)
Definition proof_tx : XrplTransaction :=
  tx_with KPayment "p" [mkMemo (Some "message_id") (Some "0xab"); mkMemo (Some "source_chain") (Some "avalanche")] (Some true).
Definition past : SubmitResponse := mkSubmit _ _ ("tefALREADY", Tef) "already" proof_tx.
Definition with_proof : Ledger := mkLedger [("p", proof_tx)] past.
(** A ledger with the refund of a task on it. *)
Definition refunded : XrplTransaction := tx_with KPayment "r" [mkMemo (Some "refund_id") (Some "t1")] (Some true).
Definition with_refund : Ledger := mkLedger [("x1", proof_tx); ("r", refunded)] past.
Definition task : RefundTask :=
  mkRefundTask
    (mkCommonTask "t1" "xrpl" "now" "REFUND" (Some (mkTaskMeta None None None (Some {["xrpl_message" := "x1"]}) None)))
    (mkRefundFields (mkMessage "m" "xrpl" "a" "b" "h") "rUser" (mkAmount None "100")).
End RefundDemo.
Import RefundDemo.

Lemma prover_outcome_witness :
  exists b, fst (xrpl_broadcast_prover_message "blob" with_proof) = Done (Ok b) /\ status b = Ok tt /\
    result_message_id b = Some "0xab".
Proof.
  destruct (prover_outcome "blob" "p" past (Some "0xab") (Some "avalanche") with_proof with_proof with_proof
    (Ok (mkBroadcast "p" (Ok tt) (Some "0xab") (Some "avalanche"))))
    as (b & Hb & _ & Hm & _ & Hs & _); [reflexivity..|].
  exists b. split; [by injection Hb as <-|]. split; [|done]. apply Hs. right; right; left. split; [done|]. right.
  by exists proof_tx, with_proof.
Defined.

Lemma refund_conserved_witness :
  exists a t memo_t memo_d signed bytes, 0 < 100 - 12 /\ "88" = print_Z (100 - 12) /\ "12" = print_u64 12 /\
    drops_amount (100 - 12) = Ok a /\ account_from_address "rUser" = Ok t /\
    sign_payment "rMulti" a t memo_t memo_d 12 "pk" "sk" = Ok signed /\ serialize_payment signed = Ok bytes /\
    "t1" = hex_encode_upper bytes /\ blob_from_hex (hex_encode_upper "t1") = Ok memo_d.
Proof.
  apply (refund_conserved (XL := xrpl) (XA := xrpl_api) (XS := signing) (W := unit) "rUser" "100" "t1" "rMulti" "pk" "sk" 100 12 12 tt tt (Some ("t1", "88", "12")));
    try reflexivity; [|done].
  intros n a. simpl. destruct (Z.leb_spec n MAX_DROPS); [done|discriminate].
Defined.

Lemma refund_once_witness :
  consume_refund (BC := XRPLBroadcaster (QM := no_queue)) (API := api)
    (RM := XRPLRefundManager (fun l => l) demo_config) task with_refund = (Done (Ok tt), with_refund).
Proof.
  apply (refund_once (XL := xrpl) (XA := xrpl_api) (XS := signing) (W := Ledger) (fun l => l) (API := api) (BC := XRPLBroadcaster (QM := no_queue)) demo_config
    task "rUser" (AddReservesMessage (mkAddReserves "x1" 0)) proof_tx 50 [proof_tx; refunded] with_refund with_refund with_refund); try reflexivity.
  exists refunded. split; [by right; left|reflexivity].
Defined.

Lemma refund_wallet_lock_witness :
  let w := mkServer ∅ 5 [] in
  lock_some [("sk", "rA")] w = (Done (Ok ("sk", "sk", "rA")), mkServer {["includer_rA" := 65]} 5 []).
Proof.
  refine (proj1 (proj2 (proj2 (refund_wallet_lock (XL := xrpl) (XA := xrpl_api) (XS := signing) "sk" "rA" [] "rA" (mkServer ∅ 5 [])
    (mkServer {["includer_rA" := 65]} 5 []) eq_refl eq_refl))) "sk" "sk" eq_refl eq_refl).
Defined.
