(* ===== verification/XrplRefunds.v ===== *)
(** * Refunds at once

    A refund of an XRPL payment is made after a look at the recipient's
    transactions, for one that carries its memo.  Here the refunds of
    [includer_worker.rs], with the refund manager and the broadcaster of
    [xrpl/src/refund_manager.rs] and [xrpl/src/broadcaster.rs], run at once,
    request by request ([Interleaving]), over one ledger and one Redis server. *)

From S2P Require Import Prelude.
From S2P Require Import Interleaving.
From S2P Require Import Decimal.
From S2P Require Import GmpTypes.
From S2P Require Import Text.
From S2P Require Import GmpApi.
From S2P Require Import Database.
From S2P Require Import Redis.
From S2P Require Import TonLib.
From S2P Require Import Includer.
From S2P Require Import Subscriber.
From S2P Require Import Config.
From S2P Require Import Xrpl.
From S2P Require Import XrplMessages.
From S2P Require Import XrplQueuedTx.
From S2P Require Import XrplBroadcaster.

(** ** The servers *)

Section servers.
Context {XL : XrplLib} {XA : XrplApi} {XS : XrplSigning}.

Inductive Request : Type :=
| GetTx (hash : string)
| AccountTxs (account : AccountId) (min : Z)
| Prepare (account : AccountId)
| Submit (blob : string)
| SetNx (key : string) (ttl : Z)
| Del (key : string).

Inductive Answer : Type :=
| Lost (why : string)
| TxIs (tx : XrplTransaction)
| TxsAre (txs : list XrplTransaction)
| PreparedIs (p : Prepared)
| Submitted (response : SubmitResponse)
| Flag (b : bool).

(** The validated transactions, in order, and the locks that are held. *)
Record Servers : Type := mkServers { history : list XrplTransaction; locked : gset string }.

(** What the ledger fills in for an account, what it makes of a blob after the
    transactions it validated, and whose transactions one is among. *)
Record Rules : Type := mkRules {
  fill : list XrplTransaction -> AccountId -> Prepared;
  apply_blob : list XrplTransaction -> string -> option XrplTransaction;
  concerns : AccountId -> XrplTransaction -> bool;
}.
Variable ledger : Rules.

Definition index (tx : XrplTransaction) : Z := default 0 (ledger_index (common tx)).

(** A request that is served. *)
Definition serve (r : Request) (d : Servers) : Answer * Servers :=
  match r with
  | GetTx hash =>
      (match List.find (fun tx => bool_decide (tx_hash_field (common tx) = Some hash)) (history d) with
       | Some tx => TxIs tx
       | None => Lost "txnNotFound"
       end, d)
  | AccountTxs account min => (TxsAre (List.filter (fun tx => concerns ledger account tx && (min <=? index tx)) (history d)), d)
  | Prepare account => (PreparedIs (fill ledger (history d) account), d)
  | Submit blob =>
      match apply_blob ledger (history d) blob with
      | Some tx => (Submitted (mkSubmit _ _ tesSUCCESS "applied" tx), mkServers (history d ++ [tx]) (locked d))
      | None => (Lost "invalidTransaction", d)
      end
  | SetNx key _ =>
      if bool_decide (key ∈ locked d) then (Flag false, d) else (Flag true, mkServers (history d) ({[key]} ∪ locked d))
  | Del key => (Flag (bool_decide (key ∈ locked d)), mkServers (history d) (locked d ∖ {[key]}))
  end.

(** It is served; or its answer is lost, after it took effect or before. *)
Definition executes (r : Request) (d : Servers) (a : Answer) (d' : Servers) : Prop :=
  serve r d = (a, d') \/ (exists e, a = Lost e /\ (d' = d \/ d' = snd (serve r d))).

(** Locks expire. *)
Definition drifts (d d' : Servers) : Prop := history d' = history d /\ locked d' ⊆ locked d.
End servers.

(** ** A refund over the requests *)

Section world.
Context {XL : XrplLib} {XA : XrplApi} {XS : XrplSigning} {XMA : XrplAmplifier} {CC : CrossChain} {SE : XrplSerde} {C : Codecs}
  {XM : XrplMessages}.
Context {X : Type} {API : GmpApiTrait X} {CL : XRPLClientTrait X} {QM : QueuedTransactionsModel X}.
Abbreviation W := (Talk Request Answer X).

Definition fails (a : Answer) : option string := match a with Lost e => Some e | _ => None end.
Definition read_tx (a : Answer) : option XrplTransaction := match a with TxIs tx => Some tx | _ => None end.
Definition read_txs (a : Answer) : option (list XrplTransaction) := match a with TxsAre txs => Some txs | _ => None end.
Definition read_prepared (a : Answer) : option Prepared := match a with PreparedIs p => Some p | _ => None end.
Definition read_submitted (a : Answer) : option SubmitResponse := match a with Submitted r => Some r | _ => None end.
Definition read_flag (a : Answer) : option bool := match a with Flag b => Some b | _ => None end.

#[local] Instance talk_ledger : XRPLClientTrait W := {|
  call_submit := fun blob => map_err XOther (told fails read_submitted (Submit blob));
  call_tx := fun hash => map_err XOther (told fails read_tx (GetTx hash));
  get_transaction_by_id := fun hash => told fails read_tx (GetTx hash);
  get_transactions_for_account := fun account min => told fails read_txs (AccountTxs account min);
  get_available_tickets_for_account := fun account => on_aside (get_available_tickets_for_account account);
|}.
(** A refund does not look at the server: the three observations of [Redis]
    are for statements about it. *)
#[local] Instance talk_redis : Redis W := {|
  set_nx_ex := fun k ttl => told fails read_flag (SetNx k ttl);
  del := fun k => told fails read_flag (Del k);
  Redis.now := fun _ => 0; expiry := fun _ _ => None; healthy := fun _ => True;
|}.
#[local] Instance talk_prepare : XrplPrepare W := {|
  prepare_transaction := fun account => told fails read_prepared (Prepare account)
|}.
#[local] Instance talk_queued : QueuedTransactionsModel W := {|
  update_transaction_status := fun h s => on_aside (update_transaction_status h s);
  get_queued_transactions_ready_for_check := on_aside get_queued_transactions_ready_for_check;
  store_queued_transaction := fun h a n => on_aside (store_queued_transaction h a n);
  increment_retry := fun h => on_aside (increment_retry h);
|}.
Variable shuffle : list (string * string) -> list (string * string).
Variable config : XRPLConfig.
#[local] Instance talk_broadcaster : Broadcaster W := XRPLBroadcaster.
#[local] Instance talk_manager : RefundManager W := XRPLRefundManager shuffle config.

(** A refund task is consumed, over the requests. *)
Definition refund (task : RefundTask) : M W (result unit IncluderError) := consume_refund task.

(** What is read, and where a handler stops. *)
Lemma told_hears {B} (read : Answer -> option B) (s : Request) a b l rest (x : X) :
  fails a = None -> read a = Some b ->
  told fails read s (mkTalk l (a :: rest) None x) = (Done (Ok b), mkTalk (l ++ [(s, a)]) rest None x).
Proof. intros Hf Hr. unfold told. rewrite bind_run. cbn [ask Interleaving.answers Interleaving.said Interleaving.pending Interleaving.aside]. by rewrite Hf, Hr. Qed.
Lemma told_waits {B} (read : Answer -> option B) (s : Request) l (x : X) :
  told fails read s (mkTalk l [] None x) = (Panic "waiting for an answer", mkTalk l [] (Some s) x).
Proof. done. Qed.

(** ** One refund, many handlers *)

Section race.
Variable ledger : Rules.
Abbreviation Process := (Running Answer X RefundTask).
Definition servers_step := system_step (X := X) (executes ledger) drifts refund (fun _ _ => True).

Variable task : RefundTask.
Variables (recipient account : AccountId) (message : XRPLMessage) (payment : XrplTransaction) (since : Z).
Variables (secret address secret_bytes : string) (others : list (string * string)) (sk : SecretKey).
Let refund_id := id (refund_common task).
Let fields := GmpTypes.refund_task task.
Let key := INCLUDER_LOCK +:+ to_address account.
Let hash := trim_start_matches "0x" (tx_hash_to_string (message_tx_id message)).

(** The task is a sound one, the pool has a wallet, and the network works. *)
Hypothesis recipient_known : account_from_address (refund_recipient_address fields) = Ok recipient.
Hypothesis message_known : parse_message_from_context (task_meta (refund_common task)) = Ok message.
Hypothesis payment_ledger : ledger_index (common payment) = Some since.
Hypothesis native : token_id (remaining_gas_balance fields) = None.
Hypothesis picked : shuffle (combine (split ","%char (includer_secrets config)) (split ","%char (refund_manager_addresses config)))
  = (secret, address) :: others.
Hypothesis address_ok : account_from_address address = Ok account.
Hypothesis secret_hex : hex_decode secret = Ok secret_bytes.
Hypothesis secret_ok : parse_secret secret_bytes = Ok sk.
Hypothesis posted : forall es x, exists r x', post_events (W := X) es x = (Done r, x').

(** What is built of what the ledger filled in: [build_and_sign_tx] where
    that is known. *)
#[local] Instance filled (p : Prepared) : XrplPrepare unit := {| prepare_transaction := fun _ => ret (Ok p) |}.
Definition built (p : Prepared) : outcome (result (option (string * string * string)) RefundManagerError) :=
  fst (build_and_sign_tx (PR := filled p) (refund_recipient_address fields) (amount (remaining_gas_balance fields))
    refund_id account (public_of sk) sk tt).

(** The ledger makes the refund out of what is built, whatever refunds of the
    task it has made already. *)
Definition refundable (d : list XrplTransaction) : Prop := forall paid, Forall (fun t => refunds refund_id t = true) paid ->
  exists blob amt fee tx h, built (fill ledger (d ++ paid) account) = Done (Ok (Some (blob, amt, fee))) /\
    apply_blob ledger (d ++ paid) blob = Some tx /\ refunds refund_id tx = true /\ tx_hash_field (common tx) = Some h.

(** Up to what the ledger fills in, and past it. *)
Lemma build_asks r l : built r = Done (Ok (Some l)) -> forall s rest x,
  let build := build_and_sign_tx (W := W) (refund_recipient_address fields) (amount (remaining_gas_balance fields))
    refund_id account (public_of sk) sk in
  build (mkTalk s [] None x) = (Panic "waiting for an answer", mkTalk s [] (Some (Prepare account)) x) /\
  build (mkTalk s (PreparedIs r :: rest) None x) =
    (Done (Ok (Some l)), mkTalk (s ++ [(Prepare account, PreparedIs r)]) rest None x).
Proof.
  intros H s rest x. revert H. unfold built, build_and_sign_tx. cbv zeta. rewrite !bind_ok_run. cbn [ret].
  destruct (ok_or (parse_u64 _) _) as [n|]; [|done]. rewrite !bind_ok_run. cbn [ret].
  destruct (rmap_err _ (drops_amount n)); [|done]. rewrite !bind_ok_run. cbn [ret].
  destruct (rmap_err _ (account_from_address _)); [|done]. rewrite !bind_ok_run. cbn [ret].
  destruct (rmap_err _ (blob_from_hex (hex_encode_upper refund_id))); [|done]. rewrite !bind_ok_run. cbn [ret].
  destruct (rmap_err _ (blob_from_hex (hex_encode_upper "refund_id"))); [|done]. rewrite !bind_ok_run, !map_err_run.
  cbn [prepare_transaction filled talk_prepare]. rewrite told_waits, (told_hears _ _ _ r) by done. cbn [ret rmap_err].
  rewrite !bind_ok_run. cbn [ret].
  destruct (ok_or (prepared_fee r) _); [|done]. destruct (_ <=? 0); [done|]. rewrite !bind_ok_run. cbn [ret].
  destruct (rmap_err _ (drops_amount _)); [|done]. rewrite !bind_ok_run. cbn [ret].
  destruct (rmap_err _ (sign_payment _ _ _ _ _ _ _ _)); [|done]. rewrite !bind_ok_run. cbn [ret].
  destruct (rmap_err _ (serialize_payment _)); [|done]. by intros [= ->].
Qed.
(** The other requests of a refund. *)
Lemma check_asks txs s rest x :
  let check := xrpl_is_refund_processed (W := W) task refund_id in
  check (mkTalk s [] None x) = (Panic "waiting for an answer", mkTalk s [] (Some (GetTx hash)) x) /\
  check (mkTalk s [TxIs payment] None x) =
    (Panic "waiting for an answer", mkTalk (s ++ [(GetTx hash, TxIs payment)]) [] (Some (AccountTxs recipient since)) x) /\
  check (mkTalk s (TxIs payment :: TxsAre txs :: rest) None x) =
    (Done (Ok (existsb (refunds refund_id) txs)),
     mkTalk ((s ++ [(GetTx hash, TxIs payment)]) ++ [(AccountTxs recipient since, TxsAre txs)]) rest None x).
Proof.
  unfold xrpl_is_refund_processed. cbv zeta. fold fields. rewrite recipient_known, !bind_ok_run. cbn [ret rmap_err].
  rewrite message_known, !bind_ok_run. cbn [ret rmap_err]. rewrite !bind_ok_run, !map_err_run.
  cbn [get_transaction_by_id talk_ledger]. fold hash. rewrite told_waits, !(told_hears _ _ _ payment) by done. cbn [rmap_err].
  rewrite !bind_ok_run, payment_ledger. cbn [ok_or ret]. rewrite !bind_ok_run, !map_err_run.
  cbn [get_transactions_for_account talk_ledger]. by rewrite told_waits, (told_hears _ _ _ txs).
Qed.

Lemma pool_lock_asks s rest x :
  let lock := xrpl_get_wallet_lock (W := W) shuffle config in
  lock (mkTalk s [] None x) = (Panic "waiting for an answer", mkTalk s [] (Some (SetNx key 60)) x) /\
  lock (mkTalk s (Flag true :: rest) None x) =
    (Done (Ok (sk, public_of sk, account)), mkTalk (s ++ [(SetNx key 60, Flag true)]) rest None x).
Proof.
  unfold xrpl_get_wallet_lock. cbv zeta. rewrite picked. cbn [lock_some]. rewrite !bind_ok_run, address_ok. cbn [ret rmap_err].
  rewrite !bind_ok_run, !map_err_run. cbn [set_nx_ex talk_redis]. fold key. rewrite told_waits, (told_hears _ _ _ true) by done.
  cbn [rmap_err negb]. rewrite !bind_ok_run, secret_hex. cbn [ret rmap_err]. rewrite !bind_ok_run, secret_ok. done.
Qed.

Lemma broadcast_asks blob tx h s rest x : tx_hash_field (common tx) = Some h ->
  let broadcast := xrpl_broadcast_refund (W := W) blob in
  let applied := Submitted (mkSubmit _ _ tesSUCCESS "applied" tx) in
  broadcast (mkTalk s [] None x) = (Panic "waiting for an answer", mkTalk s [] (Some (Submit blob)) x) /\
  broadcast (mkTalk s (applied :: rest) None x) = (Done (Ok h), mkTalk (s ++ [(Submit blob, applied)]) rest None x).
Proof.
  intros Hh. unfold xrpl_broadcast_refund. cbv zeta. rewrite !bind_ok_run, !map_err_run. cbn [call_submit talk_ledger].
  rewrite !map_err_run, told_waits, (told_hears _ _ _ (mkSubmit _ _ tesSUCCESS "applied" tx)) by done. cbn [rmap_err tx_json engine_result].
  rewrite !bind_ok_run, Hh. cbn [ok_or ret]. by rewrite bool_decide_eq_true_2.
Qed.

Lemma pool_release_asks b s rest x :
  let release := xrpl_release_wallet_lock (W := W) (sk, public_of sk, account) in
  release (mkTalk s [] None x) = (Panic "waiting for an answer", mkTalk s [] (Some (Del key)) x) /\
  release (mkTalk s (Flag b :: rest) None x) = (Done (Ok tt), mkTalk (s ++ [(Del key, Flag b)]) rest None x).
Proof.
  unfold xrpl_release_wallet_lock. cbv zeta. rewrite !bind_ok_run, !map_err_run. cbn [del talk_redis snd]. fold key.
  by rewrite told_waits, (told_hears _ _ _ b).
Qed.

(** The processes of the task, from one answer to the next. *)
Lemma stages x txs p blob amt fee tx h b :
  existsb (refunds refund_id) txs = false -> built p = Done (Ok (Some (blob, amt, fee))) -> tx_hash_field (common tx) = Some h ->
  let applied := Submitted (mkSubmit _ _ tesSUCCESS "applied" tx) in
  let waits l := waits_for refund (mkRunning task x l) in
  waits [] = Some (GetTx hash) /\ waits [TxIs payment] = Some (AccountTxs recipient since) /\
  waits [TxIs payment; TxsAre txs] = Some (SetNx key 60) /\
  waits [TxIs payment; TxsAre txs; Flag true] = Some (Prepare account) /\
  waits [TxIs payment; TxsAre txs; Flag true; PreparedIs p] = Some (Submit blob) /\
  waits [TxIs payment; TxsAre txs; Flag true; PreparedIs p; applied] = Some (Del key) /\
  fst (talk refund (mkRunning task x [TxIs payment; TxsAre txs; Flag true; PreparedIs p; applied; Flag b])) = Done (Ok tt).
Proof.
  intros Hnew Hb Hh. cbv zeta. unfold waits_for, talk. cbn [about heard began]. unfold refund, consume_refund.
  cbn [is_refund_manager_managed is_refund_processed get_wallet_lock build_refund_tx release_wallet_lock broadcast_refund
    talk_manager talk_broadcaster XRPLRefundManager XRPLBroadcaster negb]. cbv zeta. fold refund_id fields. rewrite native.
  rewrite !bind_ok_run, !map_err_run.
  destruct (check_asks txs [] [] x) as (E1 & E2 & _). rewrite E1, E2. clear E1 E2.
  assert (E3 : forall l, xrpl_is_refund_processed (W := W) task refund_id (mkTalk [] (TxIs payment :: TxsAre txs :: l) None x) =
    (Done (Ok false), mkTalk [(GetTx hash, TxIs payment); (AccountTxs recipient since, TxsAre txs)] l None x))
    by (intros l; rewrite <- Hnew; apply (check_asks txs [] l x)).
  rewrite !E3. cbn [rmap_err]. cbv iota. rewrite !bind_ok_run, !map_err_run.
  set (s2 := [(GetTx hash, TxIs payment); _]). rewrite (proj1 (pool_lock_asks s2 [] x)). do 3 (split; [done|]).
  assert (E4 : forall l, xrpl_get_wallet_lock (W := W) shuffle config (mkTalk s2 (Flag true :: l) None x) =
    (Done (Ok (sk, public_of sk, account)), mkTalk (s2 ++ [(SetNx key 60, Flag true)]) l None x)) by (intros l; apply (pool_lock_asks s2 l x)).
  rewrite !E4. cbn [rmap_err fst snd]. rewrite !bind_ok_run, !map_err_run.
  set (s3 := s2 ++ _). rewrite (proj1 (build_asks p _ Hb s3 [] x)).
  pose proof (fun l => proj2 (build_asks p _ Hb s3 l x)) as E5. cbv beta zeta in E5. rewrite !E5. cbn [rmap_err].
  rewrite !bind_ok_run, !bind_run, !map_err_run. split; [done|]. set (s4 := s3 ++ _).
  rewrite (proj1 (broadcast_asks blob tx h s4 [] x Hh)).
  pose proof (fun l => proj2 (broadcast_asks blob tx h s4 l x Hh)) as E6. cbv beta zeta in E6. rewrite !E6. cbn [rmap_err].
  rewrite !bind_run. cbn [post_events talk_api]. rewrite !on_aside_run.
  cbn [Interleaving.answers Interleaving.said Interleaving.pending Interleaving.aside].
  destruct (posted [GasRefunded (mkCommonEvent "GAS_REFUNDED" h None) (message_id (refund_message fields))
    (refund_recipient_address fields) (mkAmount None amt) (mkAmount None fee)] x) as (r & x' & ->). cbn [fst snd ret].
  split; [done|]. rewrite !bind_ok_run, !map_err_run. set (s5 := s4 ++ _).
  rewrite (proj1 (pool_release_asks b s5 [] x')), (proj2 (pool_release_asks b s5 [] x')). done.
Qed.

(** What a check made at [d] reads. *)
Definition account_txs (d : Servers) : list XrplTransaction :=
  List.filter (fun tx => concerns ledger recipient tx && (since <=? index tx)) (history d).

(** A handler that passed the check pays, whatever others paid since. *)
Definition checked (d : Servers) (x : X) : Process :=
  mkRunning task x [TxIs payment; TxsAre (List.filter (fun tx => concerns ledger recipient tx && (since <=? index tx)) (history d))].

Lemma one_pays d x d' before after : refundable (history d) ->
  existsb (refunds refund_id) (account_txs d) = false ->
  (exists paid, history d' = history d ++ paid /\ Forall (fun t => refunds refund_id t = true) paid) -> key ∉ locked d' ->
  exists d'' tx p, rtc servers_step (mkSystem d' (before ++ (checked d x :: after))) (mkSystem d'' (before ++ (p :: after))) /\
    history d'' = history d' ++ [tx] /\ refunds refund_id tx = true /\ (key ∉ locked d'') /\
    about p = task /\ fst (talk refund p) = Done (Ok tt).
Proof.
  intros Hr Hnew (paid & Hd' & Hpaid) Hkey. destruct (Hr paid Hpaid) as (blob & amt & fee & tx & h & Hb & Ha & Htx & Hh).
  rewrite <- Hd' in Hb, Ha. set (txs := account_txs d) in Hnew.
  destruct (stages x txs _ blob amt fee tx h true Hnew Hb Hh) as (_ & _ & W3 & W4 & W5 & W6 & Hdone).
  set (applied := Submitted _) in *. set (r := fill _ _ _) in *.
  assert (Hstep : forall l s a e e', waits_for refund (mkRunning task x l) = Some s -> serve ledger s e = (a, e') ->
    servers_step (mkSystem e (before ++ mkRunning task x l :: after)) (mkSystem e' (before ++ mkRunning task x (l ++ [a]) :: after))).
  { intros l s a e e' Hw He. apply (step_statement (executes ledger) drifts refund (fun _ _ => True) _ before (mkRunning task x l) after s a e'); [done..|].
    by left. }
  set (locked' := {[key]} ∪ locked d'). 
  exists (mkServers (history d' ++ [tx]) (locked' ∖ {[key]})), tx, (mkRunning task x [TxIs payment; TxsAre txs; Flag true; PreparedIs r; applied; Flag true]).
  split; [|split; [done|split; [done|split; [set_solver|done]]]].
  eapply rtc_l; [eapply (Hstep _ _ (Flag true) _ (mkServers (history d') locked') W3); cbn; by rewrite bool_decide_eq_false_2|].
  eapply rtc_l; [by eapply (Hstep _ _ (PreparedIs r) _ _ W4)|].
  eapply rtc_l; [eapply (Hstep _ _ applied _ (mkServers (history d' ++ [tx]) locked') W5); cbn; by rewrite Ha|].
  eapply rtc_l; [eapply (Hstep _ _ (Flag true) _ _ W6); cbn; rewrite bool_decide_eq_true_2 by set_solver; reflexivity|].
  apply rtc_refl.
Qed.
Lemma all_pay d x n k (ended : list Process) : refundable (history d) -> existsb (refunds refund_id) (account_txs d) = false ->
  forall d', (exists paid, history d' = history d ++ paid /\ Forall (fun t => refunds refund_id t = true) paid /\ length paid = k) ->
  key ∉ locked d' -> Forall (fun p => about p = task /\ fst (talk refund p) = Done (Ok tt)) ended ->
  exists d'' all, rtc servers_step (mkSystem d' (ended ++ replicate n (checked d x))) (mkSystem d'' all) /\
    length all = (length ended + n)%nat /\ Forall (fun p => about p = task /\ fst (talk refund p) = Done (Ok tt)) all /\
    exists paid, history d'' = history d ++ paid /\ Forall (fun t => refunds refund_id t = true) paid /\ length paid = (k + n)%nat.
Proof.
  intros Hr Hnew. revert k ended. induction n as [|n IH]; intros k ended d' (paid & Hd' & Hp & Hk) Hkey Hended.
  { exists d', ended. cbn [replicate]. rewrite app_nil_r. split; [apply rtc_refl|]. split; [lia|]. split; [done|].
    exists paid. rewrite Nat.add_0_r. done. }
  destruct (one_pays d x d' ended (replicate n (checked d x)) Hr Hnew) as (d1 & tx & p & Hs & Hh & Htx & Hkey1 & Hdone); [by exists paid|done|].
  destruct (IH (S k) (ended ++ [p]) d1) as (d2 & all & Hs2 & Hl & Hall & Hpaid).
  - exists (paid ++ [tx]). rewrite Hh, Hd', <- app_assoc, length_app, Hk. split; [done|]. split; [|cbn; lia].
    apply Forall_app; by split; [|apply Forall_singleton].
  - done.
  - apply Forall_app; by split; [|apply Forall_singleton].
  - exists d2, all. rewrite length_app in Hl. cbn [length] in Hl.
    split; [|split; [lia|split; [done|by rewrite <- Nat.add_succ_comm]]].
    cbn [replicate]. etrans; [exact Hs|]. by rewrite <- app_assoc in Hs2.
Qed.

(** C37: the look at the recipient's transactions does not keep a refund from
    being paid twice.  It is made before the wallet is locked, and it is not
    made again: any number of handlers of one task that all look before one of
    them pays all pay, one after another under the lock of the same wallet,
    and all of them succeed. *)
Theorem refunds_race (n : nat) (d : Servers) (x : X) :
  List.find (fun tx => bool_decide (tx_hash_field (common tx) = Some hash)) (history d) = Some payment ->
  existsb (refunds refund_id) (account_txs d) = false -> key ∉ locked d -> refundable (history d) ->
  exists g paid, rtc servers_step (mkSystem d []) g /\ length (running g) = n /\
    Forall (fun p => about p = task /\ fst (talk refund p) = Done (Ok tt)) (running g) /\
    history (database g) = history d ++ paid /\ Forall (fun t => refunds refund_id t = true) paid /\ length paid = n.
Proof.
  intros Hfind Hnew Hkey Hr. set (p0 := mkRunning task x [] : Process).
  destruct (Hr [] (Forall_nil_2 _)) as (blob & amt & fee & tx & h & Hb & _ & _ & Hh).
  destruct (stages x (account_txs d) _ blob amt fee tx h true Hnew Hb Hh) as (W1 & W2 & _).
  destruct (all_pay d x n 0 [] Hr Hnew d) as (d' & all & Hs & Hl & Hall & paid & Hd' & Hpaid & Hn); [|done|done|].
  { exists []. by rewrite app_nil_r. }
  exists (mkSystem d' all), paid. split; [|done]. etrans; [|exact Hs]. etrans; [|etrans].
  - apply (all_start (executes ledger) drifts refund (fun _ _ => True) (mkSystem d []) task x n). done.
  - apply (all_answered (executes ledger) drifts refund (fun _ _ => True) p0 _ (TxIs payment) d n 0 W1).
    left. cbn. by rewrite Hfind.
  - apply (all_answered (executes ledger) drifts refund (fun _ _ => True) (hears p0 (TxIs payment)) _ (TxsAre (account_txs d)) d n 0 W2).
    by left.
Qed.
End race.
End world.

(** ** Concrete runs *)

Module RefundsDemo.
Export RefundDemo.
(** Payments with sequence numbers: the ledger takes the next one only. *)
Definition numbered (memo : string) (sequence : Z) : string := memo +:+ ":" +:+ print_Z sequence.
#[export] Instance sequences : XrplSigning := {|
  SecretKey := string; PublicKey := string; parse_secret := Ok; public_of := fun s => s;
  hex_encode_upper := fun s => s; Blob := string; blob_from_hex := Ok; Drops := Z;
  drops_amount := fun n => if n <=? MAX_DROPS then Ok n else Err "too much";
  Prepared := Z * Z; prepared_fee := fun p => Some (fst p);
  sign_payment := fun _ _ _ _ memo p _ _ => Ok (numbered memo (snd p)); serialize_payment := Ok;
|}.
Definition refund_payment (h : string) : XrplTransaction := tx_with KPayment h [mkMemo (Some "refund_id") (Some "t1")] (Some true).
Definition one_account : Rules := {|
  fill := fun l _ => (12, Z.of_nat (length l));
  apply_blob := fun l blob => if decide (blob = numbered "t1" (Z.of_nat (length l))) then Some (refund_payment blob) else None;
  concerns := fun _ _ => true;
|}.
Definition paid_for : XrplTransaction := tx_with KPayment "x1" [] (Some true).
Definition before_refunds : Servers := mkServers [paid_for] ∅.
#[export] Instance unasked : XRPLClientTrait unit := {|
  call_submit := fun _ => ret (Err (XApi "none")); call_tx := fun _ => ret (Err (XApi "none"));
  get_transaction_by_id := fun _ => ret (Err "none"); get_transactions_for_account := fun _ _ => ret (Err "none");
  get_available_tickets_for_account := fun _ => ret (Err "none");
|}.
Abbreviation demo_refund := (refund (X := unit) (XS := sequences) (CL := unasked) (QM := no_queue) (API := api) (fun l => l) demo_config).
End RefundsDemo.
Import RefundsDemo.

Lemma refunds_race_witness : exists g paid,
  rtc (servers_step (X := unit) (XS := sequences) (CL := unasked) (QM := no_queue) (API := api) (fun l => l) demo_config one_account)
    (mkSystem before_refunds []) g /\ length (running g) = 3%nat /\
  Forall (fun p => about p = task /\ fst (talk demo_refund p) = Done (Ok tt)) (running g) /\
  history (database g) = paid_for :: paid /\ Forall (fun t => refunds "t1" t = true) paid /\ length paid = 3%nat.
Proof.
  apply (refunds_race (X := unit) (XS := sequences) (CL := unasked) (QM := no_queue) (API := api) (fun l => l) demo_config one_account task "rUser" "r"
    (AddReservesMessage (mkAddReserves "x1" 0)) paid_for 50 "s" "r" "s" [] "s"); try reflexivity.
  - intros es x. by eexists _, _.
  - set_solver.
  - intros paid _. set (sequence := Z.of_nat (length (history before_refunds ++ paid))).
    exists (numbered "t1" sequence), "88", "12", (refund_payment (numbered "t1" sequence)), (numbered "t1" sequence).
    split; [reflexivity|]. split; [|by split]. cbn. by rewrite decide_True.
Defined.
