(* ===== verification/XrplTransactions.v ===== *)
(** * The table of XRPL transactions

    [xrpl/src/models/xrpl_transaction.rs]: a row per transaction of the
    multisig account, made when the transaction is first seen and updated as
    it is verified and routed. *)

From S2P Require Import Prelude.
From S2P Require Import Store.
From S2P Require Import GmpTypes.
From S2P Require Import Text.
From S2P Require Import Database.
From S2P Require Import TonLib.
From S2P Require Import Subscriber.
From S2P Require Import Xrpl.
From S2P Require Import XrplMessages.

(** src/xrpl/src/models/xrpl_transaction.rs:10-18 XrplTransactionType *)
Inductive XrplTransactionType : Type := TypeTicketCreate | TypePayment | TypeSignerListSet | TypeTrustSet | TypeUnexpected.

(** src/xrpl/src/models/xrpl_transaction.rs:20-24 XrplTransactionType::default *)
Definition default_type : XrplTransactionType := TypeUnexpected.

(** src/xrpl/src/models/xrpl_transaction.rs:29-37 XrplTransactionType::try_from *)
Definition type_try_from `{!XrplLib, !XrplApi} (tx : XrplTransaction) : option XrplTransactionType :=
  match kind tx with
  | KPayment => Some TypePayment
  | KTicketCreate => Some TypeTicketCreate
  | KSignerListSet => Some TypeSignerListSet
  | KTrustSet => Some TypeTrustSet
  | KOther => None
  end.

(** src/xrpl/src/models/xrpl_transaction.rs:40-47 XrplTransactionStatus *)
Inductive XrplTransactionStatus : Type := Detected | Initialized | Verified | Routed.
#[export] Instance XrplTransactionStatus_eq_dec : EqDecision XrplTransactionStatus.
Proof. solve_decision. Defined.

(** src/xrpl/src/models/xrpl_transaction.rs:49-54 XrplTransactionSource *)
Inductive XrplTransactionSource : Type := SourceProver | SourceUser.

(** src/xrpl/src/models/xrpl_transaction.rs:56-71 XrplTransaction *)
Record XrplRow : Type := mkXrplRow {
  row_tx_hash : string;
  row_tx_json : string;
  row_tx_type : XrplTransactionType;
  row_message_id : option string;
  row_message_type : option string;
  row_status : XrplTransactionStatus;
  row_verify_task : option string;
  row_verify_tx : option string;
  row_quorum_reached_task : option string;
  row_route_tx : option string;
  row_source : XrplTransactionSource;
  row_sequence : option Z;
  row_created_at : Z;
}.

Section from_native.
Context {XL : XrplLib} {XA : XrplApi} {XP : XrplPayments} {XMA : XrplAmplifier} {CC : CrossChain} {SE : XrplSerde}
  {C : Codecs}.

(** The ledger counts seconds from the first of January 2000.  The date is a
    [u32], so the sum is an integer that [Decimal] holds exactly, that reads
    back as an [i64] and that is a date for [chrono]. *)
Definition ripple_epoch : Z := 946684800.

(** The type memo, when there is one that is a message type. *)
Definition type_memo (memos : option (list Memo)) : option XRPLMessageType :=
  match extract_and_decode_memo memos "type" with
  | Ok message_type_str =>
      match message_type_from_str (String "034"%char (message_type_str +:+ String "034"%char "")) with
      | Ok ty => Some ty
      | Err _ => None
      end
  | Err _ => None
  end.

(** src/xrpl/src/models/xrpl_transaction.rs:74-125 XrplTransaction::from_native_transaction *)
Definition from_native_transaction (tx : XrplTransaction) (multisig_address : string) : result XrplRow string :=
  try? hash := ok_or (tx_hash_field (Xrpl.common tx)) "No hash found" in
  let tx_hash := to_lowercase hash in
  try? date := ok_or (tx_date tx) "No date found" in
  Ok {|
    row_tx_hash := tx_hash;
    row_tx_json := match tx_to_json tx with Ok s => s | Err _ => "" end;
    row_tx_type := default default_type (type_try_from tx);
    row_message_id := Some tx_hash;
    row_message_type := message_type_to_string <$> type_memo (memos (Xrpl.common tx));
    row_status := Detected;
    row_verify_task := None;
    row_verify_tx := None;
    row_quorum_reached_task := None;
    row_route_tx := None;
    row_source := if bool_decide (tx_account (Xrpl.common tx) = multisig_address) then SourceProver else SourceUser;
    row_sequence := Some (default (tx_sequence (Xrpl.common tx)) (ticket_sequence (Xrpl.common tx)));
    row_created_at := date + ripple_epoch;
  |}.
End from_native.

(** ** The table *)

(** The statements on the table: those of [Model], and the updates of one
    column. *)
Class XrplTransactionModel (W : Type) : Type := {
  xtx_model :: Model XrplRow string W;
  update_status : string -> XrplTransactionStatus -> M W (result unit string);
  update_verify_task : string -> string -> M W (result unit string);
  update_verify_tx : string -> string -> M W (result unit string);
  update_quorum_reached_task : string -> string -> M W (result unit string);
  update_route_tx : string -> string -> M W (result unit string);
}.

Abbreviation XrplTxDb := (Store (gmap string XrplRow)).

(** src/xrpl/src/models/xrpl_transaction.rs:135-142 PgXrplTransactionModel::find *)
Definition xtx_find (id : string) : M XrplTxDb (result (option XrplRow) string) :=
  sql_query (fun _ t => t !! id).

(** src/xrpl/src/models/xrpl_transaction.rs:144-168 PgXrplTransactionModel::upsert *)
Definition xtx_upsert (tx : XrplRow) : M XrplTxDb (result unit string) :=
  sql_exec (fun _ => insert (row_tx_hash tx) tx).

(** src/xrpl/src/models/xrpl_transaction.rs:170-178 PgXrplTransactionModel::delete *)
Definition xtx_delete (tx : XrplRow) : M XrplTxDb (result unit string) :=
  sql_exec (fun _ => delete (row_tx_hash tx)).

Definition set_row_status (s : XrplTransactionStatus) (r : XrplRow) : XrplRow :=
  mkXrplRow (row_tx_hash r) (row_tx_json r) (row_tx_type r) (row_message_id r) (row_message_type r) s
    (row_verify_task r) (row_verify_tx r) (row_quorum_reached_task r) (row_route_tx r) (row_source r) (row_sequence r)
    (row_created_at r).
Definition set_verify_task (s : string) (r : XrplRow) : XrplRow :=
  mkXrplRow (row_tx_hash r) (row_tx_json r) (row_tx_type r) (row_message_id r) (row_message_type r) (row_status r)
    (Some s) (row_verify_tx r) (row_quorum_reached_task r) (row_route_tx r) (row_source r) (row_sequence r)
    (row_created_at r).
Definition set_verify_tx (s : string) (r : XrplRow) : XrplRow :=
  mkXrplRow (row_tx_hash r) (row_tx_json r) (row_tx_type r) (row_message_id r) (row_message_type r) (row_status r)
    (row_verify_task r) (Some s) (row_quorum_reached_task r) (row_route_tx r) (row_source r) (row_sequence r)
    (row_created_at r).
Definition set_quorum_reached_task (s : string) (r : XrplRow) : XrplRow :=
  mkXrplRow (row_tx_hash r) (row_tx_json r) (row_tx_type r) (row_message_id r) (row_message_type r) (row_status r)
    (row_verify_task r) (row_verify_tx r) (Some s) (row_route_tx r) (row_source r) (row_sequence r)
    (row_created_at r).
Definition set_route_tx (s : string) (r : XrplRow) : XrplRow :=
  mkXrplRow (row_tx_hash r) (row_tx_json r) (row_tx_type r) (row_message_id r) (row_message_type r) (row_status r)
    (row_verify_task r) (row_verify_tx r) (row_quorum_reached_task r) (Some s) (row_source r) (row_sequence r)
    (row_created_at r).

(** src/xrpl/src/models/xrpl_transaction.rs:186-199 PgXrplTransactionModel::update_status *)
Definition xtx_update_status (tx_hash : string) (status : XrplTransactionStatus) : M XrplTxDb (result unit string) :=
  sql_exec (fun _ => alter (set_row_status status) tx_hash).

(** src/xrpl/src/models/xrpl_transaction.rs:201-213 PgXrplTransactionModel::update_verify_task *)
Definition xtx_update_verify_task (tx_hash verify_task : string) : M XrplTxDb (result unit string) :=
  sql_exec (fun _ => alter (set_verify_task verify_task) tx_hash).

(** src/xrpl/src/models/xrpl_transaction.rs:215-227 PgXrplTransactionModel::update_verify_tx *)
Definition xtx_update_verify_tx (tx_hash verify_tx : string) : M XrplTxDb (result unit string) :=
  sql_exec (fun _ => alter (set_verify_tx verify_tx) tx_hash).

(** src/xrpl/src/models/xrpl_transaction.rs:229-245 PgXrplTransactionModel::update_quorum_reached_task *)
Definition xtx_update_quorum_reached_task (tx_hash quorum_reached_task : string) : M XrplTxDb (result unit string) :=
  sql_exec (fun _ => alter (set_quorum_reached_task quorum_reached_task) tx_hash).

(** src/xrpl/src/models/xrpl_transaction.rs:247-259 PgXrplTransactionModel::update_route_tx *)
Definition xtx_update_route_tx (tx_hash route_tx : string) : M XrplTxDb (result unit string) :=
  sql_exec (fun _ => alter (set_route_tx route_tx) tx_hash).

(** [quorum_reached_task IS NULL AND verify_tx IS NOT NULL AND created_at <
    NOW() - INTERVAL '5 minutes']. *)
Definition expired (now : Z) (r : XrplRow) : bool :=
  bool_decide (row_quorum_reached_task r = None) && bool_decide (is_Some (row_verify_tx r)) &&
  (row_created_at r <? now - 300).

(** src/xrpl/src/models/xrpl_transaction.rs:261-271 PgXrplTransactionModel::find_expired_events *)
Definition find_expired_events : M XrplTxDb (result (list XrplRow) string) :=
  sql_query (fun now t => List.filter (expired now) (map snd (map_to_list t))).

(** src/xrpl/src/models/xrpl_transaction.rs:134-179 impl Model for PgXrplTransactionModel *)
#[export] Instance PgXrplModel : Model XrplRow string XrplTxDb := {|
  model_upsert := xtx_upsert; model_find := xtx_find; model_delete := xtx_delete;
|}.

(** src/xrpl/src/models/xrpl_transaction.rs:181-272 impl PgXrplTransactionModel *)
#[export] Instance PgXrplTransactionModel : XrplTransactionModel XrplTxDb := {|
  xtx_model := PgXrplModel;
  update_status := xtx_update_status;
  update_verify_task := xtx_update_verify_task;
  update_verify_tx := xtx_update_verify_tx;
  update_quorum_reached_task := xtx_update_quorum_reached_task;
  update_route_tx := xtx_update_route_tx;
|}.
