(* ===== verification/XrplIngestor.v ===== *)
(** * The XRPL ingestor

    [xrpl/src/ingestor.rs]: a payment to the multisig account becomes a
    message for the gateway and the events it stands for; a transaction of the
    prover is handed to the verifiers; the tasks that follow (verify, quorum
    reached, construct proof, retry) become broadcasts. *)

From S2P Require Import Prelude.
From S2P Require Import Decimal.
From S2P Require Import GmpTypes.
From S2P Require Import Text.
From S2P Require Import GmpApi.
From S2P Require Import Database.
From S2P Require Import TonLib.
From S2P Require Import TonParsers.
From S2P Require Import Subscriber.
From S2P Require Import Ingestor.
From S2P Require Import Config.
From S2P Require Import Xrpl.
From S2P Require Import XrplMessages.
From S2P Require Import XrplTransactions.

(** src/xrpl/src/ingestor.rs:51-51 MAX_TASK_RETRIES *)
Definition MAX_TASK_RETRIES : Z := 5.

Abbreviation Res A := (result A IngestorError).
Definition generic {A} (r : result A string) : Res A := rmap_err IngGenericError r.
Definition generic_with {A} (what : string) (r : result A string) : Res A :=
  rmap_err (fun e => IngGenericError (what +:+ e)) r.

Section ingestor.
Context {XL : XrplLib} {L : TonLib} {XA : XrplApi} {XP : XrplPayments} {XMA : XrplAmplifier} {PS : PaymentSub}
  {CC : CrossChain} {SE : XrplSerde} {C : Codecs} {J : Json} {DL : DecimalLib} {DO : DecimalOps}.
Context {W : Type} {XM : XrplMessages} {API : GmpApiTrait W} {TM : XrplTransactionModel W}
  {TR : Model TaskRetries string W} {PC : PayloadCacheTrait W} {PV : PriceViewTrait W} {HT : XrplHttp W}
  {NOW : Rfc3339Now W}.
Variable show_f64 : F64 -> string.
Variable config : XRPLConfig.

Definition gateway : string := chain_gateway (axelar_contracts (common_config config)).
Definition prover : string := chain_multisig_prover (axelar_contracts (common_config config)).

(** ** Verification *)

(** src/xrpl/src/ingestor.rs:167-202 XrplIngestor::verify_message *)
Definition xrpl_verify_message (message : XRPLMessage) : M W (Res unit) :=
  let? value := ret (generic_with "Failed to serialize VerifyMessages: " (gateway_to_value (VerifyMessages [message]))) in
  let? verify_tx_hash := map_err (fun e => IngGenericError (show_GmpApiError e))
    (post_broadcast gateway (BroadcastGeneric value)) in
  let xrpl_tx_hash := tx_hash_as_hex_no_prefix (message_tx_id message) in
  map_err IngGenericError (update_verify_tx xrpl_tx_hash verify_tx_hash).

(** src/xrpl/src/ingestor.rs:234-268 XrplIngestor::handle_prover_tx *)
Definition handle_prover_tx (tx : XrplTransaction) : M W (Res (list Event)) :=
  let? unsigned_tx_hash := ret (generic (extract_and_decode_memo (memos (Xrpl.common tx)) "unsigned_tx_hash")) in
  let? unsigned_tx_hash_bytes := ret (generic_with "Failed to decode unsigned tx hash: " (hex_decode unsigned_tx_hash)) in
  let? hash := ret (ok_or (tx_hash_field (Xrpl.common tx)) (IngGenericError "Transaction missing hash")) in
  let? hash_bytes := ret (rmap_err (fun _ => IngGenericError "Cannot decode tx hash") (hex_decode hash)) in
  let? tx_id := ret (ok_or (to_32_bytes hash_bytes)
    (IngGenericError "Cannot convert tx hash to bytes: invalid length")) in
  let? unsigned := ret (ok_or (to_32_bytes unsigned_tx_hash_bytes)
    (IngGenericError "Cannot convert unsigned tx hash to bytes: invalid length")) in
  let? _v := xrpl_verify_message (ProverMessage (mkProver tx_id unsigned)) in
  ret (Ok []).

(** ** Queries *)

(** src/xrpl/src/ingestor.rs:270-316 XrplIngestor::get_token_id *)
Definition get_token_id (message : XRPLMessage) : M W (Res (option TokenId)) :=
  let? token := ret (match message with
    | InterchainTransferMessage m => Ok (it_transfer_amount m)
    | CallContractMessage m => Ok (ccm_gas_fee_amount m)
    | AddGasMessage m => Ok (ag_amount m)
    | _ => Err (IngGenericError "Unsupported payment type")
    end) in
  match token with
  | PIssued token _ =>
      let? value := ret (generic_with "Failed to serialize query: " (gateway_query_to_value (XrplTokenId token))) in
      let? response_body := map_err (fun e => IngGenericError ("Failed to get token id: " +:+ show_GmpApiError e))
        (post_query gateway (QueryGeneric value)) in
      let? token_id := ret (generic_with "Failed to parse token id: " (token_id_from_str response_body)) in
      ret (Ok (Some token_id))
  | PDrops _ => ret (Ok None)
  end.

(** src/xrpl/src/ingestor.rs:318-397 XrplIngestor::translate_message *)
Definition translate_message (message : XRPLMessage) (payload : option HexBinary) :
  M W (result (option MessageWithPayload * TokenId) ITSTranslationError) :=
  let? query := ret (match message with
    | InterchainTransferMessage m => Ok (QueryInterchainTransfer m payload)
    | CallContractMessage m =>
        try? payload := ok_or payload (ItsNoPayload "Payload is required for CallContractMessage") in
        Ok (QueryCallContract m payload)
    | _ => Err (ItsInvalidMessageType (debug_message message))
    end) in
  let? value := ret (rmap_err (fun e => ItsSerializationError ("Failed to serialize query: " +:+ e))
    (gateway_query_to_value query)) in
  let? response_body := map_err (fun e => ItsRequestError (show_GmpApiError e)) (post_query gateway (QueryGeneric value)) in
  ret (match message with
    | InterchainTransferMessage _ =>
        rmap_err (fun e => ItsSerializationError ("Failed to parse InterchainTransfer Message: " +:+ e))
          (interchain_transfer_from_str response_body)
    | CallContractMessage _ =>
        try? response := rmap_err (fun e => ItsSerializationError ("Failed to parse CallContract Message: " +:+ e))
          (call_contract_from_str response_body) in
        Ok (Some (fst response), snd response)
    | _ => Err (ItsInvalidMessageType (debug_message message))
    end).

(** ** Events *)

Definition text_of_id (tx_id : string) : string := to_lowercase (tx_hash_to_string tx_id).

(** The [call] event of a translated message. *)
Definition call_event (message : XRPLMessage) (source_context : gmap string string) (m : RouterMessage)
    (b64_payload timestamp : string) : Event :=
  let tx_id := text_of_id (message_tx_id message) in
  Call (mkCommonEvent "CALL" (tx_id +:+ "-call") (Some (mkEventMeta (Some tx_id) None None (Some source_context) timestamp)))
    (mkMessage (to_lowercase (rm_message_id m)) (rm_source_chain m) (rm_source_address m) (rm_destination_address m)
       (hex_encode (rm_payload_hash m)))
    (rm_destination_chain m) b64_payload.

(** src/xrpl/src/ingestor.rs:399-481 XrplIngestor::call_event_from_message *)
Definition call_event_from_message (with_payload : WithPayload) : M W (Res (option Event)) :=
  let message := wp_message with_payload in
  let? text := ret (generic_with "Failed to serialize xrpl_message: " (message_to_str message)) in
  let source_context := {["xrpl_message" := text]} in
  let! translation_result := translate_message message (wp_payload with_payload) in
  match translation_result with
  | Err (ItsRequestError e | ItsSerializationError e) => ret (Err (IngGenericError e))
  | Err (ItsInvalidMessageType _ | ItsNoPayload _) => ret (Ok None)
  | Ok (None, _) => ret (Ok None)
  | Ok (Some message_with_payload, _) =>
      let m := mp_message message_with_payload in
      let? xrpl_tx_hash := ret (ok_or (strip_prefix "0x" (rm_message_id m))
        (IngGenericError "Message id is not prefixed with 0x")) in
      let? _u := map_err IngGenericError (update_status xrpl_tx_hash Initialized) in
      let? bytes := ret (generic_with "Failed to decode payload: "
        (hex_decode (hex_binary_to_string (mp_payload message_with_payload)))) in
      let! timestamp := now_rfc3339 in
      ret (Ok (Some (call_event message source_context m (base64_encode bytes) timestamp)))
  end.

(** An amount of a token, in its smallest unit. *)
(** src/xrpl/src/ingestor.rs:505-534 XrplIngestor::its_interchain_transfer_event (an issued amount) *)
Definition scaled_amount (amount : XRPLTokenAmount) (token_id : TokenId) : M W (Res string) :=
  let? original_amount := ret (generic_with ("Failed to parse amount " +:+ token_amount_to_string amount +:+ ": ")
    (dec_from_scientific (token_amount_to_string amount))) in
  let? token_decimals := ret (ok_or (get_token_decimals (common_config config) (token_id_to_string token_id))
    (IngGenericError "Token id not found")) in
  let! power := run_outcome (dec_from_i128 (wrap_i128 (10 ^ token_decimals))) in
  let? amount_with_decimals := ret (ok_or (dec_checked_mul original_amount power)
    (IngGenericError "Failed to multiply amount by token decimals")) in
  ret (Ok (dec_to_string (dec_trunc amount_with_decimals))).

(** src/xrpl/src/ingestor.rs:483-573 XrplIngestor::its_interchain_transfer_event *)
Definition its_interchain_transfer_event (message : XRPLMessage) (maybe_token_id : option TokenId) : M W (Res Event) :=
  match message with
  | InterchainTransferMessage m =>
      let? spent := match it_transfer_amount m with
        | PDrops amount =>
            let? token := ret (ok_or (get_token_by_symbol (common_config config) "XRP")
              (IngGenericError "XRP token id not found")) in
            ret (Ok (print_u64 amount, token_config_id token))
        | PIssued _ amount =>
            match maybe_token_id with
            | Some token_id =>
                let? amount := scaled_amount amount token_id in
                ret (Ok (amount, token_id_to_string token_id))
            | None => ret (Err (IngGenericError "Token id can't be None for IOU transfer"))
            end
        end in
      let! timestamp := now_rfc3339 in
      ret (Ok (ITSInterchainTransfer
        (mkCommonEvent "ITS/INTERCHAIN_TRANSFER" ("its-interchain-transfer-" +:+ tx_hash_to_string (it_tx_id m))
           (Some (mkEventMeta (Some (text_of_id (it_tx_id m))) None None None timestamp)))
        (tx_hash_to_string (it_tx_id m)) (chain_name_to_string (it_destination_chain m))
        (mkAmount (Some (snd spent)) (fst spent)) (xrpl_account_to_string (it_source_address m))
        (nonempty_to_string (it_destination_address m)) (repeat_string "0" 32)))
  | _ => ret (Err (IngGenericError ("Cannot create ITSInterchainTransfer event for message: " +:+ debug_message message)))
  end.

(** What a gas credit is made from: the message it is for, who paid, how much. *)
Definition gas_payment (message : XRPLMessage) : option (string * string * XRPLPaymentAmount) :=
  match message with
  | InterchainTransferMessage m =>
      Some (text_of_id (it_tx_id m), xrpl_account_to_string (it_source_address m), it_gas_fee_amount m)
  | CallContractMessage m =>
      Some (text_of_id (ccm_tx_id m), xrpl_account_to_string (ccm_source_address m), ccm_gas_fee_amount m)
  | AddGasMessage m => Some (text_of_id (ag_msg_id m), xrpl_account_to_string (ag_source_address m), ag_amount m)
  | _ => None
  end.

(** src/xrpl/src/ingestor.rs:576-665 XrplIngestor::gas_credit_event_from_payment *)
Definition gas_credit_event_from_payment (with_payload : WithPayload) (maybe_token_id : option TokenId) : M W (Res Event) :=
  let message := wp_message with_payload in
  let tx_id := text_of_id (message_tx_id message) in
  let? paid := ret (ok_or (gas_payment message)
    (IngGenericError ("Gas credit event not supported for this message type: " +:+ debug_message message))) in
  let '(msg_id, source_address, gas_fee_amount) := paid in
  let? gas_fee_amount_drops := match gas_fee_amount with
    | PDrops amount => ret (Ok (print_u64 amount))
    | PIssued _ amount =>
        match maybe_token_id with
        | Some gas_token_id =>
            let? amount := ret (generic_with ("Failed to parse amount " +:+ token_amount_to_string amount +:+ ": ")
              (dec_from_scientific (token_amount_to_string amount))) in
            map_err IngGenericError
              (convert_token_amount_to_drops show_f64 (common_config config) amount (token_id_to_string gas_token_id))
        | None => ret (Err (IngGenericError "Gas token id can't be None for IOU transfer"))
        end
    end in
  let! timestamp := now_rfc3339 in
  ret (Ok (GasCredit
    (mkCommonEvent "GAS_CREDIT" (tx_id +:+ "-gas") (Some (mkEventMeta (Some tx_id) None None None timestamp)))
    msg_id source_address (mkAmount None gas_fee_amount_drops))).

(** ** Payments *)

Definition is_interchain_transfer (message : XRPLMessage) : bool :=
  match message with InterchainTransferMessage _ => true | _ => false end.

(** src/xrpl/src/ingestor.rs:121-165 XrplIngestor::handle_gmp_message *)
Definition handle_gmp_message (with_payload : WithPayload) : M W (Res (list Event)) :=
  let? maybe_event := call_event_from_message with_payload in
  match maybe_event with
  | None => ret (Ok [])
  | Some event =>
      let? token_id := get_token_id (wp_message with_payload) in
      let? gas_event := gas_credit_event_from_payment with_payload token_id in
      if is_interchain_transfer (wp_message with_payload) then
        let? its_event := its_interchain_transfer_event (wp_message with_payload) token_id in
        ret (Ok [event; gas_event; its_event])
      else ret (Ok [event; gas_event])
  end.

(** src/xrpl/src/ingestor.rs:205-221 XrplIngestor::handle_add_gas_message *)
Definition handle_add_gas_message (with_payload : WithPayload) : M W (Res (list Event)) :=
  let? token_id := get_token_id (wp_message with_payload) in
  let? gas_credit_event := gas_credit_event_from_payment with_payload token_id in
  let? _v := xrpl_verify_message (wp_message with_payload) in
  ret (Ok [gas_credit_event]).

(** src/xrpl/src/ingestor.rs:224-232 XrplIngestor::handle_add_reserves_message *)
Definition handle_add_reserves_message (with_payload : WithPayload) : M W (Res (list Event)) :=
  let? _v := xrpl_verify_message (wp_message with_payload) in
  ret (Ok []).

(** src/xrpl/src/ingestor.rs:935-978 XrplIngestor::parse_payload_and_payload_hash *)
Definition parse_payload_and_payload_hash (ms : option (list Memo)) : M W (Res (option string * option string)) :=
  let payload_hash_memo := extract_from_xrpl_memo ms "payload_hash" in
  let payload_memo := extract_from_xrpl_memo ms "payload" in
  match payload_memo, payload_hash_memo with
  | Ok _, Ok _ =>
      ret (Err (IngGenericError "Payment transaction cannot have both 'payload' and 'payload_hash' memos"))
  | Ok payload_str, Err _ =>
      let? bytes := ret (generic_with "Failed to decode payload: " (hex_decode payload_str)) in
      let? hash := map_err (fun e => IngGenericError ("Failed to store payload in cache: " +:+ show_GmpApiError e))
        (post_payload bytes) in
      ret (Ok (Some payload_str, Some hash))
  | Err _, Ok payload_hash_str =>
      let? payload_retrieved :=
        map_err (fun e => IngGenericError ("Failed to get payload from cache: " +:+ show_GmpApiError e))
        (get_payload payload_hash_str) in
      ret (Ok (Some payload_retrieved, Some payload_hash_str))
  | Err _, Err _ => ret (Ok (None, None))
  end.

(** The 32 bytes of a payload hash. *)
Definition payload_hash_bytes (payload_hash : string) : Res string :=
  try? bytes := rmap_err (fun _ => IngGenericError "Failed to hex-decode payload_hash") (hex_decode payload_hash) in
  ok_or (to_32_bytes bytes) (IngGenericError "Invalid length of payload_hash bytes").

Definition destination_of (destination_address destination_chain : string) : Res (NonEmptyString * ChainNameRaw) :=
  try? address := generic_with "Invalid destination_address: " (nonempty_from_str destination_address) in
  try? chain := generic_with "Invalid destination_chain: " (chain_name_from_str destination_chain) in
  Ok (address, chain).

(** The message of a transfer or of a call, its payload hash known. *)
(** src/xrpl/src/ingestor.rs:1029-1085 XrplIngestor::build_xrpl_message (transfers) *)
Definition interchain_transfer (tx_id : string) (source_address : XRPLAccountId) (address chain : string)
    (payload_hash : option string) (amount gas_fee_amount : XRPLPaymentAmount) : Res XRPLMessage :=
  try? destination := destination_of address chain in
  try? hash := match payload_hash with
    | Some h => try? bytes := payload_hash_bytes h in Ok (Some bytes)
    | None => Ok None
    end in
  try? transfer_amount := rmap_err (fun e => match e with
      | SubtractionUnderflow => IngGenericError "Transfer amount is less than gas fee amount"
      | OtherXRPLError s => IngGenericError ("Failed to subtract gas fee amount: " +:+ s)
      end) (payment_sub amount gas_fee_amount) in
  Ok (InterchainTransferMessage (mkInterchainTransfer tx_id source_address (fst destination) (snd destination) hash
    transfer_amount gas_fee_amount)).

(** src/xrpl/src/ingestor.rs:1086-1121 XrplIngestor::build_xrpl_message (calls) *)
Definition call_contract (tx_id : string) (source_address : XRPLAccountId) (address chain : string)
    (payload_hash : option string) (gas_fee_amount : XRPLPaymentAmount) : Res XRPLMessage :=
  try? destination := destination_of address chain in
  try? h := ok_or payload_hash (IngGenericError "Payload hash is required for CallContract") in
  try? hash := payload_hash_bytes h in
  Ok (CallContractMessage (mkCallContract tx_id source_address (fst destination) (snd destination) hash gas_fee_amount)).

(** src/xrpl/src/ingestor.rs:1011-1141 XrplIngestor::build_xrpl_message (transfers and calls) *)
Definition build_gmp_message (transfer : bool) (ms : option (list Memo)) (tx_id : string) (source_address : XRPLAccountId)
    (amount : XRPLPaymentAmount) : M W (Res WithPayload) :=
  let? gas_fee_amount := ret (
    if transfer then
      try? fee := generic (extract_and_decode_memo ms "gas_fee_amount") in
      parse_gas_fee_amount amount fee
    else Ok amount) in
  let? destination_chain := ret (generic (extract_and_decode_memo ms "destination_chain")) in
  let? destination_address := ret (generic (extract_and_decode_memo ms "destination_address")) in
  let? payload_and_hash := parse_payload_and_payload_hash ms in
  let '(payload, payload_hash) := payload_and_hash in
  let? message := ret (
    if transfer then
      interchain_transfer tx_id source_address destination_address destination_chain payload_hash amount gas_fee_amount
    else call_contract tx_id source_address destination_address destination_chain payload_hash gas_fee_amount) in
  match payload with
  | Some payload =>
      let? bytes := ret (generic_with "Failed to decode payload: " (hex_decode payload)) in
      let? binary := ret (generic_with "Failed to convert payload to HexBinary: " (hex_binary_from_bytes bytes)) in
      ret (Ok (mkWithPayload message (Some binary)))
  | None => ret (Ok (mkWithPayload message None))
  end.

(** Additions of gas and of reserves; the other types are refused. *)
(** src/xrpl/src/ingestor.rs:1142-1182 XrplIngestor::build_xrpl_message (gas and reserves) *)
Definition build_other_message (message_type : XRPLMessageType) (ms : option (list Memo)) (tx_id : string)
    (source_address : XRPLAccountId) (amount : XRPLPaymentAmount) : M W (Res WithPayload) :=
  match message_type with
  | TAddGas =>
      let? msg_tx_id := ret (generic (extract_and_decode_memo ms "msg_id")) in
      let? msg_tx_id_bytes := ret (generic_with "Failed to decode unsigned tx hash: " (hex_decode msg_tx_id)) in
      let? msg_id := ret (ok_or (to_32_bytes msg_tx_id_bytes) (IngGenericError "Invalid length of msg_tx_id bytes")) in
      ret (Ok (mkWithPayload (AddGasMessage (mkAddGas tx_id source_address msg_id amount)) None))
  | TAddReserves =>
      match amount with
      | PDrops drops => ret (Ok (mkWithPayload (AddReservesMessage (mkAddReserves tx_id drops)) None))
      | PIssued _ _ => ret (Err (IngGenericError "Add fee reserve requires amount to be in XRP drops"))
      end
  | _ => ret (Err (IngGenericError ("Unsupported message type: " +:+ message_type_to_string message_type)))
  end.

(** src/xrpl/src/ingestor.rs:980-1141 XrplIngestor::build_xrpl_message *)
Definition build_xrpl_message (payment : XrplTransaction) : M W (Res WithPayload) :=
  let? tx_hash := ret (ok_or (tx_hash_field (Xrpl.common payment))
    (IngGenericError "Payment transaction missing field 'hash'")) in
  let? tx_bytes := ret (rmap_err (fun _ => IngGenericError "Failed to hex-decode tx_id") (hex_decode tx_hash)) in
  let? tx_id := ret (ok_or (to_32_bytes tx_bytes) (IngGenericError "Invalid length of tx_id bytes")) in
  let ms := memos (Xrpl.common payment) in
  let? message_type_str := ret (generic (extract_and_decode_memo ms "type")) in
  let? message_type := ret (generic_with ("Failed to parse message type " +:+ message_type_str +:+ ": ")
    (message_type_from_str (String "034"%char (message_type_str +:+ String "034"%char "")))) in
  let? amount := ret (parse_payment_amount payment) in
  let? source_address := ret (generic_with "Invalid source account: "
    (xrpl_account_from_str (tx_account (Xrpl.common payment)))) in
  match message_type with
  | TInterchainTransfer => build_gmp_message true ms tx_id source_address amount
  | TCallContract => build_gmp_message false ms tx_id source_address amount
  | _ => build_other_message message_type ms tx_id source_address amount
  end.

(** src/xrpl/src/ingestor.rs:95-118 XrplIngestor::handle_payment *)
Definition handle_payment (payment : XrplTransaction) : M W (Res (list Event)) :=
  let! built := build_xrpl_message payment in
  match built with
  | Ok message_with_payload =>
      match wp_message message_with_payload with
      | InterchainTransferMessage _ | CallContractMessage _ => handle_gmp_message message_with_payload
      | AddGasMessage _ => handle_add_gas_message message_with_payload
      | AddReservesMessage _ => handle_add_reserves_message message_with_payload
      | ProverMessage _ => ret (Ok [])
      end
  | Err _ => ret (Ok [])
  end.

(** ** Transactions *)

Variable debug_transaction : ChainTransaction -> string.

(** A transaction of a kind the table keeps. *)
Definition tracked (tx : XrplTransaction) : bool :=
  match Xrpl.kind tx with KPayment | KTicketCreate | KSignerListSet | KTrustSet => true | KOther => false end.

(** The row is made when there is none: an existing one is not touched. *)
(** src/xrpl/src/ingestor.rs:1203-1224 XrplIngestor::handle_transaction (the row) *)
Definition track (tx : XrplTransaction) (row : XrplRow) : M W (Res unit) :=
  if tracked tx then
    let? found := map_err IngGenericError (model_find (Model := xtx_model) (row_tx_hash row)) in
    match found with
    | None => map_err IngGenericError (model_upsert row)
    | Some _ => ret (Ok tt)
    end
  else ret (Ok tt).

Definition from_multisig (tx : XrplTransaction) : bool :=
  bool_decide (tx_account (Xrpl.common tx) = xrpl_multisig config).

(** src/xrpl/src/ingestor.rs:1226-1266 XrplIngestor::handle_transaction (by kind) *)
Definition handle_kind (tx : XrplTransaction) : M W (Res (list Event)) :=
  match Xrpl.kind tx with
  | KPayment =>
      if bool_decide (pay_destination tx = xrpl_multisig config) then
        match memos (Xrpl.common tx) with
        | None => ret (Ok [])
        | Some _ => handle_payment tx
        end
      else if from_multisig tx then handle_prover_tx tx
      else ret (Ok [])
  | KTicketCreate => handle_prover_tx tx
  | KTrustSet => if from_multisig tx then handle_prover_tx tx else ret (Ok [])
  | KSignerListSet => handle_prover_tx tx
  | KOther =>
      (* the argument of [info!], with that level enabled *)
      let? _s := ret (generic_with "Failed to serialize transaction: " (tx_to_json tx)) in
      ret (Ok [])
  end.

(** src/xrpl/src/ingestor.rs:1192-1267 XrplIngestor::handle_transaction *)
Definition xrpl_handle_transaction (tx : ChainTransaction) : M W (Res (list Event)) :=
  match tx with
  | Subscriber.Xrpl tx =>
      let? xrpl_transaction := ret (generic (from_native_transaction tx (xrpl_multisig config))) in
      let? _t := track tx xrpl_transaction in
      handle_kind tx
  | _ => ret (Err (IngUnexpectedChainTransactionType (debug_transaction tx)))
  end.

(** ** Tasks *)

(** src/xrpl/src/ingestor.rs:1270-1288 XrplIngestor::handle_verify *)
Definition xrpl_handle_verify (task : VerifyTask) : M W (Res unit) :=
  let? message := ret (parse_message_from_context (task_meta (verify_common task))) in
  let xrpl_tx_hash := tx_hash_as_hex_no_prefix (message_tx_id message) in
  let? text := ret (generic_with "Failed to serialize VerifyTask: " (verify_task_to_str task)) in
  let? _u := map_err IngGenericError (update_verify_task xrpl_tx_hash text) in
  xrpl_verify_message message.

(** src/xrpl/src/ingestor.rs:667-688 XrplIngestor::confirm_add_gas_message_request *)
Definition confirm_add_gas_message_request (m : XRPLAddGasMessage) : Res (string * BroadcastRequest) :=
  try? value := generic_with "Failed to serialize ConfirmAddGasMessages: " (gateway_to_value (ConfirmAddGasMessages [m])) in
  Ok (gateway, BroadcastGeneric value).

(** src/xrpl/src/ingestor.rs:690-712 XrplIngestor::confirm_add_reserves_message_request *)
Definition confirm_add_reserves_message_request (m : XRPLAddReservesMessage) : Res (string * BroadcastRequest) :=
  try? value := generic_with "Failed to serialize ConfirmAddReservesMessage: " (prover_to_value (ConfirmAddReservesMessage m)) in
  Ok (prover, BroadcastGeneric value).

(** src/xrpl/src/ingestor.rs:714-762 XrplIngestor::confirm_prover_message_request *)
Definition confirm_prover_message_request (tx : XrplTransaction) : Res (string * BroadcastRequest) :=
  try? tx_hash := ok_or (tx_hash_field (Xrpl.common tx)) (IngGenericError "Transaction missing field 'hash'") in
  try? tx_hash_bytes := generic_with "Failed to decode tx hash: " (hex_decode tx_hash) in
  try? unsigned := generic (extract_and_decode_memo (memos (Xrpl.common tx)) "unsigned_tx_hash") in
  try? unsigned_bytes := generic_with "Failed to decode unsigned tx hash: " (hex_decode unsigned) in
  try? tx_id := ok_or (to_32_bytes tx_hash_bytes) (IngGenericError "Invalid length of tx hash bytes") in
  try? unsigned_tx_hash := ok_or (to_32_bytes unsigned_bytes)
    (IngGenericError "Invalid length of unsigned tx hash bytes") in
  try? value := generic_with "Failed to serialize ConfirmTxStatus: "
    (prover_to_value (ConfirmProverMessage (mkProver tx_id unsigned_tx_hash))) in
  Ok (prover, BroadcastGeneric value).

(** src/xrpl/src/ingestor.rs:764-818 XrplIngestor::route_incoming_message_request *)
Definition route_incoming_message_request (message : XRPLMessage) : M W (Res (string * BroadcastRequest)) :=
  let? payload_hash := ret (match message with
    | InterchainTransferMessage m => Ok (it_payload_hash m)
    | CallContractMessage m => Ok (Some (ccm_payload_hash m))
    | _ => Err (IngGenericError "Routing only supported for InterchainTransferMessage and CallContractMessage")
    end) in
  let? payload := match payload_hash with
    | Some hash =>
        let? payload_string := map_err (fun e => IngGenericError ("Failed to get payload from cache: " +:+ show_GmpApiError e))
          (get_payload (hex_encode hash)) in
        let? bytes := ret (generic_with "Failed to decode payload: " (hex_decode payload_string)) in
        let? binary := ret (generic_with "Failed to convert payload bytes to array: " (hex_binary_from_bytes bytes)) in
        ret (Ok (Some binary))
    | None => ret (Ok None)
    end in
  let? value := ret (generic_with "Failed to serialize RouteIncomingMessages: "
    (gateway_to_value (RouteIncomingMessages [mkWithPayload message payload]))) in
  ret (Ok (gateway, BroadcastGeneric value)).

(** The event of an executed message. *)
Definition executed_event (tx : XrplTransaction) (hash message_id source_chain : string) (status : MessageExecutionStatus)
    (timestamp : string) : Event :=
  let revert_reason :=
    match status with
    | REVERTED => (fun r => match result_to_json r with Ok s => s | Err _ => "" end) <$> tx_result tx
    | SUCCESSFUL => None
    end in
  MessageExecuted
    (mkCommonEvent "MESSAGE_EXECUTED" hash
       (Some (mkExecutedMeta (mkEventMeta (Some hash) None None None timestamp) None None revert_reason)))
    message_id source_chain status (mkAmount None (tx_fee tx)).

(** src/xrpl/src/ingestor.rs:820-933 XrplIngestor::handle_successful_routing *)
Definition handle_successful_routing (message : XRPLMessage) (prover_tx : option XrplTransaction)
    (task : ReactToWasmEventTask) : M W (Res unit) :=
  match message with
  | ProverMessage _ =>
      let? tx := ret (ok_or prover_tx (IngGenericError "Prover transaction is None")) in
      match Xrpl.kind tx with
      | KPayment =>
          let? status_text := ret (ok_or (event_attribute (wasm_event (wasm_task task)) "status")
            (IngGenericError "QuorumReached event for ProverMessage missing status")) in
          let? tx_status := ret (generic_with "Failed to parse status: " (string_from_str status_text)) in
          let status := if bool_decide (tx_status = "succeeded_on_source_chain") then SUCCESSFUL else REVERTED in
          let? message_id := ret (generic_with "Failed to extract message_id from memos: "
            (extract_hex_xrpl_memo (memos (Xrpl.common tx)) "message_id")) in
          let? source_chain := ret (generic_with "Failed to extract source_chain from memos: "
            (extract_hex_xrpl_memo (memos (Xrpl.common tx)) "source_chain")) in
          let? hash := ret (ok_or (tx_hash_field (Xrpl.common tx)) (IngGenericError "Transaction missing field 'hash'")) in
          let! timestamp := now_rfc3339 in
          let? events_response := map_err (fun e => IngGenericError ("Failed to broadcast message: " +:+ show_GmpApiError e))
            (post_events [executed_event tx hash message_id source_chain status timestamp]) in
          let? response := ret (ok_or (head events_response)
            (IngGenericError "Failed to get response from posting events")) in
          if bool_decide (GmpTypes.status response = "ACCEPTED") then ret (Ok tt)
          else ret (Err (IngGenericError ("Failed to post event: " +:+ default "" (error response))))
      | _ => ret (Ok tt)
      end
  | _ => ret (Ok tt)
  end.

(** The message in the content of a quorum event. *)
Definition quorum_content_message (content : string) : Res XRPLMessage :=
  match cc_message_from_str content with
  | Ok message => Ok message
  | Err _ => generic_with "Failed to parse content as either WithCrossChainId<XRPLMessage> or XRPLMessage: "
               (message_from_str content)
  end.

(** The broadcast that follows a quorum, with the prover's transaction when
    it had to be fetched. *)
Definition confirmation_request (message : XRPLMessage) : M W (Res (string * BroadcastRequest * option XrplTransaction)) :=
  match message with
  | InterchainTransferMessage _ | CallContractMessage _ =>
      let? r := route_incoming_message_request message in
      ret (Ok (r, None))
  | ProverMessage m =>
      let? tx := xrpl_tx_from_hash (pm_tx_id m) in
      let? r := ret (confirm_prover_message_request tx) in
      ret (Ok (r, Some tx))
  | AddGasMessage m =>
      let? r := ret (confirm_add_gas_message_request m) in
      ret (Ok (r, None))
  | AddReservesMessage m =>
      let? r := ret (confirm_add_reserves_message_request m) in
      ret (Ok (r, None))
  end.

(** src/xrpl/src/ingestor.rs:1382-1419 XrplIngestor::handle_wasm_event (the broadcast) *)
Definition broadcast_confirmation (xrpl_tx_hash contract_address : string) (request : BroadcastRequest) : M W (Res unit) :=
  let! maybe_confirmation_tx_hash :=
    map_err (fun e => IngGenericError ("Failed to broadcast message: " +:+ show_GmpApiError e))
      (post_broadcast contract_address request) in
  match maybe_confirmation_tx_hash with
  | Ok confirmation_tx_hash =>
      let? _r := map_err IngGenericError (update_route_tx xrpl_tx_hash (to_lowercase confirmation_tx_hash)) in
      map_err IngGenericError (update_status xrpl_tx_hash Routed)
  | Err e =>
      if contains "transaction status is already confirmed" (show_IngestorError e) then ret (Ok tt) else ret (Err e)
  end.

(** src/xrpl/src/ingestor.rs:1291-1431 XrplIngestor::handle_wasm_event *)
Definition xrpl_handle_wasm_event (task : ReactToWasmEventTask) : M W (Res unit) :=
  let event := wasm_event (wasm_task task) in
  if bool_decide (wasm_type event = "wasm-quorum_reached") then
    let? content := ret (ok_or (event_attribute event "content") (IngGenericError "QuorumReached event missing content")) in
    let? status_text := ret (ok_or (event_attribute event "status")
      (IngGenericError "QuorumReached event for ProverMessage missing status")) in
    let? tx_status := ret (generic_with "Failed to parse status: " (status_from_str status_text)) in
    let? message := ret (quorum_content_message content) in
    let xrpl_tx_hash := tx_hash_as_hex_no_prefix (message_tx_id message) in
    let? text := ret (generic_with "Failed to serialize QuorumReachedTask: " (wasm_task_to_str task)) in
    let? _q := map_err IngGenericError (update_quorum_reached_task xrpl_tx_hash text) in
    match tx_status with
    | SucceededOnSourceChain | FailedOnSourceChain =>
        let? _s := map_err IngGenericError (update_status xrpl_tx_hash Verified) in
        let? r := confirmation_request message in
        let '(contract_address, request, prover_tx) := r in
        let? _b := broadcast_confirmation xrpl_tx_hash contract_address request in
        handle_successful_routing message prover_tx task
    | _ => ret (Ok tt)
    end
  else ret (Err (IngGenericError ("Unknown event name: " +:+ wasm_type event))).

(** The text up to the end of the line. *)
Fixpoint line (s : string) : string :=
  match s with
  | EmptyString => EmptyString
  | String c s => if decide (c = "010"%char) then EmptyString else String c (line s)
  end.

(** The regular expression [(payment for .*? already succeeded)]: [.] matches
    anything but the end of a line. *)
Fixpoint payment_already_succeeded (s : string) : bool :=
  match s with
  | EmptyString => false
  | String _ rest =>
      match strip_prefix "payment for " s with
      | Some after => contains " already succeeded" (line after) || payment_already_succeeded rest
      | None => payment_already_succeeded rest
      end
  end.

(** src/xrpl/src/ingestor.rs:1434-1512 XrplIngestor::handle_construct_proof *)
Definition xrpl_handle_construct_proof (task : ConstructProofTask) : M W (Res unit) :=
  let message := proof_message (proof_task task) in
  let? cc_id := ret (generic_with "Failed to construct CrossChainId: " (cc_new (source_chain message) (message_id message))) in
  let? payload_bytes := ret (generic_with "Failed to decode task payload: " (base64_decode (proof_payload (proof_task task)))) in
  let? _s := map_err IngGenericError (cache_store cc_id (mkPayload message (proof_payload (proof_task task)))) in
  let? value := ret (generic_with "Failed to serialize ConstructProof: " (prover_to_value (ProofOf cc_id payload_bytes))) in
  let! maybe_tx_hash := map_err (fun e => IngGenericError ("Failed to broadcast message: " +:+ show_GmpApiError e))
    (post_broadcast prover (BroadcastGeneric value)) in
  match maybe_tx_hash with
  | Ok _ => ret (Ok tt)
  | Err e =>
      if payment_already_succeeded (show_IngestorError e) then ret (Ok tt)
      else
        let? _c := map_err (fun e => IngGenericError (show_GmpApiError e))
          (cannot_execute_message (id (proof_common task)) (message_id message) (source_chain message)
             (show_IngestorError e) ExecuteError) in
        ret (Ok tt)
  end.

(** src/xrpl/src/ingestor.rs:1515-1579 XrplIngestor::handle_retriable_task *)
Definition xrpl_handle_retriable_task (task : RetryTask) : M W (Res unit) :=
  let? maybe_id := ret (generic_with "Failed to get message id from retry task: " (message_id_from_retry_task task)) in
  match maybe_id with
  | None => ret (Ok tt)
  | Some message_id =>
      let? maybe_task_retries := map_err (fun e => IngGenericError ("Failed to find task retries: " +:+ e))
        (model_find message_id) in
      let task_retries := default (mkRetries message_id 0) maybe_task_retries in
      if MAX_TASK_RETRIES <=? retries task_retries then ret (Err IngTaskMaxRetriesReached)
      else
        let task_retries := mkRetries (retries_message_id task_retries) (retries task_retries + 1) in
        let? payload := ret (rmap_err (fun e => IngParseError ("Invalid JSON: " +:+ e)) (parse_json (request_payload task))) in
        let? _r := map_err (fun e => IngPostEventError (show_GmpApiError e))
          (post_broadcast (invoked_contract_address task) (BroadcastGeneric payload)) in
        map_err (fun e => IngGenericError ("Failed to increment task retries: " +:+ e)) (model_upsert task_retries)
  end.

(** src/xrpl/src/ingestor.rs:1186-1580 impl IngestorTrait for XrplIngestor *)
Definition XrplIngestor : IngestorTrait W := {|
  handle_verify := xrpl_handle_verify;
  handle_transaction := xrpl_handle_transaction;
  handle_wasm_event := xrpl_handle_wasm_event;
  handle_construct_proof := xrpl_handle_construct_proof;
  handle_retriable_task := xrpl_handle_retriable_task;
|}.
End ingestor.
