(* ===== verification/XrplIngested.v ===== *)
(** * What the XRPL ingestor guarantees

    The events of a payment account for its drops; a quorum moves the row of
    its transaction and no other; a task is retried a bounded number of times;
    an outage of the GMP API while a payment is read loses the payment. *)

From S2P Require Import Prelude.
From S2P Require Import Decimal.
From S2P Require Import Store.
From S2P Require Import GmpTypes.
From S2P Require Import Text.
From S2P Require Import GmpApi.
From S2P Require Import Database.
From S2P Require Import TonLib.
From S2P Require Import TonParsers.
From S2P Require Import Subscriber.
From S2P Require Import Ingestor.
From S2P Require Import Config.
From S2P Require Import Xrpl.
From S2P Require Import XrplMessages.
From S2P Require Import XrplTransactions.
From S2P Require Import XrplIngestor.

(** ** Payments *)

(** The transaction an event names, and the amount it states. *)
Definition event_tx_id (e : Event) : option string :=
  match e with
  | Call c _ _ _ | GasCredit c _ _ _ | ITSInterchainTransfer c _ _ _ _ _ _ => event_meta c ≫= tx_id
  | _ => None
  end.
Definition event_drops (e : Event) : option string :=
  match e with
  | GasCredit _ _ _ payment => Some (amount payment)
  | ITSInterchainTransfer _ _ _ spent _ _ _ => Some (amount spent)
  | _ => None
  end.

Section payments.
Context {XL : XrplLib} {L : TonLib} {XA : XrplApi} {XP : XrplPayments} {XMA : XrplAmplifier} {PS : PaymentSub}
  {PSL : PaymentSubLaws} {CC : CrossChain} {SE : XrplSerde} {C : Codecs} {J : Json} {DL : DecimalLib} {DO : DecimalOps}.
Context {W : Type} {XM : XrplMessages} {API : GmpApiTrait W} {TM : XrplTransactionModel W}
  {TR : Model TaskRetries string W} {PC : PayloadCacheTrait W} {PV : PriceViewTrait W} {HT : XrplHttp W}
  {NOW : Rfc3339Now W}.
Variable show_f64 : F64 -> string.
Variable config : XRPLConfig.

(** The drops of a payment in XRP. *)
Definition total_drops (payment : XrplTransaction) : option Z :=
  match pay_amount payment with ADrops s => parse_u64 s | _ => None end.

(** The amounts of a message add up to a total. *)
Definition message_accounts (total : Z) (m : XRPLMessage) : Prop :=
  match m with
  | InterchainTransferMessage m => exists g t, it_gas_fee_amount m = PDrops g /\ it_transfer_amount m = PDrops t /\
      0 <= g /\ 0 <= t /\ g + t = total
  | CallContractMessage m => ccm_gas_fee_amount m = PDrops total
  | AddGasMessage m => ag_amount m = PDrops total
  | AddReservesMessage m => ar_amount m = total
  | ProverMessage _ => False
  end.

Definition stands_for (payment : XrplTransaction) (m : XRPLMessage) : Prop :=
  (exists hash, tx_hash_field (Xrpl.common payment) = Some hash /\ hex_decode hash = Ok (message_tx_id m)) /\
  (forall total, total_drops payment = Some total -> message_accounts total m).

Lemma parse_payment_drops payment total amount :
  total_drops payment = Some total -> parse_payment_amount payment = Ok amount -> amount = PDrops total /\ 0 <= total.
Proof.
  unfold total_drops, parse_payment_amount. destruct (pay_amount payment) as [s| |]; [|done..].
  intros H. rewrite H. cbn. intros [= <-]. split; [done|]. by apply parse_u64_range in H as [??].
Qed.

Lemma gmp_message_returns transfer ms tx_id source amount :
  returns (fun wp => message_tx_id (wp_message wp) = tx_id /\
     (forall total, amount = PDrops total -> message_accounts total (wp_message wp)))
    (build_gmp_message (W := W) transfer ms tx_id source amount).
Proof.
  unfold build_gmp_message.
  apply (returns_bind_ok (fun fee => if transfer then forall total, amount = PDrops total -> exists g, fee = PDrops g /\ 0 <= g
    else fee = amount)).
  { apply returns_pure. intros fee. destruct transfer; [|by intros [= <-]].
    unfold generic. destruct (extract_and_decode_memo ms "gas_fee_amount") as [f|e]; cbn; [|done].
    intros H total ->. cbn in H. destruct (parse_u64 f) as [g|] eqn:Eg; cbn in H; [|done].
    injection H as <-. exists g. split; [done|]. by apply parse_u64_range in Eg as [??]. }
  intros fee Hfee. eapply returns_bind_ok; [apply returns_any|]. intros chain _.
  eapply returns_bind_ok; [apply returns_any|]. intros address _.
  eapply returns_bind_ok; [apply returns_any|]. intros [payload hash] _.
  apply (returns_bind_ok (fun m => message_tx_id m = tx_id /\ forall total, amount = PDrops total -> message_accounts total m)).
  - apply returns_pure. intros m. destruct transfer.
    + unfold interchain_transfer. destruct (destination_of address chain) as [dst|e]; cbn; [|done].
      destruct hash as [h|]; [destruct (payload_hash_bytes h) as [hb|e]; cbn; [|done]|cbn];
        (destruct (payment_sub amount fee) as [t|[|e]] eqn:Es; cbn; [|done..]; intros [= <-]; split; [done|];
         intros total ->; destruct (Hfee total eq_refl) as (g & -> & Hg); rewrite drops_sub in Es;
         destruct (Z.leb_spec g total); [|done]; injection Es as <-; exists g, (total - g); repeat split; lia).
    + unfold call_contract. destruct (destination_of address chain) as [dst|e]; cbn; [|done].
      destruct hash as [h|]; cbn; [|done]. destruct (payload_hash_bytes h) as [hb|e]; cbn; [|done].
      intros [= <-]. split; [done|]. intros total ->. by subst fee.
  - intros m Hm. destruct payload as [p|]; [|by apply returns_ok].
    do 2 (eapply returns_bind_ok; [apply returns_any|]; intros ? _). by apply returns_ok.
Qed.

Lemma build_returns payment :
  returns (fun wp => stands_for payment (wp_message wp)) (build_xrpl_message (W := W) payment).
Proof.
  unfold build_xrpl_message.
  apply (returns_bind_ok (fun hash => tx_hash_field (Xrpl.common payment) = Some hash)).
  { apply returns_pure. intros h. destruct (tx_hash_field _); [by intros [= ->]|done]. }
  intros hash Hhash. apply (returns_bind_ok (fun b => hex_decode hash = Ok b)).
  { apply returns_pure. intros b. destruct (hex_decode hash); [by intros [= ->]|done]. }
  intros bytes Hbytes. apply (returns_bind_ok (fun b => b = bytes)).
  { apply returns_pure. intros b. unfold to_32_bytes. destruct (_ =? _)%nat; [by intros [= ->]|done]. }
  intros id ->. do 2 (eapply returns_bind_ok; [apply returns_any|]; intros ? _).
  apply (returns_bind_ok (fun a => forall total, total_drops payment = Some total -> a = PDrops total)).
  { apply returns_pure. intros amt Ha total Ht. by apply (parse_payment_drops payment total amt). }
  intros amount Hamount. eapply returns_bind_ok; [apply returns_any|]. intros source _.
  assert (Hid : forall m, message_tx_id m = bytes -> (forall total, amount = PDrops total -> message_accounts total m) ->
    stands_for payment m).
  { intros m <- Hm. split; [by exists hash|]. intros total Ht. by apply Hm, Hamount. }
  match goal with |- returns _ (match ?t with _ => _ end) => destruct t end.
  1, 2: eapply returns_weaken; [apply gmp_message_returns|]; intros wp [??]; by apply Hid.
  - do 3 (eapply returns_bind_ok; [apply returns_any|]; intros ? _). apply returns_ok. by apply Hid.
  - destruct amount as [drops|token amt]; [|apply returns_err]. apply returns_ok. apply Hid; [done|]. by intros total [= ->].
  - apply returns_err.
Qed.

(** The events a message stands for. *)
Definition names_of (m : XRPLMessage) : list string :=
  match m with
  | InterchainTransferMessage _ => ["Call"; "GasCredit"; "ITSInterchainTransfer"]
  | CallContractMessage _ => ["Call"; "GasCredit"]
  | AddGasMessage _ => ["GasCredit"]
  | _ => []
  end.

(** Amounts that add up to a total, printed. *)
Definition add_up (total : Z) (printed : list string) : Prop :=
  exists parts, printed = map print_u64 parts /\ Forall (Z.le 0) parts /\ foldr Z.add 0 parts = total.

Definition accounted (m : XRPLMessage) (events : list Event) : Prop :=
  (forall e, e ∈ events -> event_tx_id e = Some (text_of_id (message_tx_id m))) /\
  map event_name events = names_of m /\
  (forall total, 0 <= total -> message_accounts total m -> add_up total (omap event_drops events)).

(** The credit of a message: its amount when the fee is in drops. *)
Definition credit_of (m : XRPLMessage) (e : Event) : Prop :=
  event_tx_id e = Some (text_of_id (message_tx_id m)) /\ event_name e = "GasCredit" /\
  exists s, event_drops e = Some s /\
    forall id source n, gas_payment m = Some (id, source, PDrops n) -> s = print_u64 n.

Lemma gas_credit_returns wp token :
  returns (credit_of (wp_message wp)) (gas_credit_event_from_payment show_f64 config (W := W) wp token).
Proof.
  unfold gas_credit_event_from_payment.
  apply (returns_bind_ok (fun p => gas_payment (wp_message wp) = Some p)).
  { apply returns_pure. intros p. destruct (gas_payment _); [by intros [= ->]|done]. }
  intros [[id source] fee] Hp.
  apply (returns_bind_ok (fun s => forall n, fee = PDrops n -> s = print_u64 n)).
  { destruct fee as [n|token' a]; [by apply returns_ok; intros ? [= ->]|].
    eapply returns_weaken; [apply returns_any|]. done. }
  intros s Hs. apply returns_bind. intros now. apply returns_ok. split; [done|]. split; [done|].
  exists s. split; [done|]. intros i src n H. rewrite Hp in H. injection H as -> -> ->. by apply Hs.
Qed.

Lemma its_event_returns m token :
  returns (fun e => event_tx_id e = Some (text_of_id (message_tx_id m)) /\ event_name e = "ITSInterchainTransfer" /\
      exists s im, m = InterchainTransferMessage im /\ event_drops e = Some s /\
        forall n, it_transfer_amount im = PDrops n -> s = print_u64 n)
    (its_interchain_transfer_event config (W := W) m token).
Proof.
  unfold its_interchain_transfer_event. destruct m as [m| | | |]; try apply returns_err.
  apply (returns_bind_ok (fun p => forall n, it_transfer_amount m = PDrops n -> fst p = print_u64 n)).
  - destruct (it_transfer_amount m) as [n|t a].
    + eapply returns_bind_ok; [apply returns_any|]. intros tok _. apply returns_ok. by intros ? [= ->].
    + eapply returns_weaken; [apply returns_any|]. done.
  - intros p Hp. apply returns_bind. intros now. apply returns_ok. split; [done|]. split; [done|].
    exists (fst p), m. by repeat split.
Qed.

Lemma call_event_returns wp :
  returns (fun o => forall e, o = Some e -> event_tx_id e = Some (text_of_id (message_tx_id (wp_message wp))) /\
      event_name e = "Call" /\ event_drops e = None)
    (call_event_from_message config (W := W) wp).
Proof.
  unfold call_event_from_message. eapply returns_bind_ok; [apply returns_any|]. intros text _.
  apply returns_bind. intros [[[m|] t]|[| | |]]; try apply returns_err; try (by apply returns_ok).
  do 3 (eapply returns_bind_ok; [apply returns_any|]; intros ? _). apply returns_bind. intros now. apply returns_ok.
  by intros e [= <-].
Qed.

Lemma add_up_credit total m gas : gas_payment m <> None -> credit_of m gas -> 0 <= total ->
  (forall id source fee, gas_payment m = Some (id, source, fee) -> fee = PDrops total) -> add_up total (omap event_drops [gas]).
Proof.
  intros Hsome (_ & _ & s & Hs & Hn) Ht Hfee. destruct (gas_payment m) as [[[i src] fee]|] eqn:E; [|done].
  pose proof (Hfee _ _ _ eq_refl) as ->. exists [total]. cbn. rewrite Hs, (Hn _ _ _ eq_refl). split; [done|].
  split; [by repeat constructor|]. lia.
Qed.

Lemma gmp_events_returns wp :
  (is_interchain_transfer (wp_message wp) = true \/ exists m, wp_message wp = CallContractMessage m) ->
  returns (fun events => events = [] \/ accounted (wp_message wp) events)
    (handle_gmp_message show_f64 config (W := W) wp).
Proof.
  intros Hk. unfold handle_gmp_message. eapply returns_bind_ok; [apply call_event_returns|].
  intros [call|] Hcall; [|by apply returns_ok; left]. destruct (Hcall call eq_refl) as (Hct & Hcn & Hcd).
  eapply returns_bind_ok; [apply returns_any|]. intros token _.
  eapply returns_bind_ok; [apply gas_credit_returns|]. intros gas Hgas.
  pose proof Hgas as (Hgt & Hgn & gs & Hgs & Hgd).
  destruct (is_interchain_transfer (wp_message wp)) eqn:Eit.
  - eapply returns_bind_ok; [apply its_event_returns|]. intros its (Hit & Hin & its_s & m & Hm & His & Hid).
    apply returns_ok. right. split; [|split].
    + by intros e [->|[->|[->|?%not_elem_of_nil]%elem_of_cons]%elem_of_cons]%elem_of_cons.
    + cbn. by rewrite Hcn, Hgn, Hin, Hm.
    + intros total Ht. rewrite Hm. intros (g & t & Hg & Hta & ? & ? & Hsum). exists [g; t].
      cbn. rewrite Hcd, Hgs, His, (Hid t Hta). rewrite Hm in Hgd. cbn in Hgd. rewrite Hg in Hgd.
      rewrite (Hgd _ _ g eq_refl). split; [done|]. split; [by repeat constructor|]. lia.
  - destruct Hk as [|[m Hm]]; [done|]. apply returns_ok. right. split; [|split].
    + by intros e [->|[->|?%not_elem_of_nil]%elem_of_cons]%elem_of_cons.
    + cbn. by rewrite Hcn, Hgn, Hm.
    + intros total Ht Ha. cbn [omap list_omap]. rewrite Hcd. apply (add_up_credit total (wp_message wp)); rewrite ?Hm in *; try done.
      cbn. by intros id source fee [= _ _ <-].
Qed.

Lemma add_gas_returns wp m : wp_message wp = AddGasMessage m ->
  returns (fun events => events = [] \/ accounted (wp_message wp) events)
    (handle_add_gas_message show_f64 config (W := W) wp).
Proof.
  intros Hm. unfold handle_add_gas_message. eapply returns_bind_ok; [apply returns_any|]. intros token _.
  eapply returns_bind_ok; [apply gas_credit_returns|]. intros gas Hgas. pose proof Hgas as (Hgt & Hgn & _).
  eapply returns_bind_ok; [apply returns_any|]. intros _ _. apply returns_ok. right. split; [|split].
  - by intros e [->|?%not_elem_of_nil]%elem_of_cons.
  - cbn. by rewrite Hgn, Hm.
  - intros total Ht Ha. apply (add_up_credit total (wp_message wp)); rewrite ?Hm in *; try done.
    cbn. by intros id source fee [= _ _ <-].
Qed.

Lemma handle_payment_returns payment :
  returns (fun events => events = [] \/ exists m, stands_for payment m /\ accounted m events)
    (handle_payment show_f64 config (W := W) payment).
Proof.
  intros w events w'. unfold handle_payment. rewrite bind_run.
  destruct (build_xrpl_message payment w) as [[[wp|e]|why] w1] eqn:Eb; [| |done].
  2: { intros [= <- _]. by left. }
  pose proof (build_returns payment _ _ _ Eb) as Hb. intros H.
  assert (Hr : events = [] \/ accounted (wp_message wp) events).
  { destruct (wp_message wp) as [m|m|m|m|m] eqn:Em.
    1, 2: rewrite <- Em; eapply gmp_events_returns; [rewrite Em; eauto|exact H].
    - rewrite <- Em. by eapply add_gas_returns.
    - left. revert w1 H Eb. unfold handle_add_reserves_message. intros w1 H _. revert w1 events w' H.
      change (returns (fun events : list Event => events = []) (let? _v := xrpl_verify_message config (wp_message wp) in ret (Ok []) : M W _)).
      eapply returns_bind_ok; [apply returns_any|]. intros _ _. by apply returns_ok.
    - injection H as <- _. by left. }
  destruct Hr as [Hr|Hr]; [by left|right]. by exists (wp_message wp).
Qed.

Lemma prover_tx_returns tx : returns (fun events => events = []) (handle_prover_tx config (W := W) tx).
Proof.
  unfold handle_prover_tx. do 7 (eapply returns_bind_ok; [apply returns_any|]; intros ? _). by apply returns_ok.
Qed.

Variable debug_transaction : ChainTransaction -> string.

(** C12: the events of a transaction stand for a payment to the multisig
    account, and account for every drop of it.  When handling a transaction
    gives events at all, it is a payment to the multisig with memos; the
    events all name its hash; they are a call, its gas credit and, for a
    transfer, the transfer, or one gas credit alone; and if the payment is in
    XRP, the amounts of the gas credit and of the transfer add up to exactly
    the drops of the payment, none of them negative. *)
Theorem payment_accounted (tx : ChainTransaction) (events : list Event) (w w' : W) :
  xrpl_handle_transaction show_f64 config debug_transaction tx w = (Done (Ok events), w') -> events <> [] ->
  exists payment hash bytes, tx = Subscriber.Xrpl payment /\ Xrpl.kind payment = KPayment /\
    pay_destination payment = xrpl_multisig config /\ is_Some (memos (Xrpl.common payment)) /\
    tx_hash_field (Xrpl.common payment) = Some hash /\ hex_decode hash = Ok bytes /\
    (forall e, e ∈ events -> event_tx_id e = Some (text_of_id bytes)) /\
    (map event_name events = ["Call"; "GasCredit"; "ITSInterchainTransfer"] \/
     map event_name events = ["Call"; "GasCredit"] \/ map event_name events = ["GasCredit"]) /\
    (forall total, total_drops payment = Some total -> add_up total (omap event_drops events)).
Proof.
  intros H Hne.
  assert (Hr : returns (fun events => events = [] \/ exists payment, tx = Subscriber.Xrpl payment /\
      Xrpl.kind payment = KPayment /\ pay_destination payment = xrpl_multisig config /\
      is_Some (memos (Xrpl.common payment)) /\ exists m, stands_for payment m /\ accounted m events)
    (xrpl_handle_transaction show_f64 config debug_transaction tx)).
  { unfold xrpl_handle_transaction. destruct tx as [tx|]; [|apply returns_err].
    eapply returns_bind_ok; [apply returns_any|]. intros row _. eapply returns_bind_ok; [apply returns_any|]. intros _ _.
    assert (Hp : returns (fun events => events = [] \/ exists payment, Subscriber.Xrpl tx = Subscriber.Xrpl payment /\
      Xrpl.kind payment = KPayment /\ pay_destination payment = xrpl_multisig config /\
      is_Some (memos (Xrpl.common payment)) /\ exists m, stands_for payment m /\ accounted m events)
      (handle_prover_tx config (W := W) tx)).
    { eapply returns_weaken; [apply prover_tx_returns|]. by left. }
    unfold handle_kind. destruct (Xrpl.kind tx) eqn:Ek; [|done..| |].
    - destruct (bool_decide_reflect (pay_destination tx = xrpl_multisig config)) as [Hd|Hd].
      + destruct (memos (Xrpl.common tx)) as [ms|] eqn:Em; [|by apply returns_ok; left].
        eapply returns_weaken; [apply handle_payment_returns|]. intros es [->|Hm]; [by left|right].
        exists tx. rewrite Em. by eauto 10.
      + destruct (from_multisig config tx); [done|]. by apply returns_ok; left.
    - destruct (from_multisig config tx); [done|]. by apply returns_ok; left.
    - eapply returns_bind_ok; [apply returns_any|]. intros _ _. by apply returns_ok; left. }
  destruct (Hr _ _ _ H) as [|(payment & -> & Hk & Hd & Hm & m & [(hash & Hh & Hb) Ht] & Hid & Hn & Ha)]; [done|].
  exists payment, hash, (message_tx_id m). repeat (split; [done|]). split.
  - rewrite Hn. destruct m; cbn in *; auto; by destruct events.
  - intros total Htot. apply Ha; [|by apply Ht]. unfold total_drops in Htot. destruct (pay_amount payment); [|done..].
    by apply parse_u64_range in Htot as [??].
Qed.

(** A payment whose message cannot be built: its memos announce a transfer
    or a call with a payload hash, and the payload cannot be fetched. *)
Lemma outage_build payment h g ty (w : W) :
  type_memo (memos (Xrpl.common payment)) = Some ty -> ty = TInterchainTransfer \/ ty = TCallContract ->
  extract_from_xrpl_memo (memos (Xrpl.common payment)) "payload_hash" = Ok h ->
  is_ok (extract_from_xrpl_memo (memos (Xrpl.common payment)) "payload") = false ->
  (forall v, exists v', get_payload h v = (Done (Err g), v')) ->
  exists e w', build_xrpl_message payment w = (Done (Err e), w').
Proof.
  intros Hty Hk Hh Hp Hout. unfold type_memo in Hty. unfold build_xrpl_message.
  rewrite bind_ok_run. destruct (tx_hash_field (Xrpl.common payment)) as [hash|]; cbn [ok_or ret]; [|by eauto].
  rewrite bind_ok_run. destruct (hex_decode hash) as [bytes|e]; cbn [rmap_err ret]; [|by eauto].
  rewrite bind_ok_run. destruct (to_32_bytes bytes) as [id|]; cbn [ok_or ret]; [|by eauto].
  rewrite bind_ok_run. destruct (extract_and_decode_memo (memos (Xrpl.common payment)) "type") as [s|e]; [|done].
  cbn [generic rmap_err ret]. rewrite bind_ok_run.
  destruct (message_type_from_str _) as [ty'|e]; [|done]. injection Hty as ->. cbn [generic_with rmap_err ret].
  rewrite bind_ok_run. destruct (parse_payment_amount payment) as [amt|e]; cbn [ret]; [|by eauto].
  rewrite bind_ok_run. destruct (xrpl_account_from_str _) as [src|e]; cbn [generic_with rmap_err ret]; [|by eauto].
  assert (Hb : forall transfer, exists e w',
    build_gmp_message (W := W) transfer (memos (Xrpl.common payment)) id src amt w = (Done (Err e), w')).
  { intros transfer. unfold build_gmp_message. rewrite bind_ok_run. cbn [ret].
    match goal with |- context [if transfer then ?a else ?b] => destruct (if transfer then a else b) as [fee|e] end; [|by eauto].
    rewrite bind_ok_run. destruct (extract_and_decode_memo _ "destination_chain"); cbn [generic rmap_err ret]; [|by eauto].
    rewrite bind_ok_run. destruct (extract_and_decode_memo _ "destination_address"); cbn [generic rmap_err ret]; [|by eauto].
    rewrite bind_ok_run. unfold parse_payload_and_payload_hash. rewrite Hh.
    destruct (extract_from_xrpl_memo (memos (Xrpl.common payment)) "payload") as [?|?]; [done|].
    rewrite bind_ok_run, map_err_run. destruct (Hout w) as [v' ->]. cbn [rmap_err]. by eauto. }
  destruct Hk as [->| ->]; apply Hb.
Qed.

(** A payment is dropped when the GMP API cannot be reached.  A transfer
    or a call to the multisig account that names its payload by hash needs the
    API to fetch the payload; while the API answers errors, handling the
    payment succeeds without events, so the delivery is acknowledged and the
    payment is not looked at again. *)
Theorem payload_outage_drops_payment (payment : XrplTransaction) (row : XrplRow) (h : string) (g : GmpApiError)
    (ty : XRPLMessageType) (w w1 : W) :
  Xrpl.kind payment = KPayment -> pay_destination payment = xrpl_multisig config ->
  type_memo (memos (Xrpl.common payment)) = Some ty -> ty = TInterchainTransfer \/ ty = TCallContract ->
  extract_from_xrpl_memo (memos (Xrpl.common payment)) "payload_hash" = Ok h ->
  is_ok (extract_from_xrpl_memo (memos (Xrpl.common payment)) "payload") = false ->
  (forall v, exists v', get_payload h v = (Done (Err g), v')) ->
  from_native_transaction payment (xrpl_multisig config) = Ok row -> track payment row w = (Done (Ok tt), w1) ->
  exists w2, xrpl_handle_transaction show_f64 config debug_transaction (Subscriber.Xrpl payment) w = (Done (Ok []), w2).
Proof.
  intros Hk Hd Hty Hgmp Hh Hp Hout Hrow Htrack. unfold xrpl_handle_transaction.
  rewrite bind_ok_run, Hrow. cbn [generic rmap_err ret]. rewrite bind_ok_run, Htrack.
  unfold handle_kind. rewrite Hk, bool_decide_eq_true_2 by done.
  destruct (memos (Xrpl.common payment)) as [ms|] eqn:Em; [|done]. rewrite <- Em in *.
  unfold handle_payment. rewrite bind_run.
  destruct (outage_build payment h g ty w1 Hty Hgmp Hh Hp Hout) as (e & w2 & ->). by exists w2.
Qed.

(** ** Proofs *)

Lemma contains_step pat s : contains pat s = match strip_prefix pat s with
  | Some _ => true
  | None => match s with EmptyString => false | String _ s => contains pat s end
  end.
Proof. by destruct s. Qed.

Lemma contains_spec pat s : contains pat s = true <-> exists a b, s = a +:+ pat +:+ b.
Proof.
  split.
  - induction s as [|c s IH]; rewrite contains_step; destruct (strip_prefix pat _) as [b|] eqn:E; try done.
    + intros _. exists "", b. by apply strip_prefix_spec in E.
    + intros _. exists "", b. by apply strip_prefix_spec in E.
    + intros H. destruct (IH H) as (a & b & ->). by exists (String c a), b.
  - intros (a & b & ->). induction a as [|c a IH]; rewrite contains_step.
    + change ("" +:+ pat +:+ b) with (pat +:+ b).
      by rewrite (proj2 (strip_prefix_spec pat (pat +:+ b) b) eq_refl).
    + change (String c a +:+ pat +:+ b) with (String c (a +:+ pat +:+ b)). by destruct (strip_prefix pat _).
Qed.

(** A text without the end of a line. *)
Fixpoint one_line (s : string) : bool :=
  match s with EmptyString => true | String c s => negb (bool_decide (c = "010"%char)) && one_line s end.

Lemma line_spec s a : (exists b, line s = a +:+ b) <-> one_line a = true /\ exists b, s = a +:+ b.
Proof.
  revert s. induction a as [|c a IH]; intros s; cbn; [split; [intros _; split; [done|by exists s]|intros _; by exists (line s)]|].
  destruct s as [|d s]; cbn.
  - split; [intros (b & H); done|intros (_ & b & H); done].
  - destruct (decide (d = "010"%char)) as [->|Hd].
    + split; [by intros (b & H)|]. intros (H & b & [= <- _]). by rewrite bool_decide_eq_true_2 in H.
    + split.
      * intros (b & [= <- Hb]). rewrite bool_decide_eq_false_2 by done. cbn.
        destruct (proj1 (IH s)) as (Ho & b' & ->); [by exists b|]. split; [done|]. by exists b'.
      * intros (Ho & b & [= <- ->]). rewrite bool_decide_eq_false_2 in Ho by done. cbn in Ho.
        destruct (proj2 (IH (a +:+ b))) as (b' & ->); [by split; [done|exists b]|]. by exists b'.
Qed.

Lemma append_assoc (a b c : string) : (a +:+ b) +:+ c = a +:+ (b +:+ c).
Proof. induction a as [|x a IH]; [done|]. change (String x ((a +:+ b) +:+ c) = String x (a +:+ (b +:+ c))). by rewrite IH. Qed.

(** The regular expression [(payment for .*? already succeeded)]. *)
Definition succeeded_text (s : string) : Prop :=
  exists a b c, s = a +:+ "payment for " +:+ b +:+ " already succeeded" +:+ c /\ one_line b = true.

Lemma one_line_app a b : one_line (a +:+ b) = one_line a && one_line b.
Proof.
  induction a as [|c a IH]; [done|].
  change (one_line (String c (a +:+ b)) = one_line (String c a) && one_line b). cbn. by rewrite IH, andb_assoc.
Qed.

Lemma line_contains after : contains " already succeeded" (line after) = true <->
  exists b c, after = b +:+ " already succeeded" +:+ c /\ one_line b = true.
Proof.
  rewrite contains_spec. split.
  - intros (a & b & H). destruct (proj1 (line_spec after (a +:+ " already succeeded"))) as (Ho & c & ->).
    { exists b. by rewrite append_assoc. }
    exists a, c. rewrite append_assoc. split; [done|]. rewrite one_line_app in Ho. by apply andb_true_iff in Ho as [? _].
  - intros (b & c & -> & Hb). destruct (proj2 (line_spec (b +:+ " already succeeded" +:+ c) (b +:+ " already succeeded"))) as (d & Hd).
    { rewrite one_line_app, Hb. split; [done|]. exists c. by rewrite append_assoc. }
    exists b, d. by rewrite Hd, append_assoc.
Qed.

Lemma succeeded_spec s : payment_already_succeeded s = true <-> succeeded_text s.
Proof.
  unfold succeeded_text. split.
  - induction s as [|c s IH]; [done|]. cbn [payment_already_succeeded].
    assert (Hrec : payment_already_succeeded s = true -> exists a b c0, String c s = a +:+ "payment for " +:+ b +:+ " already succeeded" +:+ c0 /\ one_line b = true).
    { intros H. destruct (IH H) as (a & b & d & -> & ?). by exists (String c a), b, d. }
    destruct (strip_prefix "payment for " (String c s)) as [after|] eqn:E; [|exact Hrec].
    intros [H|H]%orb_true_iff; [|by apply Hrec]. apply strip_prefix_spec in E. rewrite E.
    destruct (proj1 (line_contains after) H) as (b & d & -> & Hb). by exists "", b, d.
  - intros (a & b & c & -> & Hb). induction a as [|x a IH].
    + change ("" +:+ "payment for " +:+ b +:+ " already succeeded" +:+ c) with
        (String "p"%char ("ayment for " +:+ b +:+ " already succeeded" +:+ c)). cbn [payment_already_succeeded].
      assert (E : strip_prefix "payment for " (String "p"%char ("ayment for " +:+ b +:+ " already succeeded" +:+ c)) =
        Some (b +:+ " already succeeded" +:+ c)) by (by apply strip_prefix_spec).
      rewrite E. apply orb_true_iff. left. apply line_contains. by exists b, c.
    + change (String x a +:+ ?s) with (String x (a +:+ s)). cbn [payment_already_succeeded].
      destruct (strip_prefix _ _); [|exact IH]. apply orb_true_iff. by right.
Qed.

(** A proof that cannot be constructed is reported.  Once the payload is
    in the cache, the task is done when the broadcast is accepted, and when
    the answer says the payment was made before; any other failure is
    reported to the GMP API as a message that cannot be executed, with the
    ids of the task and of its message and the text of the failure, and the
    task is done exactly when that report is accepted. *)
Theorem proof_failure_reported (task : ConstructProofTask) (cc : CrossChainId) (bytes : string) (value : Value)
    (w w1 w2 : W) (answer : result string GmpApiError) :
  let message := proof_message (proof_task task) in
  let payload := proof_payload (proof_task task) in
  cc_new (source_chain message) (message_id message) = Ok cc -> base64_decode payload = Ok bytes ->
  cache_store cc (mkPayload message payload) w = (Done (Ok tt), w1) -> prover_to_value (ProofOf cc bytes) = Ok value ->
  post_broadcast (prover config) (BroadcastGeneric value) w1 = (Done answer, w2) ->
  match answer with
  | Ok _ => xrpl_handle_construct_proof config task w = (Done (Ok tt), w2)
  | Err e =>
      let text := show_IngestorError (IngGenericError ("Failed to broadcast message: " +:+ show_GmpApiError e)) in
      (succeeded_text text -> xrpl_handle_construct_proof config task w = (Done (Ok tt), w2)) /\
      (~ succeeded_text text -> forall o w3,
         cannot_execute_message (id (proof_common task)) (message_id message) (source_chain message) text ExecuteError w2 = (Done o, w3) ->
         xrpl_handle_construct_proof config task w = (Done (rmap_err (fun e => IngGenericError (show_GmpApiError e)) o), w3))
  end.
Proof.
  cbv zeta. intros Hcc Hb Hs Hv Hp.
  assert (H : forall r w', (let! maybe_tx_hash := map_err (fun e => IngGenericError ("Failed to broadcast message: " +:+ show_GmpApiError e))
      (post_broadcast (prover config) (BroadcastGeneric value)) in
    match maybe_tx_hash with
    | Ok _ => ret (Ok tt)
    | Err e =>
      if payment_already_succeeded (show_IngestorError e) then ret (Ok tt)
      else
        let? _c := map_err (fun e => IngGenericError (show_GmpApiError e))
          (cannot_execute_message (id (proof_common task)) (message_id (proof_message (proof_task task)))
             (source_chain (proof_message (proof_task task))) (show_IngestorError e) ExecuteError) in
        ret (Ok tt)
    end) w1 = (r, w') -> xrpl_handle_construct_proof config task w = (r, w')).
  { intros r w' E. unfold xrpl_handle_construct_proof. rewrite bind_ok_run, Hcc. cbn [generic_with rmap_err ret].
    rewrite bind_ok_run, Hb. cbn [generic_with rmap_err ret]. rewrite bind_ok_run, map_err_run, Hs. cbn [rmap_err].
    by rewrite bind_ok_run, Hv. }
  rewrite bind_run, map_err_run, Hp in H. destruct answer as [hash|e]; cbn [rmap_err] in H; [by apply H|].
  destruct (payment_already_succeeded _) eqn:Es.
  - split; [intros _; by apply H|]. intros Hn. by apply succeeded_spec in Es.
  - split; [intros Hy%succeeded_spec; by rewrite Es in Hy|]. intros _ o w3 Ho. apply H. rewrite bind_ok_run, map_err_run, Ho.
    by destruct o as [[]|].
Qed.
End payments.

(** ** The tables and the network *)

Section world.
Context {XL : XrplLib} {L : TonLib} {XA : XrplApi} {XP : XrplPayments} {XMA : XrplAmplifier} {PS : PaymentSub}
  {CC : CrossChain} {SE : XrplSerde} {C : Codecs} {J : Json} {DL : DecimalLib} {DO : DecimalOps}.
Context {X : Type} {XM : XrplMessages} {API : GmpApiTrait X} {PC : PayloadCacheTrait X} {PV : PriceViewTrait X}
  {HT : XrplHttp X} {NOW : Rfc3339Now X}.

(** The two tables of the ingestor, and the rest of its world. *)
Record IngWorld : Type := mkIng { ing_txs : XrplTxDb; ing_retries : RetriesDb; ing_net : X }.

Definition on_txs {A} (m : M XrplTxDb A) : M IngWorld A := fun w =>
  let '(o, d) := m (ing_txs w) in (o, mkIng d (ing_retries w) (ing_net w)).
Definition on_retries {A} (m : M RetriesDb A) : M IngWorld A := fun w =>
  let '(o, d) := m (ing_retries w) in (o, mkIng (ing_txs w) d (ing_net w)).
Definition on_net {A} (m : M X A) : M IngWorld A := fun w =>
  let '(o, x) := m (ing_net w) in (o, mkIng (ing_txs w) (ing_retries w) x).

#[export] Instance ing_xtx_model : Model XrplRow string IngWorld := {|
  model_upsert := fun r => on_txs (model_upsert r);
  model_find := fun i => on_txs (model_find i);
  model_delete := fun r => on_txs (model_delete r);
|}.
#[export] Instance ing_txs_model : XrplTransactionModel IngWorld := {|
  xtx_model := ing_xtx_model;
  update_status := fun h s => on_txs (update_status h s);
  update_verify_task := fun h s => on_txs (update_verify_task h s);
  update_verify_tx := fun h s => on_txs (update_verify_tx h s);
  update_quorum_reached_task := fun h s => on_txs (update_quorum_reached_task h s);
  update_route_tx := fun h s => on_txs (update_route_tx h s);
|}.
#[export] Instance ing_retries_model : Model TaskRetries string IngWorld := {|
  model_upsert := fun r => on_retries (model_upsert r);
  model_find := fun i => on_retries (model_find i);
  model_delete := fun r => on_retries (model_delete r);
|}.
#[export] Instance ing_api : GmpApiTrait IngWorld := {|
  get_chain := get_chain (W := X);
  get_tasks_action := fun a => on_net (get_tasks_action a);
  post_events := fun es => on_net (post_events es);
  post_broadcast := fun c d => on_net (post_broadcast c d);
  get_broadcast_result := fun c i => on_net (get_broadcast_result c i);
  post_query := fun c d => on_net (post_query c d);
  post_payload := fun p => on_net (post_payload p);
  get_payload := fun h => on_net (get_payload h);
  cannot_execute_message := fun i m s d r => on_net (cannot_execute_message i m s d r);
  its_interchain_transfer := fun m => on_net (its_interchain_transfer m);
  map_cannot_execute_message_to_event := map_cannot_execute_message_to_event (W := X);
|}.
#[export] Instance ing_cache : PayloadCacheTrait IngWorld := {|
  cache_get := fun c => on_net (cache_get c);
  cache_store := fun c v => on_net (cache_store c v);
  cache_clear := fun c => on_net (cache_clear c);
|}.
#[export] Instance ing_prices : PriceViewTrait IngWorld := {| pv_get_price := fun p => on_net (pv_get_price p) |}.
#[export] Instance ing_http : XrplHttp IngWorld := {|
  http_submit := fun b => on_net (http_submit b);
  http_tx := fun h => on_net (http_tx h);
  http_account_tx := fun a lo hi m => on_net (http_account_tx a lo hi m);
  http_account_objects := fun a => on_net (http_account_objects a);
|}.
#[export] Instance ing_now : Rfc3339Now IngWorld := {| now_rfc3339 := on_net now_rfc3339 |}.

Lemma on_net_run {A} (m : M X A) t r x : on_net m (mkIng t r x) = (fst (m x), mkIng t r (snd (m x))).
Proof. unfold on_net. cbn. by destruct (m x). Qed.

(** ** Retries *)

Section retried.
(** The retries recorded for a message. *)
Definition recorded (w : IngWorld) (message_id : string) : Z := default 0 (tables (ing_retries w) !! message_id).

(** A broadcast that was accepted but could not be recorded. *)
Definition uncounted (r : Res unit) : bool :=
  match r with
  | Err (IngGenericError s) => bool_decide (is_Some (strip_prefix "Failed to increment task retries: " s))
  | _ => false
  end.

Inductive attempt (message_id : string) (w w' : IngWorld) : Res unit -> Prop :=
| attempt_sent h task value :
    recorded w message_id < MAX_TASK_RETRIES ->
    post_broadcast (invoked_contract_address task) (BroadcastGeneric value) (ing_net w) = (Done (Ok h), ing_net w') ->
    recorded w' message_id = recorded w message_id + 1 ->
    attempt message_id w w' (Ok tt)
| attempt_uncounted h task value e :
    recorded w message_id < MAX_TASK_RETRIES -> faults (ing_retries w) <> [] ->
    post_broadcast (invoked_contract_address task) (BroadcastGeneric value) (ing_net w) = (Done (Ok h), ing_net w') ->
    recorded w' message_id = recorded w message_id ->
    attempt message_id w w' (Err (IngGenericError ("Failed to increment task retries: " +:+ e)))
| attempt_refused e task value :
    recorded w message_id < MAX_TASK_RETRIES ->
    post_broadcast (invoked_contract_address task) (BroadcastGeneric value) (ing_net w) = (Done (Err e), ing_net w') ->
    recorded w' message_id = recorded w message_id ->
    attempt message_id w w' (Err (IngPostEventError (show_GmpApiError e)))
| attempt_not_made r : ing_net w' = ing_net w -> recorded w' message_id = recorded w message_id ->
    ((exists s, r = IngParseError s /\ recorded w message_id < MAX_TASK_RETRIES) \/
     (exists s, r = IngGenericError ("Failed to find task retries: " +:+ s) /\ faults (ing_retries w) <> []) \/
     (r = IngTaskMaxRetriesReached /\ MAX_TASK_RETRIES <= recorded w message_id)) ->
    attempt message_id w w' (Err r).

Lemma retry_attempt task mid w r w' :
  message_id_from_retry_task task = Ok (Some mid) -> xrpl_handle_retriable_task task w = (Done r, w') ->
  attempt mid w w' r /\ (faults (ing_retries w) = [] -> faults (ing_retries w') = []).
Proof.
  destruct w as [t [rows now fs] x]. intros Hid. unfold xrpl_handle_retriable_task.
  rewrite bind_ok_run, Hid. cbn [generic_with rmap_err ret]. rewrite bind_ok_run, map_err_run.
  cbn [model_find ing_retries_model PgTaskRetriesModel]. unfold on_retries at 1, retries_find, sql_query.
  cbn [ing_retries ing_txs ing_net].
  unfold sql. destruct (next_fault (mkStore rows now fs)) as [e|] eqn:Hf.
  { apply next_fault_some in Hf. cbn. intros [= <- <-]. split; [|by intros ->]. apply attempt_not_made; [done|done|].
    right; left. by exists e. }
  cbn [rmap_err tables clock faults]. set (n := default 0 (rows !! mid)).
  assert (Hn : retries (default (mkRetries mid 0) (mkRetries mid <$> rows !! mid)) = n /\
    retries_message_id (default (mkRetries mid 0) (mkRetries mid <$> rows !! mid)) = mid).
  { unfold n. by destruct (rows !! mid). }
  destruct Hn as [-> ->]. destruct (Z.leb_spec MAX_TASK_RETRIES n) as [Hge|Hlt].
  { intros [= <- <-]. split; [|by intros ->]. apply attempt_not_made; [done|done|]. right; right. split; [done|exact Hge]. }
  rewrite bind_ok_run. destruct (parse_json (request_payload task)) as [value|e]; cbn [rmap_err ret].
  2: { intros [= <- <-]. split; [|by intros ->]. apply attempt_not_made; [done|done|]. left. eexists. split; [reflexivity|exact Hlt]. }
  rewrite bind_ok_run, map_err_run. cbn [post_broadcast ing_api]. rewrite on_net_run.
  destruct (post_broadcast (invoked_contract_address task) (BroadcastGeneric value) x) as [[[h|e]|why] x'] eqn:Eb;
    cbn [fst snd rmap_err]; [| |done].
  2: { intros [= <- <-]. split; [|by intros ->]. apply (attempt_refused _ _ _ e task value); [exact Hlt|exact Eb|done]. }
  rewrite map_err_run. cbn [model_upsert ing_retries_model PgTaskRetriesModel]. unfold on_retries, retries_upsert, sql_exec, sql.
  cbn [ing_retries ing_txs ing_net].
  match goal with |- context [next_fault ?s] => destruct (next_fault s) as [e|] eqn:Hf2 end;
    cbn [tables clock faults rmap_err]; intros [= <- <-].
  - split; [|by intros ->]. apply (attempt_uncounted _ _ _ h task value); [exact Hlt| |exact Eb|done].
    apply next_fault_some in Hf2. cbn in *. by intros ->.
  - split; [|by intros ->]. apply (attempt_sent _ _ _ h task value); [exact Hlt|exact Eb|]. unfold recorded. cbn.
    by rewrite lookup_insert_eq.
Qed.

(** A sequence of tasks, one after the other. *)
Fixpoint handle_retries (tasks : list RetryTask) : M IngWorld (list (Res unit)) :=
  match tasks with
  | [] => ret []
  | task :: tasks =>
      let! r := xrpl_handle_retriable_task task in
      let! rs := handle_retries tasks in
      ret (r :: rs)
  end.

(** The broadcasts the network accepted so far, as it counts them. *)
Variable accepted : X -> nat.
Hypothesis accepted_counts : forall c d x,
  match post_broadcast c d x with
  | (Done (Ok _), x') => accepted x' = S (accepted x)
  | (_, x') => accepted x' = accepted x
  end.

Definition uncounted_in (rs : list (Res unit)) : nat := length (List.filter uncounted rs).

(** C23: a message is retried at most [MAX_TASK_RETRIES] times.  Take any
    sequence of retry tasks of one message, handled one after the other,
    whatever the network and the table of retries answer.  The retries
    recorded never exceed the limit, and the broadcasts the network accepted
    meanwhile are as many as the retries recorded meanwhile, plus one for each
    task whose broadcast could not be recorded.  So, while the table answers,
    no more broadcasts are accepted than retries were left.  Once the limit is
    reached nothing is sent, and every task is refused.  Broadcasts that fail
    are not counted. *)
Theorem retries_bounded (tasks : list RetryTask) (mid : string) (w w' : IngWorld) (rs : list (Res unit)) :
  (forall t, t ∈ tasks -> message_id_from_retry_task t = Ok (Some mid)) ->
  recorded w mid <= MAX_TASK_RETRIES -> handle_retries tasks w = (Done rs, w') ->
  recorded w mid <= recorded w' mid <= MAX_TASK_RETRIES /\
  Z.of_nat (accepted (ing_net w')) =
    Z.of_nat (accepted (ing_net w)) + (recorded w' mid - recorded w mid) + Z.of_nat (uncounted_in rs) /\
  (faults (ing_retries w) = [] -> uncounted_in rs = 0%nat /\
     Z.of_nat (accepted (ing_net w')) <= Z.of_nat (accepted (ing_net w)) + (MAX_TASK_RETRIES - recorded w mid)) /\
  (recorded w mid = MAX_TASK_RETRIES -> ing_net w' = ing_net w /\ forall r, r ∈ rs -> is_ok r = false).
Proof.
  intros Ht Hr E. enough (H : recorded w mid <= recorded w' mid <= MAX_TASK_RETRIES /\
    Z.of_nat (accepted (ing_net w')) =
      Z.of_nat (accepted (ing_net w)) + (recorded w' mid - recorded w mid) + Z.of_nat (uncounted_in rs) /\
    (faults (ing_retries w) = [] -> uncounted_in rs = 0%nat) /\
    (recorded w mid = MAX_TASK_RETRIES -> ing_net w' = ing_net w /\ forall r, r ∈ rs -> is_ok r = false)).
  { destruct H as (H1 & H2 & H3 & H4). do 2 (split; [done|]). split; [|done]. intros Hf. split; [by apply H3|].
    rewrite (H3 Hf) in H2. lia. }
  revert w rs Hr E. induction tasks as [|task tasks IH]; intros w rs Hr; cbn [handle_retries].
  - intros [= <- <-]. cbn. split; [lia|]. split; [lia|]. split; [done|]. intros _. split; [done|]. by intros r ?%not_elem_of_nil.
  - rewrite bind_run. destruct (xrpl_handle_retriable_task task w) as [[r|why] w1] eqn:E1; [|done].
    destruct (retry_attempt task mid w r w1 (Ht task ltac:(by left)) E1) as (Ha & Hf1).
    rewrite bind_run. destruct (handle_retries tasks w1) as [[rs1|why] w2] eqn:E2; [|done]. intros [= <- <-].
    specialize (IH (fun t Hin => Ht t ltac:(by right)) w1 rs1). unfold uncounted_in in *.
    inversion Ha as [h tk v Hlt Hb Hinc|h tk v e Hlt Hne Hb Hsame|e tk v Hlt Hb Hsame|r0 Hnet Hsame Hwhy]; subst r; cbn [List.filter].
    + pose proof (accepted_counts (invoked_contract_address tk) (BroadcastGeneric v) (ing_net w)) as Hc. rewrite Hb in Hc.
      destruct (IH ltac:(lia) E2) as (H1 & H2 & H3 & _). cbn [uncounted].
      split; [lia|]. split; [lia|]. split; [by intros Hf; apply H3, Hf1|lia].
    + pose proof (accepted_counts (invoked_contract_address tk) (BroadcastGeneric v) (ing_net w)) as Hc. rewrite Hb in Hc.
      destruct (IH ltac:(lia) E2) as (H1 & H2 & H3 & _).
      assert (Hu : uncounted (Err (IngGenericError ("Failed to increment task retries: " +:+ e))) = true) by reflexivity.
      rewrite Hu. split; [lia|]. split; [cbn [length]; lia|]. split; [done|lia].
    + pose proof (accepted_counts (invoked_contract_address tk) (BroadcastGeneric v) (ing_net w)) as Hc. rewrite Hb in Hc.
      destruct (IH ltac:(lia) E2) as (H1 & H2 & H3 & _). cbn [uncounted].
      split; [lia|]. split; [lia|]. split; [by intros Hf; apply H3, Hf1|lia].
    + destruct (IH ltac:(lia) E2) as (H1 & H2 & H3 & H4).
      assert (Hu : uncounted (Err r0) = false) by (by destruct Hwhy as [(? & -> & _)|[(? & -> & _)|(-> & _)]]).
      rewrite Hu. rewrite <- Hnet, <- Hsame. split; [lia|]. split; [lia|]. split; [by intros Hf; apply H3, Hf1|].
      intros Hmax. destruct (H4 Hmax) as [-> Hall]. split; [done|]. intros r [->|Hin]%elem_of_cons; [done|by apply Hall].
Qed.
End retried.

(** ** Quorums *)

Section quorum.
Variable config : XRPLConfig.

Definition db_of (w : IngWorld) : XrplTxDb * RetriesDb := (ing_txs w, ing_retries w).

Lemma on_net_db {A} (m : M X A) : preserves db_of (on_net m).
Proof. intros [t r x]. by rewrite on_net_run. Qed.

Lemma get_payload_db h : preserves db_of (get_payload (W := IngWorld) h).
Proof. apply on_net_db. Qed.
Lemma http_tx_db h : preserves db_of (http_tx (W := IngWorld) h).
Proof. apply on_net_db. Qed.
Lemma post_events_db es : preserves db_of (post_events (W := IngWorld) es).
Proof. apply on_net_db. Qed.
Lemma now_db : preserves db_of (now_rfc3339 (W := IngWorld)).
Proof. apply on_net_db. Qed.
#[local] Hint Resolve on_net_db get_payload_db http_tx_db post_events_db now_db : relayer.
#[local] Hint Extern 5 (preserves _ (match ?x with _ => _ end)) => destruct x : relayer.

Lemma confirmation_db m : preserves db_of (confirmation_request (W := IngWorld) config m).
Proof.
  unfold confirmation_request, route_incoming_message_request, xrpl_tx_from_hash. destruct m; auto 12 with relayer.
Qed.

Lemma routing_db m tx task : preserves db_of (handle_successful_routing (W := IngWorld) m tx task).
Proof. unfold handle_successful_routing. destruct m; auto 30 with relayer. Qed.

Definition decided (s : VerificationStatus) : bool :=
  match s with SucceededOnSourceChain | FailedOnSourceChain => true | _ => false end.

(** *** Everything but the row of the transaction *)

Definition beside (h : string) (w : IngWorld) : RetriesDb * gmap string XrplRow := (ing_retries w, delete h (tables (ing_txs w))).

Lemma db_beside {A} h (m : M IngWorld A) : preserves db_of m -> preserves (beside h) m.
Proof. intros Hm w. specialize (Hm w). unfold db_of in Hm. unfold beside. by injection Hm as -> ->. Qed.

Lemma alter_beside h (f : XrplRow -> XrplRow) :
  preserves (beside h) (on_txs (sql_exec (fun _ => alter f h))).
Proof.
  intros [t r x]. unfold on_txs, sql_exec. cbn [ing_txs ing_retries ing_net].
  destruct (sql_cases (fun (now : Z) (t : gmap string XrplRow) => (tt, alter f h t)) t) as [[e ->]| ->]; unfold beside; cbn; [done|].
  by rewrite delete_alter_eq.
Qed.

Lemma status_beside h s : preserves (beside h) (update_status (W := IngWorld) h s).
Proof. apply alter_beside. Qed.
Lemma quorum_task_beside h s : preserves (beside h) (update_quorum_reached_task (W := IngWorld) h s).
Proof. apply alter_beside. Qed.
Lemma route_beside h s : preserves (beside h) (update_route_tx (W := IngWorld) h s).
Proof. apply alter_beside. Qed.

Lemma confirmation_beside h c req : preserves (beside h) (broadcast_confirmation (W := IngWorld) h c req).
Proof.
  unfold broadcast_confirmation. apply preserves_bind; [apply preserves_map_err, (db_beside h), on_net_db|]. intros [hash|e].
  - apply preserves_bind_ok; [apply preserves_map_err, route_beside|intros _; apply preserves_map_err, status_beside].
  - destruct (contains _ _); apply preserves_ret.
Qed.

(** *** The run, while the table answers *)

Lemma alter_at {A} (f : A -> A) (m : gmap string A) i x : m !! i = Some x -> alter f i m = <[i := f x]> m.
Proof. intros H. rewrite <- (insert_id m i x H) at 1. apply alter_insert_eq. Qed.

(** The world with another row of the transaction, and the network elsewhere. *)
Definition at_row (w : IngWorld) (h : string) (row : XrplRow) (x : X) : IngWorld :=
  mkIng (mkStore (<[h := row]> (tables (ing_txs w))) (clock (ing_txs w)) []) (ing_retries w) x.

(** What happens once the quorum is recorded in the row: nothing more if it
    decides nothing.  If it does, the row is marked, one request is made for
    the message and, if there is one, broadcast once; the row is routed, with
    the hash of the broadcast, if that was accepted.  What a router is told
    comes after, and only then. *)
Definition quorum_outcome (task : ReactToWasmEventTask) (message : XRPLMessage) (status : VerificationStatus) (text : string)
    (row : XrplRow) (w : IngWorld) (r : Res unit) (w' : IngWorld) : Prop :=
  let h := tx_hash_as_hex_no_prefix (message_tx_id message) in
  let reached := set_quorum_reached_task text row in
  let verified := set_row_status Verified reached in
  if negb (decided status) then r = Ok tt /\ w' = at_row w h reached (ing_net w)
  else exists o x2, confirmation_request config message (at_row w h verified (ing_net w)) = (Done o, at_row w h verified x2) /\
    match o with
    | Err e => r = Err e /\ w' = at_row w h verified x2
    | Ok (contract, request, prover_tx) =>
        exists answer x3 x4, post_broadcast contract request x2 = (Done answer, x3) /\
        match answer with
        | Ok hash =>
            let routed := set_row_status Routed (set_route_tx (to_lowercase hash) verified) in
            handle_successful_routing message prover_tx task (at_row w h routed x3) = (Done r, w') /\ w' = at_row w h routed x4
        | Err e =>
            let e' := IngGenericError ("Failed to broadcast message: " +:+ show_GmpApiError e) in
            if contains "transaction status is already confirmed" (show_IngestorError e') then
              handle_successful_routing message prover_tx task (at_row w h verified x3) = (Done r, w') /\ w' = at_row w h verified x4
            else r = Err e' /\ w' = at_row w h verified x3
        end
    end.

(** A computation that leaves the tables alone only moves the network. *)
Lemma db_run {A} (m : M IngWorld A) w h row x o w' :
  preserves db_of m -> m (at_row w h row x) = (o, w') -> w' = at_row w h row (ing_net w').
Proof.
  intros Hm E. specialize (Hm (at_row w h row x)). rewrite E in Hm. unfold db_of in Hm. destruct w' as [t2 r2 x2].
  cbn in Hm. by injection Hm as -> ->.
Qed.

Lemma confirm_run h c req w row x :
  broadcast_confirmation h c req (at_row w h row x) =
    match post_broadcast c req x with
    | (Done (Ok hash), x') => (Done (Ok tt), at_row w h (set_row_status Routed (set_route_tx (to_lowercase hash) row)) x')
    | (Done (Err e), x') =>
        let e' := IngGenericError ("Failed to broadcast message: " +:+ show_GmpApiError e) in
        (Done (if contains "transaction status is already confirmed" (show_IngestorError e') then Ok tt else Err e'), at_row w h row x')
    | (Panic why, x') => (Panic why, at_row w h row x')
    end.
Proof.
  unfold broadcast_confirmation. rewrite bind_run, map_err_run. cbn [post_broadcast ing_api]. unfold at_row at 1. rewrite on_net_run.
  destruct (post_broadcast c req x) as [[[hash|e]|why] x']; cbn [fst snd rmap_err]; [| |done].
  - rewrite bind_ok_run, map_err_run. cbn. rewrite !alter_insert_eq. done.
  - by destruct (contains _ _).
Qed.

(** What follows the decision, from a row that is [Verified]. *)
Lemma confirm_tail task message status text row w r w' :
  let h := tx_hash_as_hex_no_prefix (message_tx_id message) in
  decided status = true ->
  (let? r := confirmation_request config message in
   let '(c, req, ptx) := r in
   let? _b := broadcast_confirmation h c req in
   handle_successful_routing message ptx task)
    (at_row w h (set_row_status Verified (set_quorum_reached_task text row)) (ing_net w)) = (Done r, w') ->
  quorum_outcome task message status text row w r w'.
Proof.
  cbv zeta. intros Hd. unfold quorum_outcome. rewrite Hd. cbn [negb]. set (h := tx_hash_as_hex_no_prefix (message_tx_id message)).
  set (verified := set_row_status Verified _). rewrite bind_ok_run.
  destruct (confirmation_request config message (at_row w h verified (ing_net w))) as [o w2] eqn:Ereq.
  pose proof (db_run _ _ _ _ _ _ _ (confirmation_db message) Ereq) as Hw2. rewrite Hw2 in Ereq |- *. set (x2 := ing_net w2) in *.
  destruct o as [o|why]; [|done]. intros E. exists o, x2. split; [done|]. destruct o as [[[c req] ptx]|e]; [|by injection E as <- <-].
  cbn beta iota in E. rewrite bind_ok_run, confirm_run in E.
  destruct (post_broadcast c req x2) as [[answer|why] x3]; [|done]. exists answer, x3, (ing_net w'). split; [done|].
  destruct answer as [hash|e].
  - split; [exact E|]. by eapply db_run; [apply routing_db|exact E].
  - cbv zeta in *. destruct (contains _ _).
    + split; [exact E|]. by eapply db_run; [apply routing_db|exact E].
    + by injection E as <- <-.
Qed.

(** C22: what a quorum does to the table.  When the verifiers reach a
    quorum on a message, nothing changes but the row of its transaction,
    whatever fails.  And while the table of transactions answers, a row that
    is there records the task, and then, in this very run: as long as the
    status is not decided, nothing is sent and nothing else changes.  Once it
    is, the row is [Verified], one request is made for this message and
    broadcast once; the row becomes [Routed], with the hash of the broadcast,
    exactly if the broadcast was accepted; it stays [Verified] if it was not
    or no request could be made, and then the task fails, unless the contract
    says that the status was confirmed before. *)
Theorem quorum_settles (task : ReactToWasmEventTask) (content status_text text : string) (message : XRPLMessage)
    (status : VerificationStatus) (w w' : IngWorld) (r : Res unit) :
  let h := tx_hash_as_hex_no_prefix (message_tx_id message) in
  wasm_type (wasm_event (wasm_task task)) = "wasm-quorum_reached" ->
  event_attribute (wasm_event (wasm_task task)) "content" = Some content ->
  event_attribute (wasm_event (wasm_task task)) "status" = Some status_text ->
  status_from_str status_text = Ok status -> quorum_content_message content = Ok message ->
  wasm_task_to_str task = Ok text ->
  xrpl_handle_wasm_event config task w = (Done r, w') ->
  (ing_retries w' = ing_retries w /\ forall k, k <> h -> tables (ing_txs w') !! k = tables (ing_txs w) !! k) /\
  (forall row, faults (ing_txs w) = [] -> tables (ing_txs w) !! h = Some row ->
     quorum_outcome task message status text row w r w').
Proof.
  cbv zeta. intros Hty Hc Hs Hst Hm Ht. set (h := tx_hash_as_hex_no_prefix (message_tx_id message)) in *.
  unfold xrpl_handle_wasm_event. rewrite Hty, bool_decide_eq_true_2 by done. rewrite Hc, Hs. cbn [ok_or].
  do 2 (rewrite bind_ok_run; cbn [ret]). rewrite bind_ok_run, Hst. cbn [ret generic_with rmap_err].
  rewrite bind_ok_run, Hm. cbn [ret]. rewrite bind_ok_run, Ht. cbn [ret generic_with rmap_err]. fold h.
  assert (Hd : forall k k' : M IngWorld (Res unit), match status with
    | SucceededOnSourceChain | FailedOnSourceChain => k | _ => k' end = if decided status then k else k').
  { intros k k'. by destruct status. }
  rewrite Hd. clear Hd. intros E. split.
  - match type of E with ?m w = _ => assert (Hp : preserves (beside h) m) end.
    { apply preserves_bind_ok; [apply preserves_map_err, quorum_task_beside|]. intros _. destruct (decided status); [|apply preserves_ret].
      apply preserves_bind_ok; [apply preserves_map_err, status_beside|]. intros _.
      apply preserves_bind_ok; [apply db_beside, confirmation_db|]. intros [[c req] ptx].
      apply preserves_bind_ok; [apply confirmation_beside|]. intros _. apply db_beside, routing_db. }
    specialize (Hp w). rewrite E in Hp. unfold beside in Hp. cbn [snd] in Hp. injection Hp as Hr Hk. split; [done|].
    intros k Hne. by rewrite <- (lookup_delete_ne (tables (ing_txs w')) h k), Hk, lookup_delete_ne.
  - intros row Hf Hrow. destruct w as [[t now fs] rt x]. cbn [ing_txs tables faults] in *. subst fs. rewrite bind_ok_run, map_err_run in E.
    change (update_quorum_reached_task h text (mkIng (mkStore t now []) rt x)) with
      (Done (Ok tt : result unit string), mkIng (mkStore (alter (set_quorum_reached_task text) h t) now []) rt x) in E.
    rewrite (alter_at _ _ _ _ Hrow) in E. cbn [rmap_err] in E. destruct (decided status) eqn:Ed.
    + rewrite bind_ok_run, map_err_run in E.
      change (update_status h Verified (mkIng (mkStore (<[h := set_quorum_reached_task text row]> t) now []) rt x)) with
        (Done (Ok tt : result unit string), mkIng (mkStore (alter (set_row_status Verified) h (<[h := set_quorum_reached_task text row]> t)) now []) rt x) in E.
      rewrite alter_insert_eq in E. cbn [rmap_err] in E. by apply confirm_tail.
    + injection E as <- <-. unfold quorum_outcome. by rewrite Ed.
Qed.
End quorum.
End world.

(** ** Concrete runs *)

Module IngestedDemo.
Export XrplDemo.
#[export] Existing Instance XrplMessageDemo.amplifier.
#[export] Existing Instance XrplMessageDemo.drops.
#[export] Existing Instance XrplMessageDemo.drops_laws.
#[export] Existing Instance XrplMessageDemo.pairs_of_text.
#[export] Existing Instance DbDemo.decimals.
#[export] Existing Instance GmpAudit.AuditDemo.messages.
#[export] Instance ton : TonLib := text_ton.
#[export] Instance codecs : Codecs := text_codecs.
#[export] Instance json : Json := {| parse_json := fun s => Ok (VString s); print_json := fun _ => "" |}.
#[export] Instance decimal_ops : DecimalOps := {|
  dec_from_scientific := Ok; dec_from_i128 := fun _ => Done "1"; dec_from_f64 := fun _ => None;
  dec_checked_mul := fun a _ => Some a; dec_trunc := fun a => a;
|}.
#[export] Instance payments : XrplPayments := {|
  pay_amount := fun _ => ADrops "100"; pay_destination := fun _ => "rMulti"; tx_fee := fun _ => "12";
  tx_date := fun _ => Some 5; tx_result := fun _ => None; tx_to_json := fun _ => Ok "{}"; result_to_json := fun r => Ok (fst r);
|}.
Definition translated : MessageWithPayload :=
  mkMessageWithPayload (mkRouterMessage "0xabc" "xrpl" "rUser" "0xdest" "avalanche" "ph") "payload".
#[export] Instance serde : XrplSerde := {|
  message_to_str := fun m => Ok (message_tx_id m); message_from_str := fun s => Ok (AddReservesMessage (mkAddReserves s 5));
  cc_message_from_str := Err; debug_message := message_tx_id;
  message_type_from_str := fun s =>
    if decide (s = String "034"%char ("interchain_transfer" +:+ String "034"%char "")) then Ok TInterchainTransfer else Err s;
  message_type_to_string := fun _ => "interchain_transfer";
  gateway_to_value := fun _ => Ok VNull; gateway_from_str := fun s => Ok (VerifyMessages [AddReservesMessage (mkAddReserves s 5)]);
  gateway_query_to_value := fun _ => Ok VNull;
  prover_to_value := fun _ => Ok VNull; prover_from_str := Err; debug_gateway := fun _ => ""; debug_prover := fun _ => "";
  token_id_from_str := Ok; interchain_transfer_from_str := fun _ => Ok (Some translated, "0xtok"); call_contract_from_str := Err;
  verify_task_to_str := fun _ => Ok ""; wasm_task_to_str := fun _ => Ok "task";
  status_from_str := fun s => if decide (s = "ok") then Ok SucceededOnSourceChain else Err s; string_from_str := Ok;
|}.
(** A GMP API that is up or down. *)
Definition answer {A} (up : bool) (a : A) : M unit (result A GmpApiError) := ret (if up then Ok a else Err (GmpTimeout "late")).
Definition api_of (up : bool) : GmpApiTrait unit := {|
  get_chain := "xrpl"; get_tasks_action := fun _ => answer up [];
  post_events := fun es => answer up (map (fun _ => mkPostResult "ACCEPTED" 0 None None) es);
  post_broadcast := fun _ _ => answer up "HASH"; get_broadcast_result := fun _ _ => answer up "HASH";
  post_query := fun _ _ => answer up "{}"; post_payload := fun _ => answer up "p"; get_payload := fun _ => answer up "p";
  cannot_execute_message := fun _ _ _ _ _ => ret (Ok tt); its_interchain_transfer := fun _ => answer up tt;
  map_cannot_execute_message_to_event := fun _ _ _ _ _ => Panic "none";
|}.
#[export] Instance api : GmpApiTrait unit := api_of true.
#[export] Instance cache : PayloadCacheTrait unit := {|
  cache_get := fun _ => ret (Ok None); cache_store := fun _ _ => ret (Ok tt); cache_clear := fun _ => ret (Ok tt);
|}.
#[export] Instance prices : PriceViewTrait unit := {| pv_get_price := fun _ => ret (Ok "1") |}.
#[export] Instance http : XrplHttp unit := {|
  http_submit := fun _ => ret (Err (XOther "")); http_tx := fun _ => ret (Err (XOther ""));
  http_account_tx := fun _ _ _ _ => ret (Err (XOther "")); http_account_objects := fun _ => ret (Err (XOther ""));
|}.
#[export] Instance rfc_now : Rfc3339Now unit := {| now_rfc3339 := ret "2025-01-01T00:00:00Z" |}.

Definition hash32 : string := "0123456789abcdef0123456789abcdef".
Definition memo (k v : string) : Memo := mkMemo (Some k) (Some v).
(** A payment of 100 drops that transfers 70 of them and leaves 30 for gas. *)
Definition payment_with (more : list Memo) : XrplTransaction :=
  tx_with KPayment hash32
    ([memo "type" "interchain_transfer"; memo "gas_fee_amount" "30"; memo "destination_chain" "avalanche";
      memo "destination_address" "0xdest"] ++ more) None.
Definition start : IngWorld (X := unit) := mkIng (mkStore ∅ 1000 []) (mkStore ∅ 1000 []) tt.
Definition no_f64 (_ : F64) : string := "".
Definition no_text `{!XrplLib, !TonLib} (_ : ChainTransaction) : string := "".
Definition paid_events : list Event :=
  match fst (xrpl_handle_transaction no_f64 demo_config no_text (Subscriber.Xrpl (payment_with [])) start) with
  | Done (Ok es) => es
  | _ => []
  end.
Definition row : XrplRow :=
  mkXrplRow "x1" "{}" TypePayment (Some "x1") None Initialized None (Some "v") None None SourceUser (Some 7) 0.
Definition quorum_task : ReactToWasmEventTask :=
  mkWasmTask (mkCommonTask "t" "xrpl" "now" "REACT_TO_WASM_EVENT" None)
    (mkWasmFields (mkWasmEvent [mkAttribute "content" "x1"; mkAttribute "status" "ok"] "wasm-quorum_reached") 3).
Definition poll_task : RetryTask :=
  RetryPoll (mkPollTask (mkCommonTask "t" "xrpl" "now" "REACT_TO_RETRIABLE_POLL" None) (mkPollFields 1 "b" "c" "x1" None)).
Definition proof_task : ConstructProofTask :=
  mkProofTask (mkCommonTask "t9" "xrpl" "now" "CONSTRUCT_PROOF" None) (mkProofFields (mkMessage "0xm" "avalanche" "a" "b" "h") "payload").
(** Eight tasks of one message, over a network that counts what it accepts and
    a table that does not answer once, when the second is to be recorded; and
    a quorum. *)
Definition counting_api : GmpApiTrait nat := {|
  get_chain := "xrpl"; get_tasks_action := fun _ => ret (Ok []); post_events := fun es => ret (Ok []);
  post_broadcast := fun _ _ n => (Done (Ok "HASH"), S n); get_broadcast_result := fun _ _ => ret (Ok "HASH");
  post_query := fun _ _ => ret (Ok "{}"); post_payload := fun _ => ret (Ok "p"); get_payload := fun _ => ret (Ok "p");
  cannot_execute_message := fun _ _ _ _ _ => ret (Ok tt); its_interchain_transfer := fun _ => ret (Ok tt);
  map_cannot_execute_message_to_event := fun _ _ _ _ _ => Panic "none";
|}.
Definition counted_start : IngWorld (X := nat) := mkIng (mkStore ∅ 1000 []) (mkStore ∅ 1000 [None; None; None; Some "reset"]) 0%nat.
Definition counted := handle_retries (API := counting_api) (repeat poll_task 8) counted_start.
Definition counted_results : list (Res unit) := match fst counted with Done rs => rs | _ => [] end.
Definition with_row : IngWorld (X := unit) := mkIng (mkStore {["x1" := row]} 1000 []) (mkStore ∅ 1000 []) tt.
Definition quorum_run := xrpl_handle_wasm_event demo_config quorum_task with_row.
End IngestedDemo.
Import IngestedDemo.

Lemma payment_accounted_witness :
  map event_name paid_events = ["Call"; "GasCredit"; "ITSInterchainTransfer"] /\
  omap event_drops paid_events = ["30"; "70"] /\
  exists bytes, (forall e, e ∈ paid_events -> event_tx_id e = Some (text_of_id bytes)) /\ add_up 100 (omap event_drops paid_events).
Proof.
  split; [vm_compute; reflexivity|]. split; [vm_compute; reflexivity|].
  destruct (payment_accounted no_f64 demo_config no_text (Subscriber.Xrpl (payment_with [])) paid_events start
    (snd (xrpl_handle_transaction no_f64 demo_config no_text (Subscriber.Xrpl (payment_with [])) start)))
    as (p & h & bytes & Hp & _ & _ & _ & _ & _ & Hid & _ & Ht); [vm_compute; reflexivity|vm_compute; discriminate|].
  exists bytes. split; [exact Hid|]. apply Ht. reflexivity.
Defined.

Lemma payload_outage_witness :
  exists w2, xrpl_handle_transaction (API := ing_api (API := api_of false)) no_f64 demo_config no_text
    (Subscriber.Xrpl (payment_with [memo "payload_hash" hash32])) start = (Done (Ok []), w2).
Proof.
  eapply (payload_outage_drops_payment (API := ing_api (API := api_of false)) no_f64 demo_config no_text
    (payment_with [memo "payload_hash" hash32]) _ hash32 (GmpTimeout "late") TInterchainTransfer start).
  - reflexivity.
  - reflexivity.
  - vm_compute; reflexivity.
  - by left.
  - vm_compute; reflexivity.
  - vm_compute; reflexivity.
  - intros [t r []]. by eexists.
  - vm_compute; reflexivity.
  - vm_compute; reflexivity.
Defined.

Lemma retries_bounded_witness :
  0 <= recorded (snd counted) "x1" <= 5 /\
  Z.of_nat (ing_net (snd counted)) = 0 + (recorded (snd counted) "x1" - 0) + Z.of_nat (uncounted_in counted_results) /\
  ing_net (snd counted) = 6%nat /\ uncounted_in counted_results = 1%nat.
Proof.
  destruct (retries_bounded (API := counting_api) (fun n : nat => n) (fun _ _ _ => eq_refl)
    (repeat poll_task 8) "x1" counted_start (snd counted) counted_results) as (H1 & H2 & _).
  - intros t Ht. apply list_elem_of_In, repeat_spec in Ht. by subst t.
  - vm_compute; discriminate.
  - vm_compute; reflexivity.
  - split; [exact H1|]. split; [exact H2|]. split; vm_compute; reflexivity.
Defined.

Lemma quorum_settles_witness :
  fst quorum_run = Done (Ok tt) /\
  quorum_outcome demo_config quorum_task (AddReservesMessage (mkAddReserves "x1" 5)) SucceededOnSourceChain "task" row with_row (Ok tt) (snd quorum_run) /\
  (row_status <$> tables (ing_txs (snd quorum_run)) !! "x1") = Some Routed.
Proof.
  split; [vm_compute; reflexivity|]. split; [|vm_compute; reflexivity].
  apply (quorum_settles demo_config quorum_task "x1" "ok" "task" (AddReservesMessage (mkAddReserves "x1" 5)) SucceededOnSourceChain
    with_row (snd quorum_run) (Ok tt)); vm_compute; reflexivity.
Defined.

Lemma proof_failure_witness :
  xrpl_handle_construct_proof (API := ing_api (API := api_of false)) demo_config proof_task start = (Done (Ok tt), start).
Proof.
  refine (proj2 (proof_failure_reported (API := ing_api (API := api_of false)) demo_config proof_task "avalanche_0xm" "payload" VNull
    start start start (Err (GmpTimeout "late")) eq_refl eq_refl eq_refl eq_refl eq_refl) _ (Ok tt) start eq_refl).
  intros H%succeeded_spec. revert H. vm_compute. discriminate.
Defined.
