(* ===== verification/Amounts.v ===== *)
(** * Amounts of tokens

    What becomes of an amount of an issued token on its way into an event: the
    conversions of [xrpl/src/ingestor.rs], [relayer_base/src/utils.rs] and
    [ton/src/transaction_parser/], against exact rational numbers.  The laws
    are those of [rust_decimal]'s documentation: a decimal is a whole number of
    at most 96 bits over a power of ten up to 28; an operation is exact when
    its result is such a number, is otherwise off by no more than a unit of the
    27th digit, and refuses what has more than 96 bits before the point. *)

From Stdlib Require Import QArith Qround Qabs Lqa.
From S2P Require Import Prelude.
From S2P Require Import Decimal.
From S2P Require Import GmpTypes.
From S2P Require Import Text.
From S2P Require Import GmpApi.
From S2P Require Import Database.
From S2P Require Import TonLib.
From S2P Require Import TonCells.
From S2P Require Import TonTypes.
From S2P Require Import TonMessages.
From S2P Require Import TonParsers.
From S2P Require Import GasCalculator.
From S2P Require Import TraceParser.
From S2P Require Import Subscriber.
From S2P Require Import Config.
From S2P Require Import Xrpl.
From S2P Require Import XrplMessages.
From S2P Require Import XrplTransactions.
From S2P Require Import XrplIngestor.
From S2P Require Import XrplIngested.
Open Scope Z_scope.

(** ** Decimals *)

Definition LIMIT : Z := 2 ^ 96.
Definition MAX_SCALE : Z := 28.

Definition over (m e : Z) : Q := (inject_Z m / inject_Z (10 ^ e))%Q.
Definition representable (q : Q) : Prop :=
  exists m e, Z.abs m < LIMIT /\ 0 <= e <= MAX_SCALE /\ (q == over m e)%Q.
Definition too_large (q : Q) : Prop := (inject_Z LIMIT <= Qabs q)%Q.

(** To the nearest whole number, to the even one of two. *)
Definition half_even (q : Q) : Z :=
  let f := Qfloor q in
  match (q - inject_Z f ?= 1 # 2)%Q with
  | Lt => f
  | Gt => f + 1
  | Eq => if Z.even f then f else f + 1
  end.

(** A result that had to be rounded: 96 bits hold 28 digits, so it is off by
    less than one unit of the 27th digit of a value above one, or of the 27th
    decimal of a smaller one. *)
Definition EPS : Q := 1 # (10 ^ 27).
Definition near (d q : Q) : Prop := (Qabs (d - q) <= EPS * (1 + Qabs q))%Q.
(** At least one below the limit, so that rounding does not reach it. *)
Definition within (q : Q) : Prop := (q <= inject_Z (LIMIT - 1))%Q.

Class DecimalValues `{!DecimalLib} : Type := { dec_value : Dec -> Q }.

Class DecimalArith `{!DecimalLib, !DecimalValues} : Prop := {
  mul_exact : forall a b, representable (dec_value a * dec_value b) ->
    exists d, dec_mul a b = Done d /\ (dec_value d == dec_value a * dec_value b)%Q;
  mul_overflow : forall a b, too_large (dec_value a * dec_value b) -> exists why, dec_mul a b = Panic why;
  div_exact : forall a b, ~ (dec_value b == 0)%Q -> representable (dec_value a / dec_value b) ->
    exists d, dec_div a b = Done d /\ (dec_value d == dec_value a / dec_value b)%Q;
  div_zero : forall a b, (dec_value b == 0)%Q -> exists why, dec_div a b = Panic why;
  div_overflow : forall a b, ~ (dec_value b == 0)%Q -> too_large (dec_value a / dec_value b) ->
    exists why, dec_div a b = Panic why;
  (** Rounded results.  At least one times the least decimal is no zero; a
      quotient that rounds to zero is printed as one. *)
  mul_near : forall a b, (1 <= dec_value a)%Q -> (0 < dec_value b)%Q -> within (dec_value a * dec_value b) ->
    exists d, dec_mul a b = Done d /\ near (dec_value d) (dec_value a * dec_value b) /\ (0 < dec_value d)%Q;
  div_near : forall a b, (0 < dec_value a)%Q -> (0 < dec_value b)%Q -> within (dec_value a / dec_value b) ->
    exists d, dec_div a b = Done d /\ near (dec_value d) (dec_value a / dec_value b) /\ (0 <= dec_value d)%Q /\
      dec_to_string (dec_round d) = print_Z (half_even (dec_value d));
  from_str_whole : forall n : N, Z.of_N n < LIMIT ->
    exists d, dec_from_str (print_N n) = Ok d /\ (dec_value d == inject_Z (Z.of_N n))%Q;
  from_str_large : forall n : N, LIMIT <= Z.of_N n -> exists e, dec_from_str (print_N n) = Err e;
  round_text : forall d, (0 < dec_value d)%Q -> dec_to_string (dec_round d) = print_Z (half_even (dec_value d));
}.

Class DecimalConversions `{!DecimalLib, !DecimalValues, !DecimalOps} : Prop := {
  from_scientific_representable : forall s d, dec_from_scientific s = Ok d -> representable (dec_value d);
  from_i128_small : forall n, Z.abs n < LIMIT -> exists d, dec_from_i128 n = Done d /\ (dec_value d == inject_Z n)%Q;
  from_i128_large : forall n, LIMIT <= Z.abs n -> exists why, dec_from_i128 n = Panic why;
  checked_mul_exact : forall a b, representable (dec_value a * dec_value b) ->
    exists d, dec_checked_mul a b = Some d /\ (dec_value d == dec_value a * dec_value b)%Q;
  checked_mul_overflow : forall a b, too_large (dec_value a * dec_value b) -> dec_checked_mul a b = None;
  trunc_text : forall d, (0 < dec_value d)%Q -> dec_to_string (dec_trunc d) = print_Z (Qfloor (dec_value d));
}.

#[export] Instance representable_proper : Proper (Qeq ==> iff) representable.
Proof. intros p q E. split; intros (m & e & H1 & H2 & H3); exists m, e; rewrite ?E in *; by rewrite <- ?E in *. Qed.
#[export] Instance too_large_proper : Proper (Qeq ==> iff) too_large.
Proof. intros p q E. unfold too_large. by rewrite E. Qed.
#[export] Instance half_even_proper : Proper (Qeq ==> eq) half_even.
Proof.
  intros p q E. unfold half_even. rewrite (Qfloor_comp _ _ E).
  by rewrite (Qcompare_comp _ (q - inject_Z (Qfloor q))%Q (Qplus_comp _ _ E _ _ (Qeq_refl _)) _ _ (Qeq_refl _)).
Qed.

#[export] Instance within_proper : Proper (Qeq ==> iff) within.
Proof. intros p q E. unfold within. by rewrite E. Qed.
#[export] Instance near_proper : Proper (Qeq ==> Qeq ==> iff) near.
Proof. intros a b E p q E'. unfold near. by rewrite E, E'. Qed.

Lemma near_bounds d q : (0 <= q)%Q -> near d q -> (q - EPS * (1 + q) <= d <= q + EPS * (1 + q))%Q.
Proof. intros Hq H. unfold near in H. rewrite (Qabs_pos q Hq) in H. apply Qabs_Qle_condition in H. lra. Qed.

Lemma half_even_near q : (Qabs (inject_Z (half_even q) - q) <= 1 # 2)%Q.
Proof.
  apply Qabs_Qle_condition. pose proof (Qfloor_le q) as H1. pose proof (Qlt_floor q) as H2. rewrite inject_Z_plus in H2.
  unfold half_even. destruct (Qcompare_spec (q - inject_Z (Qfloor q)) (1 # 2)); [destruct (Z.even _)|..];
    rewrite ?inject_Z_plus; change (inject_Z 1) with 1%Q in *; lra.
Qed.

Lemma half_even_nonneg q : (0 <= q)%Q -> 0 <= half_even q.
Proof.
  intros H. unfold half_even. pose proof (Qfloor_resp_le _ _ H) as Hf. change (Qfloor 0) with 0 in Hf.
  destruct (_ ?= _)%Q; [destruct (Z.even _)|..]; lia.
Qed.

Lemma pow10_nonzero e : 0 <= e -> ~ (inject_Z (10 ^ e) == 0)%Q.
Proof. intros He H. unfold Qeq in H. cbn in H. pose proof (Z.pow_pos_nonneg 10 e). lia. Qed.

Lemma over_0 m : (over m 0 == inject_Z m)%Q.
Proof. unfold over. change (10 ^ 0) with 1. field. Qed.

Lemma over_scaled m e n : 0 <= e -> 0 <= n ->
  (over m e * inject_Z (10 ^ n) == if n <=? e then over m (e - n) else inject_Z (m * 10 ^ (n - e)))%Q.
Proof.
  intros He Hn. unfold over. destruct (Z.leb_spec n e).
  - replace (10 ^ e) with (10 ^ (e - n) * 10 ^ n) by (rewrite <- Z.pow_add_r; [f_equal|..]; lia). rewrite inject_Z_mult.
    field. split; apply pow10_nonzero; lia.
  - replace (10 ^ n) with (10 ^ (n - e) * 10 ^ e) by (rewrite <- Z.pow_add_r; [f_equal|..]; lia). rewrite !inject_Z_mult.
    field. apply pow10_nonzero; lia.
Qed.

Lemma large_or_not q : {too_large q} + {~ too_large q}.
Proof. destruct (Qlt_le_dec (Qabs q) (inject_Z LIMIT)) as [H|H]; [right; by apply Qlt_not_le|by left]. Defined.

(** Times a power of ten, an amount is exact or too large. *)
Lemma scaled_representable q n : representable q -> 0 <= n <= MAX_SCALE ->
  let v := (q * inject_Z (10 ^ n))%Q in ~ too_large v -> representable v.
Proof.
  intros (m & e & Hm & He & Hq) Hn v Hv. unfold v in *. rewrite Hq, over_scaled in * by lia.
  destruct (Z.leb_spec n e); [by exists m, (e - n); split; [|split; [lia|]]|].
  exists (m * 10 ^ (n - e)), 0. split; [|split; [done|symmetry; apply over_0]].
  unfold too_large in Hv. apply Znot_ge_lt. intros Hge. apply Hv. change (Qabs (inject_Z (m * 10 ^ (n - e)))) with (inject_Z (Z.abs (m * 10 ^ (n - e)))).
  rewrite <- Zle_Qle. lia.
Qed.

(** ** Issued amounts on XRPL *)

Section issued.
Context {XMA : XrplAmplifier} {CC : CrossChain} {SE : XrplSerde} {DL : DecimalLib} {DO : DecimalOps} {DV : DecimalValues}
  {DA : DecimalArith} {DC : DecimalConversions} {W : Type} {PV : PriceViewTrait W} {NOW : Rfc3339Now W}.
Variable show_f64 : F64 -> string.
Variable config : XRPLConfig.

(** The power of ten a token's amounts are multiplied by: from 29 digits on it
    is no decimal, also once the 128 bits wrap. *)
Lemma power_small n : 0 <= n <= MAX_SCALE -> exists d, dec_from_i128 (wrap_i128 (10 ^ n)) = Done d /\
  (dec_value d == inject_Z (10 ^ n))%Q.
Proof.
  intros Hn. assert (Hp : 0 < 10 ^ n <= 10 ^ MAX_SCALE) by (split; [|apply Z.pow_le_mono_r]; lia).
  assert (H28 : 10 ^ MAX_SCALE < LIMIT) by done.
  unfold wrap_i128. rewrite signed_small by (unfold LIMIT in *; lia). apply from_i128_small. lia.
Qed.

Lemma power_large n : MAX_SCALE < n < 128 -> exists why, dec_from_i128 (wrap_i128 (10 ^ n)) = Panic why.
Proof.
  intros Hn. apply from_i128_large.
  assert (H : forallb (fun n => LIMIT <=? Z.abs (wrap_i128 (10 ^ Z.of_nat n))) (seq 29 99) = true) by (vm_compute; reflexivity).
  rewrite forallb_forall in H. specialize (H (Z.to_nat n)). rewrite Z2Nat.id in H by (unfold MAX_SCALE in *; lia).
  apply Z.leb_le, H, in_seq. unfold MAX_SCALE in *. lia.
Qed.

Lemma scaled_amount_run a t n d w :
  get_token_decimals (common_config config) (token_id_to_string t) = Some n -> 0 <= n ->
  dec_from_scientific (token_amount_to_string a) = Ok d -> (0 < dec_value d)%Q ->
  let units := (dec_value d * inject_Z (10 ^ n))%Q in
  let scaled := scaled_amount config a t (w : W) in
  (n <= MAX_SCALE -> ~ too_large units -> scaled = (Done (Ok (print_Z (Qfloor units))), w)) /\
  (n <= MAX_SCALE -> too_large units ->
     scaled = (Done (Err (IngGenericError "Failed to multiply amount by token decimals")), w)) /\
  (MAX_SCALE < n < 128 -> exists why, scaled = (Panic why, w)).
Proof.
  intros Hn H0 Hd Hpos units scaled. unfold scaled, scaled_amount. rewrite bind_ok_run, Hd. cbn [generic_with rmap_err ret].
  rewrite bind_ok_run, Hn. cbn [ok_or ret]. rewrite bind_run. unfold run_outcome.
  assert (Hu : (0 < units)%Q).
  { unfold units. apply Qmult_lt_0_compat; [done|]. change 0%Q with (inject_Z 0). rewrite <- Zlt_Qlt. apply Z.pow_pos_nonneg; lia. }
  split; [|split].
  - intros Hle Hs. destruct (power_small n) as (p & -> & Hp); [lia|].
    assert (Hv : (dec_value d * dec_value p == units)%Q) by (unfold units; by rewrite Hp).
    destruct (checked_mul_exact d p) as (x & Hx & Hxv).
    { rewrite Hv. apply scaled_representable; [by eapply from_scientific_representable|lia|done]. }
    rewrite Hv in Hxv. rewrite bind_ok_run, Hx. cbn [ok_or ret]. rewrite trunc_text by (by rewrite Hxv). by rewrite (Qfloor_comp _ _ Hxv).
  - intros Hle Hs. destruct (power_small n) as (p & -> & Hp); [lia|].
    by rewrite bind_ok_run, checked_mul_overflow by (unfold units in Hs; by rewrite Hp).
  - intros Hlt. destruct (power_large n Hlt) as (why & ->). by exists why.
Qed.

(** C21: what an interchain transfer of an issued token is worth in the event:
    the amount times ten to the token's decimals, exactly, less the fraction
    of the smallest unit.  What exceeds 96 bits is an error; a token with 29
    decimals or more, up to the 127 its type holds, panics, whatever the
    amount. *)
Theorem issued_amount_scaled (m : XRPLInterchainTransferMessage) (token : XRPLToken) (a : XRPLTokenAmount) (t : TokenId)
    (n : Z) (d : Dec) (ts : string) (w w' : W) :
  it_transfer_amount m = PIssued token a ->
  get_token_decimals (common_config config) (token_id_to_string t) = Some n -> 0 <= n ->
  dec_from_scientific (token_amount_to_string a) = Ok d -> (0 < dec_value d)%Q -> now_rfc3339 w = (Done ts, w') ->
  let units := (dec_value d * inject_Z (10 ^ n))%Q in
  let event := its_interchain_transfer_event config (InterchainTransferMessage m) (Some t) w in
  (n <= MAX_SCALE -> ~ too_large units -> exists common message_id chain source destination hash,
     event = (Done (Ok (ITSInterchainTransfer common message_id chain
       (mkAmount (Some (token_id_to_string t)) (print_Z (Qfloor units))) source destination hash)), w')) /\
  (n <= MAX_SCALE -> too_large units ->
     event = (Done (Err (IngGenericError "Failed to multiply amount by token decimals")), w)) /\
  (MAX_SCALE < n < 128 -> exists why, event = (Panic why, w)).
Proof.
  intros Hm Hn H0 Hd Hpos Hnow units event. destruct (scaled_amount_run a t n d w Hn H0 Hd Hpos) as (Hok & Herr & Hpanic).
  unfold event, its_interchain_transfer_event. rewrite Hm, !bind_ok_run. split; [|split].
  - intros Hle Hs. rewrite (Hok Hle Hs). cbn [ret]. rewrite bind_run, Hnow. cbn [ret]. by do 6 eexists.
  - intros Hle Hs. by rewrite (Herr Hle Hs).
  - intros Hlt. destruct (Hpanic Hlt) as (why & ->). by exists why.
Qed.

(** ** Gas paid in issued tokens *)

(** A product that the type can hold, or that it cannot. *)
Lemma mul_run a b : representable (dec_value a * dec_value b) \/ too_large (dec_value a * dec_value b) ->
  (exists d, dec_mul a b = Done d /\ (dec_value d == dec_value a * dec_value b)%Q /\ ~ too_large (dec_value a * dec_value b)) \/
  (exists why, dec_mul a b = Panic why /\ too_large (dec_value a * dec_value b)).
Proof.
  intros H. destruct (large_or_not (dec_value a * dec_value b)) as [Hl|Hl].
  - right. destruct (mul_overflow a b Hl) as (why & ->). by exists why.
  - left. destruct H as [H|]; [|done]. destruct (mul_exact a b H) as (d & -> & Hd). by exists d.
Qed.

Definition MILLION : Q := inject_Z 1000000.

Lemma drops_run amount token_id symbol price w w' :
  get_token_symbol (common_config config) token_id = Some symbol ->
  pv_get_price (symbol +:+ "/XRP") w = (Done (Ok price), w') ->
  (0 < dec_value amount)%Q -> (0 < dec_value price)%Q ->
  let xrp := (dec_value amount * dec_value price)%Q in
  let converted := convert_token_amount_to_drops show_f64 (common_config config) amount token_id (w : W) in
  (representable xrp -> ~ too_large (xrp * MILLION) -> converted = (Done (Ok (print_Z (Qfloor (xrp * MILLION)))), w')) /\
  (too_large xrp \/ (representable xrp /\ too_large (xrp * MILLION)) -> exists why, converted = (Panic why, w')).
Proof.
  intros Hs Hp Ha Hpp xrp converted. unfold converted, convert_token_amount_to_drops.
  rewrite bind_ok_run, Hs. cbn [ok_or ret]. rewrite bind_run, Hp. rewrite bind_ok_run. cbn [ret]. rewrite bind_run. unfold run_outcome.
  destruct (from_i128_small 1000000) as (million & Em & Hm); [done|]. fold MILLION in Hm.
  assert (Hpos : (0 < xrp * MILLION)%Q) by (unfold xrp; do 2 (apply Qmult_lt_0_compat; [|done]); done).
  assert (Hsmall : representable xrp -> exists x, dec_mul amount price = Done x /\ (dec_value x == xrp)%Q /\
    (representable (dec_value x * dec_value million) \/ too_large (dec_value x * dec_value million))).
  { intros Hr. destruct (mul_exact amount price Hr) as (x & E & Hx). exists x. split; [done|]. split; [done|].
    fold xrp in Hx. rewrite Hx, Hm. destruct (large_or_not (xrp * MILLION)); [by right|left].
    by apply (scaled_representable xrp 6). }
  split.
  - intros Hr Hl. destruct (Hsmall Hr) as (x & -> & Hx & Hxm). rewrite bind_run, Em, bind_run.
    destruct (mul_run x million Hxm) as [(d & -> & Hd & _)|(why & _ & Hl2)]; [|by rewrite Hx, Hm in Hl2].
    rewrite Hx, Hm in Hd. cbn [ret]. rewrite trunc_text by (by rewrite Hd). by rewrite (Qfloor_comp _ _ Hd).
  - intros [Hl|[Hr Hl]]; [destruct (mul_overflow _ _ Hl) as (why & ->); by exists why|].
    destruct (Hsmall Hr) as (x & -> & Hx & Hxm). rewrite bind_run, Em, bind_run.
    destruct (mul_run x million Hxm) as [(d & _ & _ & Hl2)|(why & -> & _)]; [by rewrite Hx, Hm in Hl2|by exists why].
Qed.

(** C33: what gas paid in an issued token is worth in drops: when the amount
    times the token's price needs no more than the 28 digits of a decimal, it
    is that product, exactly, less the fraction of a drop.  The products
    are not checked: one that exceeds 96 bits panics, though the amount of a
    transfer in the same message would be an error. *)
Theorem issued_gas_in_drops (message : WithPayload) (message_id source symbol ts : string) (token : XRPLToken)
    (a : XRPLTokenAmount) (t : TokenId) (amount price : Dec) (w w1 w2 : W) :
  gas_payment (wp_message message) = Some (message_id, source, PIssued token a) ->
  dec_from_scientific (token_amount_to_string a) = Ok amount -> (0 < dec_value amount)%Q ->
  get_token_symbol (common_config config) (token_id_to_string t) = Some symbol ->
  pv_get_price (symbol +:+ "/XRP") w = (Done (Ok price), w1) -> (0 < dec_value price)%Q -> now_rfc3339 w1 = (Done ts, w2) ->
  let xrp := (dec_value amount * dec_value price)%Q in
  let event := gas_credit_event_from_payment show_f64 config message (Some t) w in
  (representable xrp -> ~ too_large (xrp * MILLION) -> exists common,
     event = (Done (Ok (GasCredit common message_id source (mkAmount None (print_Z (Qfloor (xrp * MILLION)))))), w2)) /\
  (too_large xrp \/ (representable xrp /\ too_large (xrp * MILLION)) -> exists why, event = (Panic why, w1)).
Proof.
  intros Hg Ha Hpos Hs Hp Hpp Hnow xrp event.
  destruct (drops_run amount (token_id_to_string t) symbol price w w1 Hs Hp Hpos Hpp) as [Hok Hpanic].
  unfold event, gas_credit_event_from_payment. rewrite bind_ok_run, Hg. cbn [ok_or ret]. rewrite !bind_ok_run.
  rewrite Ha. cbn [generic_with rmap_err ret]. rewrite map_err_run. split.
  - intros Hr Hl. rewrite (Hok Hr Hl). cbn [rmap_err]. rewrite bind_run, Hnow. by eexists.
  - intros Hl. destruct (Hpanic Hl) as (why & ->). by exists why.
Qed.
End issued.

(** ** Gas paid in jettons on TON *)

Section jettons.
Context {L : TonLib} {DL : DecimalLib} {DV : DecimalValues} {DA : DecimalArith} {W : Type} {PV : PriceViewTrait W}.

(** The most the rounded product may change the quotient by. *)
Definition slack (usd ton : Q) : Q := (EPS * (1 + usd) / ton)%Q.

Section prices.
Variables (n : N) (coin ton : Dec).
Let usd : Q := (inject_Z (Z.of_N n) * dec_value coin)%Q.
Let native : Q := (usd / dec_value ton)%Q.
Let off : Q := slack usd (dec_value ton).
Hypotheses (Hcoin : (0 < dec_value coin)%Q) (Hn : (0 < n)%N) (Hl : Z.of_N n < LIMIT).

Lemma usd_pos : (0 < usd)%Q.
Proof. apply Qmult_lt_0_compat; [|done]. change 0%Q with (inject_Z 0). rewrite <- Zlt_Qlt. lia. Qed.

(** The product, and the quotient of it. *)
Lemma product_run : within usd -> exists a p, dec_from_str (print_N n) = Ok a /\ dec_mul a coin = Done p /\
  (0 < dec_value p)%Q /\ near (dec_value p) usd.
Proof.
  intros Hu. destruct (from_str_whole n Hl) as (a & Ea & Ha). exists a.
  assert (H1 : (1 <= dec_value a)%Q) by (rewrite Ha; change 1%Q with (inject_Z 1); rewrite <- Zle_Qle; lia).
  destruct (mul_near a coin H1 Hcoin) as (p & Ep & Hp & Hpos); [by rewrite Ha|]. exists p. rewrite Ha in Hp. by repeat split.
Qed.

Lemma quotient_off p : (0 < dec_value ton)%Q -> near (dec_value p) usd ->
  (native - off <= dec_value p / dec_value ton <= native + off)%Q.
Proof.
  intros Ht Hp. pose proof usd_pos as Hpos. apply near_bounds in Hp; [|by apply Qlt_le_weak].
  assert (Hq : forall a b, (a <= b)%Q -> (a / dec_value ton <= b / dec_value ton)%Q).
  { intros x y Hxy. apply Qmult_le_compat_r; [done|]. by apply Qlt_le_weak, Qinv_lt_0_compat. }
  destruct Hp as [H1 H2]. apply Hq in H1, H2. unfold native, off, slack.
  assert (E1 : ((usd - EPS * (1 + usd)) / dec_value ton == usd / dec_value ton - EPS * (1 + usd) / dec_value ton)%Q) by (unfold Qdiv; ring).
  assert (E2 : ((usd + EPS * (1 + usd)) / dec_value ton == usd / dec_value ton + EPS * (1 + usd) / dec_value ton)%Q) by (unfold Qdiv; ring).
  rewrite E1 in H1. rewrite E2 in H2. by split.
Qed.

Lemma quotient_large p : (0 < dec_value ton)%Q -> near (dec_value p) usd -> (inject_Z LIMIT <= native - off)%Q ->
  exists why, dec_div p ton = Panic why.
Proof.
  intros Ht Hp Hlarge. destruct (quotient_off p Ht Hp) as [H1 _]. apply div_overflow; [intros E; by rewrite E in Ht|].
  unfold too_large. eapply Qle_trans; [|apply Qle_Qabs]. lra.
Qed.

Lemma quotient_run p : (0 < dec_value ton)%Q -> (0 < dec_value p)%Q -> near (dec_value p) usd -> within (native + off) ->
  exists q v, dec_div p ton = Done q /\ dec_to_string (dec_round q) = print_N v /\
    (Qabs (inject_Z (Z.of_N v) - native) <= (1 # 2) + off + EPS * (1 + (native + off)))%Q.
Proof.
  intros Ht H0 Hp Hw. destruct (quotient_off p Ht Hp) as [H1 H2].
  destruct (div_near p ton H0 Ht) as (q & Eq & Hq & Hq0 & Htext); [unfold within in *; lra|].
  pose proof (half_even_nonneg _ Hq0) as Hv. exists q, (Z.to_N (half_even (dec_value q))). split; [done|].
  split; [rewrite Htext; unfold print_Z; by destruct (Z.ltb_spec (half_even (dec_value q)) 0); [lia|]|].
  rewrite Z2N.id by done. pose proof (half_even_near (dec_value q)) as Hr.
  assert (Hd : (0 <= dec_value p / dec_value ton)%Q).
  { apply Qlt_le_weak. unfold Qdiv. apply Qmult_lt_0_compat; [done|by apply Qinv_lt_0_compat]. }
  apply near_bounds in Hq; [|done]. apply Qabs_Qle_condition in Hr. apply Qabs_Qle_condition.
  assert (He : (EPS * (1 + dec_value p / dec_value ton) <= EPS * (1 + (native + off)))%Q) by (apply Qmult_le_l; [done|lra]).
  generalize dependent (EPS * (1 + (native + off)))%Q. generalize dependent (EPS * (1 + dec_value p / dec_value ton))%Q.
  intros; lra.
Qed.
End prices.

(** The conversion of an amount at given prices. *)
Lemma jetton_run minter n coin ton w w1 w2 :
  pv_get_price (minter +:+ "/USD") w = (Done (Ok coin), w1) -> pv_get_price "TON/USD" w1 = (Done (Ok ton), w2) ->
  (0 < dec_value coin)%Q -> (0 <= dec_value ton)%Q -> (0 < n)%N ->
  let usd := (inject_Z (Z.of_N n) * dec_value coin)%Q in
  let native := (usd / dec_value ton)%Q in
  let off := slack usd (dec_value ton) in
  let converted := convert_jetton_to_native minter n (w : W) in
  (LIMIT <= Z.of_N n -> exists e, converted = (Done (Err (ConversionError e)), w2)) /\
  (Z.of_N n < LIMIT -> too_large usd \/ within usd /\ ((dec_value ton == 0)%Q \/
      (0 < dec_value ton)%Q /\ (inject_Z LIMIT <= native - off)%Q) -> exists why, converted = (Panic why, w2)) /\
  (Z.of_N n < LIMIT -> within usd -> (0 < dec_value ton)%Q -> within (native + off) -> exists v,
     converted = (Done (Ok v), w2) /\
     (Qabs (inject_Z (Z.of_N v) - native) <= (1 # 2) + off + EPS * (1 + (native + off)))%Q) /\
  (Z.of_N n < LIMIT -> representable usd -> (0 < dec_value ton)%Q -> representable native ->
     converted = (Done (Ok (Z.to_N (half_even native))), w2)).
Proof.
  intros Hc Ht Hcoin Hton Hn usd native off converted. unfold converted, convert_jetton_to_native.
  rewrite bind_ok_run, map_err_run, Hc. cbn [rmap_err]. rewrite bind_ok_run, map_err_run, Ht. cbn [rmap_err]. rewrite bind_ok_run.
  split; [intros Hl; destruct (from_str_large n Hl) as (e & ->); by eexists|].
  destruct (Z.lt_ge_cases (Z.of_N n) LIMIT) as [Hl|Hl]; [|by repeat split; intros; lia].
  split; [|split].
  - intros _ [Ho|[Hw Hq]].
    + destruct (from_str_whole n Hl) as (a & -> & Ha). cbn [rmap_err ret].
      destruct (mul_overflow a coin) as (why & ->); [by rewrite Ha|by exists why].
    + destruct (product_run n coin Hcoin Hn Hl Hw) as (a & p & -> & Em & Hpos & Hp). cbn [rmap_err ret]. rewrite Em.
      assert (exists why, dec_div p ton = Panic why) as (why & ->); [|by exists why].
      destruct Hq as [Hz|[H0 Hlarge]]; [by apply div_zero|by apply (quotient_large n coin)].
  - intros _ Hw H0 Hnw. destruct (product_run n coin Hcoin Hn Hl Hw) as (a & p & -> & Em & Hpos & Hp). cbn [rmap_err ret]. rewrite Em.
    destruct (quotient_run n coin ton Hcoin Hn p H0 Hpos Hp Hnw) as (q & v & -> & Htext & Hv). exists v. split; [|done].
    rewrite Htext. unfold biguint_from_str. by rewrite parse_biguint_print.
  - intros _ Hr Hpos Hq. destruct (from_str_whole n Hl) as (a & -> & Ha). cbn [rmap_err ret].
    destruct (mul_exact a coin) as (p & -> & Hp); [by rewrite Ha|]. rewrite Ha in Hp. fold usd in Hp.
    assert (Hd : (dec_value p / dec_value ton == native)%Q) by (unfold native; by rewrite Hp).
    destruct (div_exact p ton) as (q & -> & Hqv); [intros H0; rewrite H0 in Hpos; done|by rewrite Hd|].
    rewrite Hd in Hqv.
    assert (Hnat : (0 < native)%Q).
    { unfold native, Qdiv. apply Qmult_lt_0_compat; [by apply usd_pos|by apply Qinv_lt_0_compat]. }
    rewrite round_text by (by rewrite Hqv). rewrite (half_even_proper _ _ Hqv).
    pose proof (half_even_nonneg native (Qlt_le_weak _ _ Hnat)) as H0.
    unfold print_Z. destruct (Z.ltb_spec (half_even native) 0); [lia|].
    unfold biguint_from_str. by rewrite parse_biguint_print.
Qed.

Context {CL : CellLib} {C : Codecs} {RN : Rfc3339Now W}.

Lemma with_costs_app total refund approved before event after done' w w1 :
  with_costs total refund approved before w = (Done (Ok done'), w1) ->
  with_costs total refund approved (before ++ event :: after) w =
  bind_ok (with_cost total refund approved event) (fun e => bind_ok (with_costs total refund approved after)
    (fun es => ret (Ok (done' ++ e :: es)))) w1.
Proof.
  revert done' w. induction before as [|b before IH]; intros done' w; cbn [with_costs app].
  - by intros [= <- <-].
  - rewrite !bind_ok_run. destruct (with_cost _ _ _ b w) as [[[b'|e]|why] w0]; [|done..]. rewrite !bind_ok_run.
    destruct (with_costs _ _ _ before w0) as [[[bs|e]|why] w2] eqn:E; [|done..]. intros [= <- <-].
    rewrite (IH _ _ E), !bind_ok_run. destruct (with_cost _ _ _ event w2) as [[[e'|e]|why] w3]; [|done..].
    rewrite !bind_ok_run. by destruct (with_costs _ _ _ after w3) as [[[es|e]|why] w4].
Qed.

(** Past the events before the payment. *)
Lemma parse_to_payment self trace total refund approved before after before' common message_id refund_address minter n w w0 w1 :
  uncosted self trace w = (Done (Ok (total, refund, approved,
    before ++ GasCredit common message_id refund_address (mkAmount (Some minter) (print_N n)) :: after)), w0) ->
  with_costs total refund approved before w0 = (Done (Ok before'), w1) ->
  ton_parse_trace self trace w =
    bind_ok (map_err (fun e => Generic (show_GasError e)) (convert_jetton_to_native minter n)) (fun value =>
      bind_ok (with_costs total refund approved after) (fun after' =>
        ret (Ok (before' ++ GasCredit common message_id refund_address (mkAmount None (print_N value)) :: after')))) w1.
Proof.
  intros Hu Hb. rewrite parse_uncosted, bind_ok_run, Hu, (with_costs_app _ _ _ _ _ _ _ _ _ Hb), !bind_ok_run.
  cbn [with_cost token_id amount]. rewrite !bind_ok_run. unfold biguint_from_str. rewrite parse_biguint_print.
  cbn [ok_or rmap_err ret]. rewrite !bind_ok_run.
  by destruct (map_err _ _ w1) as [[[v|e]|why] w2].
Qed.

(** A payment that overflows takes the trace down. *)
Lemma payment_overflows self trace total refund approved before after before' common message_id refund_address minter n coin ton
    w w0 w1 w2 w3 :
  uncosted self trace w = (Done (Ok (total, refund, approved,
    before ++ GasCredit common message_id refund_address (mkAmount (Some minter) (print_N n)) :: after)), w0) ->
  with_costs total refund approved before w0 = (Done (Ok before'), w1) ->
  pv_get_price (minter +:+ "/USD") w1 = (Done (Ok coin), w2) -> pv_get_price "TON/USD" w2 = (Done (Ok ton), w3) ->
  (0 < dec_value coin)%Q -> (0 <= dec_value ton)%Q -> (0 < n)%N -> Z.of_N n < LIMIT ->
  let usd := (inject_Z (Z.of_N n) * dec_value coin)%Q in
  let native := (usd / dec_value ton)%Q in
  too_large usd \/ within usd /\ ((dec_value ton == 0)%Q \/
    (0 < dec_value ton)%Q /\ (inject_Z LIMIT <= native - slack usd (dec_value ton))%Q) ->
  exists why, ton_parse_trace self trace w = (Panic why, w3).
Proof.
  intros Hu Hb Hc Ht Hcoin Hton Hn Hl usd native Hcase.
  destruct (jetton_run minter n coin ton w1 w2 w3 Hc Ht Hcoin Hton Hn) as (_ & Hp & _).
  destruct (Hp Hl Hcase) as (why & E). exists why.
  by rewrite (parse_to_payment _ _ _ _ _ _ _ _ _ _ _ _ _ _ _ _ Hu Hb), bind_ok_run, map_err_run, E.
Qed.

(** C34: what becomes of a trace with gas paid in a jetton.  The payment counts
    for its worth in nanotons: within half of one, and the rounding of the
    product and of the quotient to 27 digits, of the exact worth, and exactly
    the worth rounded half to even when neither had to be rounded.  But an
    amount above 96 bits is an error, and a product or a quotient above them,
    or a TON of no worth, panics: then no event of the trace is reported,
    those before the payment included.  (Not decided is only what lies within
    the rounding of the 96 bits.) *)
Theorem jetton_payment_converted (self : TraceParser) (trace : Trace) (total refund approved : Z)
    (before after before' : list Event) (common : CommonEventFields EventMetadata) (message_id refund_address minter : string) (n : N)
    (coin ton : Dec) (w w0 w1 w2 w3 : W) :
  uncosted self trace w = (Done (Ok (total, refund, approved,
    before ++ GasCredit common message_id refund_address (mkAmount (Some minter) (print_N n)) :: after)), w0) ->
  with_costs total refund approved before w0 = (Done (Ok before'), w1) ->
  pv_get_price (minter +:+ "/USD") w1 = (Done (Ok coin), w2) -> pv_get_price "TON/USD" w2 = (Done (Ok ton), w3) ->
  (0 < dec_value coin)%Q -> (0 <= dec_value ton)%Q -> (0 < n)%N ->
  let usd := (inject_Z (Z.of_N n) * dec_value coin)%Q in
  let native := (usd / dec_value ton)%Q in
  let off := slack usd (dec_value ton) in
  let parsed := ton_parse_trace self trace w in
  let credited v after' w' := parsed = (Done (Ok (before' ++ GasCredit common message_id refund_address
    (mkAmount None (print_N v)) :: after')), w') in
  (LIMIT <= Z.of_N n -> exists e, parsed = (Done (Err (Generic e)), w3)) /\
  (Z.of_N n < LIMIT -> too_large usd \/ within usd /\ ((dec_value ton == 0)%Q \/
     (0 < dec_value ton)%Q /\ (inject_Z LIMIT <= native - off)%Q) -> exists why, parsed = (Panic why, w3)) /\
  (Z.of_N n < LIMIT -> within usd -> (0 < dec_value ton)%Q -> within (native + off) -> exists v,
     (Qabs (inject_Z (Z.of_N v) - native) <= (1 # 2) + off + EPS * (1 + (native + off)))%Q /\
     forall after' w', with_costs total refund approved after w3 = (Done (Ok after'), w') -> credited v after' w') /\
  (Z.of_N n < LIMIT -> representable usd -> (0 < dec_value ton)%Q -> representable native ->
     forall after' w', with_costs total refund approved after w3 = (Done (Ok after'), w') ->
     credited (Z.to_N (half_even native)) after' w').
Proof.
  intros Hu Hb Hc Ht Hcoin Hton Hn usd native off parsed credited.
  destruct (jetton_run minter n coin ton w1 w2 w3 Hc Ht Hcoin Hton Hn) as (Herr & _ & Hnear & Hok).
  split; [|split; [intros Hl Hcase; by apply (payment_overflows _ _ _ _ _ _ _ _ _ _ _ _ _ _ _ _ _ _ _ _ Hu Hb Hc Ht)|split]];
    unfold credited, parsed; rewrite (parse_to_payment _ _ _ _ _ _ _ _ _ _ _ _ _ _ _ _ Hu Hb), bind_ok_run, map_err_run.
  - intros Hl. destruct (Herr Hl) as (e & ->). by eexists.
  - intros Hl Hw H0 Hq. destruct (Hnear Hl Hw H0 Hq) as (v & -> & Hv). exists v. split; [done|]. intros after' w' Ha.
    cbn [rmap_err]. by rewrite bind_ok_run, Ha.
  - intros Hl Hr Hpos Hq after' w' Ha. rewrite (Hok Hl Hr Hpos Hq). cbn [rmap_err]. by rewrite bind_ok_run, Ha.
Qed.
End jettons.

(** ** Concrete runs *)

Module AmountsDemo.
Export CellDemo.
#[export] Existing Instance ParserDemo.now.
#[export] Existing Instance ParserDemo.codecs.
#[export] Existing Instance XrplMessageDemo.amplifier.
#[export] Existing Instance XrplMessageDemo.pairs_of_text.
(** Exact numbers, as long as they are not too large. *)
Definition unless_large (q : Q) : outcome Q := if large_or_not q then Panic "overflow" else Done q.
#[export] Instance exact : DecimalLib := {|
  Dec := Q; dec_one := 1%Q; dec_to_string := fun q => print_Z (Qfloor q);
  dec_from_str := fun s => match parse_biguint s with
    | Some n => if Z.of_N n <? LIMIT then Ok (inject_Z (Z.of_N n)) else Err "too large" | None => Err "no number" end;
  dec_mul := fun a b => unless_large (a * b); dec_round := fun q => inject_Z (half_even q);
  dec_div := fun a b => if Qeq_bool b 0 then Panic "division by zero" else unless_large (a / b);
|}.
#[export] Instance exact_value : @DecimalValues exact := @Build_DecimalValues exact (fun q => q).
(** A number, [e-], and a power of ten. *)
Definition scientific (s : string) : option Q :=
  match split "e"%char s with
  | [m; String "-"%char e] =>
      match parse_biguint m, parse_biguint e with
      | Some m, Some e => if (Z.of_N m <? LIMIT) && (Z.of_N e <=? MAX_SCALE) then Some (over (Z.of_N m) (Z.of_N e)) else None
      | _, _ => None
      end
  | _ => None
  end.
#[export] Instance exact_ops : @DecimalOps exact := {|
  dec_from_scientific := fun s => ok_or (scientific s) "no number";
  dec_from_i128 := fun n => if Z.abs n <? LIMIT then Done (inject_Z n) else Panic "too large"; dec_from_f64 := fun _ => None;
  dec_checked_mul := fun a b => match unless_large (a * b) with Done q => Some q | Panic _ => None end;
  dec_trunc := fun q => inject_Z (Qfloor q);
|}.

Lemma representable_small q : representable q -> ~ too_large q.
Proof.
  intros (m & e & Hm & He & Hq) H. rewrite Hq in H. pose proof (Z.pow_pos_nonneg 10 e ltac:(lia) ltac:(lia)) as Hp.
  assert (E : (over m e == m # Z.to_pos (10 ^ e))%Q) by (unfold over; rewrite (Qmake_Qdiv m), Z2Pos.id by done; reflexivity).
  unfold too_large in H. rewrite E in H. unfold Qle, Qabs in H. cbn [Qnum Qden inject_Z] in H. rewrite Z2Pos.id in H by done. nia.
Qed.

Lemma unless_large_exact q : representable q -> unless_large q = Done q.
Proof. intros Hq. unfold unless_large. destruct (large_or_not q) as [Hl|]; [by apply representable_small in Hl|done]. Qed.
Lemma unless_large_overflow q : too_large q -> unless_large q = Panic "overflow".
Proof. intros Hq. unfold unless_large. by destruct (large_or_not q). Qed.

Lemma unless_large_within q : (0 <= q)%Q -> within q -> unless_large q = Done q.
Proof.
  intros H0 Hw. unfold unless_large. destruct (large_or_not q) as [Hl|]; [|done]. unfold too_large in Hl. rewrite Qabs_pos in Hl by done.
  unfold within in Hw. pose proof (Qle_trans _ _ _ Hl Hw) as H. by rewrite <- Zle_Qle in H.
Qed.
Lemma near_refl q : near q q.
Proof.
  unfold near. assert (E : (q - q == 0)%Q) by ring. rewrite E. pose proof (Qabs_nonneg q). unfold EPS.
  change (Qabs 0) with 0%Q. apply Qmult_le_0_compat; [done|lra].
Qed.

#[export] Instance exact_arith : @DecimalArith exact exact_value.
Proof.
  split; cbn.
  - intros a b H. exists (a * b)%Q. by rewrite unless_large_exact.
  - intros a b H. rewrite unless_large_overflow by done. by eexists.
  - intros a b Hb H. exists (a / b)%Q. rewrite unless_large_exact by done.
    destruct (Qeq_bool b 0) eqn:E; [by apply Qeq_bool_iff in E|done].
  - intros a b Hb. apply Qeq_bool_iff in Hb. rewrite Hb. by eexists.
  - intros a b Hb H. destruct (Qeq_bool b 0) eqn:E; [by apply Qeq_bool_iff in E|].
    rewrite unless_large_overflow by done. by eexists.
  - intros a b Ha Hb H. exists (a * b)%Q. assert (H0 : (0 < a * b)%Q) by (apply Qmult_lt_0_compat; lra).
    rewrite unless_large_within by (done || by apply Qlt_le_weak). split; [done|]. split; [|done]. by apply near_refl.
  - intros a b Ha Hb H. exists (a / b)%Q.
    assert (H0 : (0 <= a / b)%Q) by (by apply Qlt_le_weak, Qmult_lt_0_compat; [|apply Qinv_lt_0_compat]).
    destruct (Qeq_bool b 0) eqn:E; [apply Qeq_bool_iff in E; by rewrite E in Hb|]. rewrite unless_large_within by done.
    split; [done|]. split; [by apply near_refl|]. split; [done|]. apply f_equal, Qfloor_Z.
  - intros n Hn. rewrite parse_biguint_print. apply Z.ltb_lt in Hn. rewrite Hn. by eexists.
  - intros n Hn. rewrite parse_biguint_print. apply Z.ltb_ge in Hn. rewrite Hn. by eexists.
  - intros q _. apply f_equal, Qfloor_Z.
Qed.

Lemma scientific_representable s q : scientific s = Some q -> representable q.
Proof.
  unfold scientific. repeat case_match; try discriminate. intros [= <-].
  match goal with H : _ && _ = true |- _ => apply andb_true_iff in H as [Hm%Z.ltb_lt He%Z.leb_le] end.
  do 2 eexists. split; [|split; [|reflexivity]]; lia.
Qed.

#[export] Instance exact_conversions : @DecimalConversions exact exact_value exact_ops.
Proof.
  split; cbn.
  - intros s d. destruct (scientific s) eqn:E; cbn; [|done]. intros [= <-]. by eapply scientific_representable.
  - intros n Hn. apply Z.ltb_lt in Hn. rewrite Hn. by eexists.
  - intros n Hn. apply Z.ltb_ge in Hn. rewrite Hn. by eexists.
  - intros a b H. exists (a * b)%Q. by rewrite unless_large_exact.
  - intros a b H. by rewrite unless_large_overflow.
  - intros q _. apply f_equal, Qfloor_Z.
Qed.

#[export] Instance half_price : @PriceViewTrait exact unit := {| pv_get_price := fun _ => ret (Ok (1 # 2)%Q) |}.
(** A TON at a price, every other token at four dollars. *)
Definition dollars_of {W} (ton : Q) : @PriceViewTrait exact W := {|
  pv_get_price := fun pair => ret (Ok (if decide (pair = "TON/USD") then ton else 4)%Q)
|}.
#[export] Instance dollars {W} : @PriceViewTrait exact W := dollars_of 2.
(** A trace with two approvals and gas added in a jetton. *)
Definition jetton_of (n : N) : CellLib := cells (fun s => Ok (if decide (s = "jetton") then
    mcell (byte_field 267 "M"%char ++ byte_field 267 "U"%char ++ to_bits 120 n ++ to_bits 256 (104 * 2 ^ 248))
      [mcell (byte_field 267 "R"%char) []]
  else ParserDemo.approval)).
Definition jetton_trace : list Transaction := ParserDemo.approving ++
  [ParserDemo.tx_of "S"%char "j1" OP_USER_BALANCE_SUBTRACTED [ParserDemo.log_of "jetton"] None].
Definition approvals : list Event :=
  match fst (uncosted (CL := jetton_of 7) ParserDemo.self (ParserDemo.trace_of jetton_trace) tt) with
  | Done (Ok (_, _, _, es)) => take 2 es
  | _ => []
  end.
Definition approvals_costed : list Event :=
  match fst (with_costs 20 20 2 approvals tt) with Done (Ok es) => es | _ => [] end.
Definition jetton_credit : CommonEventFields EventMetadata :=
  mkCommonEvent "GAS_CREDIT" "j1-gas" (Some (mkEventMeta (Some "j1") None None None "2025-01-01T00:00:00Z")).
End AmountsDemo.
Import AmountsDemo.

(** 12.3456789 of a token with six decimals. *)
Lemma issued_amount_scaled_witness :
  let m := mkInterchainTransfer (XM := XrplMessageDemo.amplifier) "h" "rUser" "0xdest" "avalanche" None
    (PIssued (mkToken "rIssuer" "USD") "123456789e-7") (PDrops 1) in
  exists common message_id chain source destination hash,
    its_interchain_transfer_event (SE := IngestedDemo.serde) demo_config (InterchainTransferMessage m) (Some "0xtok") tt =
    (Done (Ok (ITSInterchainTransfer common message_id chain (mkAmount (Some "0xtok") "12345678") source destination hash)), tt).
Proof.
  intros m.
  refine (proj1 (issued_amount_scaled (SE := IngestedDemo.serde) demo_config m (mkToken "rIssuer" "USD") "123456789e-7" "0xtok" 6
    (over 123456789 7) "2025-01-01T00:00:00Z" tt tt _ _ _ _ _ _) _ _); [vm_compute; reflexivity|..]; try (vm_compute; congruence).

Defined.
(** At half an XRP each, 12.3456789 of them pay 6172839 drops and a fraction;
    10^23 of them take the handler down. *)
Lemma issued_gas_in_drops_witness :
  let fee a := mkWithPayload (XM := XrplMessageDemo.amplifier) (InterchainTransferMessage (mkInterchainTransfer "h" "rUser" "0xdest" "avalanche" None
    (PDrops 1) (PIssued (mkToken "rIssuer" "USD") a))) None in
  let event a := gas_credit_event_from_payment (SE := IngestedDemo.serde) (PV := half_price) IngestedDemo.no_f64 demo_config (fee a) (Some "0xtok") tt in
  (exists common, event "123456789e-7" = (Done (Ok (GasCredit common "0xh" "rUser" (mkAmount None "6172839"))), tt)) /\
  (exists why, event "200000000000000000000000e-0" = (Panic why, tt)).
Proof.
  intros fee event.
  pose proof (fun s a => issued_gas_in_drops (PV := half_price) (SE := IngestedDemo.serde) IngestedDemo.no_f64 demo_config (fee s) "0xh" "rUser" "USD"
    "2025-01-01T00:00:00Z" (mkToken "rIssuer" "USD") s "0xtok" a (1 # 2) tt tt tt eq_refl) as H.
  split.
  - refine (proj1 (H "123456789e-7" (over 123456789 7) _ _ _ _ _ _) _ _);
      try lazymatch goal with |- representable _ => fail | _ => vm_compute; congruence end.
    exists 617283945, 8. split; [done|]. split; [done|]. reflexivity.
  - refine (proj2 (H "200000000000000000000000e-0" (over 200000000000000000000000 0) _ _ _ _ _ _) _);
      try lazymatch goal with |- _ \/ _ => fail | _ => vm_compute; congruence end.
    right. split; [|vm_compute; congruence]. exists 100000000000000000000000, 0. split; [done|]. split; [done|]. reflexivity.
Defined.

(** Seven units at four dollars pay 14 nanotons at two dollars, and nine and a
    third at three: the payment counts for a whole number near it. *)
Lemma jetton_payment_converted_witness :
  let parsed ton n := ton_parse_trace (PV := dollars_of ton) (CL := jetton_of n) ParserDemo.self (ParserDemo.trace_of jetton_trace) tt in
  (exists why, parsed 2%Q (2 ^ 95)%N = (Panic why, tt)) /\
  parsed 2%Q 7%N = (Done (Ok (approvals_costed ++ [GasCredit jetton_credit "0xh" "R" (mkAmount None "14")])), tt) /\
  exists v, (Qabs (inject_Z (Z.of_N v) - (28 # 3)) <= (1 # 2) + (1 # 10 ^ 20))%Q /\
    parsed 3%Q 7%N = (Done (Ok (approvals_costed ++ [GasCredit jetton_credit "0xh" "R" (mkAmount None (print_N v))])), tt).
Proof.
  pose proof (fun ton n => jetton_payment_converted (PV := dollars_of ton) (CL := jetton_of n) ParserDemo.self
    (ParserDemo.trace_of jetton_trace) 20 20 2 approvals [] approvals_costed jetton_credit "0xh" "R" "M" n 4%Q ton tt tt tt tt tt) as H.
  split; [|split].
  - destruct (H 2%Q (2 ^ 95)%N) as (_ & Hp & _); [vm_compute; congruence ..|]. apply Hp; [vm_compute; reflexivity|]. left. vm_compute. congruence.
  - destruct (H 2%Q 7%N) as (_ & _ & _ & Hok); [vm_compute; congruence ..|]. apply (Hok eq_refl); [| | |reflexivity].
    + exists 28, 0. split; [done|]. split; [done|]. reflexivity.
    + done.
    + exists 14, 0. split; [done|]. split; [done|]. reflexivity.
  - destruct (H 3%Q 7%N) as (_ & _ & Hnear & _); [vm_compute; congruence ..|].
    destruct (Hnear eq_refl) as (v & Hv & Hp); [vm_compute; congruence..|]. exists v. split; [|by apply Hp].
    apply (Qle_trans _ _ _ Hv). vm_compute. congruence.
Defined.
