(* ===== verification/TraceOutage.v ===== *)
(** * An outage of the TON ingestor

    A payment of gas in a jetton that overflows takes its trace down
    ([Amounts]); a delivery whose task is gone keeps its place among the
    unanswered ones ([QueueConsumer]).  Here both together: as many such
    payments as the ingestor has workers, and it ingests nothing more. *)

From Stdlib Require Import QArith.
From S2P Require Import Prelude.
From S2P Require Import Store.
From S2P Require Import Decimal.
From S2P Require Import GmpTypes.
From S2P Require Import Text.
From S2P Require Import GmpApi.
From S2P Require Import GmpAudit.
From S2P Require Import Database.
From S2P Require Import Logging.
From S2P Require Import Queue.
From S2P Require Import QueueService.
From S2P Require Import Includer.
From S2P Require Import QueueConsumer.
From S2P Require Import Pipeline.
From S2P Require Import TonLib.
From S2P Require Import TonCells.
From S2P Require Import TonMessages.
From S2P Require Import TonTypes.
From S2P Require Import GasCalculator.
From S2P Require Import TonParsers.
From S2P Require Import TraceParser.
From S2P Require Import TonTrace.
From S2P Require Import Subscriber.
From S2P Require Import Ingestor.
From S2P Require Import TracePipeline.
From S2P Require Import Amounts.
Open Scope Z_scope.

(** ** Handlers that panic *)

Section panics.
Context {CT W E : Type} {IC : ItemCodec CT} {AM : Amqp W} {AL : AmqpLaws W} {TI : Timer W} {P : Propagator}.
Variable name url : string.
Variable num_workers : nat.
Variable irrelevant : E -> bool.
Variable handler : string -> M (Queue CT W) (result unit E).

Definition takes_down (body : string) : Prop := forall q, exists why q', handler body q = (Panic why, q').

Lemma filter_more {A} (F G : A -> Prop) `{!forall x, Decision (F x), !forall x, Decision (G x)} (l : list A) :
  (forall x, x ∈ l -> F x -> G x) -> (length (filter F l) <= length (filter G l))%nat.
Proof.
  induction l as [|x l IH]; intros Hfg; [done|]. assert (IHl := IH (fun y Hy => Hfg y (list_elem_of_further _ _ _ Hy))).
  rewrite !filter_cons. destruct (decide (F x)) as [Hp|]; [|destruct (decide (G x)); simpl; lia].
  rewrite decide_True by (apply Hfg; [by left|done]). simpl. lia.
Qed.

(** Whoever picks out bodies that take the handler down picks out poison. *)
Lemma panics_poison (f : Delivery -> bool) es q n c :
  (forall d, f d = true -> takes_down (data d)) ->
  work_run name url num_workers irrelevant handler es (consumer_new q n) = Some c ->
  (length (filter (fun x => f (fst x) = true) (ended c)) <= poisoned c)%nat.
Proof.
  intros Hf Hr. apply filter_more. intros [d [r|]] Hin Hd; [|done]. exfalso.
  destruct (ended_handled _ _ _ _ _ es q n c d r Hr Hin) as (q1 & q2 & es1 & i & es2 & c1 & c2 & d1 & _ & _ & _ & _ & _ & _ & _ & Hh).
  destruct (Hf d Hd q1) as (why & q' & Hp). by rewrite Hp in Hh.
Qed.
End panics.

(** ** Jettons against the ingestor *)

Section outage.
Context {XL : XrplLib} {L : TonLib} {W : Type} {IC : ItemCodec ChainTransaction} {AM : Amqp W} {AL : AmqpLaws W}
  {TI : Timer W} {P : Propagator}.
Abbreviation Q := (Queue ChainTransaction W).
Context {XM : XrplMessages} {API : GmpApiTrait Q} {LC : LoggingCtxCache Q} {UE : UpdateEvents Q}.
Context {DL : DecimalLib} {DV : DecimalValues} {DA : DecimalArith} {PV : PriceViewTrait Q} {CL : CellLib} {C : Codecs} {RN : Rfc3339Now Q}.
Variable parser : TraceParser.
#[local] Instance traces : TraceParserTrait Q := TonTraceParser parser.
Hypothesis posts_elsewhere : forall events, preserves queue_view (post_events (W := Q) events).
Hypothesis prices_elsewhere : forall pair, preserves queue_view (pv_get_price (W := Q) pair).
Hypothesis clock_elsewhere : preserves queue_view (now_rfc3339 (W := Q)).
Hypothesis updates_elsewhere : forall i l, preserves queue_view (update_events (W := Q) i l).
Hypothesis caches_elsewhere : forall ids ctx, preserves queue_view (get_or_insert (W := Q) ids ctx).
Variable debug_transaction : ChainTransaction -> string.
Variable current_span : Ctx.
Variable list_ids : gset string -> list string.
#[local] Instance ton_handlers : IngestorTrait Q := TONIngestor debug_transaction.
Abbreviation ton_ingest := (ingest_body current_span list_ids).
Variable url : string.
Variable num_workers : nat.
Hypothesis ack_clean : forall tag (w : W) e w', basic_ack tag w = (Done (Err e), w') -> acked w' = acked w.
Hypothesis connect_quiet : forall fuel (q : Q),
  quiet q (snd (on_broker (connect ACCOUNT_QUEUE fuel url (Z.of_nat num_workers)) q)).
Abbreviation run_events := (work_run ACCOUNT_QUEUE url num_workers ingestor_irrelevant ton_ingest).

#[local] Hint Resolve prices_elsewhere clock_elsewhere : relayer.
Ltac elsewhere := repeat first
  [ solve [auto with relayer] | apply preserves_bind_ok; [|intros ?] | apply preserves_bind; [|intros ?] | apply preserves_map_err
  | match goal with |- preserves _ (match ?x with _ => _ end) => destruct x end ].
Lemma event_elsewhere p i : preserves queue_view (any_event p i : M Q _).
Proof.
  destruct p; cbn [any_event]; unfold executed_event, approved_event, native_paid_event, native_added_event,
    jetton_added_event, jetton_paid_event, refunded_event, credit_event; elsewhere.
Qed.
Lemma cost_elsewhere a b k e : preserves queue_view (with_cost a b k e : M Q _).
Proof. destruct e; cbn [with_cost]; unfold convert_jetton_to_native; elsewhere. Qed.
Lemma calls_elsewhere name calls credits : preserves queue_view (call_events name calls credits : M Q _).
Proof.
  revert credits. induction calls as [|cc calls IH]; intros credits; cbn [call_events]; [auto with relayer|].
  pose proof event_elsewhere. unfold call_event. elsewhere.
Qed.
Lemma parser_events_elsewhere ps : preserves queue_view (parser_events ps : M Q _).
Proof. pose proof event_elsewhere. induction ps; cbn [parser_events]; elsewhere. Qed.
Lemma costs_elsewhere a b k es : preserves queue_view (with_costs a b k es : M Q _).
Proof. pose proof cost_elsewhere. induction es; cbn [with_costs]; elsewhere. Qed.
#[local] Hint Resolve calls_elsewhere parser_events_elsewhere costs_elsewhere : relayer.
Lemma parses_elsewhere t : preserves queue_view (parse_trace (W := Q) t).
Proof.
  cbn [parse_trace traces TonTraceParser]. unfold ton_parse_trace, now_or_panic. elsewhere.
Qed.

(** The prices of a jetton and of TON. *)
Variables (minter : string) (coin ton : Dec).
Hypothesis coin_price : forall q : Q, exists q', pv_get_price (minter +:+ "/USD") q = (Done (Ok coin), q').
Hypothesis ton_price : forall q : Q, exists q', pv_get_price "TON/USD" q = (Done (Ok ton), q').
Hypothesis coin_worth : (0 < dec_value coin)%Q.
Hypothesis ton_worth : (0 <= dec_value ton)%Q.

(** A trace that reads, with gas in that jetton worth more dollars than 96
    bits hold; what comes before it converts. *)
Definition overflows (t : Trace) : Prop := forall q : Q,
  exists total refund approved before after before' common message_id refund_address n q0 q1,
    uncosted parser t q = (Done (Ok (total, refund, approved,
      before ++ GasCredit common message_id refund_address (mkAmount (Some minter) (print_N n)) :: after)), q0) /\
    with_costs total refund approved before q0 = (Done (Ok before'), q1) /\
    (0 < n)%N /\ Z.of_N n < LIMIT /\ too_large (inject_Z (Z.of_N n) * dec_value coin)%Q.

Lemma overflow_takes_down body t :
  from_slice body = Ok (QTransaction (TON t)) -> overflows t -> takes_down ton_ingest body.
Proof.
  intros Hb Ht q. destruct (Ht q) as (total & refund & approved & before & after & before' & common & mid & ra & n & q0 & q1 & Hu & Hc & Hn & Hl & Hbig).
  destruct (coin_price q1) as [q2 Hp1]. destruct (ton_price q2) as [q3 Hp2].
  destruct (payment_overflows _ _ _ _ _ _ _ _ _ _ _ _ _ _ _ _ _ _ _ _ Hu Hc Hp1 Hp2 coin_worth ton_worth Hn Hl (or_introl Hbig)) as [why Hpanic].
  exists why, q3. unfold ingest_body, ingestor_process_delivery. rewrite bind_ok_run, Hb. cbn [rmap_err ret ingest].
  unfold consume_transaction. rewrite bind_ok_run. cbn [handle_transaction ton_handlers TONIngestor ton_handle_transaction].
  rewrite bind_ok_run, map_err_run. cbn [parse_trace traces TonTraceParser]. by rewrite Hpanic.
Qed.

(** C39: a few payments stop the TON ingestor.  Take any interleaving around
    the queue of events in which, among the deliveries whose tasks ended, there
    are as many as workers whose trace pays gas in a jetton for more dollars
    than 96 bits hold.  From then on, whatever happens until that queue is
    closed, nothing is delivered to the consumer of events any more: their
    tasks panicked, nobody answered the broker, and it hands out no more than
    that many unanswered deliveries. *)
Theorem jettons_stop_ingestor (f : Delivery -> bool) (es1 es2 : list (event ChainTransaction)) (q : Q) (n : nat)
    (c c' : Consumer ChainTransaction W IngestorError) :
  receiver_open q = true -> Others MDrop ∉ es1 ++ es2 ->
  (forall d, f d = true -> exists t, from_slice (data d) = Ok (QTransaction (TON t)) /\ overflows t) ->
  run_events es1 (consumer_new q n) = Some c ->
  (num_workers <= length (filter (fun x => f (fst x) = true) (ended c)))%nat ->
  run_events es2 c = Some c' ->
  delivered c' = delivered c /\ (num_workers <= length (outstanding c'))%nat.
Proof.
  intros Ho Hd Hf H1 Hn H2.
  assert (Hq : forall body q, touches ACCOUNT_QUEUE None q (snd (ton_ingest body q))).
  { intros body q0. apply quiet_touches, same_view_quiet.
    apply (ingest_elsewhere (IN := ton_handlers) posts_elsewhere caches_elsewhere (transaction_elsewhere parses_elsewhere updates_elsewhere debug_transaction)
      (task_elsewhere debug_transaction) current_span list_ids body q0). }
  apply (poison_starves ACCOUNT_QUEUE url num_workers ingestor_irrelevant ton_ingest Hq ack_clean
    (fun fuel q => quiet_touches _ _ _ (connect_quiet fuel q)) es1 es2 q n c c' Ho Hd H1); [|done].
  etrans; [exact Hn|]. eapply panics_poison; [|exact H1]. intros d Hfd. destruct (Hf d Hfd) as (t & Ht & Hov).
  by eapply overflow_takes_down.
Qed.
End outage.

(** ** A concrete outage *)

Module OutageDemo.
Export AmountsDemo.
#[export] Existing Instance QueueDemo.propagator.
#[export] Existing Instance AuditDemo.messages.
#[export] Existing Instance SubscriberDemo.xrpl.
(** Every delivery carries the trace with the jetton. *)
Definition the_trace : Trace := ParserDemo.trace_of jetton_trace.
#[export] Instance one_trace : ItemCodec ChainTransaction := {|
  to_vec := fun _ => Ok "trace"; from_slice := fun _ => Ok (QTransaction (TON the_trace));
|}.
Abbreviation DQ := (Queue ChainTransaction MemBroker).
#[export] Instance no_api : GmpApiTrait DQ := {|
  get_chain := "ton"; get_tasks_action := fun _ => ret (Ok []); post_events := fun es => ret (Ok []);
  post_broadcast := fun _ _ => ret (Ok "h"); get_broadcast_result := fun _ _ => ret (Ok "h");
  post_query := fun _ _ => ret (Ok "q"); post_payload := fun _ => ret (Ok "p"); get_payload := fun _ => ret (Ok "p");
  cannot_execute_message := fun _ _ _ _ _ => ret (Ok tt); its_interchain_transfer := fun _ => ret (Ok tt);
  map_cannot_execute_message_to_event := fun _ _ _ _ _ => Panic "none";
|}.
#[export] Instance no_log : LoggingCtxCache DQ := {| get_or_insert := fun _ _ => ret None |}.
#[export] Instance no_updates : UpdateEvents DQ := {| update_events := fun _ _ => ret (Ok tt) |}.
#[export] Instance many : CellLib := jetton_of (2 ^ 95).
#[export] Instance demo_traces : TraceParserTrait DQ := TonTraceParser ParserDemo.self.
Definition no_debug (_ : ChainTransaction) : string := "".
Definition ingest : string -> M DQ (result unit IngestorError) := ingest_body (IN := TONIngestor no_debug) ∅ elements.
Definition events_queue : DQ := mkQueue (QueueDemo.idle []) [] true false.
Definition payment_arrives (tag : Z) : list (QueueConsumer.event ChainTransaction) :=
  [Arrive (Ok (PipelineDemo.parcel tag "trace")); NextMessage; RunHandler 0].
Abbreviation pass := (work_run ACCOUNT_QUEUE "amqp://" 2 ingestor_irrelevant ingest).
Definition two_payments := payment_arrives 1 ++ payment_arrives 2.
Definition after_two : Consumer ChainTransaction MemBroker IngestorError :=
  default (consumer_new events_queue 0) (pass two_payments (consumer_new events_queue 0)).
Definition later_that_day : list (QueueConsumer.event ChainTransaction) := [Others (MPublish (QTransaction (TON the_trace))); Others MProcess; HealthTick 1].
Definition in_the_evening : Consumer ChainTransaction MemBroker IngestorError := default after_two (pass later_that_day after_two).
End OutageDemo.
Import OutageDemo.

Lemma demo_overflows : overflows (W := MemBroker) ParserDemo.self "M" 4%Q the_trace.
Proof.
  intros q. exists 20, 20, 2, approvals, [], approvals_costed, jetton_credit, "0xh", "R", (2 ^ 95)%N, q, q.
  split; [vm_compute; reflexivity|]. split; [vm_compute; reflexivity|]. split; [done|]. split; [vm_compute; reflexivity|].
  vm_compute. congruence.
Qed.

Lemma jettons_stop_ingestor_witness :
  delivered in_the_evening = delivered after_two /\ (2 <= length (outstanding in_the_evening))%nat.
Proof.
  apply (jettons_stop_ingestor (API := no_api) (LC := no_log) (UE := no_updates) (DA := exact_arith) (PV := dollars) (CL := many) (RN := ParserDemo.now) ParserDemo.self (fun _ _ => eq_refl) (fun _ _ => eq_refl) (fun _ => eq_refl) (fun _ _ _ => eq_refl)
    (fun _ _ _ => eq_refl) no_debug ∅ elements "amqp://" 2 ConsumerDemo.demo_ack_clean
    (PipelineDemo.connect_quiet ACCOUNT_QUEUE "amqp://" (Z.of_nat 2)) "M" 4%Q 2%Q)
    with (f := fun _ => true) (es1 := two_payments) (es2 := later_that_day) (q := events_queue) (n := 0%nat).
  - intros q. by exists q.
  - intros q. by exists q.
  - done.
  - done.
  - reflexivity.
  - apply (PipelineDemo.no_drop (two_payments ++ later_that_day) eq_refl).
  - intros d _. exists the_trace. split; [reflexivity|apply demo_overflows].
  - vm_compute. reflexivity.
  - vm_compute. lia.
  - vm_compute. reflexivity.
Defined.
