(* ===== verification/XrplTable.v ===== *)
(** * The rows of the XRPL transactions table

    What every row of the table satisfies, whatever the ingestor handles, the
    ledger and the other services answer and the database refuses:
    [xrpl/src/models/xrpl_transaction.rs] under [xrpl/src/ingestor.rs]. *)

From S2P Require Import Prelude.
From S2P Require Import Store.
From S2P Require Import GmpTypes.
From S2P Require Import Text.
From S2P Require Import Decimal.
From S2P Require Import GmpApi.
From S2P Require Import GmpAudit.
From S2P Require Import Database.
From S2P Require Import TonLib.
From S2P Require Import TonParsers.
From S2P Require Import Logging.
From S2P Require Import Queue.
From S2P Require Import Subscriber.
From S2P Require Import Ingestor.
From S2P Require Import Config.
From S2P Require Import Xrpl.
From S2P Require Import XrplMessages.
From S2P Require Import XrplTransactions.
From S2P Require Import XrplIngestor.
From S2P Require Import XrplIngested.

(** ** Well-formed rows *)

Record row_ok (key : string) (r : XrplRow) : Prop := {
  row_key : row_tx_hash r = key;
  row_message : row_message_id r = Some key;
  row_verified : row_status r = Verified -> row_quorum_reached_task r <> None;
  row_routed : row_status r = Routed -> row_quorum_reached_task r <> None /\ row_route_tx r <> None;
}.

Definition table_ok (t : gmap string XrplRow) : Prop := map_Forall row_ok t.

(** What a statement may rely on about one row, if there is one. *)
Definition has_quorum (h : string) (t : gmap string XrplRow) : Prop :=
  forall r, t !! h = Some r -> row_quorum_reached_task r <> None.
Definition has_route (h : string) (t : gmap string XrplRow) : Prop :=
  forall r, t !! h = Some r -> row_route_tx r <> None.

Lemma table_alter f h (t : gmap string XrplRow) :
  table_ok t -> (forall r, t !! h = Some r -> row_ok h r -> row_ok h (f r)) -> table_ok (alter f h t).
Proof.
  intros Ht Hf k r Hr. destruct (decide (k = h)) as [->|Hne].
  - rewrite lookup_alter_eq in Hr. destruct (t !! h) as [r0|] eqn:E; [|done]. injection Hr as <-.
    by apply Hf; [|apply Ht].
  - rewrite lookup_alter_ne in Hr by done. by apply Ht.
Qed.

Lemma alter_quorum f h (t : gmap string XrplRow) :
  (forall r, row_quorum_reached_task r <> None -> row_quorum_reached_task (f r) <> None) ->
  has_quorum h t -> has_quorum h (alter f h t).
Proof.
  intros Hf Hq r. rewrite lookup_alter_eq. destruct (t !! h) as [r0|] eqn:E; [|done]. intros [= <-].
  by apply Hf, Hq.
Qed.

(** What never changes in a row, and what is never taken back. *)
Record same_tx (r r' : XrplRow) : Prop := {
  same_hash : row_tx_hash r' = row_tx_hash r;
  same_json : row_tx_json r' = row_tx_json r;
  same_type : row_tx_type r' = row_tx_type r;
  same_source : row_source r' = row_source r;
  same_sequence : row_sequence r' = row_sequence r;
  same_created : row_created_at r' = row_created_at r;
  kept_quorum : row_quorum_reached_task r <> None -> row_quorum_reached_task r' <> None;
  kept_route : row_route_tx r <> None -> row_route_tx r' <> None;
}.
#[export] Instance same_tx_preorder : PreOrder same_tx.
Proof. split; [by split|]. intros x y z [] []. split; solve [congruence | auto]. Qed.

(** Later contents of a table: every row is still there. *)
Definition evolves (t t' : gmap string XrplRow) : Prop :=
  forall key r, t !! key = Some r -> exists r', t' !! key = Some r' /\ same_tx r r'.
#[export] Instance evolves_preorder : PreOrder evolves.
Proof.
  split; [intros t key r H; by exists r|]. intros t1 t2 t3 H1 H2 key r Hr.
  destruct (H1 key r Hr) as (r2 & H & ?). destruct (H2 key r2 H) as (r3 & ? & ?). exists r3. split; [done|].
  by transitivity r2.
Qed.

Lemma evolves_alter f h (t : gmap string XrplRow) : (forall r, same_tx r (f r)) -> evolves t (alter f h t).
Proof.
  intros Hf key r Hr. destruct (decide (key = h)) as [->|Hne].
  - exists (f r). rewrite lookup_alter_eq, Hr. by split.
  - exists r. by rewrite lookup_alter_ne.
Qed.

Lemma evolves_insert h row (t : gmap string XrplRow) : t !! h = None -> evolves t (<[h := row]> t).
Proof. intros Hh key r Hr. exists r. rewrite lookup_insert_ne; [done|]. intros ->. congruence. Qed.

(** ** Computations and the table *)

Section world.
Context {XL : XrplLib} {L : TonLib} {XA : XrplApi} {XP : XrplPayments} {XMA : XrplAmplifier} {PS : PaymentSub}
  {CC : CrossChain} {SE : XrplSerde} {C : Codecs} {J : Json} {DL : DecimalLib} {DO : DecimalOps}.
Context {X : Type} {XM : XrplMessages} {API : GmpApiTrait X} {PC : PayloadCacheTrait X} {PV : PriceViewTrait X}
  {HT : XrplHttp X} {NOW : Rfc3339Now X}.
Variable show_f64 : F64 -> string.
Variable config : XRPLConfig.
Variable debug_transaction : ChainTransaction -> string.
Abbreviation IngWorld := (IngWorld (X := X)).

Definition table (w : IngWorld) : gmap string XrplRow := tables (ing_txs w).

(** A well-formed table, reached from another by what may happen to rows. *)
Definition grown (t t' : gmap string XrplRow) : Prop := table_ok t' /\ evolves t t'.

Lemma grown_refl t : table_ok t -> grown t t.
Proof. by split. Qed.
Lemma grown_trans t1 t2 t3 : grown t1 t2 -> grown t2 t3 -> grown t1 t3.
Proof. intros [_ H1] [H H2]. split; [done|by transitivity t2]. Qed.

(** A computation that keeps the table well formed and loses nothing of it, on
    every outcome. *)
Definition keeps {A} (m : M IngWorld A) : Prop := forall w, table_ok (table w) -> grown (table w) (table (snd (m w))).

Lemma keeps_preserves {A} (m : M IngWorld A) : preserves table m -> keeps m.
Proof. intros H w Hw. rewrite H. by apply grown_refl. Qed.

Lemma keeps_ret {A} (a : A) : keeps (ret a).
Proof. intros w Hw. by apply grown_refl. Qed.
Lemma keeps_panic {A} why : keeps (@panic IngWorld A why).
Proof. intros w Hw. by apply grown_refl. Qed.

Lemma keeps_bind {A B} (m : M IngWorld A) (k : A -> M IngWorld B) :
  keeps m -> (forall a, keeps (k a)) -> keeps (bind m k).
Proof.
  intros Hm Hk w Hw. rewrite bind_run. specialize (Hm w Hw). destruct (m w) as [[a|why] w1]; [|done].
  eapply grown_trans; [exact Hm|]. apply Hk. exact (proj1 Hm).
Qed.

Lemma keeps_bind_ok {A B E} (m : M IngWorld (result A E)) (k : A -> M IngWorld (result B E)) :
  keeps m -> (forall a, keeps (k a)) -> keeps (bind_ok m k).
Proof. intros Hm Hk. apply keeps_bind; [done|]. intros [a|e]; [apply Hk|apply keeps_ret]. Qed.

Lemma map_err_world {A E F} (f : E -> F) (m : M IngWorld (result A E)) w : snd (map_err f m w) = snd (m w).
Proof. rewrite map_err_run. by destruct (m w) as [[r|why] w']. Qed.

Lemma keeps_map_err {A E F} (f : E -> F) (m : M IngWorld (result A E)) : keeps m -> keeps (map_err f m).
Proof. intros Hm. apply keeps_bind; [done|]. intros r. apply keeps_ret. Qed.

Lemma keeps_on_net {A} (m : M X A) : keeps (on_net m).
Proof. apply keeps_preserves. intros [t r x]. by rewrite on_net_run. Qed.

Lemma on_txs_run {A} (m : M XrplTxDb A) t r x : on_txs m (mkIng (X := X) t r x) = (fst (m t), mkIng (snd (m t)) r x).
Proof. unfold on_txs. cbn. by destruct (m t). Qed.

(** A statement on the table: it fails and changes nothing, or does what it
    says. *)
Lemma statement_cases (u : Z -> gmap string XrplRow -> gmap string XrplRow) (w : IngWorld) :
  (exists e, fst (on_txs (sql_exec u) w) = Done (Err e) /\ table (snd (on_txs (sql_exec u) w)) = table w) \/
  (fst (on_txs (sql_exec u) w) = Done (Ok tt) /\
   exists now, table (snd (on_txs (sql_exec u) w)) = u now (table w)).
Proof.
  destruct w as [t r x]. rewrite on_txs_run. unfold sql_exec.
  destruct (sql_cases (fun now t => (tt, u now t)) t) as [[e -> ] | -> ]; [left; by exists e|right].
  split; [done|]. by eexists.
Qed.

Lemma keeps_statement (u : Z -> gmap string XrplRow -> gmap string XrplRow) :
  (forall now t, table_ok t -> grown t (u now t)) -> keeps (on_txs (sql_exec u)).
Proof.
  intros Hu w Hw. destruct (statement_cases u w) as [(e & _ & ->)|(_ & tm & ->)]; [by apply grown_refl|by apply Hu].
Qed.

(** With an invariant on one row before and after. *)
Definition triple {A} (P Q : gmap string XrplRow -> Prop) (m : M IngWorld (Res A)) : Prop :=
  forall w, table_ok (table w) -> P (table w) ->
    grown (table w) (table (snd (m w))) /\ forall a, fst (m w) = Done (Ok a) -> Q (table (snd (m w))).

Lemma triple_bind {A B} P Q R (m : M IngWorld (Res A)) (k : A -> M IngWorld (Res B)) :
  triple P Q m -> (forall a, triple Q R (k a)) -> triple P R (bind_ok m k).
Proof.
  intros Hm Hk w Hw Hp. rewrite bind_ok_run. destruct (Hm w Hw Hp) as [H1 H2].
  destruct (m w) as [[[a|e]|why] w1]; simpl in *; [|done|done].
  destruct (Hk a w1 (proj1 H1) (H2 a eq_refl)) as [H3 H4]. split; [by eapply grown_trans|done].
Qed.

Lemma triple_keeps {A} (m : M IngWorld (Res A)) P : keeps m -> triple P (fun _ => True) m.
Proof. intros Hm w Hw _. split; [by apply Hm|done]. Qed.

Lemma triple_preserves {A} (m : M IngWorld (Res A)) P : preserves table m -> triple P P m.
Proof. intros Hm w Hw Hp. pose proof (Hm w) as E. split; [rewrite E; by apply grown_refl|]. intros a _. by rewrite E. Qed.

Lemma keeps_triple {A} (m : M IngWorld (Res A)) P Q : triple P Q m -> (forall t, P t) -> keeps m.
Proof. intros Hm Hp w Hw. by apply Hm. Qed.

Lemma triple_statement (u : Z -> gmap string XrplRow -> gmap string XrplRow) (f : string -> IngestorError) P Q :
  (forall now t, table_ok t -> P t -> grown t (u now t) /\ Q (u now t)) ->
  triple P Q (map_err f (on_txs (sql_exec u))).
Proof.
  intros Hu w Hw Hp. rewrite map_err_run.
  destruct (statement_cases u w) as [(e & E & Et)|(E & tm & Et)];
    destruct (on_txs (sql_exec u) w) as [o w1]; simpl in *; subst o; cbn [fst snd]; rewrite Et; [by split; [apply grown_refl|]|].
  destruct (Hu tm _ Hw Hp). by split.
Qed.

(** ** The statements of the ingestor *)

Lemma grown_alter f h t : (forall r, same_tx r (f r)) -> table_ok t ->
  (forall r, t !! h = Some r -> row_ok h r -> row_ok h (f r)) -> grown t (alter f h t).
Proof. intros Hs Ht Hf. split; [by apply table_alter|by apply evolves_alter]. Qed.

Lemma keeps_alter f h : (forall r, same_tx r (f r)) -> (forall r, row_ok h r -> row_ok h (f r)) ->
  keeps (on_txs (sql_exec (fun _ => alter f h))).
Proof. intros Hs Hf. apply keeps_statement. intros _ t Ht. apply grown_alter; auto. Qed.

Lemma keeps_initialized h : keeps (update_status (W := IngWorld) h Initialized).
Proof. apply keeps_alter; [by split|]. intros r []. by split. Qed.

Lemma keeps_verify_task h s : keeps (update_verify_task (W := IngWorld) h s).
Proof. apply keeps_alter; [by split|]. intros r []. by split. Qed.

Lemma keeps_verify_tx h s : keeps (update_verify_tx (W := IngWorld) h s).
Proof. apply keeps_alter; [by split|]. intros r []. by split. Qed.

Lemma quorum_statement h s :
  triple (fun _ => True) (has_quorum h) (map_err IngGenericError (update_quorum_reached_task (W := IngWorld) h s)).
Proof.
  apply triple_statement. intros _ t Ht _. split.
  - apply grown_alter; [by split|done|]. intros r _ [H1 H2 H3 H4]. split; try done. intros Hr. by destruct (H4 Hr).
  - intros r. rewrite lookup_alter_eq. destruct (t !! h); [|done]. intros [= <-]. discriminate.
Qed.

Lemma verified_statement h :
  triple (has_quorum h) (has_quorum h) (map_err IngGenericError (update_status (W := IngWorld) h Verified)).
Proof.
  apply triple_statement. intros _ t Ht Hq. split; [|by apply alter_quorum].
  apply grown_alter; [by split|done|]. intros r Hr [H1 H2 H3 H4]. split; try done. intros _. exact (Hq r Hr).
Qed.

Lemma route_statement h s :
  triple (has_quorum h) (fun t => has_quorum h t /\ has_route h t)
    (map_err IngGenericError (update_route_tx (W := IngWorld) h s)).
Proof.
  apply triple_statement. intros _ t Ht Hq. split; [|split; [by apply alter_quorum|]].
  - apply grown_alter; [by split|done|]. intros r Hr [H1 H2 H3 H4]. split; try done. intros Hs. split; [exact (Hq r Hr)|done].
  - intros r. rewrite lookup_alter_eq. destruct (t !! h); [|done]. intros [= <-]. discriminate.
Qed.

Lemma routed_statement h :
  triple (fun t => has_quorum h t /\ has_route h t) (fun _ => True)
    (map_err IngGenericError (update_status (W := IngWorld) h Routed)).
Proof.
  apply triple_statement. intros _ t Ht [Hq Hr]. split; [|done].
  apply grown_alter; [by split|done|]. intros r Hh [H1 H2 H3 H4]. split; try done.
  intros _. split; [exact (Hq r Hh)|exact (Hr r Hh)].
Qed.

(** ** The handlers *)

(** What only touches the network keeps the table. *)
Lemma keeps_post_broadcast c d : keeps (post_broadcast (W := IngWorld) c d).
Proof. apply keeps_on_net. Qed.
Lemma keeps_post_query c d : keeps (post_query (W := IngWorld) c d).
Proof. apply keeps_on_net. Qed.
Lemma keeps_post_payload p : keeps (post_payload (W := IngWorld) p).
Proof. apply keeps_on_net. Qed.
Lemma keeps_get_payload h : keeps (get_payload (W := IngWorld) h).
Proof. apply keeps_on_net. Qed.
Lemma keeps_cannot_execute i m s d r : keeps (cannot_execute_message (W := IngWorld) i m s d r).
Proof. apply keeps_on_net. Qed.
Lemma keeps_cache_store c v : keeps (cache_store (W := IngWorld) c v).
Proof. apply keeps_on_net. Qed.
Lemma keeps_price p : keeps (pv_get_price (W := IngWorld) p).
Proof. apply keeps_on_net. Qed.
Lemma keeps_now : keeps (now_rfc3339 (W := IngWorld)).
Proof. apply keeps_on_net. Qed.
Lemma keeps_run_outcome {A} (o : outcome A) : keeps (run_outcome o).
Proof. by apply keeps_preserves. Qed.
Lemma keeps_retries {A} (m : M RetriesDb A) : keeps (on_retries (X := X) m).
Proof. apply keeps_preserves. intros [t r x]. unfold on_retries. cbn. by destruct (m r). Qed.
Lemma keeps_find_retries i : keeps (model_find (Model := ing_retries_model (X := X)) i).
Proof. apply keeps_retries. Qed.
Lemma keeps_upsert_retries r : keeps (model_upsert (Model := ing_retries_model (X := X)) r).
Proof. apply keeps_retries. Qed.

Lemma keeps_find i : keeps (model_find (Model := ing_xtx_model (X := X)) i).
Proof.
  apply keeps_preserves. intros [t r x]. cbn [model_find ing_xtx_model]. rewrite on_txs_run. cbn [snd ing_txs table] in *.
  unfold model_find, PgXrplTransactionModel, xtx_model, PgXrplModel, xtx_find, sql_query.
  by destruct (sql_cases (fun now (t : gmap string XrplRow) => (t !! i, t)) t) as [[e -> ] | -> ].
Qed.

Create HintDb table.
#[local] Hint Resolve keeps_ret keeps_panic keeps_bind keeps_bind_ok keeps_map_err keeps_post_broadcast keeps_post_query
  keeps_post_payload keeps_get_payload keeps_cannot_execute keeps_cache_store keeps_price keeps_now keeps_run_outcome
  keeps_find_retries keeps_upsert_retries keeps_find keeps_initialized keeps_verify_task keeps_verify_tx : table.
#[local] Hint Extern 5 (keeps (match ?x with _ => _ end)) => destruct x : table.

Lemma keeps_verify m : keeps (xrpl_verify_message (W := IngWorld) config m).
Proof. unfold xrpl_verify_message. auto 10 with table. Qed.
Lemma keeps_token_id m : keeps (get_token_id (W := IngWorld) config m).
Proof. unfold get_token_id. auto 12 with table. Qed.
Lemma keeps_translate m p : keeps (translate_message (W := IngWorld) config m p).
Proof. unfold translate_message. auto 12 with table. Qed.
#[local] Hint Resolve keeps_verify keeps_token_id keeps_translate : table.

Lemma keeps_prover_tx tx : keeps (handle_prover_tx (W := IngWorld) config tx).
Proof. unfold handle_prover_tx. auto 20 with table. Qed.
#[local] Hint Resolve keeps_prover_tx : table.

(** *** Payments *)

Lemma keeps_call_event wp : keeps (call_event_from_message (W := IngWorld) config wp).
Proof. unfold call_event_from_message. auto 20 with table. Qed.

Lemma keeps_scaled a t : keeps (scaled_amount (W := IngWorld) config a t).
Proof. unfold scaled_amount. auto 12 with table. Qed.
Lemma keeps_drops a t : keeps (convert_token_amount_to_drops (W := IngWorld) show_f64 (common_config config) a t).
Proof. unfold convert_token_amount_to_drops. auto 15 with table. Qed.
#[local] Hint Resolve keeps_call_event keeps_scaled keeps_drops : table.

Lemma keeps_its_event m t : keeps (its_interchain_transfer_event (W := IngWorld) config m t).
Proof. unfold its_interchain_transfer_event. auto 15 with table. Qed.
Lemma keeps_gas_event wp t : keeps (gas_credit_event_from_payment show_f64 config (W := IngWorld) wp t).
Proof. unfold gas_credit_event_from_payment. auto 15 with table. Qed.
Lemma keeps_payload_and_hash ms : keeps (parse_payload_and_payload_hash (W := IngWorld) ms).
Proof. unfold parse_payload_and_payload_hash. auto 12 with table. Qed.
#[local] Hint Resolve keeps_its_event keeps_gas_event keeps_payload_and_hash : table.

Lemma keeps_gmp wp : keeps (handle_gmp_message show_f64 config (W := IngWorld) wp).
Proof. unfold handle_gmp_message. auto 15 with table. Qed.
Lemma keeps_add_gas wp : keeps (handle_add_gas_message show_f64 config (W := IngWorld) wp).
Proof. unfold handle_add_gas_message. auto 12 with table. Qed.
Lemma keeps_build_gmp transfer ms i src a : keeps (build_gmp_message (W := IngWorld) transfer ms i src a).
Proof. unfold build_gmp_message. auto 20 with table. Qed.
Lemma keeps_build_other t ms i src a : keeps (build_other_message (W := IngWorld) t ms i src a).
Proof. unfold build_other_message. auto 15 with table. Qed.
#[local] Hint Resolve keeps_gmp keeps_add_gas keeps_build_gmp keeps_build_other : table.

Lemma keeps_build p : keeps (build_xrpl_message (W := IngWorld) p).
Proof. unfold build_xrpl_message. auto 30 with table. Qed.
#[local] Hint Resolve keeps_build : table.

Lemma keeps_payment p : keeps (handle_payment show_f64 config (W := IngWorld) p).
Proof. unfold handle_payment, handle_add_reserves_message. auto 15 with table. Qed.
#[local] Hint Resolve keeps_payment : table.

Lemma keeps_kind tx : keeps (handle_kind show_f64 config (W := IngWorld) tx).
Proof. unfold handle_kind. auto 15 with table. Qed.

(** The row of a transaction is well formed when it is made. *)
Lemma native_row_ok tx multisig row : from_native_transaction tx multisig = Ok row -> row_ok (row_tx_hash row) row.
Proof.
  unfold from_native_transaction. destruct (tx_hash_field _) as [h|]; cbn [ok_or]; [|done].
  destruct (tx_date tx) as [d|]; cbn [ok_or]; [|done]. intros [= <-]. by split.
Qed.

(** The lookup that precedes the insertion. *)
Lemma find_run h (w : IngWorld) : exists w', table w' = table w /\
  (model_find (Model := xtx_model (W := IngWorld)) h w = (Done (Ok (table w !! h)), w') \/
   exists e, model_find (Model := xtx_model (W := IngWorld)) h w = (Done (Err e), w')).
Proof.
  destruct w as [t r x]. cbn [model_find ing_xtx_model xtx_model ing_txs_model]. rewrite on_txs_run.
  unfold model_find, PgXrplTransactionModel, xtx_model, PgXrplModel, xtx_find, sql_query.
  destruct (sql_cases (fun now (t : gmap string XrplRow) => (t !! h, t)) t) as [[e -> ] | -> ].
  all: eexists; split; [|by eauto]; done.
Qed.

Lemma keeps_track tx row : row_ok (row_tx_hash row) row -> keeps (track (W := IngWorld) tx row).
Proof.
  intros Hrow. unfold track. destruct (tracked tx); [|apply keeps_ret]. intros w Hw.
  rewrite bind_ok_run, map_err_run. destruct (find_run (row_tx_hash row) w) as (w1 & E1 & [E|[e E]]); rewrite E; cbn [rmap_err].
  2: { cbn [snd]. rewrite E1. by apply grown_refl. }
  rewrite <- E1 in *. destruct (table w1 !! row_tx_hash row) as [found|] eqn:Hn; [by apply grown_refl|].
  rewrite map_err_world.
  change (model_upsert row w1) with (on_txs (sql_exec (fun _ => insert (row_tx_hash row) row)) w1).
  destruct (statement_cases (fun _ => insert (row_tx_hash row) row) w1) as [(e & _ & ->)|(_ & tm & ->)]; [by apply grown_refl|].
  split; [by apply map_Forall_insert_2|by apply evolves_insert].
Qed.

Lemma keeps_transaction tx : keeps (xrpl_handle_transaction show_f64 config debug_transaction (W := IngWorld) tx).
Proof.
  destruct tx as [tx|]; [|apply keeps_ret]. cbn [xrpl_handle_transaction]. intros w Hw. rewrite bind_ok_run.
  destruct (from_native_transaction tx (xrpl_multisig config)) as [row|e] eqn:E; [|done].
  apply (keeps_bind_ok (track tx row) (fun _ => handle_kind show_f64 config tx)); [|by intros _; apply keeps_kind|done].
  apply keeps_track. by eapply native_row_ok.
Qed.

(** *** Tasks *)

Lemma keeps_verify_handler task : keeps (xrpl_handle_verify config (W := IngWorld) task).
Proof. unfold xrpl_handle_verify. auto 12 with table. Qed.
Lemma keeps_proof task : keeps (xrpl_handle_construct_proof config (W := IngWorld) task).
Proof. unfold xrpl_handle_construct_proof. auto 20 with table. Qed.
Lemma keeps_retry task : keeps (xrpl_handle_retriable_task (W := IngWorld) task).
Proof. unfold xrpl_handle_retriable_task. auto 20 with table. Qed.

Lemma db_preserves_table {A} (m : M IngWorld A) : preserves db_of m -> preserves table m.
Proof. intros Hm w. unfold table. pose proof (Hm w) as E. unfold db_of in E. by injection E as -> _. Qed.

(** The broadcast that confirms a quorum records its hash before the row is
    [Routed]. *)
Lemma confirmation_triple h c r : triple (has_quorum h) (fun _ => True) (broadcast_confirmation (W := IngWorld) h c r).
Proof.
  intros w Hw Hq. unfold broadcast_confirmation. rewrite bind_run, map_err_run. cbn [post_broadcast ing_api].
  destruct w as [t rt x]. rewrite on_net_run. destruct (post_broadcast c r x) as [[[hash|e]|why] x']; [| |done].
  - cbn [fst snd rmap_err]. exact (triple_bind _ _ _ _ _ (route_statement h (to_lowercase hash)) (fun _ => routed_statement h) (mkIng t rt x') Hw Hq).
  - cbn [fst snd rmap_err]. destruct (contains _ _); by split; [apply grown_refl|].
Qed.

Lemma keeps_wasm_event task : keeps (xrpl_handle_wasm_event config (W := IngWorld) task).
Proof.
  unfold xrpl_handle_wasm_event. destruct (bool_decide _); [|apply keeps_ret].
  do 5 (apply keeps_bind_ok; [apply keeps_ret|]; intros ?).
  apply (keeps_triple _ (fun _ => True) (fun _ => True)); [|done].
  eapply triple_bind; [apply quorum_statement|]. intros _.
  assert (Hd : forall m, triple (has_quorum (tx_hash_as_hex_no_prefix (message_tx_id m))) (fun _ => True)
    (let? _s := map_err IngGenericError (update_status (W := IngWorld) (tx_hash_as_hex_no_prefix (message_tx_id m)) Verified) in
     let? r := confirmation_request config m in
     let '(contract_address, request, prover_tx) := r in
     let? _b := broadcast_confirmation (tx_hash_as_hex_no_prefix (message_tx_id m)) contract_address request in
     handle_successful_routing m prover_tx task)).
  { intros m. eapply triple_bind; [apply verified_statement|]. intros _.
    eapply triple_bind; [apply triple_preserves, db_preserves_table, confirmation_db|]. intros [[c r] tx].
    eapply triple_bind; [apply confirmation_triple|]. intros _. apply triple_preserves, db_preserves_table, routing_db. }
  match goal with |- triple _ _ (match ?s with _ => _ end) => destruct s end; try apply Hd; by apply triple_keeps, keeps_ret.
Qed.

(** ** The worker *)

Context {LC : LoggingCtxCache X} {IC : ItemCodec ChainTransaction}.
#[local] Instance ing_logging : LoggingCtxCache IngWorld := {| get_or_insert := fun ids span => on_net (get_or_insert ids span) |}.
#[local] Instance ing_handlers : IngestorTrait IngWorld := XrplIngestor show_f64 config debug_transaction.
Variable current_span : Ctx.
Variable list_ids : gset string -> list string.

(** The deliveries of the ingestor, one after the other; what a panic leaves
    is what the next one finds. *)
Definition handle_deliveries (bodies : list string) (w : IngWorld) : IngWorld :=
  foldl (fun w data => snd (ingestor_process_delivery current_span list_ids data w)) w bodies.

Lemma keeps_delivery data : keeps (ingestor_process_delivery current_span list_ids data).
Proof.
  unfold ingestor_process_delivery. apply keeps_bind_ok; [apply keeps_ret|]. intros [task|tx|]; [| |apply keeps_ret].
  - cbn [ingest]. destruct task; cbn [consume_task]; try apply keeps_ret; cbn.
    all: auto using keeps_verify_handler, keeps_proof, keeps_retry, keeps_wasm_event.
  - cbn [ingest]. unfold consume_transaction. apply keeps_bind_ok; [apply keeps_transaction|]. intros events.
    destruct (extract_message_ids_and_event_types_from_events events) as [ids names].
    apply keeps_bind; [apply keeps_on_net|]. intros _.
    destruct events; [apply keeps_ret|]. apply keeps_bind_ok; [apply keeps_map_err, keeps_on_net|]. intros r. apply keeps_ret.
Qed.

(** The type of the transactions table.  Whatever bodies the ingestor is
    delivered one after the other, whatever the ledger, the GMP API and the
    other services answer, whichever statements the database refuses and
    wherever a handler panics, a well-formed table stays well formed: a row is
    kept under its own hash and names its own message, a row that is
    [Verified] has the task of its quorum, and a row that is [Routed] has both
    that task and the hash of its broadcast.  No row is ever removed; what it
    says of the transaction itself never changes; and a quorum or a route, once
    recorded, stays recorded. *)
Theorem table_well_formed (bodies : list string) (w : IngWorld) :
  map_Forall row_ok (table w) ->
  map_Forall row_ok (table (handle_deliveries bodies w)) /\
  (forall key r, table w !! key = Some r -> exists r', table (handle_deliveries bodies w) !! key = Some r' /\ same_tx r r').
Proof.
  unfold handle_deliveries. revert w. induction bodies as [|data bodies IH]; intros w Hw; [by apply grown_refl|].
  eapply grown_trans; [by apply (keeps_delivery data)|]. apply IH. by apply (keeps_delivery data).
Qed.
End world.

(** ** A concrete run *)

Module TableDemo.
Export IngestedDemo.
#[export] Instance items : ItemCodec ChainTransaction := {|
  to_vec := fun _ => Ok "";
  from_slice := fun s => if decide (s = "pay") then Ok (QTransaction (Subscriber.Xrpl (payment_with [])))
    else if decide (s = "quorum") then Ok (QTask (TReactToWasmEvent quorum_task)) else Err s;
|}.
#[export] Instance no_logging : LoggingCtxCache unit := {| get_or_insert := fun _ _ => ret None |}.
Definition handled : IngWorld (X := unit) :=
  handle_deliveries no_f64 demo_config no_text ∅ elements ["quorum"; "junk"; "pay"; "quorum"] with_row.
End TableDemo.
Import TableDemo.

Lemma table_well_formed_witness :
  map_Forall row_ok (table handled) /\ row_status <$> table handled !! "x1" = Some Routed /\
  row_status <$> table handled !! hash32 = Some Detected /\
  exists r', table handled !! "x1" = Some r' /\ same_tx row r'.
Proof.
  destruct (table_well_formed no_f64 demo_config no_text ∅ elements ["quorum"; "junk"; "pay"; "quorum"] with_row) as [H1 H2].
  - apply map_Forall_singleton. by split.
  - split; [exact H1|]. split; [vm_compute; reflexivity|]. split; [vm_compute; reflexivity|]. by apply H2.
Defined.
