(* ===== verification/XrplConcurrent.v ===== *)
(** * The XRPL ingestor's deliveries at once

    The ingestor spawns a task per delivery ([relayer_base/src/ingestor.rs]),
    and several ingestors may share the database: the statements of
    [xrpl/src/ingestor.rs] on [xrpl_transactions] and [task_retries]
    interleave.  The handlers are those of [XrplIngestor]; here they run in a
    world where every statement is asked for and answered by a database the
    other handlers use as well ([Interleaving]). *)

From S2P Require Import Prelude.
From S2P Require Import Interleaving.
From S2P Require Import Store.
From S2P Require Import GmpTypes.
From S2P Require Import Text.
From S2P Require Import Decimal.
From S2P Require Import GmpApi.
From S2P Require Import GmpAudit.
From S2P Require Import Database.
From S2P Require Import TonLib.
From S2P Require Import TonParsers.
From S2P Require Import Logging.
From S2P Require Import Queue.
From S2P Require Import Subscriber.
From S2P Require Import Ingestor.
From S2P Require Import Config.
From S2P Require Import Xrpl.
From S2P Require Import XrplMessages.
From S2P Require Import XrplTransactions.
From S2P Require Import XrplIngestor.
From S2P Require Import XrplIngested.
From S2P Require Import XrplTable.

(** ** The statements *)

Inductive Statement : Type :=
| FindTx (tx_hash : string)
| UpsertTx (row : XrplRow)
| DeleteTx (row : XrplRow)
| SetStatus (tx_hash : string) (status : XrplTransactionStatus)
| SetVerifyTask (tx_hash task : string)
| SetVerifyTx (tx_hash tx : string)
| SetQuorum (tx_hash task : string)
| SetRoute (tx_hash tx : string)
| FindRetries (message_id : string)
| UpsertRetries (entry : TaskRetries)
| DeleteRetries (entry : TaskRetries).

Inductive Answer : Type :=
| Failed (why : string)
| FoundTx (row : option XrplRow)
| FoundRetries (entry : option TaskRetries)
| Executed.

(** The two tables of the ingestor. *)
Abbreviation Tables := (gmap string XrplRow * gmap string Z)%type.

(** A statement of the models ([XrplTransactions], [Database]) on a table: the
    server may refuse it. *)
Definition statement {T B} (m : M (Store T) (result B string)) (answer : B -> Answer) (now : Z) (fault : option string)
    (t : T) : Answer * T :=
  match m (mkStore t now [fault]) with
  | (Done (Ok b), s) => (answer b, tables s)
  | (Done (Err e), s) => (Failed e, tables s)
  | (Panic why, s) => (Failed why, tables s)
  end.

Definition on_first {T U} (f : T -> Answer * T) (d : T * U) : Answer * (T * U) :=
  let '(a, t) := f (fst d) in (a, (t, snd d)).
Definition on_second {T U} (f : U -> Answer * U) (d : T * U) : Answer * (T * U) :=
  let '(a, t) := f (snd d) in (a, (fst d, t)).

Definition perform (s : Statement) (now : Z) (fault : option string) : Tables -> Answer * Tables :=
  match s with
  | FindTx h => on_first (statement (xtx_find h) FoundTx now fault)
  | UpsertTx r => on_first (statement (xtx_upsert r) (fun _ => Executed) now fault)
  | DeleteTx r => on_first (statement (xtx_delete r) (fun _ => Executed) now fault)
  | SetStatus h v => on_first (statement (xtx_update_status h v) (fun _ => Executed) now fault)
  | SetVerifyTask h v => on_first (statement (xtx_update_verify_task h v) (fun _ => Executed) now fault)
  | SetVerifyTx h v => on_first (statement (xtx_update_verify_tx h v) (fun _ => Executed) now fault)
  | SetQuorum h v => on_first (statement (xtx_update_quorum_reached_task h v) (fun _ => Executed) now fault)
  | SetRoute h v => on_first (statement (xtx_update_route_tx h v) (fun _ => Executed) now fault)
  | FindRetries i => on_second (statement (retries_find i) FoundRetries now fault)
  | UpsertRetries e => on_second (statement (retries_upsert e) (fun _ => Executed) now fault)
  | DeleteRetries e => on_second (statement (retries_delete e) (fun _ => Executed) now fault)
  end.

Definition executes (s : Statement) (d : Tables) (a : Answer) (d' : Tables) : Prop :=
  exists now fault, perform s now fault d = (a, d').

(** ** The handlers over the statements *)

Section world.
Context {XL : XrplLib} {L : TonLib} {XA : XrplApi} {XP : XrplPayments} {XMA : XrplAmplifier} {PS : PaymentSub}
  {CC : CrossChain} {SE : XrplSerde} {C : Codecs} {J : Json} {DL : DecimalLib} {DO : DecimalOps}.
Context {X : Type} {XM : XrplMessages} {API : GmpApiTrait X} {PC : PayloadCacheTrait X} {PV : PriceViewTrait X}
  {HT : XrplHttp X} {NOW : Rfc3339Now X}.
Abbreviation W := (Talk Statement Answer X).

(** The value an answer carries. *)
Definition fails (a : Answer) : option string := match a with Failed e => Some e | _ => None end.
Definition read_done (a : Answer) : option unit := match a with Executed => Some tt | _ => None end.
Definition read_row (a : Answer) : option (option XrplRow) := match a with FoundTx r => Some r | _ => None end.
Definition read_retries (a : Answer) : option (option TaskRetries) := match a with FoundRetries r => Some r | _ => None end.

#[export] Instance talk_xtx_model : Model XrplRow string W := {|
  model_upsert := fun r => told fails read_done (UpsertTx r);
  model_find := fun h => told fails read_row (FindTx h);
  model_delete := fun r => told fails read_done (DeleteTx r);
|}.
#[export] Instance talk_txs_model : XrplTransactionModel W := {|
  xtx_model := talk_xtx_model;
  update_status := fun h s => told fails read_done (SetStatus h s);
  update_verify_task := fun h s => told fails read_done (SetVerifyTask h s);
  update_verify_tx := fun h s => told fails read_done (SetVerifyTx h s);
  update_quorum_reached_task := fun h s => told fails read_done (SetQuorum h s);
  update_route_tx := fun h s => told fails read_done (SetRoute h s);
|}.
#[export] Instance talk_retries_model : Model TaskRetries string W := {|
  model_upsert := fun e => told fails read_done (UpsertRetries e);
  model_find := fun i => told fails read_retries (FindRetries i);
  model_delete := fun e => told fails read_done (DeleteRetries e);
|}.
#[export] Instance talk_cache : PayloadCacheTrait W := {|
  cache_get := fun c => on_aside (cache_get c);
  cache_store := fun c v => on_aside (cache_store c v);
  cache_clear := fun c => on_aside (cache_clear c);
|}.
#[export] Instance talk_prices : PriceViewTrait W := {| pv_get_price := fun p => on_aside (pv_get_price p) |}.
#[export] Instance talk_http : XrplHttp W := {|
  http_submit := fun b => on_aside (http_submit b);
  http_tx := fun h => on_aside (http_tx h);
  http_account_tx := fun a lo hi m => on_aside (http_account_tx a lo hi m);
  http_account_objects := fun a => on_aside (http_account_objects a);
|}.
#[export] Instance talk_now : Rfc3339Now W := {| now_rfc3339 := on_aside now_rfc3339 |}.

Variable show_f64 : F64 -> string.
Variable config : XRPLConfig.
Variable debug_transaction : ChainTransaction -> string.
Context {LC : LoggingCtxCache X} {IC : ItemCodec ChainTransaction}.
#[local] Instance talk_logging : LoggingCtxCache W := {| get_or_insert := fun ids span => on_aside (get_or_insert ids span) |}.
#[local] Instance talk_handlers : IngestorTrait W := XrplIngestor show_f64 config debug_transaction.
Variable current_span : Ctx.
Variable list_ids : gset string -> list string.

(** A delivery is handled, over the statements. *)
Definition handler (data : string) : M W (result unit IngestorError) := ingestor_process_delivery current_span list_ids data.

(** The transaction a delivery writes the row or the quorum of. *)
Definition concerned (data : string) : option string :=
  match from_slice data with
  | Ok (QTransaction (Subscriber.Xrpl tx)) => to_lowercase <$> tx_hash_field (Xrpl.common tx)
  | Ok (QTask (TReactToWasmEvent task)) =>
      match event_attribute (wasm_event (wasm_task task)) "content" with
      | Some content =>
          match quorum_content_message content with
          | Ok message => Some (tx_hash_as_hex_no_prefix (message_tx_id message))
          | Err _ => None
          end
      | None => None
      end
  | _ => None
  end.

(** ** What the handlers ask for *)

Abbreviation Log := (list (Statement * Answer)).

Definition recorded_quorum (h : string) (l : Log) : Prop := exists text, (SetQuorum h text, Executed) ∈ l.
Definition recorded_route (h : string) (l : Log) : Prop := exists tx, (SetRoute h tx, Executed) ∈ l.

(** A handler that may write the row or the quorum of [mine]. *)
Definition allowed (mine : option string) (l : Log) (s : Statement) : Prop :=
  match s with
  | UpsertTx r => l = [(FindTx (row_tx_hash r), FoundTx None)] /\ mine = Some (row_tx_hash r) /\ row_ok (row_tx_hash r) r
  | DeleteTx _ => False
  | SetQuorum h _ => mine = Some h
  | SetRoute h _ | SetStatus h Verified => recorded_quorum h l
  | SetStatus h Routed => recorded_quorum h l /\ recorded_route h l
  | _ => True
  end.

(** Statements any handler may ask for at any time. *)
Definition harmless (s : Statement) : Prop := forall mine l, allowed mine l s.

(** Computations that ask for what is harmless only. *)
Definition tame {B} (m : M W B) : Prop :=
  causal m /\ forall mine, obeys (allowed mine) (fun _ => True) m (fun _ _ => True).

Lemma mute_tame {B} (m : M W B) : mute m -> tame m.
Proof. intros [Cm Hm]. split; [done|]. intros mine. eapply obeys_weaken; [apply (Hm _ (fun _ => True))|done..]. Qed.
Lemma tame_bind {B B'} (m : M W B) (k : B -> M W B') : tame m -> (forall b, tame (k b)) -> tame (bind m k).
Proof.
  intros [Cm Hm] Hk. split; [apply causal_bind; [done|]; apply Hk|].
  intros mine. eapply obeys_bind; [apply Hm|]. intros b. apply Hk.
Qed.
Lemma tame_bind_ok {B B' E} (m : M W (result B E)) (k : B -> M W (result B' E)) :
  tame m -> (forall b, tame (k b)) -> tame (bind_ok m k).
Proof. intros Hm Hk. apply tame_bind; [done|]. intros [b|e]; [done|apply mute_tame, mute_ret]. Qed.
Lemma tame_map_err {B E F} (f : E -> F) (m : M W (result B E)) : tame m -> tame (map_err f m).
Proof. intros Hm. apply tame_bind; [done|]. intros r. apply mute_tame, mute_ret. Qed.

Lemma tame_told {B} (read : Answer -> option B) s : harmless s -> tame (told fails read s).
Proof. intros Hs. split; [apply causal_told|]. intros mine. apply obeys_told; [|done..]. intros l _. apply Hs. Qed.

Lemma mute_run_outcome {B} (o : outcome B) : mute (run_outcome o : M W B).
Proof. destruct o; [apply mute_ret|apply mute_panic]. Qed.

(** The calls of the network, and the harmless statements. *)
Lemma mute_post_broadcast c d : mute (post_broadcast (W := W) c d).
Proof. apply mute_aside. Qed.
Lemma mute_post_query c d : mute (post_query (W := W) c d).
Proof. apply mute_aside. Qed.
Lemma mute_post_payload p : mute (post_payload (W := W) p).
Proof. apply mute_aside. Qed.
Lemma mute_get_payload h : mute (get_payload (W := W) h).
Proof. apply mute_aside. Qed.
Lemma mute_post_events es : mute (post_events (W := W) es).
Proof. apply mute_aside. Qed.
Lemma mute_cannot_execute i m s d r : mute (cannot_execute_message (W := W) i m s d r).
Proof. apply mute_aside. Qed.
Lemma mute_cache_store c v : mute (cache_store (W := W) c v).
Proof. apply mute_aside. Qed.
Lemma mute_price p : mute (pv_get_price (W := W) p).
Proof. apply mute_aside. Qed.
Lemma mute_http_tx h : mute (http_tx (W := W) h).
Proof. apply mute_aside. Qed.
Lemma mute_now : mute (now_rfc3339 (W := W)).
Proof. apply mute_aside. Qed.
Lemma tame_initialized h : tame (update_status (W := W) h Initialized).
Proof. by apply tame_told. Qed.
Lemma tame_verify_task h s : tame (update_verify_task (W := W) h s).
Proof. by apply tame_told. Qed.
Lemma tame_verify_tx h s : tame (update_verify_tx (W := W) h s).
Proof. by apply tame_told. Qed.
Lemma tame_find_retries i : tame (model_find (Model := talk_retries_model) i).
Proof. by apply tame_told. Qed.
Lemma tame_upsert_retries e : tame (model_upsert (Model := talk_retries_model) e).
Proof. by apply tame_told. Qed.

Create HintDb talks.
#[local] Hint Resolve mute_ret mute_panic mute_bind mute_bind_ok mute_map_err mute_run_outcome mute_post_broadcast
  mute_post_query mute_post_payload mute_get_payload mute_post_events mute_cannot_execute mute_cache_store mute_price
  mute_http_tx mute_now tame_bind tame_bind_ok tame_map_err tame_initialized tame_verify_task tame_verify_tx
  tame_find_retries tame_upsert_retries : talks.
#[local] Hint Extern 5 (mute (match ?x with _ => _ end)) => destruct x : talks.
#[local] Hint Extern 5 (tame (match ?x with _ => _ end)) => destruct x : talks.
#[local] Hint Extern 9 (tame _) => apply mute_tame; solve [auto 12 with talks nocore] : talks.

Lemma tame_verify m : tame (xrpl_verify_message (W := W) config m).
Proof. unfold xrpl_verify_message. auto 10 with talks. Qed.
Lemma mute_token_id m : mute (get_token_id (W := W) config m).
Proof. unfold get_token_id. auto 12 with talks. Qed.
Lemma mute_translate m p : mute (translate_message (W := W) config m p).
Proof. unfold translate_message. auto 12 with talks. Qed.
Lemma mute_scaled a t : mute (scaled_amount (W := W) config a t).
Proof. unfold scaled_amount. auto 12 with talks. Qed.
Lemma mute_drops a t : mute (convert_token_amount_to_drops (W := W) show_f64 (common_config config) a t).
Proof. unfold convert_token_amount_to_drops. auto 15 with talks. Qed.
#[local] Hint Resolve tame_verify mute_token_id mute_translate mute_scaled mute_drops : talks.

Lemma mute_its_event m t : mute (its_interchain_transfer_event (W := W) config m t).
Proof. unfold its_interchain_transfer_event. auto 15 with talks. Qed.
Lemma mute_gas_event wp t : mute (gas_credit_event_from_payment show_f64 config (W := W) wp t).
Proof. unfold gas_credit_event_from_payment. auto 15 with talks. Qed.
Lemma mute_payload_and_hash ms : mute (parse_payload_and_payload_hash (W := W) ms).
Proof. unfold parse_payload_and_payload_hash. auto 12 with talks. Qed.
#[local] Hint Resolve mute_its_event mute_gas_event mute_payload_and_hash : talks.
Lemma mute_build_gmp transfer ms i src a : mute (build_gmp_message (W := W) transfer ms i src a).
Proof. unfold build_gmp_message. auto 20 with talks. Qed.
Lemma mute_build_other t ms i src a : mute (build_other_message (W := W) t ms i src a).
Proof. unfold build_other_message. auto 15 with talks. Qed.
#[local] Hint Resolve mute_build_gmp mute_build_other : talks.
Lemma mute_build p : mute (build_xrpl_message (W := W) p).
Proof. unfold build_xrpl_message. auto 30 with talks. Qed.
#[local] Hint Resolve mute_build : talks.

(** *** Transactions *)

Lemma tame_call_event wp : tame (call_event_from_message (W := W) config wp).
Proof. unfold call_event_from_message. auto 20 with talks. Qed.
#[local] Hint Resolve tame_call_event : talks.
Lemma tame_gmp wp : tame (handle_gmp_message show_f64 config (W := W) wp).
Proof. unfold handle_gmp_message. auto 15 with talks. Qed.
Lemma tame_add_gas wp : tame (handle_add_gas_message show_f64 config (W := W) wp).
Proof. unfold handle_add_gas_message. auto 12 with talks. Qed.
Lemma tame_prover_tx tx : tame (handle_prover_tx (W := W) config tx).
Proof. unfold handle_prover_tx. auto 20 with talks. Qed.
#[local] Hint Resolve tame_gmp tame_add_gas tame_prover_tx : talks.
Lemma tame_payment p : tame (handle_payment show_f64 config (W := W) p).
Proof. unfold handle_payment, handle_add_reserves_message. auto 15 with talks. Qed.
#[local] Hint Resolve tame_payment : talks.
Lemma tame_kind tx : tame (handle_kind show_f64 config (W := W) tx).
Proof. unfold handle_kind. auto 15 with talks. Qed.

(** The row is inserted right after it was not found. *)
Lemma track_asks tx row : row_ok (row_tx_hash row) row ->
  causal (track (W := W) tx row) /\
  obeys (allowed (Some (row_tx_hash row))) (fun l => l = []) (track (W := W) tx row) (fun _ _ => True).
Proof.
  intros Hrow. unfold track. destruct (tracked tx); [|by split; [apply causal_ret|apply obeys_ret]]. split.
  - apply causal_bind_ok; [apply causal_map_err, causal_told|]. intros [r|]; [apply causal_ret|apply causal_map_err, causal_told].
  - eapply (obeys_bind_ok _ _ (fun found l => l = [(FindTx (row_tx_hash row), FoundTx found)])); [|intros [r|]|done].
    + apply obeys_map_err, obeys_told; [done| |done]. intros l a found -> Hf Hr b [= <-].
      destruct a; cbn in Hr; try done. by injection Hr as ->.
    + by apply obeys_ret.
    + apply (obeys_weaken _ (fun l => l = [(FindTx (row_tx_hash row), FoundTx None)]) _ (fun r _ => forall u : unit, r = Ok u -> True));
        [|done..]. apply obeys_map_err, obeys_told; [|done..]. by intros l ->.
Qed.

(** *** Quorums *)

Lemma mute_confirmation m : mute (confirmation_request (W := W) config m).
Proof. unfold confirmation_request, route_incoming_message_request, xrpl_tx_from_hash. destruct m; auto 12 with talks. Qed.
Lemma mute_routing m tx task : mute (handle_successful_routing (W := W) m tx task).
Proof. unfold handle_successful_routing. destruct m; auto 30 with talks. Qed.
Lemma mute_broadcast c req : mute (map_err (fun e => IngGenericError ("Failed to broadcast message: " +:+ show_GmpApiError e))
  (post_broadcast (W := W) c req)).
Proof. auto with talks. Qed.

(** A statement in its place: what was true before stays, and it is on record
    when it was executed. *)
Lemma obeys_statement mine (P : Log -> Prop) s (f : string -> IngestorError) :
  (forall l, P l -> allowed mine l s) -> (forall l a, P l -> P (l ++ [(s, a)])) ->
  obeys (allowed mine) P (map_err f (told fails read_done s : M W _)) (fun r l => forall u, r = Ok u -> P l /\ (s, Executed) ∈ l).
Proof.
  intros Hs HP. apply obeys_map_err, obeys_told; [done| |done]. intros l a b Hl Hf Hr u _.
  destruct a; cbn in Hr; try done. split; [by apply HP|]. apply elem_of_app. right. by left.
Qed.

Lemma quorum_kept h l s a : recorded_quorum h l -> recorded_quorum h (l ++ [(s, a)]).
Proof. intros [text H]. exists text. apply elem_of_app. by left. Qed.

Lemma confirmation_asks mine h c req : causal (broadcast_confirmation (W := W) h c req) /\
  obeys (allowed mine) (recorded_quorum h) (broadcast_confirmation (W := W) h c req) (fun _ _ => True).
Proof.
  unfold broadcast_confirmation. split.
  - apply causal_bind; [apply mute_broadcast|]. intros [hash|e]; [|destruct (contains _ _); apply causal_ret].
    apply causal_bind_ok; [apply causal_map_err, causal_told|]. intros _. apply causal_map_err, causal_told.
  - eapply obeys_bind; [apply mute_broadcast|]. intros [hash|e]; [|by destruct (contains _ _); apply obeys_ret].
    eapply (obeys_bind_ok _ _ (fun _ l => recorded_quorum h l /\ (SetRoute h (to_lowercase hash), Executed) ∈ l)); [| |done].
    { apply (obeys_statement _ (recorded_quorum h)); [done|intros; by apply quorum_kept]. }
    intros _. eapply obeys_weaken; [apply (obeys_statement _ (fun l => recorded_quorum h l /\ recorded_route h l))|..]; [done| | |done].
    + intros l a [Hq [tx Hr]]. split; [by apply quorum_kept|]. exists tx. apply elem_of_app. by left.
    + intros l [Hq Hr]. split; [done|]. by eexists.
Qed.

Lemma confirm_asks mine message task h : let m :=
    (let? r := confirmation_request (W := W) config message in
     let '(contract_address, request, prover_tx) := r in
     let? _b := broadcast_confirmation h contract_address request in
     handle_successful_routing message prover_tx task) in
  causal m /\ obeys (allowed mine) (recorded_quorum h) m (fun _ _ => True).
Proof.
  cbn zeta. split.
  - apply causal_bind_ok; [apply mute_confirmation|]. intros [[c r] tx].
    apply causal_bind_ok; [by apply (confirmation_asks None)|]. intros _. apply mute_routing.
  - eapply (obeys_bind_ok _ _ (fun _ => recorded_quorum h)); [|intros [[c r] tx]|done].
    + eapply obeys_weaken; [apply (proj2 (mute_confirmation message) _ (recorded_quorum h))|done|done].
    + eapply (obeys_bind_ok _ _ (fun _ _ => True)); [|intros _|done].
      * eapply obeys_weaken; [apply confirmation_asks|done|done].
      * eapply obeys_weaken; [apply (proj2 (mute_routing message tx task) _ (fun _ => True))|done|done].
Qed.

(** What a delivery may write, by what it is about. *)
Definition follows {B} (mine : option string) (m : M W B) : Prop :=
  causal m /\ obeys (allowed mine) (fun l => l = []) m (fun _ _ => True).

Lemma tame_follows {B} mine (m : M W B) : tame m -> follows mine m.
Proof. intros [Cm Hm]. split; [done|]. eapply obeys_weaken; [apply Hm|done..]. Qed.

Lemma follows_bind {B B'} mine (m : M W B) (k : B -> M W B') :
  follows mine m -> (forall b, tame (k b)) -> follows mine (bind m k).
Proof.
  intros [Cm Hm] Hk. split; [apply causal_bind; [done|]; apply Hk|]. eapply obeys_bind; [exact Hm|]. intros b. apply Hk.
Qed.

Lemma follows_bind_ok {B B' E} mine (m : M W (result B E)) (k : B -> M W (result B' E)) :
  follows mine m -> (forall b, tame (k b)) -> follows mine (bind_ok m k).
Proof. intros Hm Hk. apply follows_bind; [done|]. intros [b|e]; [done|apply mute_tame, mute_ret]. Qed.

(** Past a computation that does not depend on the world. *)
Lemma follows_pure {B B' E} mine (r : result B E) (k : B -> M W (result B' E)) :
  (forall b, r = Ok b -> follows mine (k b)) -> follows mine (bind_ok (ret r) k).
Proof.
  intros Hk. destruct r as [b|e].
  - destruct (Hk b eq_refl) as [Cm Hm]. by split.
  - by split; [apply causal_ret|apply obeys_ret].
Qed.

Lemma follows_wasm task mine :
  (forall content message, event_attribute (wasm_event (wasm_task task)) "content" = Some content ->
     quorum_content_message content = Ok message -> mine = Some (tx_hash_as_hex_no_prefix (message_tx_id message))) ->
  follows mine (xrpl_handle_wasm_event (W := W) config task).
Proof.
  intros Hmine. unfold xrpl_handle_wasm_event. destruct (bool_decide _); [|by apply tame_follows, mute_tame, mute_ret].
  apply follows_pure. intros content Hc. apply follows_pure. intros st _. apply follows_pure. intros status _.
  apply follows_pure. intros message Hm. apply follows_pure. intros text _.
  destruct (event_attribute _ "content") as [c|] eqn:Ec; cbn in Hc; [|done]. injection Hc as ->.
  rewrite (Hmine content message) by done. set (h := tx_hash_as_hex_no_prefix (message_tx_id message)). split.
  - apply causal_bind_ok; [apply causal_map_err, causal_told|]. intros _.
    destruct status; try apply causal_ret;
      (apply causal_bind_ok; [apply causal_map_err, causal_told|]; intros _; by apply (confirm_asks None)).
  - eapply (obeys_bind_ok _ _ (fun _ => recorded_quorum h)); [|intros _|done].
    { eapply obeys_weaken; [apply (obeys_statement _ (fun _ => True))|..]; [by intros l _|done|done|].
      cbn. intros r l H u Hu. exists text. by apply (H u). }
    assert (Hd : obeys (allowed (Some h)) (recorded_quorum h)
      (let? _s := map_err IngGenericError (update_status (W := W) h Verified) in
       let? r := confirmation_request (W := W) config message in
       let '(contract_address, request, prover_tx) := r in
       let? _b := broadcast_confirmation h contract_address request in
       handle_successful_routing message prover_tx task) (fun _ _ => True)).
    { eapply (obeys_bind_ok _ _ (fun _ => recorded_quorum h)); [|intros _; apply confirm_asks|done].
      eapply obeys_weaken; [apply (obeys_statement _ (recorded_quorum h))|..]; [done|intros; by apply quorum_kept|done|].
      cbn. intros r l H u Hu. by apply (H u). }
    destruct status; try exact Hd; by apply obeys_ret.
Qed.

Lemma native_hash tx multisig row : from_native_transaction tx multisig = Ok row ->
  to_lowercase <$> tx_hash_field (Xrpl.common tx) = Some (row_tx_hash row).
Proof.
  unfold from_native_transaction. destruct (tx_hash_field _) as [h|]; cbn [ok_or]; [|done].
  destruct (tx_date tx) as [d|]; cbn [ok_or]; [|done]. by intros [= <-].
Qed.

Lemma follows_transaction tx :
  follows (match tx with Subscriber.Xrpl tx => to_lowercase <$> tx_hash_field (Xrpl.common tx) | _ => None end)
    (xrpl_handle_transaction show_f64 config debug_transaction (W := W) tx).
Proof.
  destruct tx as [tx|]; [|by apply tame_follows, mute_tame, mute_ret]. cbn [xrpl_handle_transaction].
  apply follows_pure. intros row Hrow. destruct (from_native_transaction tx (xrpl_multisig config)) as [row'|] eqn:E; [|done].
  injection Hrow as ->. rewrite (native_hash _ _ _ E). apply follows_bind_ok; [|intros _; apply tame_kind].
  apply track_asks. by eapply native_row_ok.
Qed.

Lemma tame_verify_handler task : tame (xrpl_handle_verify config (W := W) task).
Proof. unfold xrpl_handle_verify. auto 12 with talks. Qed.
Lemma tame_proof task : tame (xrpl_handle_construct_proof config (W := W) task).
Proof. unfold xrpl_handle_construct_proof. auto 20 with talks. Qed.
Lemma tame_retry task : tame (xrpl_handle_retriable_task (W := W) task).
Proof. unfold xrpl_handle_retriable_task. auto 20 with talks. Qed.

Lemma handler_follows data : follows (concerned data) (handler data).
Proof.
  unfold handler, ingestor_process_delivery, concerned. apply follows_pure. intros item Hi.
  destruct (from_slice data) as [it|e]; cbn in Hi; [|done]. injection Hi as ->.
  destruct item as [task|tx|]; cbn [ingest]; [| |by apply tame_follows, mute_tame, mute_ret].
  - destruct task; cbn [consume_task]; try (by apply tame_follows, mute_tame, mute_ret); cbn.
    all: try (by apply tame_follows; auto using tame_verify_handler, tame_proof, tame_retry).
    apply follows_wasm. intros content message -> H. by rewrite H.
  - unfold consume_transaction. apply follows_bind_ok; [apply follows_transaction|]. intros events.
    destruct (extract_message_ids_and_event_types_from_events events) as [ids names].
    apply mute_tame, mute_bind; [apply mute_aside|]. intros _.
    destruct events; [apply mute_ret|]. apply mute_bind_ok; [apply mute_map_err, mute_aside|]. intros r. apply mute_ret.
Qed.

(** ** The deliveries at once *)

Abbreviation Process := (Running Answer X string).
Abbreviation Ingestors := (System Answer X Tables string).
Definition rows (g : Ingestors) : gmap string XrplRow := fst (database g).
Definition log_of (p : Process) : Log := spoken handler p.

(** A delivery about a transaction that has no row starts only when no other
    delivery about it is being handled. *)
Definition first_alone (g : Ingestors) (data : string) : Prop :=
  forall h, concerned data = Some h -> rows g !! h = None -> forall p, p ∈ running g -> concerned (about p) <> Some h.

Definition ingestors_step : Ingestors -> Ingestors -> Prop := system_step executes (fun _ _ => False) handler first_alone.

Lemma log_polite p : polite (allowed (concerned (about p))) (snd (talk handler p)).
Proof. eapply running_polite. apply handler_follows. Qed.

Lemma log_hears (p : Process) s a : waits_for handler p = Some s -> log_of (hears p a) = log_of p ++ [(s, a)].
Proof. apply hears_spoken, handler_follows. Qed.

Lemma asked_allowed (p : Process) s : waits_for handler p = Some s -> allowed (concerned (about p)) (log_of p) s.
Proof. apply log_polite. Qed.

Lemma said_allowed (p : Process) s a : (s, a) ∈ log_of p -> exists l, allowed (concerned (about p)) l s /\ (forall e, e ∈ l -> e ∈ log_of p).
Proof.
  intros (l & l' & E)%list_elem_of_split. exists l. split; [by eapply log_polite|].
  intros e He. unfold log_of, spoken in *. rewrite E. apply elem_of_app. by left.
Qed.

(** Quorums and routes are on record for one's own transaction. *)
Lemma quorum_mine (p : Process) h : recorded_quorum h (log_of p) -> concerned (about p) = Some h.
Proof. intros [text H]. by destruct (said_allowed _ _ _ H) as (l & Hl & _). Qed.

Lemma route_mine (p : Process) h : recorded_route h (log_of p) -> concerned (about p) = Some h.
Proof.
  intros [tx H]. destruct (said_allowed _ _ _ H) as (l & [text Hq] & Hin). apply quorum_mine. exists text. by apply Hin.
Qed.

(** What a running handler knows of the table. *)
Record informed (t : gmap string XrplRow) (p : Process) : Prop := {
  knows_quorum : forall h, recorded_quorum h (log_of p) -> has_quorum h t;
  knows_route : forall h, recorded_route h (log_of p) -> has_route h t;
  knows_absent : forall h, log_of p = [(FindTx h, FoundTx None)] -> concerned (about p) = Some h -> t !! h = None;
}.

Record sound (g : Ingestors) : Prop := {
  sound_rows : table_ok (rows g);
  sound_informed : forall p, p ∈ running g -> informed (rows g) p;
  sound_alone : forall i j p q h, running g !! i = Some p -> running g !! j = Some q -> i <> j ->
    concerned (about p) = Some h -> concerned (about q) = Some h -> rows g !! h <> None;
}.

(** What a statement does to the table of transactions, if it is executed. *)
Definition writes (s : Statement) (t t' : gmap string XrplRow) : Prop :=
  match s with
  | UpsertTx r => t' = <[row_tx_hash r := r]> t
  | DeleteTx r => t' = delete (row_tx_hash r) t
  | SetStatus h v => t' = alter (set_row_status v) h t
  | SetVerifyTask h v => t' = alter (set_verify_task v) h t
  | SetVerifyTx h v => t' = alter (set_verify_tx v) h t
  | SetQuorum h v => t' = alter (set_quorum_reached_task v) h t
  | SetRoute h v => t' = alter (set_route_tx v) h t
  | _ => t' = t
  end.

Lemma executes_cases s (d d' : Tables) a : executes s d a d' ->
  (exists e, a = Failed e /\ fst d' = fst d) \/
  (writes s (fst d) (fst d') /\ match s with FindTx h => a = FoundTx (fst d !! h) | FindRetries _ => True | _ => a = Executed end).
Proof.
  destruct d as [t r]. intros (now & fault & H). destruct fault as [e|].
  - left. exists e. destruct s; by injection H as <- <-.
  - right. destruct s; by injection H as <- <-.
Qed.

(** Statements that only write columns: every handler still knows what it
    knew. *)
Definition column_write (t t' : gmap string XrplRow) : Prop :=
  (forall h, t' !! h = None <-> t !! h = None) /\ (forall h, has_quorum h t -> has_quorum h t') /\ (forall h, has_route h t -> has_route h t').

Lemma column_refl t : column_write t t.
Proof. by split. Qed.

Lemma column_alter f h t : (forall r, same_tx r (f r)) -> column_write t (alter f h t).
Proof.
  intros Hf. split; [intros k; by rewrite lookup_alter_None|].
  split; intros k Hk r; (destruct (decide (k = h)) as [->|Hne]; [|by rewrite lookup_alter_ne; [apply Hk|]]);
    rewrite lookup_alter_eq; destruct (t !! h) as [r0|] eqn:E; try done; intros [= <-]; apply Hf; by apply Hk.
Qed.

Lemma informed_column t t' p : column_write t t' -> informed t p -> informed t' p.
Proof.
  intros (H1 & H2 & H3) [K1 K2 K3]. split; intros h; [intros ?; by apply H2, K1|intros ?; by apply H3, K2|].
  intros Hl Hm. apply H1. by apply K3.
Qed.

(** The insertion of a row none of the other handlers is about. *)
Lemma informed_insert t p h r : concerned (about p) <> Some h -> informed t p -> informed (<[h := r]> t) p.
Proof.
  intros Hne [K1 K2 K3]. split; intros k Hk.
  - intros r'. rewrite lookup_insert_ne; [by apply K1|]. intros <-. by apply quorum_mine in Hk.
  - intros r'. rewrite lookup_insert_ne; [by apply K2|]. intros <-. by apply route_mine in Hk.
  - intros Hm. rewrite lookup_insert_ne; [by apply K3|]. by intros <-.
Qed.

(** An allowed statement keeps the table well formed; it writes columns, or
    inserts a row that was not there. *)
Lemma allowed_write p s t t' : informed t p -> allowed (concerned (about p)) (log_of p) s -> table_ok t -> writes s t t' ->
  grown t t' /\
  (column_write t t' \/ exists r, s = UpsertTx r /\ t !! row_tx_hash r = None /\ t' = <[row_tx_hash r := r]> t).
Proof.
  intros [K1 K2 K3] Ha Ht Hw.
  assert (Hcol : forall h f, t' = alter f h t -> (forall r, same_tx r (f r)) -> (forall r, t !! h = Some r -> row_ok h r -> row_ok h (f r)) ->
    grown t t' /\ (column_write t t' \/ exists r, s = UpsertTx r /\ t !! row_tx_hash r = None /\ t' = <[row_tx_hash r := r]> t)).
  { intros h f -> Hs Hf. split; [by apply grown_alter|left; by apply column_alter]. }
  destruct s as [h|r|r|h v|h v|h v|h v|h v|i|e|e]; cbn in Ha, Hw.
  - subst t'. split; [by apply grown_refl|left; apply column_refl].
  - destruct Ha as (Hl & Hm & Hr). assert (Hn : t !! row_tx_hash r = None) by (by apply K3). subst t'. split.
    + split; [by apply map_Forall_insert_2|by apply evolves_insert].
    + right. by exists r.
  - done.
  - apply (Hcol h (set_row_status v)); [done|by split|]. intros r Hr [H1 H2 H3 H4]. split; try done; cbn; intros ->.
    + by apply (K1 h).
    + destruct Ha as [Hq Ho]. split; [by apply (K1 h)|by apply (K2 h)].
  - apply (Hcol h (set_verify_task v)); [done|by split|]. intros r _ []. by split.
  - apply (Hcol h (set_verify_tx v)); [done|by split|]. intros r _ []. by split.
  - apply (Hcol h (set_quorum_reached_task v)); [done|by split|]. intros r _ [H1 H2 H3 H4]. split; try done. intros Hs. by destruct (H4 Hs).
  - apply (Hcol h (set_route_tx v)); [done|by split|]. intros r Hr [H1 H2 H3 H4]. split; try done. intros Hs. by destruct (H4 Hs).
  - subst t'. split; [by apply grown_refl|left; apply column_refl].
  - subst t'. split; [by apply grown_refl|left; apply column_refl].
  - subst t'. split; [by apply grown_refl|left; apply column_refl].
Qed.

Lemma recorded_snoc (p : Process) s a e : waits_for handler p = Some s -> e ∈ log_of (hears p a) -> e ∈ log_of p \/ e = (s, a).
Proof. intros Hp. rewrite (log_hears _ _ _ Hp). intros [H|H%list_elem_of_singleton]%elem_of_app; auto. Qed.

(** The handler that was answered knows what its statement did. *)
Lemma informed_answer p s a t t' : informed t p -> waits_for handler p = Some s -> column_write t t' ->
  ((exists e, a = Failed e) \/ writes s t t' /\ (forall h, s = FindTx h -> a = FoundTx (t !! h))) ->
  informed t' (hears p a).
Proof.
  intros Hi Hp Hc Ha. pose proof (informed_column _ _ _ Hc Hi) as [K1 K2 K3]. split; intros h.
  - intros [text [H|H]%(recorded_snoc _ _ _ _ Hp)]; [apply K1; by exists text|]. injection H as <- <-.
    destruct Ha as [[e He]|[-> _]]; [done|]. intros r. rewrite lookup_alter_eq. destruct (t !! h); [|done]. intros [= <-]. discriminate.
  - intros [tx [H|H]%(recorded_snoc _ _ _ _ Hp)]; [apply K2; by exists tx|]. injection H as <- <-.
    destruct Ha as [[e He]|[-> _]]; [done|]. intros r. rewrite lookup_alter_eq. destruct (t !! h); [|done]. intros [= <-]. discriminate.
  - rewrite (log_hears _ _ _ Hp). destruct (log_of p) as [|e l]; [|intros [= -> ?]; by destruct l].
    intros [= -> ->] _. destruct Ha as [[e He]|[-> Hf]]; [done|]. by injection (Hf h eq_refl).
Qed.

Lemma sound_about (g : Ingestors) t' running' :
  sound g -> table_ok t' -> (forall p, p ∈ running' -> informed t' p) -> (forall h, t' !! h = None -> rows g !! h = None) ->
  (forall i j p q, running' !! i = Some p -> running' !! j = Some q -> i <> j ->
     exists i' j' p' q', running g !! i' = Some p' /\ running g !! j' = Some q' /\ i' <> j' /\
       about p' = about p /\ about q' = about q) ->
  forall r, sound (mkSystem (t', r) running').
Proof.
  intros Hg Ht Hi Hn Hr r. split; [done|done|]. cbn. intros i j p q h Ep Eq Hne Hp Hq Hl.
  destruct (Hr i j p q Ep Eq Hne) as (i' & j' & p' & q' & Ep' & Eq' & Hne' & Ap & Aq).
  apply (sound_alone _ Hg i' j' p' q' h Ep' Eq' Hne'); [by rewrite Ap|by rewrite Aq|by apply Hn].
Qed.

(** A statement writes columns and tells its handler what it did, or inserts
    a row that was not there. *)
Lemma statement_effect (g : Ingestors) (p : Process) s a d :
  sound g -> p ∈ running g -> waits_for handler p = Some s -> executes s (database g) a d ->
  grown (rows g) (fst d) /\
  (column_write (rows g) (fst d) /\ informed (fst d) (hears p a) \/
   exists r, s = UpsertTx r /\ rows g !! row_tx_hash r = None /\ fst d = <[row_tx_hash r := r]> (rows g)).
Proof.
  intros Hg Hin Hp Hx. pose proof (sound_informed _ Hg p Hin) as Hi.
  destruct (executes_cases _ _ _ _ Hx) as [(e & -> & E)|[Hw Ha]].
  - unfold rows. rewrite E. split; [apply grown_refl, Hg|]. left. split; [apply column_refl|].
    eapply informed_answer; [done|done|apply column_refl|]. left. by exists e.
  - destruct (allowed_write p s _ _ Hi (asked_allowed _ _ Hp) (sound_rows _ Hg) Hw) as [Hgr [Hc|Hins]]; split; auto.
    left. split; [done|]. eapply informed_answer; [done..|]. right. split; [done|]. intros h ->. exact Ha.
Qed.

(** The other handlers: none of them is about a transaction this one is about
    and that has no row. *)
Lemma others_elsewhere (g : Ingestors) before p after q :
  sound g -> running g = before ++ p :: after -> q ∈ before ++ after ->
  q ∈ running g /\ forall h, concerned (about p) = Some h -> rows g !! h = None -> concerned (about q) <> Some h.
Proof.
  intros Hg Hr (i & Ei)%list_elem_of_lookup. destruct (lookup_without _ _ p _ _ Ei) as (j & Ej & Hj). rewrite <- Hr in Ej.
  split; [by eapply list_elem_of_lookup_2|]. intros h H1 H2 H3.
  eapply (sound_alone _ Hg (length before) j p q h); [by rewrite Hr, list_lookup_middle|done| |done..].
  destruct (decide _); lia.
Qed.

(** A statement keeps the system sound, and the table only grows. *)
Lemma statement_sound (g : Ingestors) before p after s a d :
  sound g -> running g = before ++ p :: after -> waits_for handler p = Some s -> executes s (database g) a d ->
  sound (mkSystem d (before ++ hears p a :: after)) /\ grown (rows g) (fst d).
Proof.
  intros Hg Hr Hp Hx.
  assert (Hin : p ∈ running g) by (rewrite Hr; apply elem_of_app; right; by left).
  pose proof (others_elsewhere g before p after) as Hother.
  destruct (statement_effect g p s a d Hg Hin Hp Hx) as [Hgr Heff]. split; [|done]. destruct d as [t' r']. cbn [fst] in *.
  assert (Hall : forall q, q ∈ before ++ hears p a :: after -> q = hears p a \/ q ∈ before ++ after).
  { intros q [H|[->|H]%elem_of_cons]%elem_of_app; [right|by left|right]; apply elem_of_app; auto. }
  apply (sound_about g); [done|apply Hgr| | |].
  - intros q [->|Hq]%Hall.
    + destruct Heff as [[_ Hi]|(r & -> & _)]; [done|]. destruct (asked_allowed _ _ Hp) as (Hl & _ & _).
      pose proof (log_hears _ _ a Hp) as Hlog. rewrite Hl in Hlog.
      split; intros h; rewrite Hlog; [| |done]; intros [x [H|[H|H%not_elem_of_nil]%elem_of_cons]%elem_of_cons]; congruence || done.
    + destruct (Hother q Hg Hr Hq) as [Hqin Hne]. pose proof (sound_informed _ Hg q Hqin) as Hi.
      destruct Heff as [[Hc _]|(r & -> & Hn & ->)]; [by eapply informed_column|].
      destruct (asked_allowed _ _ Hp) as (_ & Hm & _). apply informed_insert; [by apply Hne|done].
  - destruct Heff as [[Hc _]|(r & -> & Hn & ->)]; [apply Hc|]. by intros h [H1 _]%lookup_insert_None.
  - intros i j q1 q2 E1 E2 Hne. rewrite Hr. destruct (lookup_hears _ _ _ _ _ _ E1) as (p' & ? & ?).
    destruct (lookup_hears _ _ _ _ _ _ E2) as (q' & ? & ?). by exists i, j, p', q'.
Qed.

Lemma step_sound (g g' : Ingestors) : sound g -> ingestors_step g g' -> sound g' /\ grown (rows g) (rows g').
Proof.
  intros Hg [data x Hm|before p after s a d Hr Hp Hx|before p after Hr|d []].
  - split; [|apply grown_refl, Hg]. split; [apply Hg| |].
    + cbn. intros p [H|H%list_elem_of_singleton]%elem_of_app; [by apply Hg|]. subst p.
      assert (log_of (mkRunning data x []) = []) as E by (apply new_spoken, handler_follows).
      split; intros h; rewrite E; [by intros [? ?%not_elem_of_nil]..|done].
    + cbn. intros i j p q h Hi Hj Hne Hp Hq Hn.
      apply lookup_app_Some in Hi as [Hi|[Hi1 Hi2]]; apply lookup_app_Some in Hj as [Hj|[Hj1 Hj2]].
      * by eapply (sound_alone _ Hg i j p q h).
      * apply list_lookup_singleton_Some in Hj2 as [_ <-]. by apply (Hm h Hq Hn p (list_elem_of_lookup_2 _ _ _ Hi)).
      * apply list_lookup_singleton_Some in Hi2 as [_ <-]. by apply (Hm h Hp Hn q (list_elem_of_lookup_2 _ _ _ Hj)).
      * apply list_lookup_singleton_Some in Hi2 as [? _]. apply list_lookup_singleton_Some in Hj2 as [? _]. lia.
  - by eapply statement_sound.
  - split; [|apply grown_refl, Hg]. destruct (database g) as [t r] eqn:Ed. apply (sound_about g); [done| | | |].
    + pose proof (sound_rows _ Hg) as H. unfold rows in H. by rewrite Ed in H.
    + intros q Hq. assert (q ∈ running g) as Hin by (rewrite Hr; apply elem_of_app in Hq as [?|?]; apply elem_of_app; [by left|right; by right]).
      pose proof (sound_informed _ Hg q Hin) as H. unfold rows in H. by rewrite Ed in H.
    + intros h. unfold rows. by rewrite Ed.
    + intros i j q1 q2 E1 E2 Hne. rewrite Hr. destruct (lookup_without _ _ p _ _ E1) as (i' & ? & Hi').
      destruct (lookup_without _ _ p _ _ E2) as (j' & ? & Hj'). exists i', j', q1, q2.
      repeat (split; [done|]). split; [|done]. subst i' j'. repeat destruct decide; lia.
Qed.

(** C11: the type of the transactions table, with any number of deliveries
    handled at once.  Whatever bodies are delivered, however the statements of
    their handlers interleave, whatever the network answers each of them,
    whichever statements the database refuses, and wherever a handler ends or
    its process dies: a well-formed table stays well formed.  A row is kept
    under its own hash and names its own message, a row that is [Verified] has
    the task of its quorum, and a row that is [Routed] has both that task and
    the hash of its broadcast.  No row is ever removed; what it says of the
    transaction itself never changes; and a quorum or a route, once recorded,
    stays recorded.  The first delivery about a transaction has to be handled
    before another about it starts. *)
Theorem concurrent_table (t : gmap string XrplRow) (r : gmap string Z) (g : Ingestors) :
  map_Forall row_ok t -> rtc ingestors_step (mkSystem (t, r) []) g ->
  map_Forall row_ok (rows g) /\
  (forall key row, t !! key = Some row -> exists row', rows g !! key = Some row' /\ same_tx row row').
Proof.
  intros Ht Hrun. assert (Hg0 : sound (mkSystem (t, r) [])).
  { split; [done|by intros p ?%not_elem_of_nil|by intros [|i]]. }
  change t with (rows (mkSystem (t, r) [])) in Ht |- *.
  revert Hg0 Ht. induction Hrun as [g0|g0 g1 g2 Hs Hrun IH]; intros Hg Ht; [by apply grown_refl|].
  destruct (step_sound g0 g1 Hg Hs) as [H1 H2]. eapply grown_trans; [exact H2|]. apply IH; [done|apply H2].
Qed.

(** ** Retries at once *)

Section retries.
Context (data : string) (task : RetryTask) (i : string) (payload : Value) (x x' : X) (hash : string).
Hypothesis Hdata : match task with
  | RetryPoll t => from_slice data = Ok (QTask (TReactToRetriablePoll t))
  | RetrySession t => from_slice data = Ok (QTask (TReactToExpiredSigningSession t))
  end.
Hypothesis Hid : message_id_from_retry_task task = Ok (Some i).
Hypothesis Hpayload : parse_json (request_payload task) = Ok payload.
Hypothesis Hsent : post_broadcast (invoked_contract_address task) (BroadcastGeneric payload) x = (Done (Ok hash), x').

Lemma retry_handler t : handler data t = xrpl_handle_retriable_task task t.
Proof.
  unfold handler, ingestor_process_delivery. by destruct task; rewrite Hdata.
Qed.

Lemma retry_finds : waits_for handler (mkRunning data x []) = Some (FindRetries i).
Proof.
  unfold waits_for, talk. rewrite retry_handler. unfold xrpl_handle_retriable_task. rewrite Hid. reflexivity.
Qed.

Lemma retry_upserts o : default 0 (retries <$> o) < MAX_TASK_RETRIES ->
  waits_for handler (mkRunning data x [FoundRetries o]) =
  Some (UpsertRetries (let e := default (mkRetries i 0) o in mkRetries (retries_message_id e) (retries e + 1))).
Proof.
  intros Ho. unfold waits_for, talk. rewrite retry_handler. unfold xrpl_handle_retriable_task. rewrite Hid, Hpayload. cbn.
  rewrite (proj2 (Z.leb_gt _ _)) by (by destruct o). cbn. rewrite bind_ok_run, map_err_run, on_aside_run. cbn [aside].
  by rewrite Hsent.
Qed.

Lemma retry_done o : default 0 (retries <$> o) < MAX_TASK_RETRIES ->
  fst (talk handler (mkRunning data x [FoundRetries o; Executed])) = Done (Ok tt) /\
  aside (snd (talk handler (mkRunning data x [FoundRetries o; Executed]))) = x'.
Proof.
  intros Ho. unfold talk. rewrite retry_handler. unfold xrpl_handle_retriable_task. rewrite Hid, Hpayload. cbn.
  rewrite (proj2 (Z.leb_gt _ _)) by (by destruct o). cbn. rewrite bind_ok_run, map_err_run, on_aside_run. cbn [aside].
  by rewrite Hsent.
Qed.

Lemma retry_concerns : concerned data = None.
Proof. unfold concerned. by destruct task; rewrite Hdata. Qed.

(** C36: the limit on retries does not hold between handlers.  A handler
    reads the number of retries, broadcasts, and writes the number plus one:
    when any number of them handle retry tasks of one message at once and read
    before the first writes, all of their broadcasts are accepted, all of them
    report success, and the number has grown by one. *)
Theorem retries_race (n : nat) (t : gmap string XrplRow) (r : gmap string Z) :
  default 0 (r !! i) < MAX_TASK_RETRIES ->
  exists g, rtc ingestors_step (mkSystem (t, r) []) g /\ length (running g) = n /\
    (forall p, p ∈ running g -> about p = data /\ fst (talk handler p) = Done (Ok tt) /\
       began p = x /\ aside (snd (talk handler p)) = x') /\
    ((0 < n)%nat -> snd (database g) !! i = Some (default 0 (r !! i) + 1)).
Proof.
  intros Hr. set (o := mkRetries i <$> r !! i).
  assert (Ho : default 0 (retries <$> o) = default 0 (r !! i)) by (unfold o; by destruct (r !! i)).
  set (p0 := mkRunning data x [] : Process). set (r' := <[i := default 0 (r !! i) + 1]> r).
  set (e := let e := default (mkRetries i 0) o in mkRetries (retries_message_id e) (retries e + 1)).
  assert (He : e = mkRetries i (default 0 (r !! i) + 1)) by (unfold e, o; by destruct (r !! i)).
  assert (Hup : waits_for handler (hears p0 (FoundRetries o)) = Some (UpsertRetries e)) by (apply retry_upserts; by rewrite Ho).
  set (p2 := hears (hears p0 (FoundRetries o)) Executed).
  assert (Hdone : fst (talk handler p2) = Done (Ok tt) /\ aside (snd (talk handler p2)) = x') by (apply retry_done; by rewrite Ho).
  assert (Hread : rtc ingestors_step (mkSystem (t, r) []) (mkSystem (t, r) (replicate n (hears p0 (FoundRetries o))))).
  { etrans.
    - apply (all_start executes (fun _ _ => False) handler first_alone (mkSystem (t, r) []) data x n). intros g' _ h. by rewrite retry_concerns.
    - apply (all_answered executes (fun _ _ => False) handler first_alone p0 (FindRetries i) (FoundRetries o) (t, r) n 0); [apply retry_finds|].
      by exists 0, None. }
  destruct n as [|n].
  { exists (mkSystem (t, r) []). split; [apply rtc_refl|]. split; [done|]. split; [by intros p ?%not_elem_of_nil|lia]. }
  exists (mkSystem (t, r') (replicate (S n) p2)). split; [|split; [apply length_replicate|split]].
  - etrans; [exact Hread|]. eapply rtc_l.
    + apply (step_statement executes (fun _ _ => False) handler first_alone _ [] (hears p0 (FoundRetries o)) (replicate n (hears p0 (FoundRetries o)))
        (UpsertRetries e) Executed (t, r')); [done|done|]. exists 0, None. by rewrite He.
    + apply (all_answered executes (fun _ _ => False) handler first_alone _ (UpsertRetries e) Executed (t, r') n 1); [done|].
      exists 0, None. rewrite He. cbn. unfold r'. by rewrite insert_insert_eq.
  - intros p Hp. apply elem_of_replicate in Hp as [-> _]. by repeat split; try apply Hdone.
  - intros _. cbn. unfold r'. by rewrite lookup_insert_eq.
Qed.
End retries.
End world.

(** ** Concrete runs *)

Module ConcurrentDemo.
Export IngestedDemo.
(** A quorum on the transaction of the payment. *)
Definition payment_quorum : ReactToWasmEventTask :=
  mkWasmTask (mkCommonTask "t" "xrpl" "now" "REACT_TO_WASM_EVENT" None)
    (mkWasmFields (mkWasmEvent [mkAttribute "content" hash32; mkAttribute "status" "ok"] "wasm-quorum_reached") 3).
#[export] Instance items : ItemCodec ChainTransaction := {|
  to_vec := fun _ => Ok "";
  from_slice := fun s => if decide (s = "pay") then Ok (QTransaction (Subscriber.Xrpl (payment_with [])))
    else if decide (s = "quorum") then Ok (QTask (TReactToWasmEvent payment_quorum))
    else if decide (s = "retry") then
      match poll_task with RetryPoll t => Ok (QTask (TReactToRetriablePoll t)) | RetrySession _ => Err s end
    else Err s;
|}.
#[export] Instance no_logging : LoggingCtxCache unit := {| get_or_insert := fun _ _ => ret None |}.
Abbreviation demo_handler := (handler (X := unit) no_f64 demo_config no_text ∅ elements).
Abbreviation demo_alone := (first_alone (X := unit)).

(** The servers refuse nothing. *)
Definition demo_advance := advance_one demo_handler (fun s => perform s 0 None).

Lemma advances_step may_start g turns :
  rtc (system_step executes (fun _ _ => False) demo_handler may_start) g (foldl demo_advance g turns).
Proof.
  revert g. induction turns as [|i turns IH]; intros g; [apply rtc_refl|]. cbn [foldl]. etrans; [|apply IH].
  destruct (advance_one_step executes (fun _ _ => False) demo_handler may_start (fun s => perform s 0 None) g i) as [E|Hs].
  - intros s d. exists 0, None. by destruct (perform s 0 None d).
  - unfold demo_advance. rewrite E. apply rtc_refl.
  - by apply rtc_once.
Qed.

(** The payment alone until its row is there; then its second delivery, and
    the quorum twice, in turns. *)
Definition first_row : System Answer unit Tables string := foldl demo_advance (mkSystem (∅, ∅) [mkRunning "pay" tt []]) [0; 0]%nat.
Definition three_more : System Answer unit Tables string :=
  mkSystem (database first_row) (running first_row ++ [mkRunning "pay" tt []; mkRunning "quorum" tt []; mkRunning "quorum" tt []]).
Definition all_done : System Answer unit Tables string := foldl demo_advance three_more [2; 1; 3; 2; 0; 3; 1; 2; 3; 3; 2; 3; 2]%nat.
End ConcurrentDemo.
Import ConcurrentDemo.

Lemma demo_run : rtc (system_step executes (fun _ _ => False) demo_handler demo_alone) (mkSystem (∅, ∅) []) all_done.
Proof.
  etrans; [apply rtc_once, (step_start _ _ _ _ _ "pay" tt); by intros h _ _ p ?%not_elem_of_nil|].
  etrans; [apply (advances_step demo_alone _ [0; 0]%nat)|]. fold first_row.
  assert (Hrow : forall h, h = hash32 -> rows first_row !! h <> None) by (intros h ->; vm_compute; discriminate).
  assert (Hs : forall g b, database g = database first_row -> b = "pay" \/ b = "quorum" -> demo_alone g b).
  { intros g b Hg Hb h Hc Hn. exfalso. apply (Hrow h); [|unfold rows in *; by rewrite Hg in Hn].
    destruct Hb as [-> | ->]; vm_compute in Hc; by injection Hc. }
  eapply rtc_l; [apply (step_start _ _ _ _ _ "pay" tt), Hs; auto|]. eapply rtc_l; [apply (step_start _ _ _ _ _ "quorum" tt), Hs; auto|].
  eapply rtc_l; [apply (step_start _ _ _ _ _ "quorum" tt), Hs; auto|]. cbn [running database]. rewrite <- !app_assoc. apply advances_step.
Qed.

Lemma concurrent_table_witness :
  map_Forall row_ok (rows all_done) /\ row_status <$> rows all_done !! hash32 = Some Routed /\ length (running all_done) = 4%nat.
Proof.
  split; [|split; vm_compute; reflexivity].
  apply (concurrent_table no_f64 demo_config no_text ∅ elements ∅ ∅ all_done); [apply map_Forall_empty|exact demo_run].
Defined.

Lemma retries_race_witness : exists g,
  rtc (system_step executes (fun _ _ => False) demo_handler demo_alone) (mkSystem (∅, {["x1" := 4]}) []) g /\ length (running g) = 9%nat /\
  (forall p, p ∈ running g -> fst (talk demo_handler p) = Done (Ok tt)) /\ snd (database g) !! "x1" = Some 5.
Proof.
  unshelve epose proof (retries_race (IC := items) no_f64 demo_config no_text ∅ elements "retry" poll_task "x1" (VString (request_payload poll_task)) tt tt "HASH"
    _ _ _ _ 9 ∅ {["x1" := 4]} _) as (g & H1 & H2 & H3 & H4); [vm_compute; reflexivity ..|].
  exists g. split; [exact H1|]. split; [exact H2|]. split; [intros p Hp; by apply H3|]. apply H4. lia.
Defined.

(** Without that condition: a quorum on a transaction that has no row yet
    records nothing, the row appears, and the handler marks it [Verified]. *)
Definition crossed : System Answer unit Tables string :=
  foldl demo_advance (mkSystem (∅, ∅) [mkRunning "quorum" tt []; mkRunning "pay" tt []]) [0; 1; 1; 0]%nat.

Lemma first_must_be_alone : rtc (system_step executes (fun _ _ => False) demo_handler (fun _ _ => True)) (mkSystem (∅, ∅) []) crossed /\
  (r ← rows crossed !! hash32; Some (row_status r, row_quorum_reached_task r)) = Some (Verified, None).
Proof.
  split; [|vm_compute; reflexivity]. eapply rtc_l; [by apply (step_start _ _ _ _ _ "quorum" tt)|].
  eapply rtc_l; [by apply (step_start _ _ _ _ _ "pay" tt)|]. apply advances_step.
Qed.
