(* ===== verification/Processes.v ===== *)
(** * The processes

    The binaries of [ton/src/bin], [xrpl/src/bin], [recovery_tools] and
    [relayer_base/src/bin]: what each sets up, which queues it opens, what it
    runs and what it closes; with the files read at start-up
    ([config_from_yaml], the identity of the GMP API's client). *)

From S2P Require Import Prelude.
From S2P Require Import Store.
From S2P Require Import GmpTypes.
From S2P Require Import Text.
From S2P Require Import Utf8.
From S2P Require Import GmpApi.
From S2P Require Import GmpAudit.
From S2P Require Import Database.
From S2P Require Import Logging.
From S2P Require Import TonLib.
From S2P Require Import WalletManager.
From S2P Require Import Distributor.
From S2P Require Import GasCalculator.
From S2P Require Import Subscriber.
From S2P Require Import Config.
From S2P Require Import PriceFeed.
From S2P Require Import Xrpl.
From S2P Require Import XrplMessages.

(** src/ton/src/config.rs:27-37 TONConfig *)
Record TONConfig : Type := mkTonConfig {
  ton_common : Config;
  ton_wallets : list WalletConfig;
  ton_gateway : string;
  ton_gas_service : string;
  ton_rpc : string;
  ton_api_key : string;
  ton_gas_estimates : GasEstimates;
}.

(** ** What a process runs *)

(** How a process stops running: by a signal, or because what ran has
    returned. *)
Inductive Stop : Type := BySignal | ByItself (r : result unit string).

Inductive Chain : Type := TON | XRPL.

Inductive App `{!TonLib, !XrplLib, !XrplApi} : Type :=
| RunDistributor (d : Distributor) (includer ingestor : string)
| RunRecovery (d : Distributor) (includer ingestor : string)
| RunIncluder (chain : Chain) (tasks construct_proof : string)
| RunIngestor (chain : Chain) (tasks events : string)
| RunTonSubscribers (accounts : list (TONSubscriber * TonAddress)) (retry_for : TonAddress) (events : string)
| RunXrplSubscriber (s : XrplSubscriber) (account : AccountId) (events : string)
| RunTxRecovery (s : XrplSubscriber) (txs : list string) (events : string)
| RunProofRetrier (construct_proof tasks : string)
| RunPriceFeeder (f : PriceFeeder)
| RunAccountChecker (addresses : list TonAddress) (min_balance : Z)
| RunQueuedTxMonitor
| RunTicketCreator
| RunTicketMonitor (account : AccountId)
| RunFunder
| RunHeartbeats (keys : gmap string string).

(** Where a process writes what it logs: the console and Jaeger from a level
    on, Sentry by the filter of events. *)
Inductive Level : Type := ERROR | WARN | INFO | DEBUG | TRACE.
Inductive EventFilter : Type := FilterEvent | FilterBreadcrumb.
Inductive Layer : Type :=
| ConsoleLayer (up_to : Level)
| SentryLayer (event_filter : Level -> EventFilter) (span_filter : bool)
| OtelLayer (up_to : Level).
Record SdkTracerProvider : Type := mkProvider { service_name : string; jaeger_exporter : option string }.

(** The machine a process starts on.  [queue_new] does not fail: it tries
    until it is connected. *)
Class Host `{!TonLib, !XrplLib, !XrplApi} (W : Type) : Type := {
  env_var : string -> M W (option string);
  read_file : string -> M W (result string string);
  sentry_init : string -> string -> M W unit;
  set_text_map_propagator : M W unit;
  current_exe : M W (result string string);
  span_exporter : string -> M W (result unit string);
  registry_init : list Layer -> M W unit;
  force_flush : M W (result unit string);
  queue_new : string -> string -> Z -> M W unit;
  queue_close : string -> M W unit;
  redis_open : string -> M W (result unit string);
  connection_manager : M W (result unit string);
  pg_connect : string -> M W (result unit string);
  http_client : M W (result unit string);
  signals : M W (result unit string);
  setup_heartbeat : string -> bool -> M W unit;
  serve : App -> M W Stop;
  cancel : M W unit;
  await_handle : M W unit;
}.

(** Paths, and the directory the crate was built in. *)
Class Paths : Type := { CARGO_MANIFEST_DIR : string }.

Fixpoint ends_with_slash (s : string) : bool :=
  match s with
  | EmptyString => false
  | String c EmptyString => bool_decide (c = "/"%char)
  | String _ s => ends_with_slash s
  end.

(** [PathBuf::join]: an absolute path replaces what comes before it. *)
Definition path_join (base path : string) : string :=
  match strip_prefix "/" path with
  | Some _ => path
  | None => if bool_decide (base = "") || ends_with_slash base then base +:+ path else base +:+ "/" +:+ path
  end.

Section setup.
Context {L : TonLib} {XL : XrplLib} {XA : XrplApi} {W : Type} {H : Host W} {PA : Paths}.

(** The directory that files are looked up from. *)
Definition project_root : M W string :=
  let! base_path := env_var "BASE_PATH" in
  ret (default CARGO_MANIFEST_DIR base_path).

(** src/relayer_base/src/config.rs:107-130 config_from_yaml *)
Definition config_from_yaml {T} (from_str : string -> result T string) (path : string) : M W (result T string) :=
  let! project_root := project_root in
  let config_path := path_join (path_join project_root "./config/") path in
  let? content := map_err (fun e => "Failed to read config file: " +:+ config_path +:+ ": " +:+ e) (read_file config_path) in
  ret (rmap_err (fun e => "Failed to parse YAML config from " +:+ config_path +:+ ": " +:+ e) (from_str content)).

(** [Identity::from_pkcs8_pem]. *)
Variable Identity : Type.
Variable from_pkcs8_pem : string -> string -> result Identity string.

(** src/relayer_base/src/gmp_api/mod.rs:40-72 identity_from_config *)
Definition identity_from_config (config : Config) : M W (result Identity GmpApiError) :=
  let! project_root := project_root in
  let key_path := path_join project_root (client_key_path config) in
  let cert_path := path_join project_root (client_cert_path config) in
  let? key := map_err (fun e => GmpGenericError ("Failed to read client key from " +:+ key_path +:+ ": " +:+ e))
    (read_file key_path) in
  let? cert := map_err (fun e => GmpGenericError ("Failed to read client certificate from " +:+ cert_path +:+ ": " +:+ e))
    (read_file cert_path) in
  ret (rmap_err (fun e => GmpGenericError ("Failed to create identity from certificate and key: " +:+ e))
    (from_pkcs8_pem cert key)).

(** src/relayer_base/src/gmp_api/mod.rs:75-101 GmpApi::new *)
Definition gmp_api_new (config : Config) : M W (result GmpApi GmpApiError) :=
  let? _identity := identity_from_config config in
  let? _client := map_err GmpConnectionFailed http_client in
  ret (Ok (mkGmpApi (gmp_api_url config) (chain_name config))).

(** src/relayer_base/src/gmp_api/gmp_api_db_audit_decorator.rs:88-104 construct_gmp_api *)
Definition construct_gmp_api (config : Config) : M W (result GmpApi string) :=
  map_err show_GmpApiError (gmp_api_new config).

(** src/relayer_base/src/database.rs:36-39 PostgresDB::new *)
Definition postgres_new (url : string) : M W (result unit string) := pg_connect url.

(** src/xrpl/src/client.rs:52-66 XRPLClient::new *)
Definition xrpl_client_new : M W (result unit string) := http_client.

(** src/ton/src/client.rs:73-100 TONRpcClient::new *)
Definition rpc_client_new : M W (result unit string) := http_client.

(** [Path::file_name], then [OsStr::to_str]. *)
Definition file_name (path : string) : option string :=
  match head (rev (List.filter (fun c => negb (bool_decide (c = "") || bool_decide (c = "."))) (split "/"%char path))) with
  | Some name => if bool_decide (name = "..") then None else Some name
  | None => None
  end.
Definition to_str (name : string) : option string :=
  if bool_decide (from_utf8_lossy name = name) then Some name else None.

(** src/relayer_base/src/logging.rs:81-85 setup_logging (which events Sentry gets) *)
Definition event_filter (level : Level) : EventFilter :=
  match level with ERROR => FilterEvent | WARN => FilterEvent | _ => FilterBreadcrumb end.

(** src/relayer_base/src/logging.rs:24-106 setup_logging *)
Definition setup_logging (config : Config) : M W SdkTracerProvider :=
  let! environment := env_var "ENVIRONMENT" in
  let! _guard := sentry_init (sentry_dsn config) (default "development" environment) in
  let! _p := set_text_map_propagator in
  let! exe := current_exe in
  let! path := match exe with
    | Ok exe_path =>
        match file_name exe_path ≫= to_str with
        | Some name => ret name
        | None => panic "missing file name"
        end
    | Err _ => ret "<unknown>"
    end in
  let! tracer_provider := match jaeger_grpc_url config with
    | Some jaeger_url =>
        let! exporter := span_exporter jaeger_url in
        match exporter with
        | Ok _ => ret (mkProvider path (Some jaeger_url))
        | Err _ => panic "Failed to create Jaeger exporter"
        end
    | None => ret (mkProvider path None)
    end in
  let layers := [ConsoleLayer DEBUG; SentryLayer event_filter false] in
  let! _i := registry_init (match jaeger_grpc_url config with
    | Some _ => layers ++ [OtelLayer INFO]
    | None => layers
    end) in
  ret tracer_provider.

(** The first lines of a process: the network, its configuration, logging. *)
Definition start {T} (from_str : string -> result T string) (common : T -> Config) : M W (result T string) :=
  let! network := env_var "NETWORK" in
  match network with
  | None => panic "NETWORK must be set"
  | Some network =>
      let? config := config_from_yaml from_str ("config." +:+ network +:+ ".yaml") in
      let! _l := setup_logging (common config) in
      ret (Ok config)
  end.

Definition open_redis (config : Config) : M W (result unit string) :=
  let? _c := redis_open (redis_server config) in
  connection_manager.

(** The two handlers of signals. *)
Definition sigint_sigterm : M W (result unit string) :=
  let? _i := signals in
  signals.

(** The last lines. *)
Definition finish : M W (result unit string) :=
  let! f := force_flush in
  match f with Ok _ => ret (Ok tt) | Err _ => panic "Failed to flush OTEL messages" end.
End setup.

(** src/relayer_base/src/error.rs:109-113 SubscriberError (Display) *)
Definition show_SubscriberError (e : SubscriberError) : string :=
  match e with SubGenericError s => "Generic error: " +:+ s end.

(** src/relayer_base/src/error.rs:103-107 DistributorError (Display) *)
Definition show_DistributorError (e : DistributorError) : string :=
  match e with DistGenericError s => "Generic error: " +:+ s end.

(** ** The binaries *)

Section mains.
Context {L : TonLib} {C : Codecs} {XL : XrplLib} {XA : XrplApi} {CC : CrossChain} {DL : DecimalLib} {CG : CoinGeckoLib}
  {XM : XrplMessages} {W : Type} {H : Host W} {PA : Paths} {API : GmpApiTrait W} {DB : Database W} {G : CoinGecko W}.
Variable Identity : Type.
Variable from_pkcs8_pem : string -> string -> result Identity string.
Variable ton_from_str : string -> result TONConfig string.
Variable xrpl_from_str : string -> result XRPLConfig string.
Variable from_str : string -> result Config string.
Abbreviation Main := (M W (result unit string)).
Abbreviation gmp_api := (construct_gmp_api Identity from_pkcs8_pem).

(** Opening two queues of the process, one after the other. *)
Definition open_queues (config : Config) (first second : string) : M W unit :=
  let! _q := queue_new (queue_address config) first (config_num_workers config) in
  queue_new (queue_address config) second (config_num_workers config).

(** Closing two queues, and the end of the process. *)
Definition close_and_finish (first second : string) : Main :=
  let! _c := queue_close first in
  let! _d := queue_close second in
  finish.

(** src/relayer_base/src/ingestor.rs:137-188 run_ingestor *)
Definition run_ingestor (chain : Chain) (tasks_queue events_queue : string) : Main :=
  let? _s := sigint_sigterm in
  let! _h := setup_heartbeat "heartbeat:ingestor" true in
  let! stop := serve (RunIngestor chain tasks_queue events_queue) in
  let! _c := cancel in
  let! _t := queue_close tasks_queue in
  let! _e := queue_close events_queue in
  match stop with
  | BySignal => let! _a := await_handle in ret (Ok tt)
  | ByItself _ => panic "JoinHandle polled after completion"
  end.

(** What both includers do from their heartbeat on. *)
Definition run_includer (chain : Chain) : Main :=
  let? _s := sigint_sigterm in
  let! _h := setup_heartbeat "heartbeat:includer" true in
  let! stop := serve (RunIncluder chain "includer_tasks" "construct_proof") in
  let! _c := cancel in
  let! _t := queue_close "includer_tasks" in
  let! _p := queue_close "construct_proof" in
  let! _a := match stop with
    | BySignal => await_handle
    | ByItself _ => panic "JoinHandle polled after completion"
    end in
  finish.

(** src/ton/src/bin/ton_distributor.rs:16-79 main *)
Definition ton_distributor : Main :=
  let? c := start ton_from_str ton_common in
  let config := ton_common c in
  let! _q := open_queues config "includer_tasks" "ingestor_tasks" in
  let? _d := postgres_new (postgres_url config) in
  let? _p := pg_connect (postgres_url config) in
  let? _g := gmp_api config in
  let? _r := open_redis config in
  let! distributor := distributor_new "default" (refunds_enabled config) in
  let distributor := set_supported_includer_tasks [Refund; Execute; GatewayTx] distributor in
  let! _h := setup_heartbeat "heartbeat:distributor" false in
  let? _s := sigint_sigterm in
  let! _e := serve (RunDistributor distributor "includer_tasks" "ingestor_tasks") in
  close_and_finish "ingestor_tasks" "includer_tasks".

(** src/ton/src/includer.rs:21-80 TONIncluder::new (what can fail) *)
Definition ton_includer_new (config : TONConfig) : Main :=
  let! _w := run_outcome (manager_new (ton_wallets config) []) in
  let? _c := rpc_client_new in
  let? _g := ret (from_base64_url (ton_gateway config)) in
  let? _s := ret (from_base64_url (ton_gas_service config)) in
  ret (Ok tt).

(** src/ton/src/bin/ton_includer.rs:18-100 main *)
Definition ton_includer : Main :=
  let? c := start ton_from_str ton_common in
  let config := ton_common c in
  let! _q := open_queues config "includer_tasks" "construct_proof" in
  let? _r := open_redis config in
  let? _d := postgres_new (postgres_url config) in
  let? _p := pg_connect (postgres_url config) in
  let? _g := gmp_api config in
  let! includer := ton_includer_new c in
  match includer with
  | Err _ => panic "Failed to construct TONIncluder"
  | Ok _ => run_includer TON
  end.

(** The addresses the TON processes look after. *)
Fixpoint parse_addresses (addresses : list string) : result (list TonAddress) string :=
  match addresses with
  | [] => Ok []
  | a :: addresses => try? a := address_parse a in try? l := parse_addresses addresses in Ok (a :: l)
  end.

Definition our_addresses (config : TONConfig) : result (list TonAddress) string :=
  parse_addresses (map cfg_address (ton_wallets config) ++ [ton_gateway config; ton_gas_service config]).

(** src/ton/src/bin/ton_ingestor.rs:21-89 main *)
Definition ton_ingestor : Main :=
  let? c := start ton_from_str ton_common in
  let config := ton_common c in
  let! _q := open_queues config "ingestor_tasks" "events" in
  let? _d := postgres_new (postgres_url config) in
  let? _p := pg_connect (postgres_url config) in
  let? _g := gmp_api config in
  let? _a := ret (our_addresses c) in
  let? _r := open_redis config in
  let? _i := run_ingestor TON "ingestor_tasks" "events" in
  finish.

(** src/ton/src/bin/ton_subscriber.rs:61-77 main (the subscribers of the accounts) *)
Fixpoint ton_subscribers (accounts : list TonAddress) (chain_name : string) :
  M W (result (list (TONSubscriber * TonAddress)) string) :=
  match accounts with
  | [] => ret (Ok [])
  | acct :: accounts =>
      let? ton_sub := map_err show_SubscriberError (ton_subscriber_new (address_to_string acct) chain_name) in
      let? subs := ton_subscribers accounts chain_name in
      ret (Ok ((ton_sub, acct) :: subs))
  end.

(** src/ton/src/bin/ton_subscriber.rs:22-103 main *)
Definition ton_subscriber : Main :=
  let? c := start ton_from_str ton_common in
  let config := ton_common c in
  let! _q := queue_new (queue_address config) "events" (config_num_workers config) in
  let? _d := postgres_new (postgres_url config) in
  let? gateway_account := ret (from_base64_url (ton_gateway c)) in
  let? gas_service_account := ret (from_base64_url (ton_gas_service c)) in
  let? _s := sigint_sigterm in
  let? _r := open_redis config in
  let! _h := setup_heartbeat "heartbeat:subscriber" false in
  let? _p := pg_connect (postgres_url config) in
  let! client := rpc_client_new in
  match client with
  | Err _ => panic "Failed to create RPC client"
  | Ok _ =>
      let? subs := ton_subscribers [gateway_account; gas_service_account] (chain_name config) in
      let! _e := serve (RunTonSubscribers subs gateway_account "events") in
      let! _c := queue_close "events" in
      finish
  end.

(** src/ton/src/bin/ton_account_checker.rs:14-14 MIN_BALANCE *)
Definition MIN_BALANCE : Z := 10000000000.

(** src/ton/src/bin/ton_account_checker.rs:17-57 main *)
Definition ton_account_checker : Main :=
  let? c := start ton_from_str ton_common in
  let? _s := sigint_sigterm in
  let? _r := open_redis (ton_common c) in
  let! _h := setup_heartbeat "heartbeat:account_checker" false in
  let? addresses := ret (our_addresses c) in
  let! client := rpc_client_new in
  match client with
  | Err _ => panic "Failed to create RPC client"
  | Ok _ =>
      let! _e := serve (RunAccountChecker addresses MIN_BALANCE) in
      finish
  end.

(** [heartbeats_loop] up to its loop, which never ends.  It sets logging up
    itself. *)
Definition run_heartbeats (config : Config) : Main :=
  let! _l := setup_logging config in
  let! r := open_redis config in
  match r with
  | Err _ => panic "Failed to connect to redis server"
  | Ok _ => let! _e := serve (RunHeartbeats (heartbeats config)) in ret (Ok tt)
  end.

Definition heartbeat_monitor {T} (parse : string -> result T string) (common : T -> Config) : Main :=
  let! network := env_var "NETWORK" in
  match network with
  | None => panic "NETWORK must be set"
  | Some network =>
      let? config := config_from_yaml parse ("config." +:+ network +:+ ".yaml") in
      run_heartbeats (common config)
  end.

(** src/ton/src/bin/ton_heartbeat_monitor.rs:8-15 main *)
Definition ton_heartbeat_monitor : Main := heartbeat_monitor ton_from_str ton_common.

(** src/xrpl/src/bin/xrpl_heartbeat_monitor.rs:8-15 main *)
Definition xrpl_heartbeat_monitor : Main := heartbeat_monitor xrpl_from_str common_config.

(** src/xrpl/src/bin/xrpl_distributor.rs:16-76 main *)
Definition xrpl_distributor : Main :=
  let? c := start xrpl_from_str common_config in
  let config := common_config c in
  let! _q := open_queues config "includer_tasks" "ingestor_tasks" in
  let? _d := map_err (fun e => "Failed to create PostgresDB: " +:+ e) (postgres_new (postgres_url config)) in
  let? _p := pg_connect (postgres_url config) in
  let? _g := gmp_api config in
  let? _r := open_redis config in
  let! distributor := distributor_new "default" (refunds_enabled config) in
  let? _s := sigint_sigterm in
  let! _h := setup_heartbeat "heartbeat:distributor" false in
  let! _e := serve (RunDistributor distributor "includer_tasks" "ingestor_tasks") in
  close_and_finish "ingestor_tasks" "includer_tasks".

(** src/xrpl/src/bin/xrpl_includer.rs:21-110 main *)
Definition xrpl_includer : Main :=
  let? c := start xrpl_from_str common_config in
  let config := common_config c in
  let! _q := open_queues config "includer_tasks" "construct_proof" in
  let? _r := open_redis config in
  let? _d := postgres_new (postgres_url config) in
  let? _x := xrpl_client_new in
  let? _p := pg_connect (postgres_url config) in
  let? _g := gmp_api config in
  (* [XrplIncluder::new] only puts its parts together *)
  run_includer XRPL.

(** src/xrpl/src/bin/xrpl_ingestor.rs:22-79 main *)
Definition xrpl_ingestor : Main :=
  let? c := start xrpl_from_str common_config in
  let config := common_config c in
  let! _q := open_queues config "ingestor_tasks" "events" in
  let? _d := postgres_new (postgres_url config) in
  let? _p := pg_connect (postgres_url config) in
  let? _g := gmp_api config in
  let? _r := open_redis config in
  let? _i := run_ingestor XRPL "ingestor_tasks" "events" in
  finish.

(** src/xrpl/src/bin/xrpl_subscriber.rs:15-57 main *)
Definition xrpl_subscriber : Main :=
  let? c := start xrpl_from_str common_config in
  let config := common_config c in
  let! _q := queue_new (queue_address config) "events" (config_num_workers config) in
  let? _d := postgres_new (postgres_url config) in
  let? account := ret (account_from_address (xrpl_multisig c)) in
  let? _x := xrpl_client_new in
  let? subscriber := map_err show_SubscriberError (xrpl_subscriber_new "default") in
  let? _s := sigint_sigterm in
  let? _r := open_redis config in
  let! _h := setup_heartbeat "heartbeat:subscriber" false in
  let! _e := serve (RunXrplSubscriber subscriber account "events") in
  let! _c := queue_close "events" in
  finish.

(** src/xrpl/src/bin/xrpl_queued_tx_monitor.rs:15-46 main *)
Definition xrpl_queued_tx_monitor : Main :=
  let? c := start xrpl_from_str common_config in
  let config := common_config c in
  let? _p := pg_connect (postgres_url config) in
  let? _x := xrpl_client_new in
  let? _r := open_redis config in
  let! _h := setup_heartbeat "heartbeat:queued_tx_monitor" false in
  let? _s := sigint_sigterm in
  let! _e := serve RunQueuedTxMonitor in
  finish.

(** src/xrpl/src/bin/xrpl_ticket_creator.rs:13-36 main *)
Definition xrpl_ticket_creator : Main :=
  let? c := start xrpl_from_str common_config in
  let config := common_config c in
  let? _r := open_redis config in
  let! _h := setup_heartbeat "heartbeat:ticket_creator" false in
  let? _p := pg_connect (postgres_url config) in
  let? _g := gmp_api config in
  let! _e := serve RunTicketCreator in
  finish.

(** src/xrpl/src/bin/xrpl_ticket_monitor.rs:17-31 main (up to the loop, which only an error ends) *)
Definition xrpl_ticket_monitor : Main :=
  let? c := start xrpl_from_str common_config in
  let? _x := xrpl_client_new in
  let? account := ret (account_from_address (xrpl_multisig c)) in
  let? _r := open_redis (common_config c) in
  let! _h := setup_heartbeat "heartbeat:ticket_monitor" false in
  let! stop := serve (RunTicketMonitor account) in
  match stop with ByItself r => ret r | BySignal => panic "killed" end.

(** src/xrpl/src/bin/xrpl_funder.rs:12-33 main *)
Definition xrpl_funder : Main :=
  let? c := start xrpl_from_str common_config in
  let? _r := open_redis (common_config c) in
  let! _h := setup_heartbeat "heartbeat:funder" false in
  let? _x := xrpl_client_new in
  let! _e := serve RunFunder in
  finish.

(** src/xrpl/src/bin/recovery/xrpl_task_recovery.rs:42-49 main (the settings) *)
Definition recovery_of_today : RecoverySettings :=
  mkRecovery (Some "01968759-7d7f-7ccc-a5d0-d03539d725bb") "01968759-b2eb-72d3-93da-4d7384617be0" (Some [GatewayTx]).

(** src/xrpl/src/bin/recovery/xrpl_task_recovery.rs:19-75 main *)
Definition xrpl_task_recovery : Main :=
  let? c := start xrpl_from_str common_config in
  let config := common_config c in
  let! _i := queue_new (queue_address config) "includer_tasks" 1 in
  let! _j := queue_new (queue_address config) "ingestor_tasks" 1 in
  let? _d := postgres_new (postgres_url config) in
  let? _p := pg_connect (postgres_url config) in
  let? _g := gmp_api config in
  let? _r := open_redis config in
  let? distributor := map_err show_DistributorError
    (new_with_recovery_settings "task_recovery" recovery_of_today (refunds_enabled config)) in
  let? _s := sigint_sigterm in
  let! _e := serve (RunRecovery distributor "includer_tasks" "ingestor_tasks") in
  close_and_finish "includer_tasks" "ingestor_tasks".

(** src/xrpl/src/bin/recovery/xrpl_subscriber_recovery.rs:30-43 main (the transactions) *)
Definition recovered_txs : list string :=
  ["80B60B79FF9402BDFAD32AD531E7679206E67C29B8F048162F0FFBEF59814D32";
   "DA8337CA5B9506C28929642E126D1B5D80D736C2C4D9ACEE255881ABD7B4AD9B";
   "d2ab1e62b3a21b91fd96430ac96bc1546096b824055cfa2933f6dce454ba6601";
   "A8D484C434D5EC7DC829775FEA96B713A4F807BF7412343562B51598CB40DB4F";
   "5E4C0FBFBAD8D1E15CBA1598245B4EF25E531C2C74AF26A47CC373E8A1096D47";
   "3FAC94FFD3D43094216A5C20FF54AF39D7C01D1E2381C54ACB0045F6CF9EF35C";
   "F124E4FCD0ED2514A8655FCA904073590469880E0EF42C44EADEEB0814112673";
   "44F32362AE12350C2E6BF27EE251A12DAB5094F477D117C4790ADE0AD0F1966D";
   "8AB417FD03549A5FBF9880CDFEF3A99EB00ACB6EDA62B6CD9ADAECDB9E9C0F3D";
   "3BD8F2DC26A8DAB6219BD453369E7FF932E224B4405253B2FA2AF606C07C2BDE";
   "23127CDC0B46863C453D69517C11F514EC293A17DC87CC2A3D7CEEE15B8BA1E2";
   "751FE03A35711903B27C8D65C29F5E52E2993E338796A979E2960868A698A737"].

(** src/xrpl/src/bin/recovery/xrpl_subscriber_recovery.rs:14-70 main *)
Definition xrpl_subscriber_recovery : Main :=
  let? c := start xrpl_from_str common_config in
  let config := common_config c in
  let! _q := queue_new (queue_address config) "events" 1 in
  let? _d := map_err (fun e => "Failed to create PostgresDB: " +:+ e) (postgres_new (postgres_url config)) in
  let? _x := xrpl_client_new in
  let? subscriber := map_err show_SubscriberError (xrpl_subscriber_new "recovery") in
  let? _r := open_redis config in
  let! _h := setup_heartbeat "heartbeat:subscriber_recovery" false in
  let? _s := sigint_sigterm in
  let! _e := serve (RunTxRecovery subscriber recovered_txs "events") in
  let! _c := queue_close "events" in
  finish.

(** src/recovery_tools/src/bin/proof_retrier.rs:14-54 main *)
Definition proof_retrier : Main :=
  let? config := start from_str (fun c => c) in
  let! _q := open_queues config "construct_proof" "ingestor_tasks" in
  let? _d := postgres_new (postgres_url config) in
  let? _r := open_redis config in
  let? _s := sigint_sigterm in
  let! _h := setup_heartbeat "heartbeat:proof_retrier" false in
  let! _e := serve (RunProofRetrier "construct_proof" "ingestor_tasks") in
  close_and_finish "ingestor_tasks" "construct_proof".

(** src/relayer_base/src/bin/price_feed.rs:8-29 main *)
Definition price_feeder : Main :=
  let? config := start from_str (fun c => c) in
  let? _d := postgres_new (postgres_url config) in
  let? feeder := feeder_new config in
  let? _r := open_redis config in
  let! _h := setup_heartbeat "heartbeat:price_feed" false in
  let! stop := serve (RunPriceFeeder feeder) in
  match stop with
  | ByItself r => let? _u := ret r in finish
  | BySignal => panic "killed"
  end.

(** The processes that use queues. *)
Definition queue_processes : list (string * Main) :=
  [("ton_distributor", ton_distributor); ("ton_includer", ton_includer); ("ton_ingestor", ton_ingestor);
   ("ton_subscriber", ton_subscriber); ("xrpl_distributor", xrpl_distributor); ("xrpl_includer", xrpl_includer);
   ("xrpl_ingestor", xrpl_ingestor); ("xrpl_subscriber", xrpl_subscriber); ("xrpl_task_recovery", xrpl_task_recovery);
   ("xrpl_subscriber_recovery", xrpl_subscriber_recovery); ("proof_retrier", proof_retrier)].
End mains.

(** ** What a process leaves behind *)

(** What the statements observe of a process. *)
Inductive Boot `{!TonLib, !XrplLib, !XrplApi} : Type :=
| Opened (queue : string)
| Served (app : App)
| Closed (queue : string).

Section observed.
Context {L : TonLib} {XL : XrplLib} {XA : XrplApi} {W : Type}.
Variable log : W -> list Boot.

(** A computation that, if it does not panic, adds these to the log. *)
Definition emits {A} (evs : list Boot) (m : M W A) : Prop :=
  forall w a w', m w = (Done a, w') -> log w' = log w ++ evs.

Definition adds {A} (m : M W A) (Q : A -> list Boot -> Prop) : Prop :=
  forall w a w', m w = (Done a, w') -> exists evs, log w' = log w ++ evs /\ Q a evs.

Lemma adds_emits {A} (m : M W A) evs (Q : A -> list Boot -> Prop) :
  emits evs m -> (forall a, Q a evs) -> adds m Q.
Proof. intros Hm HQ w a w' E. exists evs. by rewrite (Hm w a w' E). Qed.

Lemma adds_ret {A} (a : A) (Q : A -> list Boot -> Prop) : Q a [] -> adds (ret a) Q.
Proof. intros HQ w b w' [= <- <-]. exists []. by rewrite app_nil_r. Qed.

Lemma adds_panic {A} why (Q : A -> list Boot -> Prop) : adds (panic why) Q.
Proof. done. Qed.

Lemma adds_bind {A B} (m : M W A) (k : A -> M W B) Q :
  adds m (fun a e1 => adds (k a) (fun b e2 => Q b (e1 ++ e2))) -> adds (bind m k) Q.
Proof.
  intros Hm w b w'. rewrite bind_run. destruct (m w) as [[a|why] w1] eqn:E; [|done]. intros Ek.
  destruct (Hm w a w1 E) as (e1 & L1 & Hk). destruct (Hk w1 b w' Ek) as (e2 & L2 & HQ).
  exists (e1 ++ e2). by rewrite L2, L1, app_assoc.
Qed.

Lemma adds_bind_ok {A B E} (m : M W (result A E)) (k : A -> M W (result B E)) Q :
  adds m (fun r e1 => match r with
    | Ok a => adds (k a) (fun b e2 => Q b (e1 ++ e2))
    | Err e => Q (Err e) e1
    end) -> adds (bind_ok m k) Q.
Proof.
  intros Hm. apply adds_bind. intros w r w' E1. destruct (Hm w r w' E1) as (e1 & L1 & H). exists e1. split; [done|].
  destruct r as [a|e]; [exact H|]. apply adds_ret. by rewrite app_nil_r.
Qed.

Lemma adds_map_err {A E F} (f : E -> F) (m : M W (result A E)) Q :
  adds m (fun r e => Q (rmap_err f r) e) -> adds (map_err f m) Q.
Proof.
  intros Hm w r w'. rewrite map_err_run. destruct (m w) as [[r0|why] w1] eqn:E1; [|done]. intros [= <- <-].
  by apply (Hm w r0).
Qed.

Lemma emits_bind {A B} (m : M W A) (k : A -> M W B) : emits [] m -> (forall a, emits [] (k a)) -> emits [] (bind m k).
Proof.
  intros Hm Hk w b w'. rewrite bind_run. destruct (m w) as [[a|why] w1] eqn:E; [|done]. intros Ek.
  by rewrite (Hk a w1 b w' Ek), (Hm w a w1 E), !app_nil_r.
Qed.

Lemma emits_bind_ok {A B E} (m : M W (result A E)) (k : A -> M W (result B E)) :
  emits [] m -> (forall a, emits [] (k a)) -> emits [] (bind_ok m k).
Proof. intros Hm Hk. apply emits_bind; [done|]. intros [a|e]; [apply Hk|]. intros w r w' [= <- <-]. by rewrite app_nil_r. Qed.

Lemma emits_ret {A} (a : A) : emits [] (ret a).
Proof. intros w r w' [= <- <-]. by rewrite app_nil_r. Qed.

Lemma emits_panic {A} why : emits [] (@panic W A why).
Proof. done. Qed.

Lemma emits_map_err {A E F} (f : E -> F) (m : M W (result A E)) : emits [] m -> emits [] (map_err f m).
Proof. intros Hm. apply emits_bind; [done|]. intros r. apply emits_ret. Qed.

Lemma emits_run_outcome {A} (o : outcome A) : emits [] (run_outcome o).
Proof. intros w a w' [= -> <-]. by rewrite app_nil_r. Qed.
End observed.

(** What a machine does with its queues, and that nothing else shows. *)
Class HostLaws `{!TonLib, !XrplLib, !XrplApi} {W} `{!Host W} (log : W -> list Boot) : Prop := {
  queue_new_log : forall a q n, emits log [Opened q] (queue_new a q n);
  queue_close_log : forall q, emits log [Closed q] (queue_close q);
  serve_log : forall app, emits log [Served app] (serve app);
  env_var_log : forall v, emits log [] (env_var v);
  read_file_log : forall p, emits log [] (read_file p);
  sentry_init_log : forall d e, emits log [] (sentry_init d e);
  propagator_log : emits log [] set_text_map_propagator;
  current_exe_log : emits log [] current_exe;
  span_exporter_log : forall u, emits log [] (span_exporter u);
  registry_init_log : forall l, emits log [] (registry_init l);
  force_flush_log : emits log [] force_flush;
  redis_open_log : forall u, emits log [] (redis_open u);
  connection_manager_log : emits log [] connection_manager;
  pg_connect_log : forall u, emits log [] (pg_connect u);
  http_client_log : emits log [] http_client;
  signals_log : emits log [] signals;
  setup_heartbeat_log : forall k c, emits log [] (setup_heartbeat k c);
  cancel_log : emits log [] cancel;
  await_handle_log : emits log [] await_handle;
}.
Class CursorLaws `{!TonLib, !XrplLib, !XrplApi} {W} `{!CrossChain, !DecimalLib, !Database W} (log : W -> list Boot) : Prop := {
  get_latest_height_log : forall c x, emits log [] (get_latest_height c x);
  get_latest_task_id_log : forall c x, emits log [] (get_latest_task_id c x);
  store_latest_task_id_log : forall c x i, emits log [] (store_latest_task_id c x i);
}.
Create HintDb boot.
#[export] Hint Resolve emits_bind emits_bind_ok emits_ret emits_panic emits_map_err emits_run_outcome env_var_log
  read_file_log sentry_init_log propagator_log current_exe_log span_exporter_log registry_init_log force_flush_log redis_open_log connection_manager_log pg_connect_log http_client_log
  signals_log setup_heartbeat_log cancel_log await_handle_log get_latest_height_log get_latest_task_id_log
  store_latest_task_id_log : boot.
#[export] Hint Extern 5 (emits _ _ (match ?x with _ => _ end)) => destruct x : boot.

Section closing.
Context {L : TonLib} {C : Codecs} {XL : XrplLib} {XA : XrplApi} {CC : CrossChain} {DL : DecimalLib} {CG : CoinGeckoLib}
  {XM : XrplMessages} {W : Type} {H : Host W} {PA : Paths} {API : GmpApiTrait W} {DB : Database W} {G : CoinGecko W}
  {log : W -> list Boot} {HL : HostLaws log} {CL : CursorLaws log}.
Variable Identity : Type.
Variable from_pkcs8_pem : string -> string -> result Identity string.
Variable ton_from_str : string -> result TONConfig string.
Variable xrpl_from_str : string -> result XRPLConfig string.
Variable from_str : string -> result Config string.
Abbreviation processes := (queue_processes Identity from_pkcs8_pem ton_from_str xrpl_from_str from_str (W := W)).

(** The queues a process works with. *)
Definition uses (app : App) : list string :=
  match app with
  | RunDistributor _ a b | RunRecovery _ a b | RunIncluder _ a b | RunIngestor _ a b | RunProofRetrier a b => [a; b]
  | RunTonSubscribers _ _ a | RunXrplSubscriber _ _ a | RunTxRecovery _ _ a => [a]
  | _ => []
  end.

(** The queues are opened, the process runs on them, all are closed. *)
Definition orderly (evs : list Boot) : Prop :=
  exists opened app closed, evs = map Opened opened ++ [Served app] ++ map Closed closed /\
    uses app ≡ₚ opened /\ closed ≡ₚ opened.

Lemma setup_logging_log c : emits log [] (setup_logging c).
Proof.
  unfold setup_logging. repeat (apply emits_bind; [auto with boot|intros ?]). apply emits_ret.
Qed.
#[local] Hint Resolve setup_logging_log : boot.
Lemma start_log {T} (parse : string -> result T string) common : emits log [] (start parse common).
Proof. unfold start, config_from_yaml, project_root. auto 12 with boot. Qed.
Lemma gmp_api_log config : emits log [] (construct_gmp_api Identity from_pkcs8_pem config).
Proof. unfold construct_gmp_api, gmp_api_new, identity_from_config, project_root. auto 15 with boot. Qed.
Lemma open_redis_log config : emits log [] (open_redis config).
Proof. unfold open_redis. auto with boot. Qed.
Lemma sigint_sigterm_log : emits log [] sigint_sigterm.
Proof. unfold sigint_sigterm. auto with boot. Qed.
Lemma finish_log : emits log [] finish.
Proof. unfold finish. auto with boot. Qed.
Lemma distributor_log x r : emits log [] (distributor_new x r).
Proof. unfold distributor_new. auto with boot. Qed.
Lemma recovery_log x s r : emits log [] (new_with_recovery_settings x s r).
Proof. unfold new_with_recovery_settings, distributor_new, store_last_task_id. auto 12 with boot. Qed.
Lemma ton_includer_log c : emits log [] (ton_includer_new c).
Proof. unfold ton_includer_new, rpc_client_new. auto 12 with boot. Qed.
Lemma ton_subscribers_log accounts n : emits log [] (ton_subscribers accounts n).
Proof. induction accounts; cbn [ton_subscribers]; unfold ton_subscriber_new; auto 12 with boot. Qed.
Lemma xrpl_subscriber_log x : emits log [] (xrpl_subscriber_new x).
Proof. unfold xrpl_subscriber_new. auto with boot. Qed.
#[local] Hint Resolve start_log gmp_api_log open_redis_log sigint_sigterm_log finish_log distributor_log recovery_log
  ton_includer_log ton_subscribers_log xrpl_subscriber_log queue_new_log queue_close_log serve_log : boot.

(** Through the text of a process, call after call. *)
Ltac quiet_call := eapply adds_emits; [solve [eauto with boot nocore]|intros ?].
Ltac boots := repeat first
  [ apply adds_panic | apply adds_ret | quiet_call | apply adds_bind_ok | apply adds_bind | apply adds_map_err
  | match goal with
    | |- adds _ (match ?x with _ => _ end) _ => destruct x
    | |- match ?x with _ => _ end => destruct x
    end ].

(** What a process emits when it returns [Ok]. *)
Definition ends_orderly (main : M W (result unit string)) : Prop :=
  adds log main (fun r evs => r = Ok tt -> orderly evs).

Ltac in_order :=
  intros _; cbn [app];
  match goal with
  | |- orderly [Opened ?a; Opened ?b; Served ?x; Closed ?c; Closed ?d] => exists [a; b], x, [c; d]
  | |- orderly [Opened ?a; Served ?x; Closed ?b] => exists [a], x, [b]
  end; split; [reflexivity|split; first [reflexivity | apply Permutation_swap]].
Ltac main_text := unfold ends_orderly, open_queues, run_includer, run_ingestor, close_and_finish; boots;
  first [discriminate | done | in_order].

Lemma distributors_orderly :
  ends_orderly (ton_distributor Identity from_pkcs8_pem ton_from_str) /\
  ends_orderly (xrpl_distributor Identity from_pkcs8_pem xrpl_from_str) /\
  ends_orderly (xrpl_task_recovery Identity from_pkcs8_pem xrpl_from_str).
Proof. split; [|split]; unfold ton_distributor, xrpl_distributor, xrpl_task_recovery, postgres_new; main_text. Qed.

Lemma includers_orderly :
  ends_orderly (ton_includer Identity from_pkcs8_pem ton_from_str) /\
  ends_orderly (xrpl_includer Identity from_pkcs8_pem xrpl_from_str).
Proof. split; unfold ton_includer, xrpl_includer, postgres_new, xrpl_client_new; main_text. Qed.

Lemma ingestors_orderly :
  ends_orderly (ton_ingestor Identity from_pkcs8_pem ton_from_str) /\
  ends_orderly (xrpl_ingestor Identity from_pkcs8_pem xrpl_from_str).
Proof. split; unfold ton_ingestor, xrpl_ingestor, postgres_new; main_text. Qed.

Lemma subscribers_orderly :
  ends_orderly (ton_subscriber ton_from_str) /\ ends_orderly (xrpl_subscriber xrpl_from_str) /\
  ends_orderly (xrpl_subscriber_recovery xrpl_from_str) /\ ends_orderly (proof_retrier from_str).
Proof.
  split_and!; unfold ton_subscriber, xrpl_subscriber, xrpl_subscriber_recovery, proof_retrier, postgres_new,
    xrpl_client_new, rpc_client_new; main_text.
Qed.

(** C20: a process that ends well has closed what it opened.  Whatever the
    configuration, the files, the servers and the databases answer, a process
    that returns [Ok] opened its queues before it ran, ran once on exactly
    those queues, and closed each of them once afterwards, so nothing it
    published is left in a buffer that nobody empties. *)
Theorem queues_closed (name : string) (main : M W (result unit string)) (w w' : W) :
  (name, main) ∈ processes -> main w = (Done (Ok tt), w') ->
  exists opened app closed, log w' = log w ++ map Opened opened ++ [Served app] ++ map Closed closed /\
    uses app ≡ₚ opened /\ closed ≡ₚ opened.
Proof.
  intros Hin Hrun. assert (Ho : ends_orderly main).
  { destruct distributors_orderly as (? & ? & ?), includers_orderly, ingestors_orderly, subscribers_orderly as (? & ? & ? & ?).
    unfold queue_processes in Hin. rewrite !elem_of_cons in Hin. rewrite elem_of_nil in Hin.
    repeat (destruct Hin as [[= _ ->]|Hin]; [done|]). done. }
  destruct (Ho w (Ok tt) w' Hrun) as (evs & Hl & Hev). destruct (Hev eq_refl) as (opened & app & closed & -> & Hu & Hc).
  by exists opened, app, closed.
Qed.
End closing.

(** ** A concrete machine *)

Module MachineDemo.
Export XrplDemo.
#[export] Existing Instances DbDemo.cross_chain DbDemo.decimals.
#[export] Existing Instance GmpAudit.AuditDemo.messages.
#[export] Instance ton : TonLib := text_ton.
#[export] Instance paths : Paths := {| CARGO_MANIFEST_DIR := "/build" |}.
Abbreviation Machine := (list Boot).
Definition ok {A} (a : A) : M Machine (result A string) := ret (Ok a).
Definition note (e : Boot) : M Machine unit := modify (fun l => l ++ [e]).
#[export] Instance host : Host Machine := {|
  env_var := fun v => ret (if decide (v = "NETWORK") then Some "testnet" else None);
  read_file := fun p => ret (if decide (p = "/build/./config/config.testnet.yaml") then Ok "yaml"
    else if decide (p = "/build/") then Ok "pem" else Err p);
  sentry_init := fun _ _ => ret tt; set_text_map_propagator := ret tt; current_exe := ok "/usr/bin/relayer";
  span_exporter := fun _ => ok tt; registry_init := fun _ => ret tt; force_flush := ok tt;
  queue_new := fun _ q _ => note (Opened q); queue_close := fun q => note (Closed q);
  redis_open := fun _ => ok tt; connection_manager := ok tt; pg_connect := fun _ => ok tt; http_client := ok tt;
  signals := ok tt; setup_heartbeat := fun _ _ => ret tt;
  serve := fun app => let! _n := note (Served app) in ret BySignal;
  cancel := ret tt; await_handle := ret tt;
|}.
#[export] Instance database : Database Machine := {|
  store_latest_height := fun _ _ _ => ok tt; get_latest_height := fun _ _ => ok None;
  store_latest_task_id := fun _ _ _ => ok tt; get_latest_task_id := fun _ _ => ok (Some "7");
  db_store_payload := fun _ _ => ok tt; db_get_payload := fun _ => ok None; db_clear_payload := fun _ => ok tt;
  db_get_price := fun _ => ok None; store_price := fun _ _ => ok tt;
|}.
Definition mute {A} : M Machine (result A GmpApiError) := ret (Err (GmpTimeout "late")).
#[export] Instance api : GmpApiTrait Machine := {|
  get_chain := "xrpl"; get_tasks_action := fun _ => mute; post_events := fun _ => mute; post_broadcast := fun _ _ => mute;
  get_broadcast_result := fun _ _ => mute; post_query := fun _ _ => mute; post_payload := fun _ => mute;
  get_payload := fun _ => mute; cannot_execute_message := fun _ _ _ _ _ => mute; its_interchain_transfer := fun _ => mute;
  map_cannot_execute_message_to_event := fun _ _ _ _ _ => Panic "none";
|}.
Definition id (l : Machine) : Machine := l.

#[export] Instance host_laws : HostLaws id.
Proof.
  assert (Hr : forall A (a : A), emits id [] (ret a)) by (intros; apply emits_ret).
  assert (Hn : forall e, emits id [e] (note e)) by (by intros e w [] w' [= <-]).
  split; intros; try apply Hr; try apply Hn. intros w s w' [= _ <-]. done.
Qed.
#[export] Instance cursor_laws : CursorLaws id.
Proof. split; intros; apply emits_ret. Qed.

Definition no_toml {T} (_ : string) : result T string := Err "not here".
Definition distributor_main : M Machine (result unit string) :=
  xrpl_distributor unit (fun _ _ => Ok tt) (fun _ => Ok demo_config).
Definition after : Machine := snd (distributor_main []).
End MachineDemo.
Import MachineDemo.

Lemma queues_closed_witness :
  exists opened app closed, after = [] ++ map Opened opened ++ [Served app] ++ map Closed closed /\
    uses app ≡ₚ opened /\ closed ≡ₚ opened.
Proof.
  apply (queues_closed (C := text_codecs) (log := MachineDemo.id) unit (fun _ _ => Ok tt) no_toml (fun _ => Ok demo_config) no_toml
    "xrpl_distributor" distributor_main [] after).
  - unfold queue_processes. rewrite !elem_of_cons. unfold distributor_main. tauto.
  - vm_compute. reflexivity.
Defined.
