(* ===== verification/System.v ===== *)
(** * The processes of a chain together

    Which queue carries which tasks to which handler: the distributors of
    [ton_distributor.rs] and [xrpl_distributor.rs], and the workers at the
    other end of their queues. *)

From S2P Require Import Prelude.
From S2P Require Import Store.
From S2P Require Import GmpTypes.
From S2P Require Import Text.
From S2P Require Import GmpApi.
From S2P Require Import GmpAudit.
From S2P Require Import Decimal.
From S2P Require Import Database.
From S2P Require Import Redis.
From S2P Require Import Logging.
From S2P Require Import Queue.
From S2P Require Import TonLib.
From S2P Require Import WalletManager.
From S2P Require Import Distributor.
From S2P Require Import Includer.
From S2P Require Import TonParsers.
From S2P Require Import TonTrace.
From S2P Require Import TraceParser.
From S2P Require Import Subscriber.
From S2P Require Import Ingestor.
From S2P Require Import Config.
From S2P Require Import PriceFeed.
From S2P Require Import Xrpl.
From S2P Require Import XrplMessages.
From S2P Require Import XrplTransactions.
From S2P Require Import XrplIngestor.
From S2P Require Import Processes.

Section routes.
Context {XM : XrplMessages} {W0 : Type} {API0 : GmpApiTrait W0} {CC : CrossChain} {DL : DecimalLib} {DB0 : Database W0}.

(** The distributors the two processes run. *)
Definition distributor_of (chain : Chain) (refunds : bool) : M W0 Distributor :=
  let! d := distributor_new "default" refunds in
  ret (match chain with TON => set_supported_includer_tasks [Refund; Execute; GatewayTx] d | XRPL => d end).

(** What a distributor does with each kind of task. *)
Lemma routing chain refunds d (w w' : W0) (t : Task) :
  distributor_of chain refunds w = (Done d, w') ->
  queue_of d None t =
    match GmpTypes.kind t, chain with
    | GatewayTx, _ | Execute, TON => Some INCLUDER
    | Refund, _ => if refunds then Some INCLUDER else None
    | Execute, XRPL | Unknown, _ => None
    | _, _ => Some INGESTOR
    end.
Proof.
  unfold distributor_of, distributor_new. rewrite bind_run, bind_run.
  destruct (get_latest_task_id _ _ w) as [[[last|e]|why] w1]; [|done|done]. cbn [ret]. intros [= <- _].
  unfold queue_of. by destruct t, chain, refunds.
Qed.

(** The workers at the other end: the includer's, and the ingestor's of the
    chain. *)
Section workers.
Context {CT W : Type} {API : GmpApiTrait W} {PCT : PayloadCacheTrait W} {QA : QueueApi CT W} {BC : Broadcaster W}
  {RM : RefundManager W} {RC : RedisCounters W} {CO : Codecs} {IC : ItemCodec CT} {XL : XrplLib} {TL : TonLib}.

(** The handler of the includer for a task it knows. *)
Definition includer_handler (t : Task) : option (M W (result unit IncluderError)) :=
  match t with
  | TExecute t => Some (consume_execute t)
  | TGatewayTx t => Some (consume_gateway_tx (CT := CT) t)
  | TRefund t => Some (consume_refund t)
  | _ => None
  end.

(** The handler of an ingestor for a task it knows. *)
Definition ingestor_handler (IN : IngestorTrait W) (t : Task) : option (M W (result unit IngestorError)) :=
  match t with
  | TVerify t => Some (handle_verify t)
  | TReactToWasmEvent t => Some (handle_wasm_event t)
  | TConstructProof t => Some (handle_construct_proof t)
  | TReactToRetriablePoll t => Some (handle_retriable_task (RetryPoll t))
  | TReactToExpiredSigningSession t => Some (handle_retriable_task (RetrySession t))
  | _ => None
  end.

(** C19: the two ends of every queue agree.  On either chain, a task that the
    distributor puts on the includer's queue is one the includer has a handler
    for, and a task it puts on the ingestor's queue one the ingestor has a
    handler for; so no delivery of a distributed task is given back as
    irrelevant by the worker's dispatch.  The tasks on neither queue are those
    of an unknown type, executions on XRPL, and refunds when they are
    disabled. *)
Theorem routes_understood (chain : Chain) (refunds : bool) (d : Distributor) (w w' : W0) (IN : IngestorTrait W) (t : Task) :
  distributor_of chain refunds w = (Done d, w') ->
  match queue_of d None t with
  | Some queue =>
      (queue = INCLUDER /\ includer_handler t = Some (consume (CT := CT) (QTask t))) \/
      (queue = INGESTOR /\ ingestor_handler IN t = Some (consume_task t))
  | None => GmpTypes.kind t = Unknown \/ (GmpTypes.kind t = Execute /\ chain = XRPL) \/ (GmpTypes.kind t = Refund /\ refunds = false)
  end.
Proof. intros Hd. rewrite (routing _ _ _ _ _ t Hd). destruct t, chain, refunds; cbn; auto. Qed.
End workers.

(** ** The TON ingestor *)

Section ton.
Context {W : Type} {XL : XrplLib} {TL : TonLib} {IC : ItemCodec ChainTransaction} {AM : Amqp W} {AL : AmqpLaws W}
  {P : Propagator}.
Abbreviation Q := (Queue ChainTransaction W).
Context {API : GmpApiTrait Q} {LC : LoggingCtxCache Q} {TP : TraceParserTrait Q} {UE : UpdateEvents Q}.
Variable debug_transaction : ChainTransaction -> string.
Variable current_span : Ctx.
Variable list_ids : gset string -> list string.
Variable name : string.
Local Instance ton_handlers : IngestorTrait Q := TONIngestor debug_transaction.
Abbreviation on_delivery := (ingestor_on_delivery (QA := this_queue name) (AM := this_broker) current_span list_ids name).

Lemma ton_refuses (t : Task) (m : M Q (result unit IngestorError)) (q : Q) :
  ingestor_handler ton_handlers t = Some m -> m q = (Done (Err (IngGenericError "Still not implemented")), q).
Proof. by destruct t; intros [= <-]. Qed.

(** C40: the tasks of TON's ingestor go round for ever.  The TON ingestor has
    none of the five handlers of tasks implemented, but its distributor sends
    it those tasks.  Each delivery of one fails; it is acknowledged only for a
    copy in the retry queue, which counts no retries, whatever the delivery
    counted; it never reaches the dead-letter queue. *)
Theorem ton_tasks_circulate (t : Task) (refunds : bool) (d : Distributor) (w w' : W0) (del : Delivery) (q : Q) :
  distributor_of TON refunds w = (Done d, w') -> queue_of d None t = Some INGESTOR ->
  from_slice (data del) = Ok (QTask t) -> retry_count (properties del) <= MAX_RETRIES ->
  exists q', on_delivery del q = (Done tt, q') /\ buffer q' = buffer q /\
    (acked (broker q') = acked (broker q) \/
     acked (broker q') = acked (broker q) ++ [delivery_tag del] /\
     exists b p, to_vec (CT := ChainTransaction) (QTask t) = Ok b /\
       published (broker q') = published (broker q) ++ [mkMsg (retry_queue_name name) b p]) /\
    (forall m, m ∈ published (broker q') -> m ∈ published (broker q) \/ retry_count (message_properties m) = 0) /\
    (forall tag, (tag, false) ∈ nacked (broker q') -> (tag, false) ∈ nacked (broker q)).
Proof.
  intros Hd Hq Hb Hc. rewrite (routing _ _ _ _ _ t Hd) in Hq.
  assert (Hm : exists m, ingestor_handler ton_handlers t = Some m /\ consume_task t = m).
  { destruct t, refunds; simplify_eq/=; by eexists. }
  destruct Hm as (m & Hm & Hct).
  destruct (republish_run name del (QTask t) q Hb) as (r & q' & E & Hbuf & Hack & _).
  destruct (retry_count_lost name del q (QTask t) Hb Hc) as (r2 & q2 & E2 & Hp & Hn). rewrite E in E2. injection E2 as <- <-.
  exists q'. split; [|done]. unfold ingestor_on_delivery, Includer.on_delivery. rewrite bind_run.
  unfold ingestor_process_delivery. rewrite bind_ok_run, Hb. cbn [rmap_err ret ingest].
  rewrite Hct, (ton_refuses t m q Hm). unfold settle. rewrite bind_run. cbn [queue_republish this_queue ingestor_irrelevant]. by rewrite E.
Qed.
End ton.
End routes.

(** ** Concrete runs *)

Module SystemDemo.
Export MachineDemo.
#[export] Existing Instances IncluderDemo.broadcaster IncluderDemo.refunds.
#[export] Existing Instance IncluderDemo.chain_api.
#[export] Existing Instance QueueDemo.propagator.
#[export] Instance codecs : Codecs := text_codecs.
#[export] Instance cache : PayloadCacheTrait nat := {|
  cache_get := fun _ => ret (Ok None); cache_store := fun _ _ => ret (Ok tt); cache_clear := fun _ => ret (Ok tt);
|}.
#[export] Instance queues : QueueApi ChainTransaction nat := {|
  queue_publish := fun _ _ => ret tt; queue_republish := fun _ _ _ => ret (Ok tt);
|}.
#[export] Instance counters : RedisCounters nat := {|
  incr := fun _ => ret (Ok 1); expire := fun _ _ => ret (Ok tt); get_counter := fun _ => ret (Ok None);
|}.
Definition verify : Task := DistributorDemo.a_task "1" "VERIFY".
#[export] Instance items : ItemCodec ChainTransaction := {|
  to_vec := fun i => match i with QTask t => Ok (task_id t) | _ => Err "not encodable" end;
  from_slice := fun _ => Ok (QTask verify);
|}.
#[export] Instance worker : IngestorTrait nat := {|
  handle_verify := fun _ => ret (Ok tt); handle_transaction := fun _ => ret (Ok []);
  handle_wasm_event := fun _ => ret (Ok tt); handle_construct_proof := fun _ => ret (Ok tt);
  handle_retriable_task := fun _ => ret (Ok tt);
|}.
Definition ton_distributor_run : Distributor :=
  mkDistributor (Some "7") "default" None true [Refund; Execute; GatewayTx]
    [Verify; ConstructProof; ReactToWasmEvent; ReactToRetriablePoll; ReactToExpiredSigningSession].
Abbreviation Q := (Queue ChainTransaction MemBroker).
#[export] Instance no_logging : LoggingCtxCache Q := {| get_or_insert := fun _ _ => ret None |}.
#[export] Instance no_traces : TraceParserTrait Q := {| parse_trace := fun _ => ret (Ok []) |}.
#[export] Instance no_updates : UpdateEvents Q := {| update_events := fun _ _ => ret (Ok tt) |}.
#[export] Instance q_api : GmpApiTrait Q := {|
  get_chain := "ton"; get_tasks_action := fun _ => ret (Ok []); post_events := fun _ => ret (Ok []);
  post_broadcast := fun _ _ => ret (Ok "h"); get_broadcast_result := fun _ _ => ret (Ok "h");
  post_query := fun _ _ => ret (Ok "q"); post_payload := fun _ => ret (Ok "p"); get_payload := fun _ => ret (Ok "p");
  cannot_execute_message := fun _ _ _ _ _ => ret (Ok tt); its_interchain_transfer := fun _ => ret (Ok tt);
  map_cannot_execute_message_to_event := fun _ _ _ _ _ => Panic "none";
|}.
Definition queue0 : Q := mkQueue (QueueDemo.idle []) [] true false.
End SystemDemo.
Import SystemDemo.

Lemma routes_understood_witness :
  queue_of ton_distributor_run None verify = Some INGESTOR /\
  (INGESTOR = INCLUDER /\ includer_handler (CT := ChainTransaction) (W := nat) verify = Some (consume (CT := ChainTransaction) (QTask verify)) \/
   INGESTOR = INGESTOR /\ ingestor_handler worker verify = Some (consume_task verify)).
Proof.
  split; [vm_compute; reflexivity|].
  apply (routes_understood (W0 := Machine) TON true ton_distributor_run [] [] worker verify). vm_compute. reflexivity.
Defined.

Lemma ton_tasks_circulate_witness :
  exists q', ingestor_on_delivery (W := Q) (IN := ton_handlers (fun _ => "")) (QA := this_queue "q") (AM := this_broker) ∅ elements "q"
      (QueueDemo.delivery 0) queue0 = (Done tt, q') /\
    retry_count (message_properties (default (mkMsg "" "" (mkProperties None None)) (head (published (broker q'))))) = 0.
Proof.
  destruct (ton_tasks_circulate (W0 := Machine) (fun _ => "") ∅ elements "q" verify true ton_distributor_run [] []
    (QueueDemo.delivery 0) queue0) as (q' & E & _ & _ & Hp & _); [vm_compute; reflexivity..|vm_compute; discriminate|].
  exists q'. split; [exact E|]. destruct (published (broker q')) as [|m l] eqn:El; [reflexivity|].
  destruct (Hp m ltac:(by left)) as [[]%elem_of_nil|H]. exact H.
Defined.
